(* ===== verification/_CoqProject ===== *)
-Q . S2P
Prelude.v
GoStrings.v
GoUtf8.v
GoJson.v
GoCodec.v
GoBase64.v
GoPath.v
GoOs.v
GoWalk.v
GoUrl.v
Archive.v
Common.v
Messages.v
Http.v
HepcServe.v
Queue.v
QueueRabbit.v
QueueRabbitProps.v
ArtifactStore.v
StoreMinIO.v
State.v
StateLocal.v
StatePostgres.v
PostgresSetup.v
StateRefine.v
QldbStore.v
QldbLocal.v
Hepc.v
Deploy.v
Server.v
ServerSpec.v
ServerProps.v
ServerMinIO.v
Agent.v
Pool.v
EndToEnd.v
Codeql.v
CodeqlProps.v
System.v
Progress.v
Examples.v
EndToEndExamples.v
SystemExamples.v
CodeqlExamples.v
MinIOExamples.v
RabbitExamples.v
StartupExamples.v
