(* ===== verification/Prelude.v ===== *)
(** * mrvacommander: a verification development

    mrvacommander runs CodeQL queries over many repositories.  A client submits a
    query pack and a list of repositories to the server; the server opens a
    session, saves the pack in the artifact store, asks the database store which
    repositories have a CodeQL database, and sends one job per repository to the
    queue.  Agents take jobs from the queue, run the analysis, save its archive
    in the artifact store and send a result; a goroutine of the server moves
    results into the server state.  The client asks for the status of its
    session and downloads the results.

    ** Files, and the code they model

    The language and its standard library:
    - [Prelude]: errors, panics, the state monad [GM] the Go code is translated
      into ([let! x := m in k] runs [m] and binds its value; a panic stops it and
      keeps the mutations made so far), loops, [zoom], the tactics [go_step],
      [go_total] and [go_keeps], the hint database [mrva].
    - [GoStrings], [GoUtf8], [GoBase64], [GoJson], [GoCodec]: byte strings,
      [strconv], the UTF-8 decoder, [encoding/base64], [encoding/json] (printing
      with HTML escaping, parsing with its depth limit, decoding into structs
      with case-folded names, unknown and repeated members).
    - [GoPath], [GoOs], [GoWalk]: [path/filepath], and a file system with a
      schedule of faults: every call may fail, and a write may fail half way;
      [filepath.Walk].
    - [GoUrl]: [net/url], as far as the host of an endpoint needs it.
    - [Http]: requests and [http.ResponseWriter].

    The program:
    - [Archive]: [utils/archive.go], [utils/download.go].
    - [Common], [Messages]: [pkg/common] and the messages of [pkg/queue/types.go]:
      the structs with their JSON, the download tokens of [jobspec.go].
    - [Queue]: [pkg/queue/queue_single.go], buffered channels.  [QueueRabbit]:
      [pkg/queue/queue_rabbitmq.go], the consumers turn by turn and the
      publishers, over a client ([Amqp]); [QueueRabbitProps] has the laws of a
      working broker and the theorems.
    - [ArtifactStore]: [pkg/artifactstore], the interface as the class [Store]
      with the laws [StoreLaws], and the in-memory store (Module [Memory]).
      [StoreMinIO]: [store_minio.go] (Module [MinIO]) and [pkg/common/minio.go],
      over a client ([ObjectClient]) with its laws.
    - [State]: [pkg/state/interfaces.go] as the classes [SessionState] and
      [ServerState], with an abstract state [View] and the specification classes
      [SessionStateSpec] and [ServerStateSpec] over it.  [StateLocal] (Module
      [Local], [state_local.go]) and [StatePostgres] (Module [Postgres],
      [state_postgres.go]) implement them; [PostgresSetup] is the way from the
      environment to the tables of the latter.  [StateRefine] states the refinement
      for sequences of calls, and where the two implementations differ.
    - [QldbStore], [QldbLocal], [Hepc]: [pkg/qldbstore], the class [QldbStore]
      with its law, databases in a directory, and the HEPC store with its cache.
    - [Server]: [pkg/server/server.go], every handler as a computation on a
      [World] (the three stores, the jobs sent, the response), written against
      the interfaces.  [ServerSpec] and [ServerProps] prove what the handlers do
      from the specifications of the stores, for any implementation;
      [ServerMinIO] what is particular to the MinIO store.
    - [Agent]: [pkg/agent/agent.go], one analysis and the loop of a worker.
      [Pool]: [StartAndMonitorWorkers] with the selects of [RunWorker] as a step
      relation, from the start of the workers to their end.
    - [EndToEnd]: a session from its submission to its archives, the server, a
      worker and the loop of [ConsumeResults] one after the other.
    - [Deploy]: [pkg/deploy/init.go], the components from the environment.
    - [HepcServe]: [client/qldbtools/bin/hepc-serve.go], a file server.
    - [Codeql]: [pkg/codeql/codeql.go], the queries run on one database, with the
      [codeql] program as a parameter; [CodeqlProps] proves what a run leaves.
    - [System]: submissions, workers and the results consumer as a step relation
      over one state and one queue; [Progress]: termination, absence of deadlock,
      and what has been recorded when the system is at rest.
    - [Examples], [EndToEndExamples], [SystemExamples], [CodeqlExamples],
      [MinIOExamples], [RabbitExamples], [StartupExamples]: concrete systems on
      which the theorems are applied.

    A Go method of a stateful object is a [GM] function on the record of its
    fields; an error result is a component of the value ([gores]); [panic] and
    run-time errors are [Panic].  [int] is [Z] with the wrap-around written out
    where it can happen ([wrap_int]: session counters, durations, parsed
    numbers; 32-bit columns and serials of the database).  A Go map is a [gmap]; the code's results do not
    depend on the order of iteration, and the theorems that need it say so.
    A mutex held for a whole method makes the method one step.

    ** What the theorems show

    The claims are numbered C1, C2, ... in order of importance.
    - Server (C1, C2, C9, C22-C27): what a submission, a status request and a
      download do to the abstract state, the queue and the response, errors and
      panics included; the URL of a download serves the bytes of the result; a
      result too large to have a size.
    - The whole (C3): what one component leaves is what the next one needs, from
      the request to the archive in the hands of the client.
    - State (C6, C7, C8, C21, C39, C40): each implementation refines an abstract
      machine for all its methods, errors included, and they agree with each other
      but for the numbers of repositories ([StateRefine.repository_numbers_differ])
      and sessions without jobs ([StateRefine.session_without_jobs_differs]), which
      the contract leaves out; the tables of the database are set up, or the
      process ends; dropped connections and used-up serials.
    - Concurrency (C4, C5, C11-C15): whatever the interleaving the system comes
      to rest and loses or repeats no work; a settled status is final; but the
      order of the calls in [startAnalyses] can leave a finished job pending, and
      a job that failed never ends ([System.failures_are_never_reported]).  A pool
      of workers that is cancelled comes to its end.
    - Agent (C16, C17), tokens (C28): the outcome of an analysis, round trips.
    - Queue (C19, C20): delivery through a working broker, and what a dead channel
      leads to ([Queue.channel_is_fifo] for the queue in one process).
    - CodeQL (C18, C37, C38): the archive of an analysis holds the document whose
      results are counted; the search for the database; the provenance that is
      never added.
    - Archives (C10, C29, C30): containment, the exact meaning of the check for
      every destination, the files left.
    - HEPC (C31-C33, C36): cache, lookup, download, the configured duration; what
      the file server in its place gives out.
    - Startup (C34, C35): the ports and the way of addressing buckets that cannot
      be configured; the address a queue dials.

    ** Assumptions, bounds and fuel

    Parsers recurse with the length of their input as fuel, each step consuming a
    byte ([GoJson.json_value], [Hepc.decode_results]); [digits] has the binary
    logarithm of the number.  The round-trip theorems prove the fuel enough for what the
    program prints; no theorem has a fuel of its own.

    Parameters stand for code outside the repository, with laws where something
    is needed of them: the zip, gzip and tar readers, the [jsonb] columns and the
    collation of PostgreSQL ([PgService], [PgServiceLaws]), the clock, the
    network and the programs of [Hepc] ([HepcEnv]), the MinIO client
    ([ObjectClient]), the AMQP client and broker ([Amqp], [BrokerLaws]), the
    [codeql] program and the YAML decoder of [Codeql], [os.LookupEnv], the
    constructors of the MinIO client (of which C35 assumes that it refuses an
    endpoint with a path, [Deploy.plain_endpoint]) and of the connection pool in
    [Deploy] and [PostgresSetup].  The analysis
    itself ([codeql.RunQuery], [GenerateResultsZipArchive]) is an argument of
    [Agent] ([Codeql] gives the code's), and a relation in [System] ([Agent.analysis_of] is the one of the agent).
    [storable_*] are the values the columns of the database take: valid UTF-8
    without a zero byte, 32-bit session identifiers.  Permission bits of files,
    symbolic links, logging and the response to a client that goes away are not
    modelled.

    ** Not modelled, and planned

    Reading back what [json.MarshalIndent] prints ([Codeql.jindent]);
    the goroutines of one RabbitMQ queue interleaved with each other, and jobs
    that are delivered a second time; sessions that run through while others are
    submitted.
    Not planned: the listening socket and the router, whose work is that of
    [net/http] and a third-party package; configuration files, which are decoded
    into structs without content; entry points. *)

From Stdlib Require Export Ascii ZArith Lia.
From stdpp Require Export base tactics option list strings gmap fin_maps numbers.

#[global] Set Default Goal Selector "!".

(** ** Go errors

    A Go [error] is an interface value; the code only tests it against [nil],
    prints it, or wraps it.  [EText] is [errors.New]/[fmt.Errorf] without a
    verb for another error, [ENum] is the [*strconv.NumError], [EWrap] is
    [fmt.Errorf("...: %w", err)] (or [%v]), [EExt] an error that comes from
    outside the repository (a driver, the network, the operating system). *)
Inductive error : Type :=
| EText (msg : string)
| ENum (fn input : string) (out_of_range : bool)
| EWrap (context : string) (inner : error)
| EExt (what : string).

#[export] Instance error_eq_dec : EqDecision error.
Proof. solve_decision. Defined.

(** A Go call [v, err := f()] returns both components, whatever the error. *)
Definition gores (A : Type) : Type := (A * option error)%type.

(** ** The outcome of a piece of Go code: a value or a run-time panic *)
Inductive outcome (A : Type) : Type :=
| Val (a : A)
| Panic (msg : string).
Arguments Val {A} a.
Arguments Panic {A} msg.

(** Stateful code: the state survives a panic, as mutations already made do. *)
Definition GM (S A : Type) : Type := S -> outcome A * S.

Definition gret {S A} (a : A) : GM S A := fun s => (Val a, s).

Definition gbind {S A B} (m : GM S A) (k : A -> GM S B) : GM S B :=
  fun s =>
    match m s with
    | (Val a, s') => k a s'
    | (Panic p, s') => (Panic p, s')
    end.

Definition gpanic {S A} (msg : string) : GM S A := fun s => (Panic msg, s).
Definition gget {S A} (f : S -> A) : GM S A := fun s => (Val (f s), s).
Definition gmodify {S} (f : S -> S) : GM S unit := fun s => (Val tt, f s).

(** [for _, x := range l { f(x) }] *)
Fixpoint gforeach {S A} (f : A -> GM S unit) (l : list A) : GM S unit :=
  match l with
  | [] => gret tt
  | x :: l' => gbind (f x) (fun _ => gforeach f l')
  end.

(** Running code of a component inside a larger state. *)
Definition zoom {S T A} (get : S -> T) (set : T -> S -> S) (m : GM T A) : GM S A :=
  fun s => let '(o, t) := m (get s) in (o, set t s).

Declare Scope go_scope.
Delimit Scope go_scope with go.
Notation "'let!' x := m 'in' k" := (gbind m (fun x => k))
  (at level 10, x pattern, m at level 200, k at level 200,
   format "'[v' 'let!'  x  :=  m  'in' '/' k ']'") : go_scope.
Notation "m ;;; k" := (gbind m (fun _ => k))
  (at level 199, right associativity, format "'[v' m  ;;; '/' k ']'") : go_scope.
Open Scope go_scope.

Section monad_laws.
Context {S A B C : Type}.

Lemma gbind_ret_l (a : A) (k : A -> GM S B) s : gbind (gret a) k s = k a s.
Proof. reflexivity. Qed.

Lemma gbind_ret_r (m : GM S A) s : gbind m gret s = m s.
Proof. unfold gbind. by destruct (m s) as [[]]. Qed.

Lemma gbind_assoc (m : GM S A) (k : A -> GM S B) (h : B -> GM S C) s :
  gbind (gbind m k) h s = gbind m (fun a => gbind (k a) h) s.
Proof. unfold gbind. by destruct (m s) as [[]]. Qed.

(** The two ways a bind can start; every handler proof is a chain of these. *)
Lemma gbind_val (m : GM S A) (k : A -> GM S B) s a s' :
  m s = (Val a, s') -> gbind m k s = k a s'.
Proof. unfold gbind. by intros ->. Qed.

Lemma gbind_panic (m : GM S A) (k : A -> GM S B) s p s' :
  m s = (Panic p, s') -> gbind m k s = (Panic p, s').
Proof. unfold gbind. by intros ->. Qed.

Lemma gbind_val_inv (m : GM S A) (k : A -> GM S B) s b s' :
  gbind m k s = (Val b, s') ->
  exists a s1, m s = (Val a, s1) /\ k a s1 = (Val b, s').
Proof. unfold gbind. destruct (m s) as [[] s1]; naive_solver. Qed.
End monad_laws.

Lemma gforeach_app {S A} (f : A -> GM S unit) l1 l2 s :
  gforeach f (l1 ++ l2) s = gbind (gforeach f l1) (fun _ => gforeach f l2) s.
Proof.
  revert s. induction l1 as [|x l1 IH]; intros s; [done|].
  simpl. unfold gbind in *. destruct (f x s) as [[] s1]; [|done].
  rewrite IH. by destruct (gforeach f l1 s1) as [[] ?].
Qed.

Lemma gforeach_map {S A B} (f : B -> GM S unit) (g : A -> B) l s :
  gforeach f (map g l) s = gforeach (fun x => f (g x)) l s.
Proof.
  revert s. induction l as [|x l IH]; intros s; [done|]. simpl. unfold gbind.
  destruct (f (g x) s) as [[] ?]; [apply IH|done].
Qed.

(** A loop whose body always succeeds runs the bodies in order. *)
Lemma gforeach_fold {S A} (f : A -> GM S unit) (g : S -> A -> S) l s :
  (forall x s, f x s = (Val tt, g s x)) ->
  gforeach f l s = (Val tt, foldl g s l).
Proof.
  intros Hf. revert s. induction l as [|x l IH]; intros s; [done|].
  simpl. unfold gbind. by rewrite Hf, IH.
Qed.

(** An invariant rule for loops: the body is run on states satisfying [I]. *)
Lemma gforeach_inv {S A} (f : A -> GM S unit) (I : S -> Prop) l s :
  I s ->
  (forall x s, x ∈ l -> I s -> exists s', f x s = (Val tt, s') /\ I s') ->
  exists s', gforeach f l s = (Val tt, s') /\ I s'.
Proof.
  revert s. induction l as [|x l IH]; intros s HI Hf; simpl.
  { by exists s. }
  destruct (Hf x s) as (s1 & Hx & HI1); [left|done|].
  erewrite gbind_val by exact Hx. apply IH; [done|].
  intros y s2 Hy. apply Hf. by right.
Qed.

(** ** Code that never panics *)
Definition total {S A} (m : GM S A) : Prop := forall s, exists a s', m s = (Val a, s').

Lemma total_ret {S A} (a : A) : total (S := S) (gret a).
Proof. intros s. by do 2 eexists. Qed.

Lemma total_get {S A} (f : S -> A) : total (gget f).
Proof. intros s. by do 2 eexists. Qed.

Lemma total_modify {S} (f : S -> S) : total (gmodify f).
Proof. intros s. by do 2 eexists. Qed.

Lemma total_bind {S A B} (m : GM S A) (k : A -> GM S B) :
  total m -> (forall a, total (k a)) -> total (gbind m k).
Proof. intros Hm Hk s. destruct (Hm s) as (a & s1 & H). unfold gbind. rewrite H. apply Hk. Qed.

Lemma total_zoom {S T A} get set (m : GM T A) : total m -> total (zoom (S := S) get set m).
Proof. intros Hm s. destruct (Hm (get s)) as (a & t & H). unfold zoom. rewrite H. by do 2 eexists. Qed.

(** ** Code that leaves a part of the state alone *)
Definition keeps {S X A} (f : S -> X) (m : GM S A) : Prop := forall s, f (m s).2 = f s.

Lemma keeps_ret {S X A} (f : S -> X) (a : A) : keeps f (gret a).
Proof. done. Qed.

Lemma keeps_get {S X A} (f : S -> X) (g : S -> A) : keeps f (gget g).
Proof. done. Qed.

Lemma keeps_bind {S X A B} (f : S -> X) (m : GM S A) (k : A -> GM S B) :
  keeps f m -> (forall a, keeps f (k a)) -> keeps f (gbind m k).
Proof.
  intros Hm Hk s. unfold gbind. specialize (Hm s). destruct (m s) as [[a|] s1]; simpl in *; [|done].
  by rewrite Hk.
Qed.

(** ** Fixed-width integers

    Go's [int] is 64 bits on the platforms the Dockerfiles build for. *)
Definition int_bits : Z := 64.
Definition min_int : Z := (- 2 ^ 63)%Z.
Definition max_int : Z := (2 ^ 63 - 1)%Z.
Definition wrap_int (z : Z) : Z := ((z + 2 ^ 63) `mod` 2 ^ 64 - 2 ^ 63)%Z.

Lemma wrap_int_small z : (min_int <= z <= max_int)%Z -> wrap_int z = z.
Proof. unfold wrap_int, min_int, max_int. intros. rewrite Z.mod_small; lia. Qed.

Lemma wrap_int_range z : (min_int <= wrap_int z <= max_int)%Z.
Proof.
  unfold wrap_int, min_int, max_int.
  pose proof (Z.mod_pos_bound (z + 2 ^ 63) (2 ^ 64)). lia.
Qed.

(** ** Hint databases and tactics of the development *)
Create HintDb mrva.

(** Evaluate one monadic step whose equation is at hand. *)
#[export] Hint Resolve total_ret total_get total_modify total_zoom keeps_ret keeps_get : mrva.

(** Walk through a program, splitting its matches. *)
Ltac go_total :=
  repeat first
    [ progress intros
    | apply total_bind
    | progress eauto with mrva
    | match goal with |- total (match ?x with _ => _ end) => destruct x end
    | match goal with |- total (if ?x then _ else _) => destruct x end ].

Ltac go_keeps :=
  repeat first
    [ progress intros
    | apply keeps_bind
    | progress eauto with mrva
    | match goal with |- keeps _ (match ?x with _ => _ end) => destruct x end
    | match goal with |- keeps _ (if ?x then _ else _) => destruct x end ].

Tactic Notation "go_step" uconstr(H) := etransitivity; [eapply gbind_val, H|cbn beta iota zeta].
(** Split every [match] of the goal on the variables that block it. *)
Ltac go_cases := repeat (case_match; simplify_eq/=).

(** ** Lists and options *)
Lemma Permutation_partition {A} (P : A -> bool) (l : list A) :
  List.filter (fun x => negb (P x)) l ++ List.filter P l ≡ₚ l.
Proof.
  induction l as [|x l IH]; [done|]. simpl.
  destruct (P x); simpl; [|by rewrite IH].
  by rewrite <- Permutation_middle, IH.
Qed.

#[export] Instance filter_Permutation {A} (P : A -> bool) : Proper ((≡ₚ) ==> (≡ₚ)) (List.filter P).
Proof.
  induction 1 as [|x l1 l2 H IH|x y l|l1 l2 l3 H1 IH1 H2 IH2]; simpl.
  - done.
  - destruct (P x); by rewrite IH.
  - destruct (P x), (P y); try done. apply perm_swap.
  - by rewrite IH1.
Qed.

(** ** Sums over a list, for measures *)
Definition total_of {A} (f : A -> nat) (l : list A) : nat := sum_list_with f l.

Lemma total_of_insert {A} (f : A -> nat) l i x y :
  l !! i = Some x -> (total_of f (<[i := y]> l) + f x = total_of f l + f y)%nat.
Proof.
  revert i. induction l as [|z l IH]; intros [|i] H; simplify_eq/=; [unfold total_of; simpl; lia|].
  specialize (IH i H). unfold total_of in *. simpl. lia.
Qed.
