(* ===== verification/GoStrings.v ===== *)
(** Models of the parts of Go's [strings], [strconv] and [fmt] packages that
    the program uses.  A Go [string] and a [[]byte] are both byte sequences and
    are both a [string] here, one [ascii] per byte. *)
From S2P Require Import Prelude.


Open Scope Z_scope.
#[global] Arguments String.append !_ _ / : simpl nomatch.

(** ** Bytes *)
Definition byte_val (c : ascii) : Z := Z.of_N (N_of_ascii c).
Definition byte_of (z : Z) : ascii := ascii_of_N (Z.to_N z).
Definition slen (s : string) : Z := Z.of_nat (String.length s).

Lemma byte_val_range c : 0 <= byte_val c < 256.
Proof. unfold byte_val. pose proof (N_ascii_bounded c). lia. Qed.

Lemma byte_val_of z : 0 <= z < 256 -> byte_val (byte_of z) = z.
Proof. intros. unfold byte_val, byte_of. rewrite N_ascii_embedding; lia. Qed.

Lemma byte_of_val c : byte_of (byte_val c) = c.
Proof. unfold byte_val, byte_of. by rewrite N2Z.id, ascii_N_embedding. Qed.

#[export] Instance byte_val_inj : Inj (=) (=) byte_val.
Proof. intros a b H. by rewrite <- (byte_of_val a), H, byte_of_val. Qed.

(** ** Concatenation *)
Lemma string_app_assoc (a b c : string) : (a +:+ b) +:+ c = a +:+ (b +:+ c).
Proof. induction a as [|x a IH]; simpl; [done|by rewrite IH]. Qed.

Lemma string_app_nil_r (a : string) : a +:+ "" = a.
Proof. induction a as [|x a IH]; simpl; [done|by rewrite IH]. Qed.

Lemma slen_app a b : slen (a +:+ b) = slen a + slen b.
Proof.
  unfold slen. induction a as [|x a IH]; simpl; [lia|]. rewrite !Nat2Z.inj_succ. lia.
Qed.

Lemma string_length_app a b : String.length (a +:+ b) = (String.length a + String.length b)%nat.
Proof. induction a as [|c a IH]; simpl; [done|by rewrite IH]. Qed.

(** ** [strings.HasPrefix] and the rest after a prefix *)
Fixpoint strip_prefix (p s : string) : option string :=
  match p, s with
  | EmptyString, _ => Some s
  | String a p', String b s' => if Ascii.eqb a b then strip_prefix p' s' else None
  | String _ _, EmptyString => None
  end.

Definition HasPrefix (s p : string) : bool :=
  match strip_prefix p s with Some _ => true | None => false end.

Lemma strip_prefix_Some p s r : strip_prefix p s = Some r <-> s = p +:+ r.
Proof.
  revert s. induction p as [|a p IHp]; intros s; simpl.
  { split; [by intros [= ->]|by intros ->]. }
  destruct s as [|b s]; [done|].
  destruct (Ascii.eqb_spec a b) as [->|Hne].
  - rewrite IHp. split; [by intros ->|by intros [= ->]].
  - split; [done|]. intros [=]. congruence.
Qed.

Lemma HasPrefix_spec s p : HasPrefix s p = true <-> exists r, s = p +:+ r.
Proof.
  unfold HasPrefix. destruct (strip_prefix p s) as [r|] eqn:E.
  - apply strip_prefix_Some in E. naive_solver.
  - split; [done|]. intros [r Hr%strip_prefix_Some]. congruence.
Qed.

(** ** [strings.Split(s, sep)] for a one-byte separator *)
Fixpoint split_byte (sep : ascii) (s : string) : list string :=
  match s with
  | EmptyString => [""]
  | String c s' =>
      if Ascii.eqb c sep then "" :: split_byte sep s'
      else match split_byte sep s' with
           | [] => [String c ""]
           | w :: ws => String c w :: ws
           end
  end.

(** [strings.Join(l, sep)] *)
Fixpoint join (sep : string) (l : list string) : string :=
  match l with
  | [] => ""
  | [w] => w
  | w :: ws => w +:+ sep +:+ join sep ws
  end.

Fixpoint in_string (c : ascii) (s : string) : bool :=
  match s with
  | EmptyString => false
  | String d s' => Ascii.eqb d c || in_string c s'
  end.

Lemma split_byte_nonempty sep s : split_byte sep s <> [].
Proof. destruct s as [|c s]; simpl; [done|]. by repeat case_match. Qed.

Lemma join_cons sep w ws : ws <> [] -> join sep (w :: ws) = w +:+ sep +:+ join sep ws.
Proof. by destruct ws. Qed.

(** Joining what was split gives the string back, and no piece holds the
    separator: the two facts that characterise [strings.Split]. *)
Lemma join_split sep s : join (String sep "") (split_byte sep s) = s.
Proof.
  induction s as [|c s IH]; simpl; [done|].
  pose proof (split_byte_nonempty sep s) as Hne.
  destruct (Ascii.eqb_spec c sep) as [->|?].
  - rewrite join_cons by done. by rewrite IH.
  - destruct (split_byte sep s) as [|w [|w' ws]]; [done| |]; simpl in *; by rewrite <- IH.
Qed.

Lemma split_byte_pieces sep s : Forall (fun w => in_string sep w = false) (split_byte sep s).
Proof.
  induction s as [|c s IH]; simpl; [by repeat constructor|].
  destruct (Ascii.eqb_spec c sep) as [->|Hne]; [by constructor|].
  assert (Ascii.eqb c sep = false) by by apply Ascii.eqb_neq.
  destruct (split_byte sep s) as [|w ws]; [by repeat constructor; simpl; rewrite H|].
  inversion IH; subst. constructor; [|done]. simpl. by rewrite H, H2.
Qed.

Lemma split_byte_app_any sep a b :
  split_byte sep (a +:+ String sep b) = split_byte sep a ++ split_byte sep b.
Proof.
  induction a as [|c a IH]; simpl; [by rewrite Ascii.eqb_refl|].
  destruct (Ascii.eqb c sep); rewrite IH; [done|].
  pose proof (split_byte_nonempty sep a). by destruct (split_byte sep a).
Qed.

Lemma split_byte_no_sep sep s : in_string sep s = false -> split_byte sep s = [s].
Proof.
  induction s as [|c s IH]; simpl; [done|].
  destruct (Ascii.eqb c sep); simpl; [done|]. intros H. by rewrite IH.
Qed.

Lemma split_byte_app sep a b :
  in_string sep a = false ->
  split_byte sep (a +:+ String sep b) = a :: split_byte sep b.
Proof.
  induction a as [|c a IH]; simpl.
  - intros _. by rewrite Ascii.eqb_refl.
  - destruct (Ascii.eqb c sep); simpl; [done|]. intros H. by rewrite IH.
Qed.

(** ** [strconv.Itoa] and [fmt]'s [%d] *)
Definition digit (d : Z) : ascii := byte_of (48 + d).

Fixpoint digits (fuel : nat) (n : Z) (acc : string) : string :=
  match fuel with
  | O => acc
  | S fuel' =>
      if n <? 10 then String (digit n) acc
      else digits fuel' (n / 10) (String (digit (n mod 10)) acc)
  end.

(** One decimal digit needs more than three bits, so [log2 n + 1] rounds do. *)
Definition itoa_nat (n : Z) : string := digits (S (Z.to_nat (Z.log2 n))) n "".

Definition itoa (z : Z) : string :=
  if z <? 0 then String "-" (itoa_nat (- z)) else itoa_nat z.

(** ** [strconv.ParseInt(s, 10, bits)] *)
Definition digit_val (c : ascii) : option Z :=
  let v := byte_val c in
  if (48 <=? v) && (v <=? 57) then Some (v - 48) else None.

Inductive num_err := ErrSyntax | ErrRange.

(** The loop of [strconv.ParseUint]: [maxVal] is [1<<bitSize - 1].  The tests
    for [n*base] and [n1 < n*base || n1 > maxVal] are the one test
    [n*10 + d > maxVal] over unbounded integers. *)
Fixpoint parse_uint_loop (maxVal n : Z) (s : string) : Z + num_err :=
  match s with
  | EmptyString => inl n
  | String c s' =>
      match digit_val c with
      | None => inr ErrSyntax
      | Some d =>
          let n1 := n * 10 + d in
          if maxVal <? n1 then inr ErrRange else parse_uint_loop maxVal n1 s'
      end
  end.

Definition ParseUint (s : string) (bitSize : Z) : Z + num_err :=
  match s with
  | EmptyString => inr ErrSyntax
  | _ => parse_uint_loop (2 ^ bitSize - 1) 0 s
  end.

Definition ParseInt_aux (s : string) (bitSize : Z) : Z + num_err :=
  let '(neg, body) :=
    match s with
    | String c s' =>
        if Ascii.eqb c "+" then (false, s')
        else if Ascii.eqb c "-" then (true, s') else (false, s)
    | EmptyString => (false, s)
    end in
  match ParseUint body bitSize with
  | inr e => inr e
  | inl un =>
      let cutoff := 2 ^ (bitSize - 1) in
      if negb neg && (cutoff <=? un) then inr ErrRange
      else if neg && (cutoff <? un) then inr ErrRange
      else inl (if neg then - un else un)
  end.

(** The value returned next to an error is not used by the program; it is [0]. *)
Definition ParseInt (s : string) (bitSize : Z) : gores Z :=
  match ParseInt_aux s bitSize with
  | inl v => (v, None)
  | inr ErrSyntax => (0, Some (ENum "ParseInt" s false))
  | inr ErrRange => (0, Some (ENum "ParseInt" s true))
  end.

Lemma digit_val_digit d : 0 <= d < 10 -> digit_val (digit d) = Some d.
Proof.
  intros Hd. unfold digit_val, digit. rewrite byte_val_of by lia.
  replace ((48 <=? 48 + d) && (48 + d <=? 57)) with true by lia.
  f_equal. lia.
Qed.

Lemma digit_val_range c d : digit_val c = Some d -> 0 <= d < 10.
Proof. unfold digit_val. case_match eqn:E; [|done]. intros [= <-]. lia. Qed.

(** Reading the digits back from the left: after the digits of [n] the
    accumulator is [n]. *)
Lemma parse_digits maxVal fuel n s :
  0 <= n <= maxVal -> n < 10 ^ Z.of_nat fuel ->
  parse_uint_loop maxVal 0 (digits fuel n s) = parse_uint_loop maxVal n s.
Proof.
  revert n s. induction fuel as [|fuel IH]; intros n s Hn Hf.
  { simpl in *. assert (n = 0) as -> by lia. done. }
  cbn [digits]. destruct (Z.ltb_spec n 10).
  - cbn [parse_uint_loop]. rewrite digit_val_digit by lia.
    cbn zeta. rewrite Z.add_0_l. by replace (maxVal <? n) with false by lia.
  - assert (10 ^ Z.of_nat (S fuel) = 10 * 10 ^ Z.of_nat fuel) as Hp.
    { rewrite Nat2Z.inj_succ, Z.pow_succ_r by lia. done. }
    pose proof (Z.div_mod n 10). pose proof (Z.mod_pos_bound n 10).
    assert (n / 10 < 10 ^ Z.of_nat fuel) by (apply Z.div_lt_upper_bound; lia).
    rewrite IH by lia.
    cbn [parse_uint_loop]. rewrite digit_val_digit by lia. cbn zeta.
    replace (n / 10 * 10 + n mod 10) with n by lia.
    by replace (maxVal <? n) with false by lia.
Qed.

Lemma itoa_fuel n : 0 <= n -> n < 10 ^ Z.of_nat (S (Z.to_nat (Z.log2 n))).
Proof.
  intros Hn. rewrite Nat2Z.inj_succ, Z2Nat.id by apply Z.log2_nonneg.
  destruct (decide (n = 0)) as [->|]; [done|].
  pose proof (Z.log2_spec n ltac:(lia)) as [_ H].
  eapply Z.lt_le_trans; [exact H|].
  apply Z.pow_le_mono_l. pose proof (Z.log2_nonneg n). lia.
Qed.

Lemma digits_shape fuel n s :
  0 <= n -> exists d r, 0 <= d < 10 /\ digits (S fuel) n s = String (digit d) r.
Proof.
  revert n s. induction fuel as [|fuel IH]; intros n s Hn.
  - cbn [digits]. destruct (Z.ltb_spec n 10).
    + eauto with lia.
    + exists (n mod 10), s. split; [apply Z.mod_pos_bound; lia|done].
  - cbn [digits]. destruct (Z.ltb_spec n 10); [eauto with lia|].
    apply IH, Z.div_pos; lia.
Qed.

Lemma itoa_nat_shape n :
  0 <= n -> exists d r, 0 <= d < 10 /\ itoa_nat n = String (digit d) r.
Proof. apply digits_shape. Qed.

Lemma digit_not_sign d :
  0 <= d < 10 -> Ascii.eqb (digit d) "+" = false /\ Ascii.eqb (digit d) "-" = false.
Proof.
  intros Hd. split; apply Ascii.eqb_neq; intros H; apply (f_equal byte_val) in H;
    unfold digit in H; rewrite byte_val_of in H by lia;
    [change (byte_val "+") with 43 in H|change (byte_val "-") with 45 in H]; lia.
Qed.

Lemma ParseUint_itoa_nat n bits :
  0 <= n < 2 ^ bits -> ParseUint (itoa_nat n) bits = inl n.
Proof.
  intros Hn. destruct (itoa_nat_shape n) as (d & r & _ & Heq); [lia|].
  unfold ParseUint. rewrite Heq, <- Heq. unfold itoa_nat.
  rewrite parse_digits; [done|lia|]. apply itoa_fuel. lia.
Qed.

(** Round trip of the decimal printer and parser at a given width. *)
Lemma ParseInt_itoa z bits :
  0 < bits -> - 2 ^ (bits - 1) <= z < 2 ^ (bits - 1) ->
  ParseInt (itoa z) bits = (z, None).
Proof.
  intros Hb Hz. assert (2 ^ bits = 2 * 2 ^ (bits - 1)) as Hp.
  { replace bits with (Z.succ (bits - 1)) at 1 by lia. by rewrite Z.pow_succ_r by lia. }
  unfold ParseInt, ParseInt_aux, itoa.
  destruct (Z.ltb_spec z 0).
  - simpl. rewrite ParseUint_itoa_nat by lia. simpl.
    replace (2 ^ (bits - 1) <? - z) with false by lia. f_equal. lia.
  - destruct (itoa_nat_shape z) as (d & r & Hd & Heq); [lia|].
    destruct (digit_not_sign d Hd) as [H1 H2].
    rewrite Heq, H1, H2, <- Heq, ParseUint_itoa_nat by lia.
    cbn [negb andb]. by replace (2 ^ (bits - 1) <=? z) with false by lia.
Qed.

(** A number one bit too wide is a range error. *)
Lemma ParseInt_too_wide z bits :
  0 < bits -> 2 ^ (bits - 1) <= z < 2 ^ bits ->
  ParseInt (itoa z) bits = (0, Some (ENum "ParseInt" (itoa z) true)).
Proof.
  intros Hb Hz. assert (0 < 2 ^ (bits - 1)) by (apply Z.pow_pos_nonneg; lia).
  assert (ParseInt_aux (itoa z) bits = inr ErrRange) as Haux; [|unfold ParseInt; by rewrite Haux].
  unfold ParseInt_aux, itoa. destruct (Z.ltb_spec z 0); [lia|].
  destruct (itoa_nat_shape z) as (d & r & Hd & Heq); [lia|]. destruct (digit_not_sign d Hd) as [H1 H2].
  rewrite Heq, H1, H2, <- Heq, ParseUint_itoa_nat by lia. cbn [negb andb].
  by replace (2 ^ (bits - 1) <=? z) with true by lia.
Qed.

#[export] Instance itoa_inj : Inj (=) (=) itoa.
Proof.
  intros a b Hab.
  set (w := Z.max (Z.log2_up (Z.abs a + 1)) (Z.log2_up (Z.abs b + 1)) + 1).
  assert (forall x, Z.log2_up (Z.abs x + 1) <= w - 1 -> - 2 ^ (w - 1) <= x < 2 ^ (w - 1)) as Hw.
  { intros x Hx. assert (Z.abs x < 2 ^ (w - 1)); [|lia].
    pose proof (Z.log2_log2_up_spec (Z.abs x + 1) ltac:(lia)) as [_ H].
    pose proof (Z.pow_le_mono_r 2 _ _ ltac:(lia) Hx). lia. }
  pose proof (Z.log2_up_nonneg (Z.abs a + 1)).
  pose proof (ParseInt_itoa a w ltac:(lia) (Hw a ltac:(lia))) as Ha.
  pose proof (ParseInt_itoa b w ltac:(lia) (Hw b ltac:(lia))) as Hb.
  rewrite Hab in Ha. congruence.
Qed.

(** Every accepted input is in the range of the requested width. *)
Lemma parse_uint_loop_range maxVal n s v :
  0 <= n <= maxVal -> parse_uint_loop maxVal n s = inl v -> 0 <= v <= maxVal.
Proof.
  revert n. induction s as [|c s IH]; intros n Hn; simpl; [naive_solver|].
  destruct (digit_val c) as [d|] eqn:Hd; [|done].
  apply digit_val_range in Hd.
  destruct (Z.ltb_spec maxVal (n * 10 + d)); [done|]. apply IH. lia.
Qed.

Lemma ParseInt_range s bits v :
  0 < bits -> ParseInt s bits = (v, None) -> - 2 ^ (bits - 1) <= v < 2 ^ (bits - 1).
Proof.
  intros Hb. unfold ParseInt, ParseInt_aux.
  destruct (match s with EmptyString => _ | String c s' => _ end) as [neg body].
  destruct (ParseUint body bits) as [un|[]] eqn:Hu; [|done..].
  assert (0 <= un).
  { unfold ParseUint in Hu. destruct body; [done|].
    apply parse_uint_loop_range in Hu; [lia|]. pose proof (Z.pow_pos_nonneg 2 bits). lia. }
  destruct neg; simpl.
  - destruct (Z.ltb_spec (2 ^ (bits - 1)) un); [done|]. intros [= <-].
    pose proof (Z.pow_pos_nonneg 2 (bits - 1)). lia.
  - destruct (Z.leb_spec (2 ^ (bits - 1)) un); [done|]. intros [= <-].
    pose proof (Z.pow_pos_nonneg 2 (bits - 1)). lia.
Qed.

(** ** [strings.Replace(s, old, new, 1)] *)
Fixpoint replace_first (s old new : string) : string :=
  match strip_prefix old s with
  | Some r => new +:+ r
  | None =>
      match s with
      | EmptyString => EmptyString
      | String c s' => String c (replace_first s' old new)
      end
  end.
