(* ===== verification/GoUtf8.v ===== *)
(** A model of Go's [unicode/utf8] as [encoding/json] uses it: a string as a
    sequence of runes, the replacement of invalid bytes by U+FFFD. *)
From S2P Require Import Prelude GoStrings.

(** ** UTF-8, as [utf8.DecodeRune] reads it *)
Inductive rune_tok :=
| TAscii (a : ascii)
| TMulti (bytes : string)
| TBad (a : ascii).

Definition in_range (lo hi : Z) (c : ascii) : bool :=
  (lo <=? byte_val c) && (byte_val c <=? hi).
Definition is_cont : ascii -> bool := in_range 128 191.

Definition lead2 (a b : ascii) : bool := in_range 194 223 a && is_cont b.

Definition lead3 (a b c : ascii) : bool :=
  ((in_range 224 224 a && in_range 160 191 b)
   || ((in_range 225 236 a || in_range 238 239 a) && is_cont b)
   || (in_range 237 237 a && in_range 128 159 b)) && is_cont c.

Definition lead4 (a b c d : ascii) : bool :=
  ((in_range 240 240 a && in_range 144 191 b)
   || (in_range 241 243 a && is_cont b)
   || (in_range 244 244 a && in_range 128 143 b)) && is_cont c && is_cont d.

(** The string as a sequence of runes; a byte that starts no valid rune is a
    [TBad] of width one. *)
Fixpoint runes (s : string) : list rune_tok :=
  match s with
  | EmptyString => []
  | String a s1 =>
      if byte_val a <? 128 then TAscii a :: runes s1
      else
        match s1 with
        | String b s2 =>
            if lead2 a b then TMulti (String a (String b "")) :: runes s2
            else
              match s2 with
              | String c s3 =>
                  if lead3 a b c
                  then TMulti (String a (String b (String c ""))) :: runes s3
                  else
                    match s3 with
                    | String d s4 =>
                        if lead4 a b c d
                        then TMulti (String a (String b (String c (String d "")))) :: runes s4
                        else TBad a :: runes s1
                    | EmptyString => TBad a :: runes s1
                    end
              | EmptyString => TBad a :: runes s1
              end
        | EmptyString => TBad a :: runes s1
        end
  end.

(** U+FFFD *)
Definition replacement : string :=
  String (byte_of 239) (String (byte_of 191) (String (byte_of 189) "")).

Definition tok_str (t : rune_tok) : string :=
  match t with TAscii a => String a "" | TMulti r => r | TBad _ => replacement end.

Definition tok_raw (t : rune_tok) : string :=
  match t with TAscii a => String a "" | TMulti r => r | TBad a => String a "" end.

Fixpoint sconcat (l : list string) : string :=
  match l with [] => "" | w :: ws => w +:+ sconcat ws end.

(** The string with every invalid byte replaced, as [encoding/json] does. *)
Definition sanitize (s : string) : string := sconcat (map tok_str (runes s)).

Definition tok_ok (t : rune_tok) : bool := match t with TBad _ => false | _ => true end.
Definition valid_utf8 (s : string) : bool := forallb tok_ok (runes s).

(** The UTF-8 encoding of a code point below U+110000. *)
Definition utf8_encode (r : Z) : string :=
  if r <? 128 then String (byte_of r) ""
  else if r <? 2048 then
    String (byte_of (192 + r / 64)) (String (byte_of (128 + r mod 64)) "")
  else if r <? 65536 then
    String (byte_of (224 + r / 4096)) (String (byte_of (128 + (r / 64) mod 64))
      (String (byte_of (128 + r mod 64)) ""))
  else
    String (byte_of (240 + r / 262144)) (String (byte_of (128 + (r / 4096) mod 64))
      (String (byte_of (128 + (r / 64) mod 64)) (String (byte_of (128 + r mod 64)) ""))).

(** ** The rune decomposition is exact, and replacing is idempotent *)
Definition wf_tok (t : rune_tok) : Prop :=
  match t with
  | TAscii a => byte_val a < 128
  | TMulti r =>
      (exists a b, r = String a (String b "") /\ lead2 a b = true)
      \/ (exists a b c, r = String a (String b (String c "")) /\ lead3 a b c = true)
      \/ (exists a b c d, r = String a (String b (String c (String d ""))) /\ lead4 a b c d = true)
  | TBad a => 128 <= byte_val a
  end.

Ltac lead_lia := unfold lead2, lead3, lead4, is_cont, in_range in *; lia.

Lemma runes_wf s : Forall wf_tok (runes s).
Proof.
  assert (forall n s, (String.length s <= n)%nat -> Forall wf_tok (runes s)) as H; [|by apply (H (String.length s) s)].
  clear s. intros n. induction n as [|n IH]; intros [|a s1]; simpl; intros Hn;
    [by constructor|lia|by constructor|].
  assert (Forall wf_tok (runes s1)) by (apply IH; lia).
  destruct (Z.ltb_spec (byte_val a) 128); [by constructor|].
  assert (Forall wf_tok (TBad a :: runes s1)) by by constructor.
  destruct s1 as [|b s2]; [done|].
  destruct (lead2 a b) eqn:?.
  { constructor; [simpl; eauto|]. apply IH. simpl in *. lia. }
  destruct s2 as [|c s3]; [done|].
  destruct (lead3 a b c) eqn:?.
  { constructor; [simpl; eauto 10|]. apply IH. simpl in *. lia. }
  destruct s3 as [|d s4]; [done|].
  destruct (lead4 a b c d) eqn:?; [|done].
  constructor; [simpl; eauto 10|]. apply IH. simpl in *. lia.
Qed.

Lemma runes_app_tok t rest :
  wf_tok t -> tok_ok t = true -> runes (tok_raw t +:+ rest) = t :: runes rest.
Proof.
  destruct t as [a|r|a]; simpl; intros Hwf Hok; [| |done].
  { by replace (byte_val a <? 128) with true by lia. }
  destruct Hwf as [(a & b & -> & H)|[(a & b & c & -> & H)|(a & b & c & d & -> & H)]]; simpl.
  - replace (byte_val a <? 128) with false by lead_lia. by rewrite H.
  - replace (byte_val a <? 128) with false by lead_lia.
    replace (lead2 a b) with false by lead_lia. by rewrite H.
  - replace (byte_val a <? 128) with false by lead_lia.
    replace (lead2 a b) with false by lead_lia.
    replace (lead3 a b c) with false by lead_lia. by rewrite H.
Qed.

Definition repair (t : rune_tok) : rune_tok :=
  match t with TBad _ => TMulti replacement | _ => t end.

Lemma repair_wf t : wf_tok t -> wf_tok (repair t) /\ tok_ok (repair t) = true.
Proof.
  destruct t as [a|r|a]; simpl; intros H; (split; [|done]); [done..|].
  right; left. by do 3 eexists.
Qed.

Lemma tok_str_repair t : tok_str t = tok_raw (repair t).
Proof. by destruct t. Qed.

Lemma runes_concat ts rest :
  Forall wf_tok ts -> runes (sconcat (map tok_str ts) +:+ rest) = map repair ts ++ runes rest.
Proof.
  induction 1 as [|t ts Ht _ IH]; simpl; [done|].
  destruct (repair_wf t Ht) as [H1 H2].
  by rewrite tok_str_repair, string_app_assoc, runes_app_tok, IH.
Qed.

Lemma runes_sanitize s : runes (sanitize s) = map repair (runes s).
Proof.
  unfold sanitize. rewrite <- (string_app_nil_r (sconcat _)).
  rewrite runes_concat by apply runes_wf. by rewrite app_nil_r.
Qed.

Lemma sanitize_idemp s : sanitize (sanitize s) = sanitize s.
Proof.
  unfold sanitize at 1. rewrite runes_sanitize, map_map. unfold sanitize. f_equal.
  apply map_ext. by intros [].
Qed.

Lemma runes_raw s : sconcat (map tok_raw (runes s)) = s.
Proof.
  assert (forall n s, (String.length s <= n)%nat -> sconcat (map tok_raw (runes s)) = s) as H;
    [|by apply (H (String.length s) s)].
  clear s. intros n. induction n as [|n IH]; intros [|a s1]; simpl; intros Hn; [done|lia|done|].
  assert (sconcat (map tok_raw (runes s1)) = s1) by (apply IH; lia).
  destruct (Z.ltb_spec (byte_val a) 128); [by simpl; f_equal|].
  assert (sconcat (map tok_raw (TBad a :: runes s1)) = String a s1) by by simpl; f_equal.
  destruct s1 as [|b s2]; [done|].
  destruct (lead2 a b).
  { simpl in *. rewrite IH; [done|lia]. }
  destruct s2 as [|c s3]; [done|].
  destruct (lead3 a b c).
  { simpl in *. rewrite IH; [done|lia]. }
  destruct s3 as [|d s4]; [done|].
  destruct (lead4 a b c d); [|done]. simpl in *. rewrite IH; [done|lia].
Qed.

(** Valid UTF-8 passes unchanged. *)
Lemma sanitize_valid s : valid_utf8 s = true -> sanitize s = s.
Proof.
  intros H. rewrite <- (runes_raw s) at 2. unfold sanitize, valid_utf8 in *.
  f_equal. induction (runes s) as [|t ts IH]; [done|]. simpl in *.
  apply andb_true_iff in H as [Ht H]. rewrite IH by done. by destruct t.
Qed.

Lemma sanitize_is_valid s : valid_utf8 (sanitize s) = true.
Proof.
  unfold valid_utf8. rewrite runes_sanitize. induction (runes s) as [|[] ts IH]; done.
Qed.

