(* ===== verification/GoJson.v ===== *)
(** A model of the text side of Go's [encoding/json]: documents, [json.Marshal]'s
    printing (HTML-safe escapes, U+2028/U+2029, invalid UTF-8 replaced) and the
    scanner of [json.Unmarshal] and [json.Decoder], with its nesting limit.  The
    main result is that a printed document is read back. *)
From S2P Require Import Prelude GoStrings GoUtf8.

#[local] Set Warnings "-register-all".

(** ** Documents *)
Inductive json : Type :=
| JNull
| JBool (b : bool)
| JNum (lit : string)
| JStr (s : string)
| JArr (l : list json)
| JObj (kvs : list (string * json)).

(** ** [json.Marshal] *)
Definition quote_c : ascii := byte_of 34.
Definition bslash_c : ascii := byte_of 92.

Definition hex_digit (d : Z) : ascii := if d <? 10 then byte_of (48 + d) else byte_of (87 + d).

(** [\u00XX] *)
Definition u00 (v : Z) : string :=
  String bslash_c (String "u" (String "0" (String "0"
    (String (hex_digit (v / 16)) (String (hex_digit (v mod 16)) ""))))).

Definition esc2 (c : ascii) : string := String bslash_c (String c "").

(** The [appendString] of Go 1.22 with [escapeHTML] on. *)
Definition esc_ascii (a : ascii) : string :=
  let v := byte_val a in
  if v =? 34 then esc2 quote_c
  else if v =? 92 then esc2 bslash_c
  else if v =? 8 then esc2 "b"
  else if v =? 12 then esc2 "f"
  else if v =? 10 then esc2 "n"
  else if v =? 13 then esc2 "r"
  else if v =? 9 then esc2 "t"
  else if (v <? 32) || (v =? 60) || (v =? 62) || (v =? 38) then u00 v
  else String a "".

(** [\u2028], [\u2029] and [\ufffd] *)
Definition u2028 : string := String bslash_c "u2028".
Definition u2029 : string := String bslash_c "u2029".
Definition ufffd : string := String bslash_c "ufffd".
Definition ls_bytes : string := String (byte_of 226) (String (byte_of 128) (String (byte_of 168) "")).
Definition ps_bytes : string := String (byte_of 226) (String (byte_of 128) (String (byte_of 169) "")).

Definition esc_tok (t : rune_tok) : string :=
  match t with
  | TAscii a => esc_ascii a
  | TMulti r => if String.eqb r ls_bytes then u2028
                else if String.eqb r ps_bytes then u2029 else r
  | TBad _ => ufffd
  end.

Definition escape (s : string) : string := sconcat (map esc_tok (runes s)).
Definition print_str (s : string) : string := String quote_c (escape s +:+ String quote_c "").

(** The elements of an array and the members of an object, up to the closing
    bracket; [p] prints a value. *)
Definition print_elems (p : json -> string) : list json -> string :=
  fix go (l : list json) : string :=
    match l with
    | [] => "]"
    | [x] => p x +:+ "]"
    | x :: l' => p x +:+ String "," (go l')
    end.

Definition print_members (p : json -> string) : list (string * json) -> string :=
  fix go (kvs : list (string * json)) : string :=
    match kvs with
    | [] => "}"
    | [(k, x)] => print_str k +:+ String ":" (p x +:+ "}")
    | (k, x) :: kvs' => print_str k +:+ String ":" (p x +:+ String "," (go kvs'))
    end.

Fixpoint jprint (j : json) : string :=
  match j with
  | JNull => "null"
  | JBool true => "true"
  | JBool false => "false"
  | JNum lit => lit
  | JStr s => print_str s
  | JArr l => String "[" (print_elems jprint l)
  | JObj kvs => String "{" (print_members jprint kvs)
  end.

(** ** The scanner *)
Definition is_space (c : ascii) : bool :=
  let v := byte_val c in (v =? 32) || (v =? 9) || (v =? 13) || (v =? 10).

Fixpoint skip_ws (s : string) : string :=
  match s with
  | String c s' => if is_space c then skip_ws s' else s
  | EmptyString => EmptyString
  end.

Definition hex_val (c : ascii) : option Z :=
  let v := byte_val c in
  if (48 <=? v) && (v <=? 57) then Some (v - 48)
  else if (97 <=? v) && (v <=? 102) then Some (v - 87)
  else if (65 <=? v) && (v <=? 70) then Some (v - 55)
  else None.

Definition getu4 (a b c d : ascii) : option Z :=
  match hex_val a, hex_val b, hex_val c, hex_val d with
  | Some x, Some y, Some z, Some w => Some (((x * 16 + y) * 16 + z) * 16 + w)
  | _, _, _, _ => None
  end.

Inductive sitem := IRaw (c : ascii) | IU (u : Z).

Definition simple_escape (e : ascii) : option ascii :=
  let v := byte_val e in
  if v =? 34 then Some quote_c
  else if v =? 92 then Some bslash_c
  else if v =? 47 then Some (byte_of 47)
  else if v =? 98 then Some (byte_of 8)
  else if v =? 102 then Some (byte_of 12)
  else if v =? 110 then Some (byte_of 10)
  else if v =? 114 then Some (byte_of 13)
  else if v =? 116 then Some (byte_of 9)
  else None.

(** The characters of a string literal after its opening quote, and what
    follows the closing one. *)
Fixpoint scan_string (s : string) : option (list sitem * string) :=
  match s with
  | EmptyString => None
  | String c s' =>
      if byte_val c =? 34 then Some ([], s')
      else if byte_val c =? 92 then
        match s' with
        | String e s2 =>
            if byte_val e =? 117 then
              match s2 with
              | String h1 (String h2 (String h3 (String h4 s3))) =>
                  match getu4 h1 h2 h3 h4 with
                  | Some u => '(items, r) ← scan_string s3; Some (IU u :: items, r)
                  | None => None
                  end
              | _ => None
              end
            else
              match simple_escape e with
              | Some b => '(items, r) ← scan_string s2; Some (IRaw b :: items, r)
              | None => None
              end
        | EmptyString => None
        end
      else if byte_val c <? 32 then None
      else '(items, r) ← scan_string s'; Some (IRaw c :: items, r)
  end.

Definition is_high (u : Z) : bool := (55296 <=? u) && (u <? 56320).
Definition is_low (u : Z) : bool := (56320 <=? u) && (u <? 57344).
Definition rune_str (u : Z) : string :=
  if is_high u || is_low u then replacement else utf8_encode u.

(** Escapes expanded: a surrogate pair makes one rune, a lone surrogate U+FFFD. *)
Fixpoint expand (l : list sitem) : string :=
  match l with
  | [] => ""
  | IRaw c :: l' => String c (expand l')
  | IU u :: l' =>
      match l' with
      | IU w :: l'' =>
          if is_high u && is_low w
          then utf8_encode ((u - 55296) * 1024 + (w - 56320) + 65536) +:+ expand l''
          else rune_str u +:+ expand l'
      | _ => rune_str u +:+ expand l'
      end
  end.

(** [unquote]: raw invalid bytes become U+FFFD.  An expanded escape is a whole
    rune, so replacing after the expansion is the same as on the way. *)
Definition scan_str (s : string) : option (string * string) :=
  '(items, r) ← scan_string s; Some (sanitize (expand items), r).

(** Number literals: [-? (0 | [1-9][0-9]* ) ( . [0-9]+ )? ( [eE] [+-]? [0-9]+ )?],
    each part as long as possible. *)
Definition is_digit (c : ascii) : bool := in_range 48 57 c.

Fixpoint take_digits (s : string) : string * string :=
  match s with
  | String c s' => if is_digit c then let '(d, r) := take_digits s' in (String c d, r) else ("", s)
  | EmptyString => ("", "")
  end.

Definition num_int (s : string) : option (string * string) :=
  match s with
  | String c s' =>
      if Ascii.eqb c "0" then Some ("0", s')
      else if is_digit c then Some (take_digits s) else None
  | EmptyString => None
  end.

Definition num_frac (s : string) : option (string * string) :=
  match s with
  | String c s' =>
      if Ascii.eqb c "." then
        match take_digits s' with
        | (EmptyString, _) => None
        | (d, r) => Some (String c d, r)
        end
      else Some ("", s)
  | EmptyString => Some ("", "")
  end.

Definition num_exp (s : string) : option (string * string) :=
  match s with
  | String c s' =>
      if Ascii.eqb c "e" || Ascii.eqb c "E" then
        let '(sign, s2) :=
          match s' with
          | String g s2 => if Ascii.eqb g "+" || Ascii.eqb g "-" then (String g "", s2) else ("", s')
          | EmptyString => ("", s')
          end in
        match take_digits s2 with
        | (EmptyString, _) => None
        | (d, r) => Some (String c (sign +:+ d), r)
        end
      else Some ("", s)
  | EmptyString => Some ("", "")
  end.

Definition scan_number (s : string) : option (string * string) :=
  let '(sign, s1) :=
    match s with
    | String c s' => if Ascii.eqb c "-" then (String c "", s') else ("", s)
    | EmptyString => ("", s)
    end in
  '(i, s2) ← num_int s1;
  '(f, s3) ← num_frac s2;
  '(e, s4) ← num_exp s3;
  Some (sign +:+ i +:+ f +:+ e, s4).

(** [maxNestingDepth] of the scanner. *)
Definition max_depth : Z := 10000.

(** The value at the head of the input and the rest.  One unit of fuel is used
    per byte at least; [json_value] gives more than the input is long. *)
Fixpoint pvalue (fuel : nat) (depth : Z) (s : string) : option (json * string) :=
  match fuel with
  | O => None
  | S f =>
      match skip_ws s with
      | EmptyString => None
      | String c s1 =>
          if Ascii.eqb c "{" then
            if max_depth <=? depth then None
            else match skip_ws s1 with
                 | String d s2 =>
                     if Ascii.eqb d "}" then Some (JObj [], s2)
                     else '(kvs, r) ← pmembers f (depth + 1) s1; Some (JObj kvs, r)
                 | EmptyString => None
                 end
          else if Ascii.eqb c "[" then
            if max_depth <=? depth then None
            else match skip_ws s1 with
                 | String d s2 =>
                     if Ascii.eqb d "]" then Some (JArr [], s2)
                     else '(l, r) ← pelems f (depth + 1) s1; Some (JArr l, r)
                 | EmptyString => None
                 end
          else if Ascii.eqb c quote_c then '(v, r) ← scan_str s1; Some (JStr v, r)
          else if Ascii.eqb c "t" then r ← strip_prefix "rue" s1; Some (JBool true, r)
          else if Ascii.eqb c "f" then r ← strip_prefix "alse" s1; Some (JBool false, r)
          else if Ascii.eqb c "n" then r ← strip_prefix "ull" s1; Some (JNull, r)
          else '(lit, r) ← scan_number (String c s1); Some (JNum lit, r)
      end
  end
with pmembers (fuel : nat) (depth : Z) (s : string) : option (list (string * json) * string) :=
  match fuel with
  | O => None
  | S f =>
      match skip_ws s with
      | EmptyString => None
      | String q s1 =>
          if Ascii.eqb q quote_c then
            '(k, s2) ← scan_str s1;
            match skip_ws s2 with
            | EmptyString => None
            | String c s3 =>
                if Ascii.eqb c ":" then
                  '(v, s4) ← pvalue f depth s3;
                  match skip_ws s4 with
                  | EmptyString => None
                  | String d s5 =>
                      if Ascii.eqb d "}" then Some ([(k, v)], s5)
                      else if Ascii.eqb d "," then
                        '(kvs, r) ← pmembers f depth s5; Some ((k, v) :: kvs, r)
                      else None
                  end
                else None
            end
          else None
      end
  end
with pelems (fuel : nat) (depth : Z) (s : string) : option (list json * string) :=
  match fuel with
  | O => None
  | S f =>
      '(v, s1) ← pvalue f depth s;
      match skip_ws s1 with
      | EmptyString => None
      | String d s2 =>
          if Ascii.eqb d "]" then Some ([v], s2)
          else if Ascii.eqb d "," then '(l, r) ← pelems f depth s2; Some (v :: l, r)
          else None
      end
  end.

(** One document at the head of the input: what [Decoder.Decode] reads. *)
Definition json_value (s : string) : option (json * string) := pvalue (S (String.length s)) 0 s.

(** The whole input as one document: [json.Unmarshal]'s [checkValid]. *)
Definition json_document (s : string) : option json :=
  '(j, r) ← json_value s;
  match skip_ws r with EmptyString => Some j | _ => None end.

(** ** Strings survive printing and scanning, up to replaced bytes *)
Definition tok_items (t : rune_tok) : list sitem :=
  match t with
  | TAscii a =>
      let v := byte_val a in
      if ((v <? 32) && negb ((v =? 8) || (v =? 12) || (v =? 10) || (v =? 13) || (v =? 9)))
         || (v =? 60) || (v =? 62) || (v =? 38)
      then [IU v] else [IRaw a]
  | TMulti r =>
      if String.eqb r ls_bytes then [IU 8232]
      else if String.eqb r ps_bytes then [IU 8233]
      else map IRaw (String.list_ascii_of_string r)
  | TBad _ => [IU 65533]
  end.

Definition scan_then (items : list sitem) (s : string) : option (list sitem * string) :=
  '(l, r) ← scan_string s; Some (items ++ l, r).

Lemma scan_raw c s :
  128 <= byte_val c -> scan_string (String c s) = scan_then [IRaw c] s.
Proof.
  intros H. unfold scan_then. simpl.
  replace (byte_val c =? 34) with false by lia.
  replace (byte_val c =? 92) with false by lia.
  by replace (byte_val c <? 32) with false by lia.
Qed.

Lemma scan_then_app l1 l2 s s' :
  scan_string s = scan_then l2 s' -> scan_then l1 s = scan_then (l1 ++ l2) s'.
Proof.
  intros H. unfold scan_then in *. rewrite H.
  destruct (scan_string s') as [[l r]|]; simpl; [|done]. by rewrite app_assoc.
Qed.

Lemma scan_raw_cons c l s s' :
  128 <= byte_val c -> scan_string s = scan_then l s' ->
  scan_string (String c s) = scan_then (IRaw c :: l) s'.
Proof. intros Hc H. rewrite scan_raw by done. by apply (scan_then_app [IRaw c]). Qed.

Lemma scan_ascii a s :
  byte_val a < 128 -> scan_string (esc_ascii a +:+ s) = scan_then (tok_items (TAscii a)) s.
Proof. by destruct a as [[] [] [] [] [] [] [] []]; intros H; try reflexivity; exfalso. Qed.

Lemma scan_tok t s :
  wf_tok t -> scan_string (esc_tok t +:+ s) = scan_then (tok_items t) s.
Proof.
  destruct t as [a|r|a]; [apply scan_ascii| |done]. simpl. intros H.
  destruct (String.eqb_spec r ls_bytes) as [->|_]; [done|].
  destruct (String.eqb_spec r ps_bytes) as [->|_]; [done|].
  destruct H as [(a & b & -> & H)|[(a & b & c & -> & H)|(a & b & c & d & -> & H)]];
    cbn [String.append String.list_ascii_of_string map];
    repeat (apply scan_raw_cons; [lead_lia|]);
    unfold scan_then; by destruct (scan_string s) as [[]|].
Qed.

Lemma scan_escape ts s :
  Forall wf_tok ts ->
  scan_string (sconcat (map esc_tok ts) +:+ s) = scan_then (concat (map tok_items ts)) s.
Proof.
  induction 1 as [|t ts Ht _ IH]; simpl.
  - unfold scan_then. by destruct (scan_string s) as [[]|].
  - rewrite string_app_assoc, scan_tok by done. by apply scan_then_app.
Qed.

Lemma expand_raw bs l : expand (map IRaw (String.list_ascii_of_string bs) ++ l) = bs +:+ expand l.
Proof. induction bs as [|c bs IH]; simpl; [done|by rewrite IH]. Qed.

Lemma expand_IU u l : is_high u = false -> expand (IU u :: l) = rune_str u +:+ expand l.
Proof. intros H. destruct l as [|[c|w] l]; simpl; [done..|]. by rewrite H. Qed.

Lemma expand_tok t l : wf_tok t -> expand (tok_items t ++ l) = tok_str t +:+ expand l.
Proof.
  destruct t as [a|r|a]; cbn [tok_items tok_str].
  - intros H. simpl in H. case_match eqn:E; [|done]. rewrite <- app_comm_cons, expand_IU.
    + unfold rune_str, utf8_encode, is_high, is_low.
      replace (_ || _) with false by lia.
      by rewrite (proj2 (Z.ltb_lt (byte_val a) 128)), byte_of_val by done.
    + unfold is_high. lia.
  - intros _. destruct (String.eqb_spec r ls_bytes) as [->|_]; [by rewrite <- app_comm_cons, expand_IU|].
    destruct (String.eqb_spec r ps_bytes) as [->|_]; [by rewrite <- app_comm_cons, expand_IU|].
    apply expand_raw.
  - intros _. by rewrite <- app_comm_cons, expand_IU.
Qed.

Lemma expand_toks ts : Forall wf_tok ts -> expand (concat (map tok_items ts)) = sconcat (map tok_str ts).
Proof. induction 1 as [|t ts Ht _ IH]; simpl; [done|]. by rewrite expand_tok, IH. Qed.

Lemma scan_print_str s rest :
  scan_str (escape s +:+ String quote_c rest) = Some (sanitize s, rest).
Proof.
  unfold scan_str, escape. rewrite scan_escape by apply runes_wf.
  unfold scan_then. simpl. rewrite app_nil_r, expand_toks by apply runes_wf.
  fold (sanitize s). by rewrite sanitize_idemp.
Qed.

(** ** Numbers survive *)
Fixpoint all_digits (s : string) : bool :=
  match s with EmptyString => true | String c s' => is_digit c && all_digits s' end.

(** What may follow a number literal without becoming part of it. *)
Definition num_stop (s : string) : bool :=
  match s with
  | EmptyString => true
  | String c _ => negb (is_digit c || Ascii.eqb c "." || Ascii.eqb c "e" || Ascii.eqb c "E")
  end.

Lemma take_digits_all w rest :
  all_digits w = true -> num_stop rest = true -> take_digits (w +:+ rest) = (w, rest).
Proof.
  induction w as [|c w IH]; simpl.
  - intros _ Hs. destruct rest as [|c rest]; simpl in *; [done|]. by destruct (is_digit c).
  - intros [Hc Hw]%andb_true_iff Hs. by rewrite Hc, IH.
Qed.

Lemma is_digit_digit d : 0 <= d < 10 -> is_digit (digit d) = true.
Proof. intros. unfold is_digit, in_range, digit. rewrite byte_val_of by lia. lia. Qed.

Lemma digits_all fuel n acc :
  0 <= n -> all_digits acc = true -> all_digits (digits fuel n acc) = true.
Proof.
  revert n acc. induction fuel as [|fuel IH]; intros n acc Hn Hacc; [done|]. cbn [digits].
  destruct (Z.ltb_spec n 10).
  - simpl. rewrite is_digit_digit by lia. done.
  - apply IH; [apply Z.div_pos; lia|]. simpl.
    rewrite is_digit_digit by (apply Z.mod_pos_bound; lia). done.
Qed.

Lemma digits_head_pos fuel n acc :
  0 < n < 10 ^ Z.of_nat fuel -> exists d r, 0 < d < 10 /\ digits fuel n acc = String (digit d) r.
Proof.
  revert n acc. induction fuel as [|fuel IH]; intros n acc Hn; [simpl in Hn; lia|].
  rewrite Nat2Z.inj_succ, Z.pow_succ_r in Hn by lia. cbn [digits].
  destruct (Z.ltb_spec n 10); [exists n, acc; split; [lia|done]|].
  apply IH. split; [apply Z.div_str_pos; lia|apply Z.div_lt_upper_bound; lia].
Qed.

Lemma digit_neq d c : 0 <= d < 10 -> byte_val c < 48 \/ 57 < byte_val c -> Ascii.eqb (digit d) c = false.
Proof.
  intros Hd Hc. apply Ascii.eqb_neq. intros <-.
  unfold digit in Hc. rewrite byte_val_of in Hc; lia.
Qed.

Lemma num_int_itoa n rest :
  0 <= n -> num_stop rest = true -> num_int (itoa_nat n +:+ rest) = Some (itoa_nat n, rest).
Proof.
  intros Hn Hs. destruct (decide (n = 0)) as [->|Hpos]; [done|].
  destruct (digits_head_pos (S (Z.to_nat (Z.log2 n))) n "") as (d & r & Hd & Heq).
  { split; [lia|]. by apply itoa_fuel. }
  fold (itoa_nat n) in Heq.
  rewrite <- (take_digits_all (itoa_nat n) rest); [|by apply digits_all|done].
  rewrite Heq. cbn [num_int String.append].
  rewrite is_digit_digit by lia.
  destruct (Ascii.eqb_spec (digit d) "0") as [H|_]; [|done].
  apply (f_equal byte_val) in H. unfold digit in H. rewrite byte_val_of in H by lia.
  change (byte_val "0") with 48 in H. lia.
Qed.

Lemma num_frac_stop s : num_stop s = true -> num_frac s = Some ("", s).
Proof. destruct s as [|c s]; simpl; [done|]. intros H. by destruct (Ascii.eqb c "."), (is_digit c). Qed.

Lemma num_exp_stop s : num_stop s = true -> num_exp s = Some ("", s).
Proof.
  destruct s as [|c s]; simpl; [done|]. intros H.
  by destruct (Ascii.eqb c "e"), (Ascii.eqb c "E"), (Ascii.eqb c "."), (is_digit c).
Qed.

Lemma scan_number_itoa z rest :
  num_stop rest = true -> scan_number (itoa z +:+ rest) = Some (itoa z, rest).
Proof.
  intros Hs. unfold scan_number, itoa. destruct (Z.ltb_spec z 0); cbn [String.append].
  - rewrite Ascii.eqb_refl, num_int_itoa by (done || lia). simpl.
    rewrite num_frac_stop by done. simpl. rewrite num_exp_stop by done. simpl.
    by rewrite string_app_nil_r.
  - destruct (itoa_nat_shape z) as (d & r & Hd & Heq); [lia|].
    rewrite Heq at 1. cbn [String.append]. rewrite digit_neq by (done || (right; done) || by left).
    cbn zeta iota. rewrite num_int_itoa by (done || lia). simpl.
    rewrite num_frac_stop by done. simpl. rewrite num_exp_stop by done. simpl.
    by rewrite string_app_nil_r.
Qed.

(** ** Documents survive *)
Section json_induction.
Variable P : json -> Prop.
Hypothesis Hnull : P JNull.
Hypothesis Hbool : forall b, P (JBool b).
Hypothesis Hnum : forall lit, P (JNum lit).
Hypothesis Hstr : forall s, P (JStr s).
Hypothesis Harr : forall l, Forall P l -> P (JArr l).
Hypothesis Hobj : forall kvs, Forall (fun kv => P kv.2) kvs -> P (JObj kvs).

Fixpoint json_nested_ind (j : json) : P j :=
  match j with
  | JNull => Hnull
  | JBool b => Hbool b
  | JNum lit => Hnum lit
  | JStr s => Hstr s
  | JArr l =>
      Harr l ((fix go l : Forall P l :=
        match l with
        | [] => Forall_nil_2 _
        | x :: l' => Forall_cons_2 _ x l' (json_nested_ind x) (go l')
        end) l)
  | JObj kvs =>
      Hobj kvs ((fix go kvs : Forall (fun kv => P kv.2) kvs :=
        match kvs with
        | [] => Forall_nil_2 _
        | kv :: kvs' => Forall_cons_2 _ kv kvs' (json_nested_ind kv.2) (go kvs')
        end) kvs)
  end.
End json_induction.

(** What a document reads back as: its strings sanitized. *)
Fixpoint jsan (j : json) : json :=
  match j with
  | JStr s => JStr (sanitize s)
  | JArr l => JArr (map jsan l)
  | JObj kvs => JObj (map (fun kv => (sanitize kv.1, jsan kv.2)) kvs)
  | _ => j
  end.

(** The same document with the members of its objects in another order. *)
Inductive reordered : json -> json -> Prop :=
| ro_null : reordered JNull JNull
| ro_bool b : reordered (JBool b) (JBool b)
| ro_num lit : reordered (JNum lit) (JNum lit)
| ro_str s : reordered (JStr s) (JStr s)
| ro_arr l l' : Forall2 reordered l l' -> reordered (JArr l) (JArr l')
| ro_obj m m' m'' :
    Forall2 (fun kv kv' => kv.1 = kv'.1 /\ reordered kv.2 kv'.2) m m' -> m' ≡ₚ m'' ->
    reordered (JObj m) (JObj m'').

Lemma reordered_refl j : reordered j j.
Proof.
  induction j as [| | | |l IH|kvs IH] using json_nested_ind; try constructor.
  - by induction IH; constructor.
  - eapply ro_obj; [|done]. by induction IH; constructor.
Qed.

#[export] Hint Resolve reordered_refl : mrva.

Fixpoint distinct (l : list string) : bool :=
  match l with
  | [] => true
  | x :: l' => negb (existsb (String.eqb x) l') && distinct l'
  end.

(** Documents [json.Marshal] makes here: every number is an integer in decimal,
    no member is repeated, and the nesting is at most [n]. *)
Inductive jok : nat -> json -> Prop :=
| jok_null n : jok n JNull
| jok_bool n b : jok n (JBool b)
| jok_num n z : jok n (JNum (itoa z))
| jok_str n s : jok n (JStr s)
| jok_arr n l : Forall (jok n) l -> jok (S n) (JArr l)
| jok_obj n kvs :
    distinct (map (fun kv => sanitize kv.1) kvs) = true -> Forall (fun kv => jok n kv.2) kvs ->
    jok (S n) (JObj kvs).

#[export] Hint Constructors jok : mrva.

Lemma skip_ws_head c r : is_space c = false -> skip_ws (String c r) = String c r.
Proof. intros H. simpl. by rewrite H. Qed.

(** A byte that starts none of the documents recognised by their first byte. *)
Definition number_start (c : ascii) : Prop :=
  (Ascii.eqb c "{" = false /\ Ascii.eqb c "[" = false /\ Ascii.eqb c quote_c = false) /\
  (Ascii.eqb c "t" = false /\ Ascii.eqb c "f" = false /\ Ascii.eqb c "n" = false) /\
  Ascii.eqb c "]" = false.

Lemma digit_char d : 0 <= d < 10 -> is_space (digit d) = false /\ number_start (digit d).
Proof.
  intros Hd. split.
  - unfold is_space, digit. rewrite byte_val_of; lia.
  - unfold number_start. split_and!; (apply digit_neq; [done|]); first [by left|by right].
Qed.

Lemma itoa_head z : exists c r, itoa z = String c r /\ is_space c = false /\ number_start c.
Proof.
  unfold itoa. destruct (Z.ltb_spec z 0).
  - exists "-"%char, (itoa_nat (- z)). by split_and!.
  - destruct (itoa_nat_shape z) as (d & r & Hd & Heq); [lia|].
    exists (digit d), r. split; [done|]. by apply digit_char.
Qed.

Lemma jprint_head n j : jok n j ->
  exists c r, jprint j = String c r /\ is_space c = false /\ Ascii.eqb c "]" = false.
Proof.
  destruct 1 as [n|n []|n z|n s|n l H|n kvs H]; simpl; try by do 2 eexists; split_and!.
  destruct (itoa_head z) as (c & r & -> & Hs & Hf).
  exists c, r. split_and!; [done..|]. apply Hf.
Qed.

(** The statement of the round trip at one value. *)
Definition reads_back (n : nat) (j : json) : Prop :=
  forall fuel depth rest,
    (String.length (jprint j) < fuel)%nat -> depth + Z.of_nat n <= max_depth ->
    num_stop rest = true ->
    pvalue fuel depth (jprint j +:+ rest) = Some (jsan j, rest).

Lemma pvalue_num n z : reads_back n (JNum (itoa z)).
Proof.
  intros fuel depth rest Hf _ Hs. destruct fuel as [|fuel]; [simpl in Hf; lia|].
  cbn [jprint jsan]. destruct (itoa_head z) as (c & r & Heq & Hsp & Hc).
  pose proof (scan_number_itoa z rest Hs) as Hscan. rewrite Heq in *. cbn [pvalue String.append] in *.
  rewrite skip_ws_head by done.
  destruct Hc as ((-> & -> & ->) & (-> & -> & ->) & _). by rewrite Hscan.
Qed.

Lemma pvalue_str n s : reads_back n (JStr s).
Proof.
  intros fuel depth rest Hf _ _. destruct fuel as [|fuel]; [simpl in Hf; lia|].
  cbn [jprint jsan]. unfold print_str.
  cbn [pvalue String.append]. rewrite skip_ws_head, string_app_assoc by done.
  cbn [String.append Ascii.eqb]. by rewrite scan_print_str.
Qed.

(** After the last element comes the bracket, after the others a comma. *)
Lemma pelems_print n l fuel depth rest :
  l <> [] -> Forall (reads_back n) l -> Forall (jok n) l ->
  (String.length (print_elems jprint l) < fuel)%nat -> depth + Z.of_nat n <= max_depth ->
  pelems fuel depth (print_elems jprint l +:+ rest) = Some (map jsan l, rest).
Proof.
  intros Hne HIH Hok. revert fuel.
  induction HIH as [|x l Hx HIH IHl]; [done|]; intros fuel Hf Hd.
  apply Forall_cons_1 in Hok as [_ Hok].
  destruct fuel as [|fuel]; [lia|]. destruct l as [|y l].
  - cbn [print_elems] in Hf |- *. rewrite string_length_app in Hf. simpl in Hf.
    cbn [pelems]. rewrite string_app_assoc, Hx by (done || lia). done.
  - change (print_elems jprint (x :: y :: l))
      with (jprint x +:+ String "," (print_elems jprint (y :: l))) in *.
    rewrite string_length_app in Hf. cbn [String.length] in Hf.
    cbn [pelems]. rewrite string_app_assoc, Hx by (done || lia).
    cbn [String.append mbind option_bind]. rewrite skip_ws_head by done. cbn [Ascii.eqb Bool.eqb].
    rewrite IHl by (done || lia). done.
Qed.

Lemma pmembers_print n kvs fuel depth rest :
  kvs <> [] -> Forall (fun kv => reads_back n kv.2) kvs -> Forall (fun kv => jok n kv.2) kvs ->
  (String.length (print_members jprint kvs) < fuel)%nat -> depth + Z.of_nat n <= max_depth ->
  pmembers fuel depth (print_members jprint kvs +:+ rest)
  = Some (map (fun kv => (sanitize kv.1, jsan kv.2)) kvs, rest).
Proof.
  intros Hne HIH Hok. revert fuel.
  induction HIH as [|[k x] l Hx HIH IHl]; [done|]; intros fuel Hf Hd.
  apply Forall_cons_1 in Hok as [_ Hok]. cbn [snd fst] in *.
  destruct fuel as [|fuel]; [lia|]. unfold print_str in *. destruct l as [|[k' y] l].
  - cbn [print_members] in Hf |- *. unfold print_str in *.
    cbn [String.append String.length] in Hf |- *.
    rewrite !string_length_app in Hf. cbn [String.length] in Hf. rewrite string_length_app in Hf.
    cbn [pmembers]. rewrite !string_app_assoc. rewrite skip_ws_head by done.
    rewrite Ascii.eqb_refl. cbn [String.append]. rewrite scan_print_str. cbn [mbind option_bind].
    rewrite skip_ws_head by done. cbn [Ascii.eqb Bool.eqb].
    rewrite string_app_assoc, Hx by (done || lia). done.
  - change (print_members jprint ((k, x) :: (k', y) :: l))
      with (print_str k +:+ String ":" (jprint x +:+ String "," (print_members jprint ((k', y) :: l)))) in *.
    unfold print_str at 1 in Hf. unfold print_str at 1.
    cbn [String.append String.length] in Hf |- *.
    rewrite !string_length_app in Hf. cbn [String.length] in Hf. rewrite string_length_app in Hf.
    cbn [String.length] in Hf.
    cbn [pmembers]. rewrite !string_app_assoc. rewrite skip_ws_head by done.
    rewrite Ascii.eqb_refl. cbn [String.append]. rewrite scan_print_str. cbn [mbind option_bind].
    rewrite skip_ws_head by done. cbn [Ascii.eqb Bool.eqb].
    rewrite string_app_assoc, Hx by (done || lia).
    cbn [String.append mbind option_bind]. rewrite skip_ws_head by done. cbn [Ascii.eqb Bool.eqb].
    rewrite IHl by (done || lia). done.
Qed.

Lemma pvalue_print n j : jok n j -> reads_back n j.
Proof.
  revert n. induction j as [|b|lit|s|l IH|kvs IH] using json_nested_ind; intros n Hok;
    inversion Hok as [|?|?|?|n' l' Hall|n' l' Hdist Hall]; subst.
  - intros [|f] d r Hf _ _; [simpl in Hf; lia|done].
  - intros [|f] d r Hf _ _; [destruct b; simpl in Hf; lia|by destruct b].
  - apply pvalue_num.
  - apply pvalue_str.
  - rename n' into n.
    intros [|fuel] depth rest Hf Hd _; [simpl in Hf; lia|].
    cbn [jprint jsan] in *. cbn [pvalue String.append String.length] in *.
    rewrite skip_ws_head by done. cbn [Ascii.eqb Bool.eqb].
    destruct (Z.leb_spec max_depth depth); [lia|].
    destruct l as [|x l]; [done|].
    assert (exists c r, print_elems jprint (x :: l) +:+ rest = String c r
                        /\ is_space c = false /\ Ascii.eqb c "]" = false) as (c & r & Heq & Hsp & Hc).
    { apply Forall_cons_1 in Hall as [Hx _]. destruct (jprint_head n x) as (c & r & Heq & ?); [done|].
      simpl. rewrite Heq. destruct l; simpl; eauto. }
    rewrite Heq, skip_ws_head, Hc, <- Heq by done.
    rewrite (pelems_print n); [done|done| |done|lia|lia].
    rewrite Forall_forall in IH, Hall |- *. intros y Hy. by apply IH, Hall.
  - rename n' into n.
    intros [|fuel] depth rest Hf Hd _; [simpl in Hf; lia|].
    cbn [jprint jsan] in *. cbn [pvalue String.append String.length] in *.
    rewrite skip_ws_head by done. cbn [Ascii.eqb Bool.eqb].
    destruct (Z.leb_spec max_depth depth); [lia|].
    destruct kvs as [|[k x] kvs]; [done|].
    assert (exists r, print_members jprint ((k, x) :: kvs) +:+ rest = String quote_c r) as (r & Heq).
    { simpl. unfold print_str. destruct kvs; simpl; eauto. }
    rewrite Heq, skip_ws_head by done. cbn [Ascii.eqb Bool.eqb quote_c]. rewrite <- Heq.
    rewrite (pmembers_print n); [done|done| |done|lia|lia].
    rewrite Forall_forall in IH, Hall |- *. intros y Hy. by apply IH, Hall.
Qed.

(** What [json.Marshal] prints, [json.Unmarshal] reads back. *)
Lemma json_document_print n j :
  jok n j -> Z.of_nat n <= max_depth -> json_document (jprint j) = Some (jsan j).
Proof.
  intros Hok Hn. unfold json_document, json_value.
  rewrite <- (string_app_nil_r (jprint j)) at 2.
  rewrite (pvalue_print n j Hok) by (done || lia). done.
Qed.

(** A decoder reading a stream stops after the document. *)
Lemma json_value_print n j rest :
  jok n j -> Z.of_nat n <= max_depth -> num_stop rest = true ->
  json_value (jprint j +:+ rest) = Some (jsan j, rest).
Proof.
  intros Hok Hn Hr. unfold json_value. apply (pvalue_print n j Hok); [|lia|done].
  rewrite string_length_app. lia.
Qed.

