(* ===== verification/GoCodec.v ===== *)
(** A model of the value side of Go's [encoding/json]: decoding documents into
    integers, strings, slices and structs, and the class of the types that
    survive [json.Marshal] followed by [json.Unmarshal]. *)
From S2P Require Import Prelude GoStrings GoUtf8 GoJson.

(** ** Decoding a document into a Go value

    A decoder gets the current value of its target, because [null] and absent
    keys leave it unchanged, and answers [None] where [Unmarshal] reports an
    error (its callers here all discard the partly filled target then). *)
Definition decoder (A : Type) : Type := json -> A -> option A.

Definition dec_string : decoder string := fun j cur =>
  match j with JStr s => Some s | JNull => Some cur | _ => None end.

(** A number literal with a fraction, an exponent or an overflow is an error. *)
Definition dec_int : decoder Z := fun j cur =>
  match j with
  | JNum lit => match ParseInt_aux lit 64 with inl v => Some v | inr _ => None end
  | JNull => Some cur
  | _ => None
  end.

Definition dec_bool : decoder bool := fun j cur =>
  match j with JBool b => Some b | JNull => Some cur | _ => None end.

(** A pointer to a string: [null] is [nil]. *)
Definition dec_string_ptr : decoder (option string) := fun j _ =>
  match j with JStr s => Some (Some s) | JNull => Some None | _ => None end.

Fixpoint dec_elems {A} (d : decoder A) (zero : A) (l : list json) (cur : list A) : option (list A) :=
  match l with
  | [] => Some []
  | x :: l' =>
      v ← d x (match cur with c :: _ => c | [] => zero end);
      vs ← dec_elems d zero l' (match cur with _ :: cur' => cur' | [] => [] end);
      Some (v :: vs)
  end.

(** A slice; [null] gives the nil slice. *)
Definition dec_slice {A} (d : decoder A) (zero : A) : decoder (list A) := fun j cur =>
  match j with JArr l => dec_elems d zero l cur | JNull => Some [] | _ => None end.

(** [foldName]: the two non-ASCII runes that fold to an ASCII letter are
    U+017F (long s) and U+212A (Kelvin); every field name here is ASCII. *)
Definition fold_tok (t : rune_tok) : string :=
  match t with
  | TAscii a => if in_range 97 122 a then String (byte_of (byte_val a - 32)) "" else String a ""
  | TMulti r =>
      if String.eqb r (String (byte_of 197) (String (byte_of 191) "")) then "S"
      else if String.eqb r (String (byte_of 226) (String (byte_of 132) (String (byte_of 170) ""))) then "K"
      else r
  | TBad _ => replacement
  end.
Definition foldName (s : string) : string := sconcat (map fold_tok (runes s)).

Definition field (A : Type) : Type := (string * decoder A)%type.

Definition fld {A B} (name : string) (get : A -> B) (set : B -> A -> A) (d : decoder B) : field A :=
  (name, fun j a => v ← d j (get a); Some (set v a)).

Fixpoint assoc_by {A} (p : string -> bool) (l : list (string * A)) : option A :=
  match l with
  | [] => None
  | (k, v) :: l' => if p k then Some v else assoc_by p l'
  end.

(** An exact name first, then a name equal under case folding. *)
Definition find_field {A} (fields : list (field A)) (key : string) : option (decoder A) :=
  match assoc_by (String.eqb key) fields with
  | Some d => Some d
  | None => assoc_by (fun k => String.eqb (foldName key) (foldName k)) fields
  end.

(** The members in order, so a repeated key overwrites.  [strict] is
    [DisallowUnknownFields]. *)
Fixpoint dec_members {A} (strict : bool) (fields : list (field A))
    (kvs : list (string * json)) (cur : A) : option A :=
  match kvs with
  | [] => Some cur
  | (k, v) :: kvs' =>
      match find_field fields k with
      | Some d => cur' ← d v cur; dec_members strict fields kvs' cur'
      | None => if strict then None else dec_members strict fields kvs' cur
      end
  end.

Definition dec_struct {A} (strict : bool) (fields : list (field A)) : decoder A := fun j cur =>
  match j with
  | JObj kvs => dec_members strict fields kvs cur
  | JNull => Some cur
  | _ => None
  end.

(** [json.Unmarshal(data, &v)] for a zero [v]. *)
Definition Unmarshal {A} (d : decoder A) (zero : A) (data : string) : option A :=
  j ← json_document data; d j zero.

(** [json.NewDecoder(r).Decode(&v)]: the value and what is left of the stream. *)
Definition DecodeFirst {A} (d : decoder A) (zero : A) (data : string) : option (A * string) :=
  '(j, rest) ← json_value data; v ← d j zero; Some (v, rest).

(** Numbers printed by [json.Marshal] decode to themselves. *)
Lemma dec_int_itoa z cur : min_int <= z <= max_int -> dec_int (JNum (itoa z)) cur = Some z.
Proof.
  intros Hz. unfold dec_int.
  pose proof (ParseInt_itoa z 64 ltac:(lia)) as H. unfold ParseInt, min_int, max_int in *.
  specialize (H ltac:(lia)). destruct (ParseInt_aux (itoa z) 64) as [v|[]]; congruence.
Qed.

(** ** Types that survive [json.Marshal] and [json.Unmarshal]

    The interface the message and storage codecs share: how a Go type is
    printed, how it is decoded, and the values that survive.  A decoder must
    restore the value over any previous content of its target, and whatever the
    order of the members is (a [jsonb] column does not keep it). *)
Class JsonCodec (A : Type) : Type := {
  to_json : A -> json;
  of_json : decoder A;
  json_valid : A -> Prop;
  json_depth : nat;
  to_json_ok : forall x, jok json_depth (to_json x);
  of_to_json : forall x d cur, json_valid x -> reordered (jsan (to_json x)) d -> of_json d cur = Some x;
}.

Definition Marshal {A} `{JsonCodec A} (x : A) : string := jprint (to_json x).

Lemma Unmarshal_Marshal {A} `{JsonCodec A} (x zero : A) :
  json_valid x -> Z.of_nat (json_depth (A := A)) <= max_depth ->
  Unmarshal of_json zero (Marshal x) = Some x.
Proof.
  intros Hv Hd. unfold Unmarshal, Marshal.
  rewrite (json_document_print _ _ (to_json_ok x) Hd). apply of_to_json; [done|apply reordered_refl].
Qed.

Lemma jok_mono n m j : (n <= m)%nat -> jok n j -> jok m j.
Proof.
  revert n m. induction j as [|b|lit|s|l IH|kvs IH] using json_nested_ind; intros n m Hnm Hok;
    inversion Hok as [|?|?|?|n' l' Hall|n' l' Hdist Hall]; subst; try constructor.
  - destruct m as [|m]; [lia|]. constructor. rewrite list.Forall_forall in IH, Hall |- *.
    intros x Hx. apply (IH x Hx n'); [lia|by apply Hall].
  - destruct m as [|m]; [lia|]. constructor; [done|]. rewrite list.Forall_forall in IH, Hall |- *.
    intros x Hx. apply (IH x Hx n'); [lia|by apply Hall].
Qed.

(** ** Basic values *)
Create HintDb json_rt.

Lemma dec_string_ok s d cur :
  valid_utf8 s = true -> reordered (JStr (sanitize s)) d -> dec_string d cur = Some s.
Proof. intros Hs H. inversion H; subst. simpl. by rewrite sanitize_valid. Qed.

Lemma dec_int_ok z d cur :
  min_int <= z <= max_int -> reordered (JNum (itoa z)) d -> dec_int d cur = Some z.
Proof. intros Hz H. inversion H; subst. by apply dec_int_itoa. Qed.

Lemma dec_bool_ok b d cur : reordered (JBool b) d -> dec_bool d cur = Some b.
Proof. intros H. by inversion H. Qed.

Lemma dec_slice_ok {A} (dec : decoder A) (enc : A -> json) zero l d cur :
  Forall (fun x => forall d c, reordered (jsan (enc x)) d -> dec d c = Some x) l ->
  reordered (JArr (map jsan (map enc l))) d ->
  dec_slice dec zero d cur = Some l.
Proof.
  intros Hl H. inversion H as [| | | |l1 l' Hf|]; subst. simpl. clear H.
  revert l' Hf cur. induction Hl as [|x l Hx _ IH]; intros l' Hf cur; inversion Hf; subst; simpl; [done|].
  rewrite (Hx _ _ ltac:(eassumption)). simpl. by rewrite IH.
Qed.

#[export] Hint Resolve dec_string_ok dec_int_ok dec_bool_ok : json_rt.

#[export, refine] Instance string_codec : JsonCodec string := {|
  to_json := JStr; of_json := dec_string; json_valid s := valid_utf8 s = true; json_depth := 0 |}.
Proof.
  - constructor.
  - intros. by apply dec_string_ok.
Defined.

#[export, refine] Instance int_codec : JsonCodec Z := {|
  to_json z := JNum (itoa z); of_json := dec_int; json_valid z := min_int <= z <= max_int;
  json_depth := 0 |}.
Proof.
  - constructor.
  - intros. by apply dec_int_ok.
Defined.

#[export, refine] Instance bool_codec : JsonCodec bool := {|
  to_json := JBool; of_json := dec_bool; json_valid _ := True; json_depth := 0 |}.
Proof.
  - constructor.
  - intros. by apply dec_bool_ok.
Defined.

(** Slices; [zero] is the element a fresh slice starts from. *)
Definition slice_codec {A} (zero : A) `{JsonCodec A} : JsonCodec (list A).
Proof.
  refine {| to_json l := JArr (map to_json l); of_json := dec_slice of_json zero;
            json_valid l := Forall json_valid l; json_depth := S (json_depth (A := A)) |}.
  - intros l. constructor. apply Forall_map, Forall_forall. intros x _. apply to_json_ok.
  - intros l d cur Hl Hd. eapply dec_slice_ok; [|exact Hd].
    eapply Forall_impl; [|exact Hl]. intros x Hx d' c. by apply of_to_json.
Defined.

(** ** Structs

    A member, and the update its field makes to the target. *)
Definition update (A : Type) : Type := (string * json * (A -> A))%type.

Definition updates_with {A} (fields : list (field A)) (u : update A) : Prop :=
  exists d, find_field fields u.1.1 = Some d /\ forall c, d u.1.2 c = Some (u.2 c).

Lemma dec_members_ordered {A} strict (fields : list (field A)) (ups : list (update A)) cur :
  Forall (updates_with fields) ups ->
  dec_members strict fields (map fst ups) cur = Some (foldl (fun c u => u.2 c) cur ups).
Proof.
  intros H. revert cur. induction H as [|[[k v] f] ups (d & Hd & Hf) _ IH]; intros cur; [done|].
  simpl in *. rewrite Hd, Hf. simpl. apply IH.
Qed.

(** One member at a time, for documents that do not survive unchanged. *)
Lemma dec_members_step {A} strict (fields : list (field A)) k v kvs cur d cur' res :
  find_field fields k = Some d -> d v cur = Some cur' ->
  dec_members strict fields kvs cur' = res ->
  dec_members strict fields ((k, v) :: kvs) cur = res.
Proof. intros Hf Hd Hr. simpl. by rewrite Hf; simpl; rewrite Hd. Qed.

(** Updates of different fields commute, so the order of the members is free. *)
Lemma dec_members_any_order {A} strict (fields : list (field A)) (ups : list (update A)) kvs cur :
  Forall (updates_with fields) ups ->
  (forall u u', u ∈ ups -> u' ∈ ups -> forall c, u.2 (u'.2 c) = u'.2 (u.2 c)) ->
  map fst ups ≡ₚ kvs ->
  dec_members strict fields kvs cur = Some (foldl (fun c u => u.2 c) cur ups).
Proof.
  intros Hu Hc Hp. symmetry in Hp. apply Permutation_map_inv in Hp as (ups' & -> & Hp).
  rewrite dec_members_ordered by by rewrite <- Hp. f_equal. clear Hu.
  revert cur. induction Hp as [|u l l' Hp IH|u u' l|l l' l'' H1 IH1 H2 IH2]; intros cur; simpl.
  - done.
  - apply IH. intros u1 u2 ??. apply Hc; by right.
  - f_equal. apply Hc; set_solver.
  - rewrite IH2; [by apply IH1|]. intros u u'. rewrite <- !H1. apply Hc.
Qed.

Lemma fld_updates {A B} (fields : list (field A)) name get set (dec : decoder B) (v : json) (x : B) :
  find_field fields name = Some (fld name get set dec).2 ->
  (forall cur, dec v cur = Some x) -> updates_with fields (name, v, set x).
Proof. intros Hf Hd. eexists. split; [exact Hf|]. intros c. simpl. by rewrite Hd. Qed.

(** What a struct's decoder makes of a reordered print of it; [setters] are
    the updates, in the order of the fields. *)
Ltac struct_roundtrip H setters :=
  inversion H as [| | | | |? m1 m2 Hmembers Hperm]; subst; clear H;
  cbn [map fst snd] in Hmembers;
  repeat match goal with
         | Hm : Forall2 _ (_ :: _) _ |- _ =>
             let kv := fresh "kv" in let Hkv := fresh "Hkv" in
             inversion Hm as [|? kv ? ? Hkv ?]; subst; clear Hm;
             let k := fresh "k" in let v := fresh "v" in
             destruct kv as [k v]; cbn [fst snd] in Hkv; destruct Hkv as [? ?]; subst k
         | Hm : Forall2 _ [] _ |- _ => inversion Hm; subst; clear Hm
         end;
  lazymatch goal with
  | Hp : ?kvs ≡ₚ _ |- dec_struct ?strict ?fields _ ?cur = Some ?x =>
      cbn [dec_struct];
      transitivity (Some (foldl (fun c u => u.2 c) cur (zip_with pair kvs setters)));
      [ apply dec_members_any_order;
        [ cbn [zip_with];
          repeat (refine (Forall_cons_2 _ _ _ _ _); [eapply fld_updates; [reflexivity|intros; eauto with json_rt]|]);
          exact (Forall_nil_2 _)
        | let u := fresh in let u' := fresh in
          intros u u' ?%list_elem_of_In ?%list_elem_of_In; cbn [zip_with In] in *;
          intuition (subst; reflexivity)
        | exact Hp ]
      | first [reflexivity | destruct x; reflexivity] ]
  end.
