(* ===== verification/GoBase64.v ===== *)
(** A model of Go's [encoding/base64] in its padded standard and URL alphabets. *)
From S2P Require Import Prelude GoStrings.

(** [StdEncoding] or [URLEncoding]: they differ in the last two characters. *)
Inductive alphabet := StdEncoding | URLEncoding.

Definition b64_char (al : alphabet) (n : Z) : ascii :=
  if n <? 26 then byte_of (65 + n)
  else if n <? 52 then byte_of (71 + n)
  else if n <? 62 then byte_of (n - 4)
  else match al with
       | StdEncoding => if n =? 62 then "+"%char else "/"%char
       | URLEncoding => if n =? 62 then "-"%char else "_"%char
       end.

(** The decode map; [None] is its [0xff]. *)
Definition b64_val (al : alphabet) (c : ascii) : option Z :=
  let v := byte_val c in
  if (65 <=? v) && (v <=? 90) then Some (v - 65)
  else if (97 <=? v) && (v <=? 122) then Some (v - 71)
  else if (48 <=? v) && (v <=? 57) then Some (v + 4)
  else match al with
       | StdEncoding => if v =? 43 then Some 62 else if v =? 47 then Some 63 else None
       | URLEncoding => if v =? 45 then Some 62 else if v =? 95 then Some 63 else None
       end.

Definition pad : ascii := "=".

(** [EncodeToString]: three bytes make the number [a<<16 | b<<8 | c], printed as
    four digits in base 64; a short last group is padded. *)
Fixpoint b64_encode (al : alphabet) (s : string) : string :=
  let ch n := b64_char al (Z.land n 63) in
  match s with
  | EmptyString => EmptyString
  | String a EmptyString =>
      let v := Z.shiftl (byte_val a) 16 in
      String (ch (Z.shiftr v 18)) (String (ch (Z.shiftr v 12)) (String pad (String pad "")))
  | String a (String b EmptyString) =>
      let v := Z.shiftl (byte_val a) 16 + Z.shiftl (byte_val b) 8 in
      String (ch (Z.shiftr v 18)) (String (ch (Z.shiftr v 12)) (String (ch (Z.shiftr v 6)) (String pad "")))
  | String a (String b (String c s')) =>
      let v := Z.shiftl (byte_val a) 16 + Z.shiftl (byte_val b) 8 + byte_val c in
      String (ch (Z.shiftr v 18)) (String (ch (Z.shiftr v 12)) (String (ch (Z.shiftr v 6))
        (String (ch v) (b64_encode al s'))))
  end.

(** The decoder skips carriage returns and line feeds wherever they are. *)
Fixpoint strip_newlines (s : string) : string :=
  match s with
  | EmptyString => EmptyString
  | String c s' =>
      if (byte_val c =? 10) || (byte_val c =? 13) then strip_newlines s'
      else String c (strip_newlines s')
  end.

Definition byte_at (v k : Z) : ascii := byte_of (Z.land (Z.shiftr v k) 255).

(** Groups of four; padding only closes the last group.  The bits a padded
    group drops are not checked ([enc.strict] is off). *)
Fixpoint decode_quanta (al : alphabet) (s : string) : option string :=
  match s with
  | EmptyString => Some EmptyString
  | String a (String b (String c (String d s'))) =>
      match b64_val al a, b64_val al b with
      | Some x, Some y =>
          match b64_val al c, b64_val al d with
          | Some z, Some w =>
              let v := Z.shiftl x 18 + Z.shiftl y 12 + Z.shiftl z 6 + w in
              r ← decode_quanta al s';
              Some (String (byte_at v 16) (String (byte_at v 8) (String (byte_at v 0) r)))
          | Some z, None =>
              let v := Z.shiftl x 18 + Z.shiftl y 12 + Z.shiftl z 6 in
              if Ascii.eqb d pad then
                match s' with
                | EmptyString => Some (String (byte_at v 16) (String (byte_at v 8) ""))
                | _ => None
                end
              else None
          | None, _ =>
              let v := Z.shiftl x 18 + Z.shiftl y 12 in
              if Ascii.eqb c pad && Ascii.eqb d pad then
                match s' with
                | EmptyString => Some (String (byte_at v 16) "")
                | _ => None
                end
              else None
          end
      | _, _ => None
      end
  | _ => None
  end.

(** [DecodeString]; [None] is a [CorruptInputError]. *)
Definition b64_decode (al : alphabet) (s : string) : option string :=
  decode_quanta al (strip_newlines s).

Lemma b64_val_char al n : 0 <= n < 64 -> b64_val al (b64_char al n) = Some n.
Proof.
  intros Hn.
  assert (Forall (fun k => b64_val al (b64_char al k) = Some k) (seqZ 0 64)) as H.
  { apply (bool_decide_eq_true_1 _). destruct al; vm_compute; reflexivity. }
  rewrite list.Forall_forall in H. apply H, elem_of_seqZ. lia.
Qed.

Lemma b64_val_pad al : b64_val al pad = None.
Proof. by destruct al. Qed.

Lemma land63 n : Z.land n 63 = n mod 64.
Proof. exact (Z.land_ones n 6 ltac:(lia)). Qed.

Lemma land255 n : Z.land n 255 = n mod 256.
Proof. exact (Z.land_ones n 8 ltac:(lia)). Qed.

Lemma land63_range n : 0 <= Z.land n 63 < 64.
Proof. rewrite land63. apply Z.mod_pos_bound. lia. Qed.

Ltac b64_arith :=
  rewrite ?land63, ?land255, ?Z.shiftl_mul_pow2, ?Z.shiftr_div_pow2 by lia;
  Z.div_mod_to_equations; lia.

Lemma byte_at_eq v k c :
  Z.land (Z.shiftr v k) 255 = byte_val c -> byte_at v k = c.
Proof. unfold byte_at. intros ->. apply byte_of_val. Qed.

Lemma decode_quanta_encode al s : decode_quanta al (b64_encode al s) = Some s.
Proof.
  assert (forall n s, (String.length s <= n)%nat -> decode_quanta al (b64_encode al s) = Some s) as H;
    [|by apply (H (String.length s) s)].
  clear s. intros n. induction n as [|n IH]; intros [|a [|b [|c s]]];
    cbn [b64_encode decode_quanta String.length]; intros Hn; try lia; try done.
  all: pose proof (byte_val_range a); try pose proof (byte_val_range b); try pose proof (byte_val_range c).
  all: rewrite ?b64_val_char by apply land63_range; rewrite ?b64_val_pad.
  - rewrite Ascii.eqb_refl. cbn [andb]. repeat f_equal; apply byte_at_eq; b64_arith.
  - rewrite Ascii.eqb_refl. cbn [andb]. repeat f_equal; apply byte_at_eq; b64_arith.
  - rewrite IH by lia. cbn [mbind option_bind]. repeat f_equal; apply byte_at_eq; b64_arith.
Qed.

Lemma b64_char_visible al n :
  0 <= n < 64 -> (byte_val (b64_char al n) =? 10) || (byte_val (b64_char al n) =? 13) = false.
Proof.
  intros Hn. unfold b64_char.
  repeat case_match; rewrite ?byte_val_of by lia; try lia; done.
Qed.

Lemma strip_newlines_encode al s : strip_newlines (b64_encode al s) = b64_encode al s.
Proof.
  assert (forall n s, (String.length s <= n)%nat ->
    strip_newlines (b64_encode al s) = b64_encode al s) as H; [|by apply (H (String.length s) s)].
  clear s. intros n. induction n as [|n IH]; intros [|a [|b [|c s]]];
    cbn [b64_encode strip_newlines String.length]; intros Hn; try lia; try done.
  all: rewrite ?b64_char_visible by apply land63_range; try done.
  by rewrite IH by lia.
Qed.

(** Decoding undoes encoding, for every byte string and both alphabets. *)
Lemma b64_decode_encode al s : b64_decode al (b64_encode al s) = Some s.
Proof. unfold b64_decode. by rewrite strip_newlines_encode, decode_quanta_encode. Qed.
