(* ===== verification/GoPath.v ===== *)
(** A model of the part of Go's [path/filepath] (on Unix) the program uses:
    [Clean], [Join], [Dir], [Base].  A path is parsed to whether it is rooted
    and its elements; [Clean] is the print of the normal form. *)
From S2P Require Import Prelude GoStrings.

(** ** Paths as elements *)
Definition normal_elem (c : string) : bool :=
  negb (String.eqb c "") && negb (String.eqb c ".") && negb (String.eqb c "..").

(** One element of the input, given the elements kept so far, last first. *)
Definition clean_step (rooted : bool) (stack : list string) (c : string) : list string :=
  if String.eqb c "" || String.eqb c "." then stack
  else if String.eqb c ".." then
    match stack with
    | top :: rest => if String.eqb top ".." then ".." :: stack else rest
    | [] => if rooted then [] else [".."]
    end
  else c :: stack.

Definition is_rooted (p : string) : bool := HasPrefix p "/".

Definition elems (p : string) : list string :=
  rev (foldl (clean_step (is_rooted p)) [] (split_byte "/" p)).

Definition render (rooted : bool) (cs : list string) : string :=
  match rooted, cs with
  | true, _ => "/" +:+ join "/" cs
  | false, [] => "."
  | false, _ => join "/" cs
  end.

(** [filepath.Clean] *)
Definition Clean (p : string) : string := render (is_rooted p) (elems p).

(** [filepath.Join] of two elements: empty ones are ignored. *)
Definition Join (a b : string) : string :=
  if String.eqb a "" then (if String.eqb b "" then "" else Clean b)
  else Clean (a +:+ "/" +:+ b).

(** What is before the last slash, slash included. *)
Fixpoint dir_part (p : string) : string :=
  match p with
  | EmptyString => EmptyString
  | String c p' =>
      if in_string "/" (String c p') then String c (dir_part p') else EmptyString
  end.

(** [filepath.Dir] *)
Definition Dir (p : string) : string := Clean (dir_part p).

(** ** The shape of a clean path

    Elements that go up come first, and only in a path that is not rooted. *)
Definition clean_elems (rooted : bool) (cs : list string) : Prop :=
  exists k ns, cs = repeat ".." k ++ ns /\ Forall normal_elem ns /\ (rooted = true -> k = 0%nat) /\
    Forall (fun c => in_string "/" c = false) ns.

Lemma normal_elem_spec c : normal_elem c <-> c <> "" /\ c <> "." /\ c <> "..".
Proof.
  unfold normal_elem. rewrite !Is_true_true, !andb_true_iff, !negb_true_iff, !String.eqb_neq. tauto.
Qed.

Lemma clean_step_clean rooted stack c :
  in_string "/" c = false ->
  clean_elems rooted (rev stack) -> clean_elems rooted (rev (clean_step rooted stack c)).
Proof.
  intros Hc Hs. unfold clean_step.
  destruct (String.eqb_spec c ""); [done|]. destruct (String.eqb_spec c "."); [done|]. simpl.
  destruct Hs as (k & ns & Hs & Hn & Hk & Hslash).
  destruct (String.eqb_spec c "..") as [->|].
  - destruct ns as [|x ns _] using rev_ind.
    + rewrite app_nil_r in Hs. apply (f_equal (@rev _)) in Hs. rewrite rev_involutive, rev_repeat in Hs.
      subst stack. destruct k as [|k]; simpl.
      * destruct rooted; [by exists 0%nat, []|]. by exists 1%nat, [].
      * change (rev (repeat ".." k) ++ [".."]) with (rev (repeat ".." (S k))).
        rewrite rev_repeat. exists (S (S k)), [].
        rewrite app_nil_r, <- repeat_cons. split_and!; [done|done|naive_solver|done].
    + rewrite app_assoc in Hs. apply (f_equal (@rev _)) in Hs. rewrite rev_involutive, rev_app_distr in Hs.
      simpl in Hs. subst stack. apply Forall_app in Hn as [Hn Hx]. apply Forall_app in Hslash as [Hsl _].
      apply Forall_cons_1 in Hx as [Hx _]. apply normal_elem_spec in Hx as (_ & _ & Hx).
      apply String.eqb_neq in Hx. rewrite Hx, rev_involutive. by exists k, ns.
  - simpl. rewrite Hs. exists k, (ns ++ [c]). rewrite app_assoc. split_and!; [done| |done|].
    + apply Forall_app. split; [done|]. constructor; [|done]. by apply normal_elem_spec.
    + apply Forall_app. split; [done|]. by constructor.
Qed.

Lemma fold_clean rooted l stack :
  Forall (fun w => in_string "/" w = false) l ->
  clean_elems rooted (rev stack) -> clean_elems rooted (rev (foldl (clean_step rooted) stack l)).
Proof.
  revert stack. induction l as [|c l IH]; intros stack Hl Hs; simpl; [done|].
  apply Forall_cons_1 in Hl as [Hc Hl]. apply IH; [done|]. by apply clean_step_clean.
Qed.

Lemma elems_clean p : clean_elems (is_rooted p) (elems p).
Proof.
  apply fold_clean; [apply split_byte_pieces|]. exists 0%nat, []. by split_and!.
Qed.

(** ** Parsing a clean path *)
Lemma clean_no_slash rooted cs :
  clean_elems rooted cs -> Forall (fun c => in_string "/" c = false) cs.
Proof.
  intros (k & ns & -> & _ & _ & H). apply Forall_app. split; [|done].
  by induction k; constructor.
Qed.

Lemma clean_nonempty rooted cs : clean_elems rooted cs -> Forall (fun c => c <> "") cs.
Proof.
  intros (k & ns & -> & H & _ & _). apply Forall_app. split; [by induction k; constructor|].
  eapply Forall_impl; [|exact H]. intros x Hx. by apply normal_elem_spec in Hx as [? _].
Qed.

Lemma split_join cs :
  cs <> [] -> Forall (fun c => in_string "/" c = false) cs -> split_byte "/" (join "/" cs) = cs.
Proof.
  intros Hne H. induction H as [|c cs Hc H IH]; [done|].
  destruct cs as [|c' cs]; [by apply split_byte_no_sep|].
  change (join "/" (c :: c' :: cs)) with (c +:+ String "/" (join "/" (c' :: cs))).
  rewrite split_byte_app by done. by rewrite IH.
Qed.

(** Cleaning clean elements keeps them. *)
Lemma foldl_clean_keeps rooted k ns :
  Forall normal_elem ns -> (rooted = true -> k = 0%nat) ->
  foldl (clean_step rooted) [] (repeat ".." k ++ ns) = rev (repeat ".." k ++ ns).
Proof.
  intros Hn Hk. rewrite foldl_app, rev_app_distr.
  assert (foldl (clean_step rooted) [] (repeat ".." k) = repeat ".." k) as ->.
  { destruct rooted; [by rewrite Hk|]. clear Hk. 
    assert (forall j, foldl (clean_step false) (repeat ".." j) (repeat ".." k) = repeat ".." (k + j)) as H.
    { induction k as [|k IH]; intros j; [done|]. cbn [repeat foldl].
      replace (clean_step false (repeat ".." j) "..") with (repeat ".." (S j)) by by destruct j.
      rewrite IH. f_equal. lia. }
    specialize (H 0%nat). by rewrite Nat.add_0_r in H. }
  rewrite rev_repeat. generalize (repeat ".." k). 
  induction Hn as [|c ns Hc Hn IH]; intros st; [done|].
  simpl. rewrite <- app_assoc. simpl. rewrite <- IH. f_equal.
  unfold clean_step. apply normal_elem_spec in Hc as (H1 & H2 & H3).
  apply String.eqb_neq in H1, H2, H3. by rewrite H1, H2, H3.
Qed.

Lemma clean_fold rooted cs :
  clean_elems rooted cs -> foldl (clean_step rooted) [] cs = rev cs.
Proof. intros (k & ns & -> & Hn & Hk & _). by apply foldl_clean_keeps. Qed.

Lemma render_rooted rooted cs : clean_elems rooted cs -> is_rooted (render rooted cs) = rooted.
Proof.
  intros H. destruct rooted; [done|]. unfold render.
  destruct cs as [|c cs]; [done|].
  pose proof (clean_no_slash _ _ H) as Hs. apply Forall_cons_1 in Hs as [Hs _].
  pose proof (clean_nonempty _ _ H) as Hn. apply Forall_cons_1 in Hn as [Hn _].
  destruct c as [|x c]; [done|]. simpl in Hs. apply orb_false_iff in Hs as [Hs _].
  unfold is_rooted, HasPrefix. rewrite Ascii.eqb_sym in Hs.
  destruct cs; cbn [join String.append strip_prefix]; by rewrite Hs.
Qed.

Lemma elems_render rooted cs : clean_elems rooted cs -> elems (render rooted cs) = cs.
Proof.
  intros H. unfold elems. rewrite render_rooted by done.
  pose proof (clean_no_slash _ _ H) as Hs. pose proof (clean_fold _ _ H) as Hf.
  destruct cs as [|c cs].
  - by destruct rooted.
  - destruct rooted; unfold render.
    + change ("/" +:+ join "/" (c :: cs)) with ("" +:+ String "/" (join "/" (c :: cs))).
      rewrite split_byte_app, split_join by done. cbn [foldl].
      cbn [foldl] in Hf. change (clean_step true [] "") with (@nil string). rewrite Hf. apply rev_involutive.
    + rewrite split_join, Hf by done. apply rev_involutive.
Qed.

(** [Clean] is idempotent, and a clean path is determined by its elements. *)
Lemma is_rooted_Clean p : is_rooted (Clean p) = is_rooted p.
Proof. apply render_rooted, elems_clean. Qed.

Lemma elems_Clean p : elems (Clean p) = elems p.
Proof. apply elems_render, elems_clean. Qed.

Lemma Clean_Clean p : Clean (Clean p) = Clean p.
Proof. unfold Clean at 1. by rewrite is_rooted_Clean, elems_Clean. Qed.

Lemma Clean_Join a b : Clean (Join a b) = if String.eqb a "" && String.eqb b "" then "." else Join a b.
Proof.
  unfold Join. destruct (String.eqb a ""); simpl; [|apply Clean_Clean].
  destruct (String.eqb b ""); [done|apply Clean_Clean].
Qed.

(** ** Paths inside a directory *)
Definition inside (d p : string) : Prop :=
  is_rooted p = is_rooted d /\
  exists es, es <> [] /\ Forall normal_elem es /\ elems p = elems d ++ es.

Lemma split_byte_join_app cs r :
  cs <> [] -> Forall (fun c => in_string "/" c = false) cs ->
  split_byte "/" (join "/" cs +:+ String "/" r) = cs ++ split_byte "/" r.
Proof.
  intros Hne H. induction H as [|c cs Hc H IH]; [done|].
  destruct cs as [|c' cs]; [by apply split_byte_app|].
  change (join "/" (c :: c' :: cs)) with (c +:+ String "/" (join "/" (c' :: cs))).
  rewrite string_app_assoc.
  change (String "/" (join "/" (c' :: cs)) +:+ String "/" r)
    with (String "/" (join "/" (c' :: cs) +:+ String "/" r)).
  rewrite split_byte_app by done. by rewrite IH.
Qed.

(** In a clean path nothing after an ordinary element goes up. *)
Lemma clean_after rooted xs c es :
  clean_elems rooted (xs ++ c :: es) -> c <> ".." -> Forall normal_elem es.
Proof.
  intros (k & ns & H & Hn & _ & _) Hc. clear rooted. revert xs H.
  induction k as [|k IH]; intros xs H; simpl in H.
  - rewrite <- H in Hn. apply Forall_app in Hn as [_ Hn]. by apply Forall_cons_1 in Hn as [_ Hn].
  - destruct xs as [|x xs]; simpl in H; injection H as H1 H2; [done|]. by eapply IH.
Qed.

Lemma render_slash_parse rooted ds cs r :
  clean_elems rooted ds -> clean_elems rooted cs ->
  render rooted cs = render rooted ds +:+ String "/" r ->
  ds <> [] /\ cs = ds ++ split_byte "/" r.
Proof.
  intros Hd Hc Hr.
  pose proof (clean_nonempty _ _ Hc) as Hne. pose proof (clean_no_slash _ _ Hc) as Hsc.
  pose proof (clean_no_slash _ _ Hd) as Hsd.
  assert (cs <> [] -> ds <> [] -> join "/" cs = join "/" ds +:+ String "/" r ->
          ds <> [] /\ cs = ds ++ split_byte "/" r) as Hmain.
  { intros Hcn Hdn Hj. split; [done|]. rewrite <- (split_join cs), Hj by done.
    by apply split_byte_join_app. }
  assert (forall r', render rooted cs = String "/" (String "/" r') -> rooted = true -> False) as Hrooted.
  { intros r' H ->. simpl in H. injection H as H. destruct cs as [|[|y c] cs]; [done| |].
    - by apply Forall_cons_1 in Hne as [Hne _].
    - apply Forall_cons_1 in Hsc as [Hsc _]. simpl in Hsc.
      apply orb_false_iff in Hsc as [Hsc _]. apply Ascii.eqb_neq in Hsc.
      destruct cs; simpl in H; congruence. }
  destruct rooted; simpl in Hr.
  - destruct ds as [|x ds]; [by destruct (Hrooted r Hr)|].
    injection Hr as Hr.
    apply Hmain; [|done|exact Hr].
    intros ->. apply (f_equal String.length) in Hr. simpl in Hr.
    rewrite string_length_app in Hr. simpl in Hr. lia.
  - assert (cs <> []) as Hcn.
    { intros ->. apply (f_equal (split_byte "/")) in Hr.
      destruct ds as [|x ds]; [change (render false []) with "." in Hr; rewrite (split_byte_app "/" ".") in Hr by done;
        injection Hr as Hr; by destruct (split_byte_nonempty "/" r)|].
      change (render false (x :: ds)) with (join "/" (x :: ds)) in Hr.
      rewrite split_byte_join_app in Hr by done. simpl in Hr. injection Hr as _ Hr.
      destruct ds; simpl in Hr; [|done]. by destruct (split_byte_nonempty "/" r). }
    destruct ds as [|x ds]; [exfalso|].
    + destruct cs as [|c cs]; [done|]. apply (f_equal (split_byte "/")) in Hr.
      change (render false (c :: cs)) with (join "/" (c :: cs)) in Hr.
      rewrite (split_byte_app "/" "."), split_join in Hr by done. injection Hr as -> _.
      destruct Hc as (k & ns & Hk & Hn & _). destruct k; simpl in Hk; [|done].
      subst ns. by apply Forall_cons_1 in Hn as [Hn _].
    + destruct cs as [|c cs]; [done|]. by apply Hmain.
Qed.

(** A path such as [..] or [../..]: its clean form ends in an element that goes up. *)
Definition goes_up (d : string) : bool :=
  match rev (elems d) with c :: _ => String.eqb c ".." | [] => false end.

(** The elements of [p] are those of [d] and more, which may go up. *)
Definition extends (d p : string) : Prop :=
  is_rooted p = is_rooted d /\ exists es, es <> [] /\ elems p = elems d ++ es.

Lemma inside_extends d p : inside d p -> extends d p.
Proof. intros [Hr (es & Hn & _ & He)]. split; [done|by exists es]. Qed.

Lemma extends_inside d p : goes_up d = false -> elems d <> [] -> extends d p -> inside d p.
Proof.
  intros Hlast Hdn [Hroot (es & Hes & Heq)]. split; [done|]. exists es. split_and!; [done| |done].
  pose proof (elems_clean p) as Hcp. rewrite Heq in Hcp.
  destruct (elems d) as [|c ds _] eqn:Ed using rev_ind; [done|].
  unfold goes_up in Hlast. rewrite Ed, rev_app_distr in Hlast. apply String.eqb_neq in Hlast.
  rewrite <- app_assoc in Hcp. by eapply clean_after.
Qed.

Lemma join_app sep ds es :
  ds <> [] -> es <> [] -> join sep (ds ++ es) = join sep ds +:+ sep +:+ join sep es.
Proof.
  intros Hd He. induction ds as [|d ds IH]; [done|].
  destruct ds as [|d' ds].
  - simpl. destruct es; done.
  - change ((d :: d' :: ds) ++ es) with (d :: (d' :: ds) ++ es).
    rewrite !join_cons, IH by done. by rewrite !string_app_assoc.
Qed.

(** What the test [HasPrefix(Clean(p), Clean(d) + "/")] means. *)
Lemma prefix_extends d p :
  HasPrefix (Clean p) (Clean d +:+ "/") = true -> elems d <> [] /\ extends d p.
Proof.
  intros Hp. apply HasPrefix_spec in Hp as [r Hr]. rewrite string_app_assoc in Hr. simpl in Hr.
  assert (is_rooted p = is_rooted d) as Hroot.
  { rewrite <- (is_rooted_Clean p), <- (is_rooted_Clean d), Hr.
    destruct (Clean d) as [|x s] eqn:Ed; [exfalso|
      unfold is_rooted, HasPrefix; cbn [String.append strip_prefix]; by destruct (Ascii.eqb "/" x)].
    pose proof (clean_nonempty _ _ (elems_clean d)) as Hn.
    unfold Clean, render in Ed. destruct (is_rooted d); [done|].
    destruct (elems d) as [|[|y c] ds]; [done| |].
    - by apply Forall_cons_1 in Hn as [Hn _].
    - by destruct ds. }
  pose proof (elems_clean p) as Hcp. pose proof (elems_clean d) as Hcd.
  unfold Clean in Hr. rewrite Hroot in Hr, Hcp.
  apply render_slash_parse in Hr as [Hdn Heq]; [|done..].
  split; [done|]. split; [done|]. exists (split_byte "/" r). by split; [apply split_byte_nonempty|].
Qed.

Lemma extends_prefix d p :
  elems d <> [] -> extends d p -> HasPrefix (Clean p) (Clean d +:+ "/") = true.
Proof.
  intros Hdn [Hr (es & Hes & He)]. apply HasPrefix_spec. exists (join "/" es).
  unfold Clean. rewrite Hr, He. destruct (elems d) as [|c ds] eqn:Ed; [done|].
  destruct (is_rooted d); unfold render.
  - rewrite join_app by done. by rewrite !string_app_assoc.
  - change ((c :: ds) ++ es) with (c :: (ds ++ es)) at 1. cbn match.
    rewrite join_app by done. by rewrite !string_app_assoc.
Qed.

Lemma elems_nil d : elems d = [] <-> Clean d = "." \/ Clean d = "/".
Proof.
  split.
  - unfold Clean. intros ->. destruct (is_rooted d); [by right|by left].
  - rewrite <- (elems_Clean d). by intros [-> | ->].
Qed.

(** Below a path that goes up, going up once more is not undone. *)
Lemma goes_up_Join d : goes_up d = true -> extends d (Join d "..").
Proof.
  intros Hup. destruct d as [|x d]; [done|]. set (p := String x d) in *.
  change (Join p "..") with (Clean (p +:+ String "/" "..")).
  unfold extends. rewrite is_rooted_Clean, elems_Clean.
  assert (is_rooted (p +:+ String "/" "..") = is_rooted p) as Hr.
  { unfold is_rooted, HasPrefix, p. cbn [String.append strip_prefix]. by destruct (Ascii.eqb "/" x). }
  split; [done|]. exists [".."]. split; [done|]. unfold goes_up, elems in *. rewrite Hr.
  rewrite split_byte_app_any, foldl_app. rewrite rev_involutive in Hup. cbn [split_byte Ascii.eqb Bool.eqb foldl].
  destruct (foldl _ [] _) as [|c st]; [done|]. apply String.eqb_eq in Hup as ->. done.
Qed.

(** Appending clean elements to a directory is what [Join] computes. *)
Lemma inside_not_self d p : inside d p -> Clean p <> Clean d.
Proof.
  intros [_ (es & Hes & _ & H)] Hc. apply (f_equal elems) in Hc. rewrite !elems_Clean, H in Hc.
  apply (f_equal length) in Hc. rewrite length_app in Hc. destruct es; [done|simpl in Hc; lia].
Qed.

Lemma inside_Clean d p : inside d p -> inside d (Clean p).
Proof. unfold inside. by rewrite is_rooted_Clean, elems_Clean. Qed.

(** ** [Dir] of a clean path drops its last element *)
Lemma in_string_app c a b : in_string c (a +:+ b) = in_string c a || in_string c b.
Proof. induction a as [|x a IH]; simpl; [done|]. by rewrite IH, orb_assoc. Qed.

Lemma dir_part_none b : in_string "/" b = false -> dir_part b = "".
Proof. intros H. destruct b as [|c b]; [done|]. cbn [dir_part]. by rewrite H. Qed.

Lemma dir_part_app a b :
  in_string "/" b = false -> dir_part (a +:+ String "/" b) = a +:+ "/".
Proof.
  intros Hb. induction a as [|c a IH].
  - cbn [String.append dir_part in_string]. by rewrite dir_part_none.
  - cbn [String.append dir_part in_string]. rewrite in_string_app. cbn [in_string].
    rewrite Ascii.eqb_refl, !orb_true_r. by rewrite IH.
Qed.

Lemma join_snoc sep cs c : cs <> [] -> join sep (cs ++ [c]) = join sep cs +:+ sep +:+ c.
Proof.
  induction cs as [|x cs IH]; [done|]. intros _. destruct cs as [|y cs]; [done|].
  change ((x :: y :: cs) ++ [c]) with (x :: (y :: cs) ++ [c]).
  rewrite !join_cons, IH by done. by rewrite !string_app_assoc.
Qed.

Lemma elems_of_split rooted p cs :
  is_rooted p = rooted -> clean_elems rooted cs ->
  List.filter (fun c => negb (String.eqb c "")) (split_byte "/" p) = cs -> elems p = cs.
Proof.
  intros Hr Hc Hs. unfold elems. rewrite Hr.
  assert (forall l st, foldl (clean_step rooted) st (List.filter (fun c => negb (String.eqb c "")) l)
                       = foldl (clean_step rooted) st l) as <-.
  { induction l as [|x l IH]; intros st; [done|]. simpl.
    destruct (String.eqb_spec x "") as [->|]; simpl; apply IH. }
  rewrite Hs, clean_fold by done. apply rev_involutive.
Qed.

Lemma filter_padded cs : Forall (fun c => c <> "") cs ->
  List.filter (fun c => negb (String.eqb c "")) (cs ++ [""]) = cs.
Proof.
  induction 1 as [|c cs Hc H IH]; [done|]. simpl. apply String.eqb_neq in Hc. by rewrite Hc, IH.
Qed.

Lemma elems_Dir p cs c :
  elems p = cs ++ [c] -> Clean p = p -> is_rooted (Dir p) = is_rooted p /\ elems (Dir p) = cs.
Proof.
  intros He Hp. pose proof (elems_clean p) as Hc. rewrite He in Hc.
  pose proof (clean_no_slash _ _ Hc) as Hs. apply Forall_app in Hs as [Hs Hsc].
  apply Forall_cons_1 in Hsc as [Hsc _].
  pose proof (clean_nonempty _ _ Hc) as Hn. apply Forall_app in Hn as [Hn _].
  assert (clean_elems (is_rooted p) cs) as Hcs.
  { destruct Hc as (k & ns & Hk & Hns & Hk0 & Hsl).
    destruct ns as [|x ns _] using rev_ind.
    - rewrite app_nil_r in Hk. destruct k as [|k]; [by destruct cs|].
      change (repeat ".." (S k)) with (".." :: repeat ".." k) in Hk. rewrite repeat_cons in Hk.
      apply app_inj_tail in Hk as [-> _]. exists k, []. rewrite app_nil_r.
      split_and!; [done|done| |done]. intros H%Hk0. done.
    - rewrite app_assoc in Hk. apply app_inj_tail in Hk as [-> _]. 
      apply Forall_app in Hns as [Hns _]. apply Forall_app in Hsl as [Hsl _]. by exists k, ns. }
  unfold Dir. rewrite is_rooted_Clean, elems_Clean.
  assert (dir_part p = dir_part (render (is_rooted p) (cs ++ [c]))) as ->.
  { f_equal. rewrite <- He. by symmetry. }
  clear Hc Hp He. revert Hcs. generalize (is_rooted p). intros rooted Hcs.
  destruct rooted; unfold render.
  - destruct cs as [|x cs]; [|set (l := x :: cs) in *].
    + change ("/" +:+ join "/" ([] ++ [c])) with ("" +:+ String "/" c).
      by rewrite dir_part_app.
    + assert ("/" +:+ join "/" (l ++ [c]) = (String "/" (join "/" l)) +:+ String "/" c) as ->.
      { rewrite join_snoc by done. done. }
      rewrite dir_part_app by done. split; [done|].
      apply (elems_of_split true); [done|done|].
      change (String "/" (join "/" l) +:+ "/") with ("" +:+ String "/" (join "/" l +:+ String "/" "")).
      rewrite split_byte_app, split_byte_join_app by done. exact (filter_padded l Hn).
  - destruct cs as [|x cs]; [|set (l := x :: cs) in *].
    + simpl. by rewrite dir_part_none.
    + assert (match l ++ [c] with [] => "." | _ :: _ => join "/" (l ++ [c]) end
              = join "/" l +:+ String "/" c) as ->.
      { rewrite join_snoc by done. done. }
      rewrite dir_part_app by done.
      assert (is_rooted (join "/" l +:+ "/") = false) as Hroot.
      { pose proof (render_rooted _ _ Hcs) as Hx. unfold l, render in Hx.
        change (is_rooted (join "/" l) = false) in Hx. 
        destruct (join "/" l) as [|y r] eqn:Ej.
        2: { revert Hx. unfold is_rooted, HasPrefix. cbn [String.append strip_prefix].
             by destruct (Ascii.eqb "/" y). }
        destruct x; [by apply Forall_cons_1 in Hn as [Hn _]|]. by destruct cs. }
      split; [done|]. apply (elems_of_split false); [done|done|].
      rewrite split_byte_join_app by done. by apply filter_padded.
Qed.
