(* ===== verification/GoOs.v ===== *)
(** A model of the file system calls ([os] and [io]) the program makes.

    A path is named by its clean form.  The working directory, the root and the
    directories above the working directory exist.  Every call that can fail
    for a reason outside the model (permissions, a full disk) asks a schedule
    of faults, so theorems hold whatever fails and when.  Symbolic links and
    two names of one file are not modelled. *)
From S2P Require Import Prelude GoStrings GoPath.

(** A fault: the error, and how much of the data a failing write had written. *)
Record fault : Type := MkFault { fault_error : error; fault_written : nat }.

Record FS : Type := MkFS {
  fs_dirs : gset string;
  fs_files : gmap string string;
  fs_fault : nat -> option fault;
  fs_calls : nat
}.

(** The directories a path goes through, itself last. *)
Definition prefixes (p : string) : list string :=
  map (fun n => render (is_rooted p) (take (S n) (elems p))) (seq 0 (length (elems p))).

Definition dir_exists (fs : FS) (p : string) : bool :=
  match elems p with
  | [] => true
  | _ => goes_up p || bool_decide (p ∈ fs_dirs fs)
  end.

Definition with_dir (p : string) (fs : FS) : FS :=
  MkFS ({[p]} ∪ fs_dirs fs) (fs_files fs) (fs_fault fs) (fs_calls fs).
Definition with_file (p data : string) (fs : FS) : FS :=
  MkFS (fs_dirs fs) (<[p := data]> (fs_files fs)) (fs_fault fs) (fs_calls fs).

(** The next entry of the schedule. *)
Definition os_call : GM FS (option fault) := fun fs =>
  (Val (fs_fault fs (fs_calls fs)),
   MkFS (fs_dirs fs) (fs_files fs) (fs_fault fs) (S (fs_calls fs))).

Definition ENOENT (p : string) : error := EExt ("no such file or directory: " +:+ p).
Definition ENOTDIR (p : string) : error := EExt ("not a directory: " +:+ p).
Definition EISDIR (p : string) : error := EExt ("is a directory: " +:+ p).

(** [os.MkdirAll]: the missing directories on the way, outermost first. *)
Fixpoint mkdirs (ps : list string) : GM FS (option error) :=
  match ps with
  | [] => gret None
  | p :: ps' => fun fs =>
      if dir_exists fs p then mkdirs ps' fs
      else match fs_files fs !! p with
           | Some _ => (Val (Some (ENOTDIR p)), fs)
           | None =>
               gbind os_call (fun f =>
                 match f with
                 | Some f => gret (Some (fault_error f))
                 | None => gbind (gmodify (with_dir p)) (fun _ => mkdirs ps')
                 end) fs
           end
  end.

Definition MkdirAll (path : string) : GM FS (option error) := mkdirs (prefixes path).

(** [os.OpenFile] with [O_WRONLY|O_CREATE|O_TRUNC]; [os.Create] is the same. *)
Definition OpenTrunc (path : string) : GM FS (option error) :=
  let! f := os_call in
  match f with
  | Some f => gret (Some (fault_error f))
  | None => fun fs =>
      if dir_exists fs (Clean path) then (Val (Some (EISDIR path)), fs)
      else if dir_exists fs (Dir path) then (Val None, with_file (Clean path) "" fs)
      else (Val (Some (ENOENT path)), fs)
  end.

(** [io.Copy] into a file just opened, from a reader that gives [data] and then
    ends or fails with [rerr]. *)
Definition CopyInto (path data : string) (rerr : option error) : GM FS (option error) :=
  let! f := os_call in
  match f with
  | Some f =>
      gmodify (with_file (Clean path) (String.substring 0 (fault_written f) data)) ;;;
      gret (Some (fault_error f))
  | None =>
      gmodify (with_file (Clean path) data) ;;;
      gret rerr
  end.

(** [os.ReadFile], [os.Open] and reading to the end. *)
Definition ReadFile (path : string) : GM FS (gores string) :=
  let! f := os_call in
  match f with
  | Some f => gret ("", Some (fault_error f))
  | None => fun fs =>
      match fs_files fs !! Clean path with
      | Some data => (Val (data, None), fs)
      | None => (Val ("", Some (ENOENT path)), fs)
      end
  end.

Lemma ReadFile_inv path fs data fs' :
  ReadFile path fs = (Val (data, None), fs') ->
  fs_files fs !! Clean path = Some data /\ fs_files fs' = fs_files fs.
Proof.
  unfold ReadFile, gbind, os_call. destruct (fs_fault fs (fs_calls fs)); cbn; [done|].
  destruct (fs_files fs !! Clean path) as [d|]; by intros [= <- <-].
Qed.

(** ** What a call may touch

    [confined d]: files change only inside [d]; directories only appear, inside
    [d] or on the way to it. *)
Definition confined (d : string) (fs fs' : FS) : Prop :=
  (forall p, ~ inside d p -> fs_files fs' !! p = fs_files fs !! p) /\
  fs_dirs fs ⊆ fs_dirs fs' /\
  (forall p, p ∈ fs_dirs fs' -> p ∈ fs_dirs fs \/ inside d p \/ p ∈ prefixes d).

#[export] Instance confined_preorder d : PreOrder (confined d).
Proof.
  split.
  - intros fs. split_and!; [done|done|by left].
  - intros f1 f2 f3 (Ha & Hb & Hc) (Ha' & Hb' & Hc'). split_and!.
    + intros p Hp. by rewrite Ha', Ha.
    + by etrans.
    + intros p Hp. destruct (Hc' p Hp) as [H|H]; [by apply Hc|by right].
Qed.

Definition stays {A} (d : string) (m : GM FS A) : Prop := forall fs, confined d fs (m fs).2.

Lemma stays_ret {A} d (a : A) : stays d (gret a).
Proof. intros fs. reflexivity. Qed.

Lemma stays_bind {A B} d (m : GM FS A) (k : A -> GM FS B) :
  stays d m -> (forall a, stays d (k a)) -> stays d (gbind m k).
Proof.
  intros Hm Hk fs. unfold gbind. specialize (Hm fs). destruct (m fs) as [[a|] fs1]; [|done].
  etrans; [exact Hm|apply Hk].
Qed.

Lemma stays_os_call d : stays d os_call.
Proof. intros fs. split_and!; simpl; [done|done|by left]. Qed.

Lemma stays_with_file d p data : inside d p -> stays d (gmodify (with_file p data)).
Proof.
  intros Hp fs. split_and!; simpl; [|done|by left].
  intros q Hq. rewrite lookup_insert_ne; [done|]. by intros ->.
Qed.

Lemma stays_mkdirs d ps :
  Forall (fun p => inside d p \/ p ∈ prefixes d) ps -> stays d (mkdirs ps).
Proof.
  induction 1 as [|p ps Hp Hps IH]; [apply stays_ret|]. intros fs. cbn [mkdirs].
  destruct (dir_exists fs p); [apply IH|].
  destruct (fs_files fs !! p); [reflexivity|].
  apply stays_bind; [apply stays_os_call|]. intros [f|]; [apply stays_ret|].
  apply stays_bind; [|by intros _]. intros fs1. split_and!; simpl; [done|set_solver|].
  intros q Hq. apply elem_of_union in Hq as [Hq|Hq]; [|by left].
  apply elem_of_singleton in Hq as ->. by right.
Qed.

Lemma stays_open d p : inside d p -> stays d (OpenTrunc p).
Proof.
  intros Hp. apply stays_bind; [apply stays_os_call|]. intros [f|]; [apply stays_ret|].
  intros fs. destruct (dir_exists fs (Clean p)); [reflexivity|].
  destruct (dir_exists fs (Dir p)); [|reflexivity].
  by apply (stays_with_file d (Clean p) ""), inside_Clean.
Qed.

Lemma stays_copy d p data rerr : inside d p -> stays d (CopyInto p data rerr).
Proof.
  intros Hp. apply stays_bind; [apply stays_os_call|].
  intros [f|]; (apply stays_bind; [by apply stays_with_file, inside_Clean|intros _; apply stays_ret]).
Qed.

Lemma stays_read d p : stays d (ReadFile p).
Proof.
  apply stays_bind; [apply stays_os_call|]. intros [f|]; [apply stays_ret|].
  intros fs. destruct (fs_files fs !! Clean p); reflexivity.
Qed.

#[export] Hint Resolve stays_ret stays_os_call stays_with_file stays_open stays_copy stays_read : mrva.

(** ** Prefixes of a path inside a directory *)
Lemma render_prefix_clean rooted cs n : clean_elems rooted cs -> clean_elems rooted (take n cs).
Proof.
  intros (k & ns & -> & Hn & Hk & Hs). rewrite take_app.
  exists (n `min` k)%nat, (take (n - length (repeat ".." k)) ns). split_and!.
  - f_equal. revert k Hk. induction n as [|n IH]; intros [|k] Hk; simpl; try done.
    f_equal. apply IH. intros H%Hk. done.
  - by apply Forall_take.
  - intros H%Hk. lia.
  - by apply Forall_take.
Qed.

Lemma inside_prefixes d p :
  inside d p -> Forall (fun q => inside d q \/ q ∈ prefixes d) (prefixes p).
Proof.
  intros (Hr & es & Hes & Hn & He). apply list.Forall_forall. intros q Hq.
  apply list_elem_of_In, in_map_iff in Hq as (n & <- & Hn'). apply in_seq in Hn' as [_ Hlt].
  simpl in Hlt. pose proof (render_prefix_clean _ _ (S n) (elems_clean p)) as Hcl.
  rewrite Hr in *. destruct (decide (S n <= length (elems d))%nat) as [Hle|Hgt].
  - right. apply list_elem_of_In, in_map_iff. exists n. split; [|apply in_seq; lia].
    by rewrite He, take_app_le by lia.
  - left. split; [by rewrite render_rooted|]. exists (take (S n - length (elems d)) es). split_and!.
    + destruct es; [done|]. destruct (S n - length (elems d))%nat eqn:E; [lia|done].
    + by apply Forall_take.
    + rewrite elems_render by done. rewrite He, take_app_ge by lia. done.
Qed.

Lemma inside_Dir_prefixes d p :
  inside d p -> Clean p = p ->
  Forall (fun q => inside d q \/ q ∈ prefixes d) (prefixes (Dir p)).
Proof.
  intros Hin Hp. pose proof Hin as (Hr & es & Hes & Hn & He).
  destruct es as [|e es _] using rev_ind; [done|]. rewrite app_assoc in He.
  destruct (elems_Dir p _ _ He Hp) as [HrD HeD].
  apply Forall_app in Hn as [Hn _].
  destruct (decide (es = [])) as [->|Hne].
  - apply list.Forall_forall. intros q Hq. right. revert Hq. unfold prefixes.
    by rewrite HrD, HeD, Hr, app_nil_r.
  - apply inside_prefixes. split; [congruence|]. by exists es.
Qed.

Lemma stays_mkdirall_dir d p : inside d p -> Clean p = p -> stays d (MkdirAll (Dir p)).
Proof. intros ??. by apply stays_mkdirs, inside_Dir_prefixes. Qed.

Lemma stays_mkdirall d p : inside d p -> stays d (MkdirAll p).
Proof. intros ?. by apply stays_mkdirs, inside_prefixes. Qed.

(** ** What a call does to the files when it reports no error *)
Lemma mkdirs_files ps fs o fs' : mkdirs ps fs = (o, fs') -> fs_files fs' = fs_files fs.
Proof.
  revert fs. induction ps as [|p ps IH]; intros fs; [by intros [= _ <-]|]. cbn [mkdirs].
  destruct (dir_exists fs p); [apply IH|].
  destruct (fs_files fs !! p); [by intros [= _ <-]|].
  unfold gbind, os_call. destruct (fs_fault fs (fs_calls fs)); [by intros [= _ <-]|].
  intros H. by apply IH in H.
Qed.

(** None of the calls panics. *)
Lemma mkdirs_total ps : total (mkdirs ps).
Proof.
  intros fs. revert fs. induction ps as [|p ps IH]; intros fs; [by do 2 eexists|]. cbn [mkdirs].
  destruct (dir_exists fs p); [apply IH|].
  destruct (fs_files fs !! p); [by do 2 eexists|].
  unfold gbind, os_call. destruct (fs_fault fs (fs_calls fs)); [by do 2 eexists|]. apply IH.
Qed.

Lemma MkdirAll_total p : total (MkdirAll p).
Proof. apply mkdirs_total. Qed.

Lemma os_call_total : total os_call.
Proof. intros fs. by do 2 eexists. Qed.

Lemma OpenTrunc_total p : total (OpenTrunc p).
Proof.
  apply total_bind; [apply os_call_total|]. intros [f|]; [apply total_ret|].
  intros fs. repeat case_match; by do 2 eexists.
Qed.

Lemma CopyInto_total p data rerr : total (CopyInto p data rerr).
Proof. apply total_bind; [apply os_call_total|]. intros [f|]; go_total. Qed.

Lemma ReadFile_total p : total (ReadFile p).
Proof.
  apply total_bind; [apply os_call_total|]. intros [f|]; [apply total_ret|].
  intros fs. repeat case_match; by do 2 eexists.
Qed.

#[export] Hint Resolve MkdirAll_total OpenTrunc_total CopyInto_total ReadFile_total : mrva.

Lemma OpenTrunc_files p fs fs' :
  OpenTrunc p fs = (Val None, fs') -> fs_files fs' = <[Clean p := ""]> (fs_files fs).
Proof.
  unfold OpenTrunc, gbind, os_call. destruct (fs_fault fs (fs_calls fs)); [done|].
  destruct (dir_exists _ (Clean p)); [done|]. destruct (dir_exists _ (Dir p)); [|done].
  by intros [= <-].
Qed.

Lemma CopyInto_files p data rerr fs fs' :
  CopyInto p data rerr fs = (Val None, fs') ->
  rerr = None /\ fs_files fs' = <[Clean p := data]> (fs_files fs).
Proof.
  unfold CopyInto, gbind, os_call. destruct (fs_fault fs (fs_calls fs)); [done|].
  by intros [= -> <-].
Qed.

(** ** [os.Stat]: [None] when the path names something *)
Inductive stat_error := NotExist | OtherError (e : error).

(** A file on the way to the path. *)
Definition through_file (fs : FS) (p : string) : bool :=
  existsb (fun q => negb (String.eqb q (Clean p)) && bool_decide (is_Some (fs_files fs !! q)))
    (prefixes p).

Definition Stat (path : string) : GM FS (option stat_error) :=
  let! f := os_call in
  match f with
  | Some f => gret (Some (OtherError (fault_error f)))
  | None => fun fs =>
      if dir_exists fs (Clean path) || bool_decide (is_Some (fs_files fs !! Clean path)) then (Val None, fs)
      else if through_file fs path then (Val (Some (OtherError (ENOTDIR path))), fs)
      else (Val (Some NotExist), fs)
  end.

(** [os.IsNotExist(err)] *)
Definition IsNotExist (err : option stat_error) : bool :=
  match err with Some NotExist => true | _ => false end.

(** ** Writing whole files, and removing trees *)

(** [os.WriteFile] *)
Definition WriteFile (path data : string) : GM FS (option error) :=
  let! err := OpenTrunc path in
  match err with
  | Some e => gret (Some e)
  | None => CopyInto path data None
  end.

(** [os.Mkdir] *)
Definition Mkdir (path : string) : GM FS (option error) :=
  let! f := os_call in
  match f with
  | Some f => gret (Some (fault_error f))
  | None => fun fs =>
      if dir_exists fs (Clean path) || bool_decide (is_Some (fs_files fs !! Clean path))
      then (Val (Some (EExt ("file exists: " +:+ path))), fs)
      else if dir_exists fs (Dir path) then (Val None, with_dir (Clean path) fs)
      else (Val (Some (ENOENT path)), fs)
  end.

(** The path itself and what is below it. *)
Definition under (d p : string) : bool :=
  Bool.eqb (is_rooted p) (is_rooted d) && bool_decide (elems d `prefix_of` elems p).

(** [os.RemoveAll]; the callers ignore its error. *)
Definition RemoveAll (path : string) : GM FS unit :=
  let! f := os_call in
  match f with
  | Some _ => gret tt
  | None => gmodify (fun fs =>
      MkFS (filter (fun p => under path p = false) (fs_dirs fs))
        (filter (fun kv => under path kv.1 = false) (fs_files fs)) (fs_fault fs) (fs_calls fs))
  end.

Lemma WriteFile_total p data : total (WriteFile p data).
Proof. apply total_bind; [apply OpenTrunc_total|]. intros [e|]; [apply total_ret|apply CopyInto_total]. Qed.

Lemma Mkdir_total p : total (Mkdir p).
Proof.
  apply total_bind; [apply os_call_total|]. intros [f|]; [apply total_ret|].
  intros fs. repeat case_match; by do 2 eexists.
Qed.

Lemma RemoveAll_total p : total (RemoveAll p).
Proof. apply total_bind; [apply os_call_total|]. intros [f|]; go_total. Qed.

#[export] Hint Resolve WriteFile_total Mkdir_total RemoveAll_total : mrva.

(** Nothing is left of a tree whose removal went through. *)
Lemma RemoveAll_removes path fs p :
  fs_fault fs (fs_calls fs) = None -> under path p = true ->
  fs_files (RemoveAll path fs).2 !! p = None /\ p ∉ fs_dirs (RemoveAll path fs).2.
Proof.
  intros Hf Hu. unfold RemoveAll, gbind, os_call. rewrite Hf. cbn. split.
  - apply map_lookup_filter_None. right. intros data _ Hn. cbn in Hn. congruence.
  - rewrite elem_of_filter. intros [Hn _]. congruence.
Qed.

Lemma RemoveAll_faults path fs : fs_fault (RemoveAll path fs).2 = fs_fault fs.
Proof. unfold RemoveAll, gbind, os_call. by destruct (fs_fault fs (fs_calls fs)). Qed.

(** ** The environment of a process, and its end

    What a constructor comes to: [os.Exit], or a value or an error. *)
Inductive startup (A : Type) : Type :=
| Exits (code : Z)
| Returns (r : error + A).
Arguments Exits {A} code.
Arguments Returns {A} r.

(** [os.Getenv], from [os.LookupEnv]. *)
Definition Getenv (LookupEnv : string -> option string) (name : string) : string := default "" (LookupEnv name).
