(* ===== verification/GoWalk.v ===== *)
(** [filepath.Walk] and [os.Rename] over the file system of [GoOs].

    [Walk] visits the paths below a root in lexical order, a directory before
    what it holds.  Every visit makes a call ([Lstat]), a directory one more (the
    names in it); a call that fails is given to the function, and both functions
    of the program return it at once.  [SkipDir] for a directory leaves out what
    is below it. *)
From stdpp Require Import sorting.
From S2P Require Import Prelude GoStrings GoPath GoOs.

(** ** The paths below a root, in the order of the walk *)
Fixpoint lex_le (p q : list string) : bool :=
  match p, q with
  | [], _ => true
  | _ :: _, [] => false
  | a :: p', b :: q' =>
      match String.compare a b with Lt => true | Gt => false | Eq => lex_le p' q' end
  end.

Definition entry_le (e1 e2 : string * bool) : Prop := lex_le (elems e1.1) (elems e2.1) = true.

#[export] Instance entry_le_dec e1 e2 : Decision (entry_le e1 e2).
Proof. unfold entry_le. apply _. Defined.

(** A path and whether it is a directory. *)
Definition entries (fs : FS) : list (string * bool) :=
  map (fun d => (d, true)) (elements (fs_dirs fs)) ++
  map (fun f => (f.1, false)) (map_to_list (fs_files fs)).

Definition tree (fs : FS) (root : string) : list (string * bool) :=
  merge_sort entry_le (List.filter (fun e => under root e.1) (entries fs)).

(** ** The walk *)
Inductive walk_result := WContinue | WSkipDir | WError (e : error).

Section walk.
Context {T : Type} (fn : string -> bool -> T -> GM FS (T * walk_result)).

Fixpoint visit (skip : option string) (l : list (string * bool)) (acc : T) : GM FS (T * option error) :=
  match l with
  | [] => gret (acc, None)
  | (path, isdir) :: l' =>
      if match skip with Some d => under d path | None => false end then visit skip l' acc
      else
        let! f := os_call in
        match f with
        | Some f => gret (acc, Some (fault_error f))
        | None =>
            let! f := (if isdir : bool then os_call else gret None) in
            match f with
            | Some f => gret (acc, Some (fault_error f))
            | None =>
                let! (acc', r) := fn path isdir acc in
                match r with
                | WContinue => visit None l' acc'
                | WSkipDir => visit (Some path) l' acc'
                | WError e => gret (acc', Some e)
                end
            end
        end
  end.

Definition Walk (root : string) (acc : T) : GM FS (T * option error) := fun fs =>
  match tree fs (Clean root) with
  | [] =>
      (let! f := os_call in
       gret (acc, Some (match f with Some f => fault_error f | None => ENOENT root end))) fs
  | l => visit None l acc fs
  end.
End walk.

(** [os.Rename] of a file. *)
Definition Rename (old new : string) : GM FS (option error) :=
  let! f := os_call in
  match f with
  | Some f => gret (Some (fault_error f))
  | None => fun fs =>
      match fs_files fs !! Clean old with
      | Some data =>
          if dir_exists fs (Clean new) then (Val (Some (EISDIR new)), fs)
          else if dir_exists fs (Dir new)
          then (Val None, MkFS (fs_dirs fs) (<[Clean new := data]> (delete (Clean old) (fs_files fs)))
                            (fs_fault fs) (fs_calls fs))
          else (Val (Some (ENOENT new)), fs)
      | None => (Val (Some (ENOENT old)), fs)
      end
  end.

(** ** What is visited *)
Lemma elem_of_entries fs p b :
  (p, b) ∈ entries fs <-> (b = true /\ p ∈ fs_dirs fs) \/ (b = false /\ is_Some (fs_files fs !! p)).
Proof.
  unfold entries. rewrite elem_of_app, !list_elem_of_In, !in_map_iff. split.
  - intros [(d & [= <- <-] & H)|([f data] & [= <- <-] & H)]; apply list_elem_of_In in H.
    + left. split; [done|]. by apply elem_of_elements.
    + right. split; [done|]. apply elem_of_map_to_list in H. by eexists.
  - intros [[-> H]|[-> [data H]]]; [left; exists p|right; exists (p, data)]; (split; [done|]).
    + by apply list_elem_of_In, elem_of_elements.
    + by apply list_elem_of_In, elem_of_map_to_list.
Qed.

Lemma elem_of_tree fs root p b :
  (p, b) ∈ tree fs root <-> under root p = true /\ (p, b) ∈ entries fs.
Proof.
  unfold tree. rewrite (merge_sort_Permutation entry_le). rewrite !list_elem_of_In, filter_In. simpl. tauto.
Qed.
