(* ===== verification/GoUrl.v ===== *)
(** The part of Go's [net/url] the program uses: [Parse], up to the host and the
    path of the URL it gives, and [Hostname].

    Errors are told apart by their place only. *)
From S2P Require Import Prelude GoStrings.

(** ** Cutting strings *)

(** [strings.Cut] at a byte: what is after it, if it is there. *)
Fixpoint cut (sep : ascii) (s : string) : string * option string :=
  match s with
  | EmptyString => (EmptyString, None)
  | String c s' =>
      if Ascii.eqb c sep then (EmptyString, Some s')
      else let '(before, after) := cut sep s' in (String c before, after)
  end.

(** At the last occurrence. *)
Fixpoint cut_last (sep : ascii) (s : string) : option (string * string) :=
  match s with
  | EmptyString => None
  | String c s' =>
      match cut_last sep s' with
      | Some (before, after) => Some (String c before, after)
      | None => if Ascii.eqb c sep then Some (EmptyString, s') else None
      end
  end.

(** At the first occurrence of a string, which is kept with what is after it. *)
Fixpoint cut_before (sep s : string) : option (string * string) :=
  if HasPrefix s sep then Some (EmptyString, s)
  else match s with
       | EmptyString => None
       | String c s' =>
           match cut_before sep s' with
           | Some (before, rest) => Some (String c before, rest)
           | None => None
           end
       end.

Fixpoint all_bytes (f : ascii -> bool) (s : string) : bool :=
  match s with EmptyString => true | String c s' => f c && all_bytes f s' end.

Lemma cut_app sep a s :
  in_string sep a = false -> cut sep (a +:+ s) = (a +:+ (cut sep s).1, (cut sep s).2).
Proof.
  induction a as [|c a IH]; cbn [String.append in_string cut]; [by destruct (cut sep s)|].
  intros [Hc Ha]%orb_false_iff. rewrite Hc. by rewrite (IH Ha).
Qed.

(** ** Bytes *)
Definition between (lo hi : Z) (c : ascii) : bool := (lo <=? byte_val c) && (byte_val c <=? hi).
Definition is_letter (c : ascii) : bool := between 97 122 c || between 65 90 c.
Definition is_digit (c : ascii) : bool := between 48 57 c.
Definition is_hex (c : ascii) : bool := is_digit c || between 97 102 c || between 65 70 c.
Definition unhex (c : ascii) : Z :=
  if is_digit c then byte_val c - 48
  else if between 97 102 c then byte_val c - 97 + 10 else byte_val c - 65 + 10.
Definition one_of (set : string) (c : ascii) : bool := in_string c set.

Definition double_quote : string := String (byte_of 34) "".

(** ** [unescape] *)
Inductive encoding := encodeHost | encodeZone | encodeOther.

Definition in_host (m : encoding) : bool := match m with encodeOther => false | _ => true end.

(** [shouldEscape] for the modes of a host, the only ones it is asked for here. *)
Definition shouldEscape (c : ascii) : bool :=
  negb (is_letter c || is_digit c || one_of ("!$&'()*+,;=:[]<>" +:+ double_quote) c || one_of "-_.~" c).

(** What follows a percent sign is allowed in the mode. *)
Definition escape_ok (m : encoding) (h l : ascii) : bool :=
  is_hex h && is_hex l &&
  (let is25 := Ascii.eqb h "2" && Ascii.eqb l "5" in
   let v := byte_of (unhex h * 16 + unhex l) in
   match m with
   | encodeHost => (8 <=? unhex h) || is25
   | encodeZone => is25 || Ascii.eqb v " " || negb (shouldEscape v)
   | encodeOther => true
   end).

Fixpoint unescape (m : encoding) (s : string) : option string :=
  match s with
  | EmptyString => Some EmptyString
  | String c s' =>
      if Ascii.eqb c "%" then
        match s' with
        | String h (String l s'') =>
            if escape_ok m h l then
              rest ← unescape m s''; Some (String (byte_of (unhex h * 16 + unhex l)) rest)
            else None
        | _ => None
        end
      else if in_host m && (byte_val c <? 128) && shouldEscape c then None
      else rest ← unescape m s'; Some (String c rest)
  end.

(** ** The authority *)
Definition validOptionalPort (port : string) : bool :=
  match port with
  | EmptyString => true
  | String c digits => Ascii.eqb c ":" && all_bytes is_digit digits
  end.

Definition parseHost (host : string) : option string :=
  if HasPrefix host "[" then
    match cut_last "]" host with
    | None => None
    | Some (before, colonPort) =>
        if negb (validOptionalPort colonPort) then None
        else match cut_before "%25" before with
             | Some (address, zone) =>
                 host1 ← unescape encodeHost address;
                 host2 ← unescape encodeZone zone;
                 host3 ← unescape encodeHost ("]" +:+ colonPort);
                 Some (host1 +:+ host2 +:+ host3)
             | None => unescape encodeHost host
             end
    end
  else
    match cut_last ":" host with
    | Some (_, digits) => if negb (validOptionalPort (":" +:+ digits)) then None else unescape encodeHost host
    | None => unescape encodeHost host
    end.

Definition validUserinfo (s : string) : bool :=
  all_bytes (fun c => is_letter c || is_digit c || one_of "-._:~!$&'()*+,;=%@" c) s.

Definition parse_userinfo (userinfo : string) : bool :=
  validUserinfo userinfo &&
  match cut ":" userinfo with
  | (username, after) =>
      bool_decide (is_Some (unescape encodeOther username)) &&
      bool_decide (is_Some (unescape encodeOther (default "" after)))
  end.

Definition parseAuthority (authority : string) : option string :=
  match cut_last "@" authority with
  | None => parseHost authority
  | Some (userinfo, hostpart) =>
      host ← parseHost hostpart;
      if parse_userinfo userinfo then Some host else None
  end.

(** ** [Parse] *)
Record URL : Type := MkURL { u_Scheme : string; u_Host : string; u_Path : string }.

Definition schemeless (c : ascii) : bool := negb (is_letter c || is_digit c || one_of "+-." c).

(** The loop of [getScheme] from the second byte on: the scheme so far is not
    empty. [None] is no scheme. *)
Fixpoint scheme_loop (s : string) : option (string * string) :=
  match s with
  | EmptyString => None
  | String c s' =>
      if Ascii.eqb c ":" then Some (EmptyString, s')
      else if schemeless c then None
      else '(scheme, rest) ← scheme_loop s'; Some (String c scheme, rest)
  end.

(** [None] is the error: a colon comes first. *)
Definition getScheme (rawURL : string) : option (string * string) :=
  match rawURL with
  | String c s' =>
      if Ascii.eqb c ":" then None
      else if is_letter c then
        match scheme_loop s' with
        | Some (scheme, rest) => Some (String c scheme, rest)
        | None => Some ("", rawURL)
        end
      else Some ("", rawURL)
  | EmptyString => Some ("", rawURL)
  end.

(** The query is cut off; a single question mark at the end counts as one. *)
Definition parse (rawURL : string) : option URL :=
  if negb (all_bytes (fun c => (32 <=? byte_val c) && negb (byte_val c =? 127)) rawURL) then None
  else if String.eqb rawURL "*" then Some (MkURL "" "" "*")
  else
    '(scheme, rest) ← getScheme rawURL;
    let rest := fst (cut "?" rest) in
    if negb (HasPrefix rest "/") && negb (String.eqb scheme "") then Some (MkURL scheme "" "")
    else if negb (HasPrefix rest "/") && in_string ":" (fst (cut "/" rest)) then None
    else if (negb (String.eqb scheme "") || negb (HasPrefix rest "///")) && HasPrefix rest "//" then
      let authority := String.substring 2 (String.length rest) rest in
      let '(authority, after) := cut "/" authority in
      host ← parseAuthority authority;
      path ← unescape encodeOther (match after with Some p => "/" +:+ p | None => "" end);
      Some (MkURL scheme host path)
    else path ← unescape encodeOther rest; Some (MkURL scheme "" path).

Definition Parse (rawURL : string) : option URL :=
  let '(u, frag) := cut "#" rawURL in
  url ← parse u;
  _ ← unescape encodeOther (default "" frag);
  Some url.

Definition Hostname (u : URL) : string :=
  let host := match cut_last ":" (u_Host u) with
              | Some (before, port) => if validOptionalPort (":" +:+ port) then before else u_Host u
              | None => u_Host u
              end in
  match host with
  | String "[" host' =>
      match cut_last "]" host' with Some (inner, EmptyString) => inner | _ => host end
  | _ => host
  end.

(** ** A URL with a host is not the host of a URL

    The scheme, with its colon, is what the string begins with; it has neither a
    slash nor a question mark. *)
Definition scheme_prefix (pre : string) : Prop := in_string "/" pre = false /\ in_string "?" pre = false.

Lemma scheme_prefix_cons c pre :
  Ascii.eqb c "/" = false -> Ascii.eqb c "?" = false -> scheme_prefix pre -> scheme_prefix (String c pre).
Proof. unfold scheme_prefix. cbn [in_string]. by intros -> -> [-> ->]. Qed.

Lemma not_schemeless c : schemeless c = false -> Ascii.eqb c "/" = false /\ Ascii.eqb c "?" = false.
Proof. intros H. split; apply not_true_is_false; intros Hc%Ascii.eqb_eq; subst c; by vm_compute in H. Qed.

Lemma scheme_loop_prefix s scheme rest :
  scheme_loop s = Some (scheme, rest) -> exists pre, s = pre +:+ rest /\ scheme_prefix pre.
Proof.
  revert scheme. induction s as [|c s IH]; intros scheme; [done|]. cbn [scheme_loop].
  destruct (Ascii.eqb_spec c ":") as [->|_]; [intros [= _ <-]; by exists ":"|].
  destruct (schemeless c) eqn:Hc; [done|]. apply not_schemeless in Hc as [H1 H2].
  intros ([scheme' rest'] & Hloop & [= _ <-])%bind_Some. apply IH in Hloop as (pre & -> & Hpre).
  exists (String c pre). split; [done|]. by apply scheme_prefix_cons.
Qed.

Lemma getScheme_prefix s scheme rest :
  getScheme s = Some (scheme, rest) -> exists pre, s = pre +:+ rest /\ scheme_prefix pre.
Proof.
  assert (Some ("", s) = Some (scheme, rest) -> exists pre, s = pre +:+ rest /\ scheme_prefix pre) as Hnone
    by (intros [= _ <-]; by exists "").
  destruct s as [|c s]; cbn [getScheme]; [done|]. destruct (Ascii.eqb c ":"); [done|].
  destruct (is_letter c) eqn:Hl; [|done]. destruct (scheme_loop s) as [[scheme' rest']|] eqn:Hloop; [|done].
  intros [= _ <-]. apply scheme_loop_prefix in Hloop as (pre & -> & Hpre).
  exists (String c pre). split; [done|].
  apply scheme_prefix_cons; [..|done]; apply not_true_is_false; intros ->%Ascii.eqb_eq; by vm_compute in Hl.
Qed.

(** Up to its query such a URL is its scheme and two slashes with more after them. *)
Lemma parse_host_form raw u :
  parse raw = Some u -> u_Host u <> "" ->
  exists pre x, (cut "?" raw).1 = pre +:+ "//" +:+ x /\ in_string "/" pre = false.
Proof.
  unfold parse. intros H Hhost. destruct (negb (all_bytes _ raw)); [done|].
  destruct (String.eqb raw "*"); [by injection H as <-|].
  apply bind_Some in H as ([scheme rest] & Hs & H). apply getScheme_prefix in Hs as (pre & -> & H1 & H2).
  rewrite cut_app by done. cbn [fst].
  destruct (_ && negb (String.eqb scheme "")); [by injection H as <-|]. destruct (_ && in_string _ _); [done|].
  destruct (HasPrefix (cut "?" rest).1 "//") eqn:Hp.
  - apply HasPrefix_spec in Hp as [r ->]. by exists pre, r.
  - rewrite andb_false_r in H. by apply bind_Some in H as (path & _ & [= <-]).
Qed.

Lemma substring_skip2 a b s n : String.substring 2 (S (S n)) (String a (String b s)) = String.substring 0 (S (S n)) s.
Proof. done. Qed.

Lemma substring_longer s n : (String.length s <= n)%nat -> String.substring 0 n s = s.
Proof.
  revert n. induction s as [|c s IH]; intros [|n] Hn; try done; [cbn in Hn; lia|]. cbn. f_equal. apply IH. cbn in Hn. lia.
Qed.

Lemma parse_http raw v pre x :
  parse ("http://" +:+ raw) = Some v -> (cut "?" raw).1 = pre +:+ "//" +:+ x -> in_string "/" pre = false ->
  exists p, u_Path v = "//" +:+ p.
Proof.
  unfold parse. destruct (negb _); [done|]. change (String.eqb _ "*") with false.
  change (getScheme ("http://" +:+ raw)) with (Some ("http", "//" +:+ raw)). cbn [mbind option_bind].
  rewrite cut_app by done. cbn [fst]. intros H Hcut Hpre. rewrite Hcut in H. cbn [HasPrefix] in H.
  change (HasPrefix ("//" +:+ _) "/") with true in H. change (HasPrefix ("//" +:+ _) "//") with true in H.
  cbn [negb andb orb String.eqb] in H.
  change ("//" +:+ pre +:+ "//" +:+ x) with (String "/" (String "/" (pre +:+ "//" +:+ x))) in H.
  cbn [String.length] in H. rewrite substring_skip2, substring_longer, cut_app in H by (done || lia). cbn in H.
  apply bind_Some in H as (host & _ & H). apply bind_Some in H as (path & Hpath & [= <-]). cbn [u_Path].
  cbn in Hpath. apply bind_Some in Hpath as (path1 & Hpath & [= <-]).
  apply bind_Some in Hpath as (path2 & _ & [= <-]). by exists path2.
Qed.

Lemma Parse_host_http raw u v :
  Parse raw = Some u -> u_Host u <> "" -> Parse ("http://" +:+ raw) = Some v -> exists p, u_Path v = "//" +:+ p.
Proof.
  unfold Parse. rewrite (cut_app "#" "http://") by done. destruct (cut "#" raw) as [before frag]. cbn [fst snd].
  intros (u' & Hp & H)%bind_Some Hh (v' & Hv & H')%bind_Some.
  apply bind_Some in H as (_ & _ & [= ->]). apply bind_Some in H' as (_ & _ & [= ->]).
  apply parse_host_form in Hp as (pre & x & Hcut & Hpre); [|done]. by eapply parse_http.
Qed.

Lemma Hostname_host u : Hostname u <> "" -> u_Host u <> "".
Proof. unfold Hostname. intros H Hh. by rewrite Hh in H. Qed.
