(* ===== verification/Archive.v ===== *)
(** [utils/archive.go] and [utils/download.go]: unpacking archives and the
    check of an uploaded query pack.

    The readers of [archive/zip], [archive/tar] and [compress/gzip] are
    parameters: functions from the bytes of a file to the entries the reader
    gives, an entry's data being what can be read before the end or an error. *)
From S2P Require Import Prelude GoStrings GoPath GoOs GoBase64.

(** ** Entries *)
Record ZipEntry : Type := MkZip {
  ze_name : string;
  ze_isdir : bool;
  ze_open : option error;  (* what [f.Open] reports *)
  ze_data : string;
  ze_read : option error   (* how reading [ze_data] ends *)
}.

(** What successive calls of [tar.Reader.Next] give, up to the end. *)
Inductive TarItem : Type :=
| TarEntry (name : string) (isdir : bool) (data : string) (read : option error)
| TarFail (e : error).

(** [strings.HasPrefix(filepath.Clean(fPath), filepath.Clean(dest)+"/")] *)
Definition legal_path (dest fPath : string) : bool :=
  HasPrefix (Clean fPath) (Clean dest +:+ "/").

Definition illegal (fPath : string) : error := EText ("illegal file path: " +:+ fPath).

(** Run [m] and return its error, or go on. *)
Definition or_return (m : GM FS (option error)) (k : GM FS (option error)) : GM FS (option error) :=
  let! err := m in match err with Some e => gret (Some e) | None => k end.

(** ** [UnzipFile] *)
Fixpoint unzip_loop (dest : string) (files : list ZipEntry) : GM FS (option error) :=
  match files with
  | [] => gret None
  | f :: files' =>
      let fPath := Join dest (ze_name f) in
      if negb (legal_path dest fPath) then gret (Some (illegal fPath))
      else if ze_isdir f then or_return (MkdirAll fPath) (unzip_loop dest files')
      else
        or_return (MkdirAll (Dir fPath))
        (or_return (OpenTrunc fPath)
        (match ze_open f with
         | Some e => gret (Some e)
         | None => or_return (CopyInto fPath (ze_data f) (ze_read f)) (unzip_loop dest files')
         end))
  end.

Definition UnzipFile (zip_reader : string -> error + list ZipEntry) (zipFile dest : string)
    : GM FS (option error) :=
  let! (bytes, err) := ReadFile zipFile in
  match err with
  | Some e => gret (Some e)
  | None =>
      match zip_reader bytes with
      | inl e => gret (Some e)
      | inr files => unzip_loop dest files
      end
  end.

(** ** [Untar] and [UntarGz] *)
Fixpoint Untar (items : list TarItem) (dest : string) : GM FS (option error) :=
  match items with
  | [] => gret None
  | TarFail err :: _ => gret (Some err)
  | TarEntry name isdir data read :: items' =>
      let fPath := Join dest name in
      if negb (legal_path dest fPath) then gret (Some (illegal fPath))
      else if isdir then or_return (MkdirAll fPath) (Untar items' dest)
      else
        or_return (MkdirAll (Dir fPath))
        (or_return (OpenTrunc fPath)
        (or_return (CopyInto fPath data read) (Untar items' dest)))
  end.

Definition UntarGz (tgz_reader : string -> error + list TarItem) (tarGzFile dest : string)
    : GM FS (option error) :=
  let! (bytes, err) := ReadFile tarGzFile in
  match err with
  | Some e => gret (Some e)
  | None =>
      match tgz_reader bytes with
      | inl e => gret (Some e)
      | inr items => Untar items dest
      end
  end.

(** ** [IsBase64Gzip]

    [base64.Decode] of the first four characters writes at most three bytes to
    a zeroed buffer of three. *)
Definition gzip_magic : string := String (byte_of 31) (String (byte_of 139) "").

Definition IsBase64Gzip (val : string) : bool :=
  if 4 <=? slen val then
    match b64_decode StdEncoding (String.substring 0 4 val) with
    | None => false
    | Some decoded =>
        let hdr := String.substring 0 3 (decoded +:+ String "000" (String "000" (String "000" ""))) in
        String.eqb (String.substring 0 2 hdr) gzip_magic
    end
  else false.

(** ** [downloadFile]: [fetched] is what [http.Get] gives, a transport error or
    the body and how reading it ends.  The status code is not looked at. *)
Definition downloadFile (fetched : error + string * option error) (dest : string)
    : GM FS (option error) :=
  match fetched with
  | inl e => gret (Some (EWrap "failed to download file" e))
  | inr (body, read) =>
      let! err := OpenTrunc dest in
      match err with
      | Some e => gret (Some (EWrap "failed to create file" e))
      | None =>
          let! err := CopyInto dest body read in
          match err with
          | Some e => gret (Some (EWrap "failed to copy file content" e))
          | None => gret None
          end
      end
  end.

(** ** Containment *)
Lemma legal_inside dest p : goes_up dest = false -> legal_path dest p = true -> inside dest p.
Proof. intros Hd [Hn He]%prefix_extends. by apply extends_inside. Qed.

Lemma legal_join_clean dest name :
  legal_path dest (Join dest name) = true -> Clean (Join dest name) = Join dest name.
Proof.
  rewrite Clean_Join. unfold legal_path. rewrite Clean_Join.
  destruct (String.eqb_spec dest ""), (String.eqb_spec name ""); subst; simpl; done.
Qed.

Lemma stays_or_return d m k : stays d m -> stays d k -> stays d (or_return m k).
Proof. intros Hm Hk. apply stays_bind; [done|]. intros [e|]; [apply stays_ret|done]. Qed.

Lemma stays_extract d fPath data read k :
  inside d fPath -> Clean fPath = fPath -> stays d k ->
  stays d (or_return (MkdirAll (Dir fPath))
    (or_return (OpenTrunc fPath) (or_return (CopyInto fPath data read) k))).
Proof.
  intros Hin Hcl Hk. apply stays_or_return; [by apply stays_mkdirall_dir|].
  apply stays_or_return; [by apply stays_open|]. apply stays_or_return; [by apply stays_copy|done].
Qed.

Lemma Untar_stays dest items : goes_up dest = false -> stays dest (Untar items dest).
Proof.
  intros Hd. induction items as [|[name isdir data read|e] items IH]; [apply stays_ret| |apply stays_ret].
  cbn [Untar]. destruct (legal_path dest (Join dest name)) eqn:Hl; [|apply stays_ret]. simpl.
  pose proof (legal_join_clean _ _ Hl) as Hc. apply legal_inside in Hl; [|done].
  destruct isdir; [|by apply stays_extract].
  apply stays_or_return; [by apply stays_mkdirall|done].
Qed.

Lemma unzip_loop_stays dest files : goes_up dest = false -> stays dest (unzip_loop dest files).
Proof.
  intros Hd. induction files as [|f files IH]; [apply stays_ret|].
  cbn [unzip_loop]. destruct (legal_path dest (Join dest (ze_name f))) eqn:Hl; [|apply stays_ret]. simpl.
  pose proof (legal_join_clean _ _ Hl) as Hc. apply legal_inside in Hl; [|done].
  destruct (ze_isdir f); [apply stays_or_return; [by apply stays_mkdirall|done]|].
  destruct (ze_open f); [|by apply stays_extract].
  apply stays_or_return; [by apply stays_mkdirall_dir|].
  apply stays_or_return; [by apply stays_open|apply stays_ret].
Qed.

(** C10.  Zip slip is mitigated: whatever an archive holds and whatever fails on
    the way, unpacking it into [dest] changes no file outside [dest], and makes
    no directory that is neither inside [dest] nor on the way to it; unless
    [dest] is itself a path of the form [..]. *)
Theorem unpacking_is_confined zip_reader tgz_reader file dest fs :
  goes_up dest = false ->
  confined dest fs (UnzipFile zip_reader file dest fs).2 /\
  confined dest fs (UntarGz tgz_reader file dest fs).2.
Proof.
  intros Hd. split; revert fs; (apply stays_bind; [apply stays_read|]);
    intros [bytes [e|]]; try apply stays_ret.
  - destruct (zip_reader bytes); [apply stays_ret|by apply unzip_loop_stays].
  - destruct (tgz_reader bytes); [apply stays_ret|by apply Untar_stays].
Qed.

(** ** What ends up in the destination *)
Definition apply_item (dest : string) (files : gmap string string) (it : TarItem) : gmap string string :=
  match it with
  | TarEntry name false data _ => <[Join dest name := data]> files
  | _ => files
  end.

Definition apply_zip (dest : string) (files : gmap string string) (f : ZipEntry) : gmap string string :=
  if ze_isdir f then files else <[Join dest (ze_name f) := ze_data f]> files.

Lemma or_return_inv m k fs fs' :
  or_return m k fs = (Val None, fs') -> exists fs1, m fs = (Val None, fs1) /\ k fs1 = (Val None, fs').
Proof.
  intros H. unfold or_return in H. apply gbind_val_inv in H as ([e|] & fs1 & H1 & H2); [done|]. eauto.
Qed.

Lemma extract_files fPath data read k fs fs' :
  Clean fPath = fPath ->
  or_return (MkdirAll (Dir fPath))
    (or_return (OpenTrunc fPath) (or_return (CopyInto fPath data read) k)) fs = (Val None, fs') ->
  exists fs1, fs_files fs1 = <[fPath := data]> (fs_files fs) /\ k fs1 = (Val None, fs').
Proof.
  intros Hc H. apply or_return_inv in H as (fs1 & H1 & H). apply or_return_inv in H as (fs2 & H2 & H).
  apply or_return_inv in H as (fs3 & H3 & H). exists fs3. split; [|done].
  apply mkdirs_files in H1. apply OpenTrunc_files in H2. apply CopyInto_files in H3 as [_ H3].
  by rewrite H3, H2, H1, Hc, insert_insert_eq.
Qed.

Lemma Untar_files items dest fs fs' :
  Untar items dest fs = (Val None, fs') ->
  fs_files fs' = foldl (apply_item dest) (fs_files fs) items.
Proof.
  revert fs. induction items as [|[name isdir data read|e] items IH]; intros fs; [by intros [= <-]| |done].
  cbn [Untar]. destruct (legal_path dest (Join dest name)) eqn:Hl; [|done]. simpl.
  apply legal_join_clean in Hl. destruct isdir; intros H.
  - apply or_return_inv in H as (fs1 & H1 & H). apply mkdirs_files in H1. by rewrite (IH _ H), H1.
  - apply extract_files in H as (fs1 & H1 & H); [|done]. by rewrite (IH _ H), H1.
Qed.

Lemma unzip_loop_files files dest fs fs' :
  unzip_loop dest files fs = (Val None, fs') ->
  fs_files fs' = foldl (apply_zip dest) (fs_files fs) files.
Proof.
  revert fs. induction files as [|f files IH]; intros fs; [by intros [= <-]|].
  cbn [unzip_loop foldl]. unfold apply_zip at 2.
  destruct (legal_path dest (Join dest (ze_name f))) eqn:Hl; [|done]. simpl.
  apply legal_join_clean in Hl. destruct (ze_isdir f); intros H.
  - apply or_return_inv in H as (fs1 & H1 & H). apply mkdirs_files in H1. by rewrite (IH _ H), H1.
  - destruct (ze_open f).
    + apply or_return_inv in H as (fs1 & H1 & H). by apply or_return_inv in H as (fs2 & H2 & H).
    + apply extract_files in H as (fs1 & H1 & H); [|done]. by rewrite (IH _ H), H1.
Qed.

(** C29.  The check of [UnzipFile] and [Untar] accepts the paths whose elements
    are those of the destination and more: for a destination that has elements and
    does not end by going up, exactly the paths strictly inside it.  For the root
    and the working directory it refuses every path; for a destination that ends by
    going up, such as [..], it accepts the directory above. *)
Theorem legal_path_spec dest p :
  (legal_path dest p = true <-> elems dest <> [] /\ extends dest p) /\
  (goes_up dest = false -> Clean dest <> "." -> Clean dest <> "/" ->
   legal_path dest p = true <-> inside dest p) /\
  (Clean dest = "." \/ Clean dest = "/" -> legal_path dest p = false) /\
  (goes_up dest = true -> legal_path dest (Join dest "..") = true).
Proof.
  assert (forall q, legal_path dest q = true <-> elems dest <> [] /\ extends dest q) as Hiff.
  { split; [apply prefix_extends|]. intros [??]. by apply extends_prefix. }
  split_and!; [apply Hiff| | |].
  - intros Hd H1 H2. rewrite Hiff. assert (elems dest <> []) by (rewrite elems_nil; tauto).
    split; [intros [_ He]; by apply extends_inside|]. intros Hin. split; [done|by apply inside_extends].
  - intros Hnil%elems_nil. apply not_true_is_false. rewrite Hiff. by intros [? _].
  - intros Hup. rewrite Hiff. split; [|by apply goes_up_Join]. unfold goes_up in Hup. by destruct (elems dest).
Qed.

(** C30.  An archive that unpacks without an error leaves exactly its entries:
    the files are those that were there, with every entry written under the
    destination in the order of the archive, a later entry replacing an earlier
    one of the same name. *)
Theorem unpacked_files zip_reader tgz_reader file dest fs fs' :
  (UnzipFile zip_reader file dest fs = (Val None, fs') ->
   exists bytes files, fs_files fs !! Clean file = Some bytes /\ zip_reader bytes = inr files /\
     fs_files fs' = foldl (apply_zip dest) (fs_files fs) files) /\
  (UntarGz tgz_reader file dest fs = (Val None, fs') ->
   exists bytes items, fs_files fs !! Clean file = Some bytes /\ tgz_reader bytes = inr items /\
     fs_files fs' = foldl (apply_item dest) (fs_files fs) items).
Proof.
  split; intros H; apply gbind_val_inv in H as ([bytes [e|]] & fs1 & Hr & H); try done;
    apply ReadFile_inv in Hr as [Hb Hf].
  - destruct (zip_reader bytes) as [e|files] eqn:Hz; [done|]. exists bytes, files.
    split_and!; [done|done|]. rewrite <- Hf. by apply unzip_loop_files.
  - destruct (tgz_reader bytes) as [e|items] eqn:Hz; [done|]. exists bytes, items.
    split_and!; [done|done|]. rewrite <- Hf. by apply Untar_files.
Qed.

(** *** Witnesses: an archive with a file and an escaping entry *)
Definition slip_items : list TarItem :=
  [TarEntry "a/b" false "data" None; TarEntry "../evil" false "data" None].
Definition slip_fs : FS := MkFS {["/t"]} {["/t.tar.gz" := "bytes"]} (fun _ => None) 0.

Lemma unpacking_is_confined_witness :
  goes_up "/t" = false /\
  confined "/t" slip_fs
    (UnzipFile (fun _ => inr [MkZip "../evil" false None "data" None]) "/t.tar.gz" "/t" slip_fs).2 /\
  confined "/t" slip_fs (UntarGz (fun _ => inr slip_items) "/t.tar.gz" "/t" slip_fs).2.
Proof.
  split; [reflexivity|].
  by apply (unpacking_is_confined (fun _ => inr [MkZip "../evil" false None "data" None])
              (fun _ => inr slip_items) "/t.tar.gz" "/t" slip_fs).
Defined.

Lemma legal_path_spec_witness :
  goes_up "/t" = false /\ legal_path "/t" "/t/a/b" = true /\ inside "/t" "/t/a/b" /\
  legal_path "/" "/t" = false /\ legal_path "." "t" = false /\ legal_path "../.." "../../.." = true.
Proof.
  destruct (legal_path_spec "/t" "/t/a/b") as (_ & Hiff & _ & _).
  destruct (legal_path_spec "/" "/t") as (_ & _ & Hroot & _).
  destruct (legal_path_spec "." "t") as (_ & _ & Hhere & _).
  destruct (legal_path_spec "../.." "") as (_ & _ & _ & Hup).
  split_and!; [reflexivity|reflexivity|apply Hiff; by vm_compute|apply Hroot; by right|apply Hhere; by left|].
  exact (Hup eq_refl).
Defined.

Lemma unpacked_files_witness :
  exists fs' bytes items,
    UntarGz (fun _ => inr [TarEntry "a/b" false "data" None]) "/t.tar.gz" "/t" slip_fs = (Val None, fs') /\
    fs_files slip_fs !! Clean "/t.tar.gz" = Some bytes /\
    (fun _ => inr [TarEntry "a/b" false "data" None]) bytes = inr items :> error + list TarItem /\
    fs_files fs' = foldl (apply_item "/t") (fs_files slip_fs) items.
Proof.
  assert (exists fs', UntarGz (fun _ => inr [TarEntry "a/b" false "data" None]) "/t.tar.gz" "/t" slip_fs
                      = (Val None, fs')) as [fs' H].
  { eexists. vm_compute. reflexivity. }
  exists fs'.
  destruct (proj2 (unpacked_files (fun _ => inr []) (fun _ => inr [TarEntry "a/b" false "data" None])
                    "/t.tar.gz" "/t" slip_fs fs') H) as (bytes & items & ? & ? & ?).
  by exists bytes, items.
Defined.
