(* ===== verification/Common.v ===== *)
(** The data types of [pkg/common], [pkg/queue/types.go] and
    [pkg/artifactstore/common.go]: repositories, job specs, statuses, the
    messages of the queue and the external API. *)
From S2P Require Import Prelude GoStrings GoUtf8 GoJson GoCodec.

(** ** [pkg/common/types.go] *)
Record NameWithOwner : Type := MkNWO { Owner : string; Repo : string }.

#[export] Instance NameWithOwner_eq_dec : EqDecision NameWithOwner.
Proof. solve_decision. Defined.
#[export] Instance NameWithOwner_countable : Countable NameWithOwner.
Proof.
  refine (inj_countable' (fun n => (Owner n, Repo n)) (fun p => MkNWO p.1 p.2) _).
  by intros [].
Defined.

(** [type Status int], numbered by [iota]. *)
Definition Status : Type := Z.
Definition StatusPending : Status := 0.
Definition StatusInProgress : Status := 1.
Definition StatusSucceeded : Status := 2.
Definition StatusFailed : Status := 3.
Definition StatusCanceled : Status := 4.
Definition StatusTimedOut : Status := 5.

Definition ToExternalString (s : Status) : string :=
  if s =? StatusPending then "pending"
  else if s =? StatusInProgress then "inProgress"
  else if s =? StatusSucceeded then "succeeded"
  else if s =? StatusFailed then "failed"
  else if s =? StatusCanceled then "canceled"
  else if s =? StatusTimedOut then "timedOut"
  else "unknown".

(** [NameWithOwner] is embedded, so its fields are also fields of the spec. *)
Record JobSpec : Type := MkJobSpec { SessionID : Z; js_NameWithOwner : NameWithOwner }.

#[export] Instance JobSpec_eq_dec : EqDecision JobSpec.
Proof. solve_decision. Defined.
#[export] Instance JobSpec_countable : Countable JobSpec.
Proof.
  refine (inj_countable' (fun j => (SessionID j, js_NameWithOwner j)) (fun p => MkJobSpec p.1 p.2) _).
  by intros [].
Defined.

Definition JobSpec_zero : JobSpec := MkJobSpec 0 (MkNWO "" "").
Definition js_Owner (js : JobSpec) : string := Owner (js_NameWithOwner js).
Definition js_Repo (js : JobSpec) : string := Repo (js_NameWithOwner js).

Record StatusSummary : Type := MkSummary { Overall : Status; Counts : gmap Status Z }.
Definition StatusSummary_zero : StatusSummary := MkSummary 0 ∅.

(** [fmt]'s [%s]/[%v] of a struct: its fields in braces, separated by a space. *)
Definition show_nwo (n : NameWithOwner) : string := "{" +:+ Owner n +:+ " " +:+ Repo n +:+ "}".
Definition show_spec (js : JobSpec) : string :=
  "{" +:+ itoa (SessionID js) +:+ " " +:+ show_nwo (js_NameWithOwner js) +:+ "}".
(** [fmt.Sprintf("%s/%s", owner, repo)] *)
Definition full_name (n : NameWithOwner) : string := Owner n +:+ "/" +:+ Repo n.

(** ** [pkg/artifactstore/common.go] *)
Record ArtifactLocation : Type := MkLoc { Key : string; Bucket : string }.
#[export] Instance ArtifactLocation_eq_dec : EqDecision ArtifactLocation.
Proof. solve_decision. Defined.
Definition ArtifactLocation_zero : ArtifactLocation := MkLoc "" "".
Definition AF_BUCKETNAME_RESULTS : string := "mrvabucket".
Definition AF_BUCKETNAME_PACKS : string := "mrvabucket".

(** ** [pkg/queue/types.go] *)
Definition QueryLanguage : Type := string.

Record AnalyzeJob : Type := MkJob {
  aj_Spec : JobSpec; aj_QueryPackLocation : ArtifactLocation; aj_QueryLanguage : QueryLanguage
}.

Record AnalyzeResult : Type := MkResult {
  ar_Spec : JobSpec; ar_Status : Status; ar_ResultCount : Z;
  ar_ResultLocation : ArtifactLocation; ar_SourceLocationPrefix : string; ar_DatabaseSHA : string
}.
#[export] Instance AnalyzeJob_eq_dec : EqDecision AnalyzeJob.
Proof. solve_decision. Defined.
#[export] Instance AnalyzeResult_eq_dec : EqDecision AnalyzeResult.
Proof. solve_decision. Defined.

Definition AnalyzeResult_zero : AnalyzeResult :=
  MkResult JobSpec_zero 0 0 ArtifactLocation_zero "" "".

(** ** [pkg/common/extapi.go]: the structures of the external API, with the
    JSON document of each and, where the program decodes it, its decoder *)
Record Actor : Type := MkActor {
  ac_Login : string; ac_ID : Z; ac_NodeID : string; ac_AvatarURL : string;
  ac_GravatarID : string; ac_URL : string; ac_HTMLURL : string; ac_FollowersURL : string;
  ac_FollowingURL : string; ac_GistsURL : string; ac_StarredURL : string;
  ac_SubscriptionsURL : string; ac_OrganizationsURL : string; ac_ReposURL : string;
  ac_EventsURL : string; ac_ReceivedEventsURL : string; ac_Type : string;
  ac_SiteAdmin : bool
}.

Definition Actor_zero : Actor :=
  MkActor "" 0 "" "" "" "" "" "" "" "" "" "" "" "" "" "" "" false.

Definition Actor_json (x : Actor) : json :=
  JObj [
    ("login", JStr (ac_Login x)); ("id", JNum (itoa (ac_ID x)));
    ("node_id", JStr (ac_NodeID x)); ("avatar_url", JStr (ac_AvatarURL x));
    ("gravatar_id", JStr (ac_GravatarID x)); ("url", JStr (ac_URL x));
    ("html_url", JStr (ac_HTMLURL x)); ("followers_url", JStr (ac_FollowersURL x));
    ("following_url", JStr (ac_FollowingURL x)); ("gists_url", JStr (ac_GistsURL x));
    ("starred_url", JStr (ac_StarredURL x));
    ("subscriptions_url", JStr (ac_SubscriptionsURL x));
    ("organizations_url", JStr (ac_OrganizationsURL x));
    ("repos_url", JStr (ac_ReposURL x)); ("events_url", JStr (ac_EventsURL x));
    ("received_events_url", JStr (ac_ReceivedEventsURL x)); ("type", JStr (ac_Type x));
    ("site_admin", JBool (ac_SiteAdmin x))].

Record Repository : Type := MkRepository {
  rp_ID : Z; rp_Name : string; rp_FullName : string; rp_Private : bool;
  rp_StargazersCount : Z; rp_UpdatedAt : string
}.

Definition Repository_zero : Repository :=
  MkRepository 0 "" "" false 0 "".

Definition Repository_json (x : Repository) : json :=
  JObj [
    ("id", JNum (itoa (rp_ID x))); ("name", JStr (rp_Name x));
    ("full_name", JStr (rp_FullName x)); ("private", JBool (rp_Private x));
    ("stargazers_count", JNum (itoa (rp_StargazersCount x)));
    ("updated_at", JStr (rp_UpdatedAt x))].

Definition rp_set_ID (v : Z) (x : Repository) : Repository :=
  MkRepository v (rp_Name x) (rp_FullName x) (rp_Private x) (rp_StargazersCount x)
  (rp_UpdatedAt x).
Definition rp_set_Name (v : string) (x : Repository) : Repository :=
  MkRepository (rp_ID x) v (rp_FullName x) (rp_Private x) (rp_StargazersCount x)
  (rp_UpdatedAt x).
Definition rp_set_FullName (v : string) (x : Repository) : Repository :=
  MkRepository (rp_ID x) (rp_Name x) v (rp_Private x) (rp_StargazersCount x)
  (rp_UpdatedAt x).
Definition rp_set_Private (v : bool) (x : Repository) : Repository :=
  MkRepository (rp_ID x) (rp_Name x) (rp_FullName x) v (rp_StargazersCount x)
  (rp_UpdatedAt x).
Definition rp_set_StargazersCount (v : Z) (x : Repository) : Repository :=
  MkRepository (rp_ID x) (rp_Name x) (rp_FullName x) (rp_Private x) v (rp_UpdatedAt x).
Definition rp_set_UpdatedAt (v : string) (x : Repository) : Repository :=
  MkRepository (rp_ID x) (rp_Name x) (rp_FullName x) (rp_Private x) (rp_StargazersCount x)
  v.

Definition Repository_fields : list (field Repository) :=
  [
    fld "id" rp_ID rp_set_ID dec_int; fld "name" rp_Name rp_set_Name dec_string;
    fld "full_name" rp_FullName rp_set_FullName dec_string;
    fld "private" rp_Private rp_set_Private dec_bool;
    fld "stargazers_count" rp_StargazersCount rp_set_StargazersCount dec_int;
    fld "updated_at" rp_UpdatedAt rp_set_UpdatedAt dec_string].
Definition Repository_dec : decoder Repository := dec_struct false Repository_fields.

Record ScannedRepo : Type := MkScannedRepo {
  sc_Repository : Repository; sc_AnalysisStatus : string; sc_ResultCount : Z;
  sc_ArtifactSizeBytes : Z
}.

Definition ScannedRepo_zero : ScannedRepo :=
  MkScannedRepo Repository_zero "" 0 0.

Definition ScannedRepo_json (x : ScannedRepo) : json :=
  JObj [
    ("repository", Repository_json (sc_Repository x));
    ("analysis_status", JStr (sc_AnalysisStatus x));
    ("result_count", JNum (itoa (sc_ResultCount x)));
    ("artifact_size_in_bytes", JNum (itoa (sc_ArtifactSizeBytes x)))].

Record AccessMismatchRepos : Type := MkAccessMismatchRepos {
  am_RepositoryCount : Z; am_Repositories : list Repository
}.

Definition AccessMismatchRepos_zero : AccessMismatchRepos :=
  MkAccessMismatchRepos 0 [].

Definition AccessMismatchRepos_json (x : AccessMismatchRepos) : json :=
  JObj [
    ("repository_count", JNum (itoa (am_RepositoryCount x)));
    ("repositories", JArr (map Repository_json (am_Repositories x)))].

Definition am_set_RepositoryCount (v : Z) (x : AccessMismatchRepos) : AccessMismatchRepos :=
  MkAccessMismatchRepos v (am_Repositories x).
Definition am_set_Repositories (v : list Repository) (x : AccessMismatchRepos) : AccessMismatchRepos :=
  MkAccessMismatchRepos (am_RepositoryCount x) v.

Definition AccessMismatchRepos_fields : list (field AccessMismatchRepos) :=
  [
    fld "repository_count" am_RepositoryCount am_set_RepositoryCount dec_int;
    fld "repositories" am_Repositories am_set_Repositories (dec_slice Repository_dec Repository_zero)].
Definition AccessMismatchRepos_dec : decoder AccessMismatchRepos := dec_struct false AccessMismatchRepos_fields.

Record NotFoundRepos : Type := MkNotFoundRepos {
  nf_RepositoryCount : Z; nf_RepositoryFullNames : list string
}.

Definition NotFoundRepos_zero : NotFoundRepos :=
  MkNotFoundRepos 0 [].

Definition NotFoundRepos_json (x : NotFoundRepos) : json :=
  JObj [
    ("repository_count", JNum (itoa (nf_RepositoryCount x)));
    ("repository_full_names", JArr (map JStr (nf_RepositoryFullNames x)))].

Definition nf_set_RepositoryCount (v : Z) (x : NotFoundRepos) : NotFoundRepos :=
  MkNotFoundRepos v (nf_RepositoryFullNames x).
Definition nf_set_RepositoryFullNames (v : list string) (x : NotFoundRepos) : NotFoundRepos :=
  MkNotFoundRepos (nf_RepositoryCount x) v.

Definition NotFoundRepos_fields : list (field NotFoundRepos) :=
  [
    fld "repository_count" nf_RepositoryCount nf_set_RepositoryCount dec_int;
    fld "repository_full_names" nf_RepositoryFullNames nf_set_RepositoryFullNames (dec_slice dec_string "")].
Definition NotFoundRepos_dec : decoder NotFoundRepos := dec_struct false NotFoundRepos_fields.

Record NoCodeqlDBRepos : Type := MkNoCodeqlDBRepos {
  nc_RepositoryCount : Z; nc_Repositories : list Repository
}.

Definition NoCodeqlDBRepos_zero : NoCodeqlDBRepos :=
  MkNoCodeqlDBRepos 0 [].

Definition NoCodeqlDBRepos_json (x : NoCodeqlDBRepos) : json :=
  JObj [
    ("repository_count", JNum (itoa (nc_RepositoryCount x)));
    ("repositories", JArr (map Repository_json (nc_Repositories x)))].

Definition nc_set_RepositoryCount (v : Z) (x : NoCodeqlDBRepos) : NoCodeqlDBRepos :=
  MkNoCodeqlDBRepos v (nc_Repositories x).
Definition nc_set_Repositories (v : list Repository) (x : NoCodeqlDBRepos) : NoCodeqlDBRepos :=
  MkNoCodeqlDBRepos (nc_RepositoryCount x) v.

Definition NoCodeqlDBRepos_fields : list (field NoCodeqlDBRepos) :=
  [
    fld "repository_count" nc_RepositoryCount nc_set_RepositoryCount dec_int;
    fld "repositories" nc_Repositories nc_set_Repositories (dec_slice Repository_dec Repository_zero)].
Definition NoCodeqlDBRepos_dec : decoder NoCodeqlDBRepos := dec_struct false NoCodeqlDBRepos_fields.

Record OverLimitRepos : Type := MkOverLimitRepos {
  ol_RepositoryCount : Z; ol_Repositories : list Repository
}.

Definition OverLimitRepos_zero : OverLimitRepos :=
  MkOverLimitRepos 0 [].

Definition OverLimitRepos_json (x : OverLimitRepos) : json :=
  JObj [
    ("repository_count", JNum (itoa (ol_RepositoryCount x)));
    ("repositories", JArr (map Repository_json (ol_Repositories x)))].

Definition ol_set_RepositoryCount (v : Z) (x : OverLimitRepos) : OverLimitRepos :=
  MkOverLimitRepos v (ol_Repositories x).
Definition ol_set_Repositories (v : list Repository) (x : OverLimitRepos) : OverLimitRepos :=
  MkOverLimitRepos (ol_RepositoryCount x) v.

Definition OverLimitRepos_fields : list (field OverLimitRepos) :=
  [
    fld "repository_count" ol_RepositoryCount ol_set_RepositoryCount dec_int;
    fld "repositories" ol_Repositories ol_set_Repositories (dec_slice Repository_dec Repository_zero)].
Definition OverLimitRepos_dec : decoder OverLimitRepos := dec_struct false OverLimitRepos_fields.

Record SkippedRepositories : Type := MkSkippedRepositories {
  sk_AccessMismatchRepos : AccessMismatchRepos; sk_NotFoundRepos : NotFoundRepos;
  sk_NoCodeqlDBRepos : NoCodeqlDBRepos; sk_OverLimitRepos : OverLimitRepos
}.

Definition SkippedRepositories_zero : SkippedRepositories :=
  MkSkippedRepositories AccessMismatchRepos_zero NotFoundRepos_zero NoCodeqlDBRepos_zero
  OverLimitRepos_zero.

Definition SkippedRepositories_json (x : SkippedRepositories) : json :=
  JObj [
    ("access_mismatch_repos", AccessMismatchRepos_json (sk_AccessMismatchRepos x));
    ("not_found_repos", NotFoundRepos_json (sk_NotFoundRepos x));
    ("no_codeql_db_repos", NoCodeqlDBRepos_json (sk_NoCodeqlDBRepos x));
    ("over_limit_repos", OverLimitRepos_json (sk_OverLimitRepos x))].

Definition sk_set_AccessMismatchRepos (v : AccessMismatchRepos) (x : SkippedRepositories) : SkippedRepositories :=
  MkSkippedRepositories v (sk_NotFoundRepos x) (sk_NoCodeqlDBRepos x) (sk_OverLimitRepos x).
Definition sk_set_NotFoundRepos (v : NotFoundRepos) (x : SkippedRepositories) : SkippedRepositories :=
  MkSkippedRepositories (sk_AccessMismatchRepos x) v (sk_NoCodeqlDBRepos x)
  (sk_OverLimitRepos x).
Definition sk_set_NoCodeqlDBRepos (v : NoCodeqlDBRepos) (x : SkippedRepositories) : SkippedRepositories :=
  MkSkippedRepositories (sk_AccessMismatchRepos x) (sk_NotFoundRepos x) v
  (sk_OverLimitRepos x).
Definition sk_set_OverLimitRepos (v : OverLimitRepos) (x : SkippedRepositories) : SkippedRepositories :=
  MkSkippedRepositories (sk_AccessMismatchRepos x) (sk_NotFoundRepos x)
  (sk_NoCodeqlDBRepos x) v.

Definition SkippedRepositories_fields : list (field SkippedRepositories) :=
  [
    fld "access_mismatch_repos" sk_AccessMismatchRepos sk_set_AccessMismatchRepos AccessMismatchRepos_dec;
    fld "not_found_repos" sk_NotFoundRepos sk_set_NotFoundRepos NotFoundRepos_dec;
    fld "no_codeql_db_repos" sk_NoCodeqlDBRepos sk_set_NoCodeqlDBRepos NoCodeqlDBRepos_dec;
    fld "over_limit_repos" sk_OverLimitRepos sk_set_OverLimitRepos OverLimitRepos_dec].
Definition SkippedRepositories_dec : decoder SkippedRepositories := dec_struct false SkippedRepositories_fields.

Record JobInfo : Type := MkJobInfo {
  ji_QueryLanguage : string; ji_CreatedAt : string; ji_UpdatedAt : string;
  ji_SkippedRepositories : SkippedRepositories
}.

Definition JobInfo_zero : JobInfo :=
  MkJobInfo "" "" "" SkippedRepositories_zero.

Definition JobInfo_json (x : JobInfo) : json :=
  JObj [
    ("QueryLanguage", JStr (ji_QueryLanguage x)); ("CreatedAt", JStr (ji_CreatedAt x));
    ("UpdatedAt", JStr (ji_UpdatedAt x));
    ("SkippedRepositories", SkippedRepositories_json (ji_SkippedRepositories x))].

Definition ji_set_QueryLanguage (v : string) (x : JobInfo) : JobInfo :=
  MkJobInfo v (ji_CreatedAt x) (ji_UpdatedAt x) (ji_SkippedRepositories x).
Definition ji_set_CreatedAt (v : string) (x : JobInfo) : JobInfo :=
  MkJobInfo (ji_QueryLanguage x) v (ji_UpdatedAt x) (ji_SkippedRepositories x).
Definition ji_set_UpdatedAt (v : string) (x : JobInfo) : JobInfo :=
  MkJobInfo (ji_QueryLanguage x) (ji_CreatedAt x) v (ji_SkippedRepositories x).
Definition ji_set_SkippedRepositories (v : SkippedRepositories) (x : JobInfo) : JobInfo :=
  MkJobInfo (ji_QueryLanguage x) (ji_CreatedAt x) (ji_UpdatedAt x) v.

Definition JobInfo_fields : list (field JobInfo) :=
  [
    fld "QueryLanguage" ji_QueryLanguage ji_set_QueryLanguage dec_string;
    fld "CreatedAt" ji_CreatedAt ji_set_CreatedAt dec_string;
    fld "UpdatedAt" ji_UpdatedAt ji_set_UpdatedAt dec_string;
    fld "SkippedRepositories" ji_SkippedRepositories ji_set_SkippedRepositories SkippedRepositories_dec].
Definition JobInfo_dec : decoder JobInfo := dec_struct false JobInfo_fields.

Record ControllerRepo : Type := MkControllerRepo {
  cr_ID : Z; cr_NodeID : string; cr_Name : string; cr_FullName : string; cr_Private : bool;
  cr_Owner : unit; cr_HTMLURL : string; cr_Description : string; cr_Fork : bool;
  cr_ForksURL : string; cr_KeysURL : string; cr_CollaboratorsURL : string;
  cr_TeamsURL : string; cr_HooksURL : string; cr_IssueEventsURL : string;
  cr_EventsURL : string; cr_AssigneesURL : string; cr_BranchesURL : string;
  cr_TagsURL : string; cr_BlobsURL : string; cr_GitTagsURL : string;
  cr_GitRefsURL : string; cr_TreesURL : string; cr_StatusesURL : string;
  cr_LanguagesURL : string; cr_StargazersURL : string; cr_ContributorsURL : string;
  cr_SubscribersURL : string; cr_SubscriptionURL : string; cr_CommitsURL : string;
  cr_GitCommitsURL : string; cr_CommentsURL : string; cr_IssueCommentURL : string;
  cr_ContentsURL : string; cr_CompareURL : string; cr_MergesURL : string;
  cr_ArchiveURL : string; cr_DownloadsURL : string; cr_IssuesURL : string;
  cr_PullsURL : string; cr_MilestonesURL : string; cr_NotificationsURL : string;
  cr_LabelsURL : string; cr_ReleasesURL : string; cr_DeploymentsURL : string
}.

Definition ControllerRepo_zero : ControllerRepo :=
  MkControllerRepo 0 "" "" "" false tt "" "" false "" "" "" "" "" "" "" "" "" "" "" "" ""
  "" "" "" "" "" "" "" "" "" "" "" "" "" "" "" "" "" "" "" "" "" "" "".

Definition ControllerRepo_json (x : ControllerRepo) : json :=
  JObj [
    ("id", JNum (itoa (cr_ID x))); ("node_id", JStr (cr_NodeID x));
    ("name", JStr (cr_Name x)); ("full_name", JStr (cr_FullName x));
    ("private", JBool (cr_Private x)); ("owner", JObj []);
    ("html_url", JStr (cr_HTMLURL x)); ("description", JStr (cr_Description x));
    ("fork", JBool (cr_Fork x)); ("forks_url", JStr (cr_ForksURL x));
    ("keys_url", JStr (cr_KeysURL x)); ("collaborators_url", JStr (cr_CollaboratorsURL x));
    ("teams_url", JStr (cr_TeamsURL x)); ("hooks_url", JStr (cr_HooksURL x));
    ("issue_events_url", JStr (cr_IssueEventsURL x));
    ("events_url", JStr (cr_EventsURL x)); ("assignees_url", JStr (cr_AssigneesURL x));
    ("branches_url", JStr (cr_BranchesURL x)); ("tags_url", JStr (cr_TagsURL x));
    ("blobs_url", JStr (cr_BlobsURL x)); ("git_tags_url", JStr (cr_GitTagsURL x));
    ("git_refs_url", JStr (cr_GitRefsURL x)); ("trees_url", JStr (cr_TreesURL x));
    ("statuses_url", JStr (cr_StatusesURL x)); ("languages_url", JStr (cr_LanguagesURL x));
    ("stargazers_url", JStr (cr_StargazersURL x));
    ("contributors_url", JStr (cr_ContributorsURL x));
    ("subscribers_url", JStr (cr_SubscribersURL x));
    ("subscription_url", JStr (cr_SubscriptionURL x));
    ("commits_url", JStr (cr_CommitsURL x));
    ("git_commits_url", JStr (cr_GitCommitsURL x));
    ("comments_url", JStr (cr_CommentsURL x));
    ("issue_comment_url", JStr (cr_IssueCommentURL x));
    ("contents_url", JStr (cr_ContentsURL x)); ("compare_url", JStr (cr_CompareURL x));
    ("merges_url", JStr (cr_MergesURL x)); ("archive_url", JStr (cr_ArchiveURL x));
    ("downloads_url", JStr (cr_DownloadsURL x)); ("issues_url", JStr (cr_IssuesURL x));
    ("pulls_url", JStr (cr_PullsURL x)); ("milestones_url", JStr (cr_MilestonesURL x));
    ("notifications_url", JStr (cr_NotificationsURL x));
    ("labels_url", JStr (cr_LabelsURL x)); ("releases_url", JStr (cr_ReleasesURL x));
    ("deployments_url", JStr (cr_DeploymentsURL x))].

Record DownloadRepo : Type := MkDownloadRepo {
  dp_ID : Z; dp_NodeID : string; dp_Name : string; dp_FullName : string; dp_Private : bool;
  dp_Owner : Actor; dp_HTMLURL : string; dp_Description : string; dp_Fork : bool;
  dp_ForksURL : string; dp_KeysURL : string; dp_CollaboratorsURL : string;
  dp_TeamsURL : string; dp_HooksURL : string; dp_IssueEventsURL : string;
  dp_EventsURL : string; dp_AssigneesURL : string; dp_BranchesURL : string;
  dp_TagsURL : string; dp_BlobsURL : string; dp_GitTagsURL : string;
  dp_GitRefsURL : string; dp_TreesURL : string; dp_StatusesURL : string;
  dp_LanguagesURL : string; dp_StargazersURL : string; dp_ContributorsURL : string;
  dp_SubscribersURL : string; dp_SubscriptionURL : string; dp_CommitsURL : string;
  dp_GitCommitsURL : string; dp_CommentsURL : string; dp_IssueCommentURL : string;
  dp_ContentsURL : string; dp_CompareURL : string; dp_MergesURL : string;
  dp_ArchiveURL : string; dp_DownloadsURL : string; dp_IssuesURL : string;
  dp_PullsURL : string; dp_MilestonesURL : string; dp_NotificationsURL : string;
  dp_LabelsURL : string; dp_ReleasesURL : string; dp_DeploymentsURL : string
}.

Definition DownloadRepo_json (x : DownloadRepo) : json :=
  JObj [
    ("id", JNum (itoa (dp_ID x))); ("node_id", JStr (dp_NodeID x));
    ("name", JStr (dp_Name x)); ("full_name", JStr (dp_FullName x));
    ("private", JBool (dp_Private x)); ("owner", Actor_json (dp_Owner x));
    ("html_url", JStr (dp_HTMLURL x)); ("description", JStr (dp_Description x));
    ("fork", JBool (dp_Fork x)); ("forks_url", JStr (dp_ForksURL x));
    ("keys_url", JStr (dp_KeysURL x)); ("collaborators_url", JStr (dp_CollaboratorsURL x));
    ("teams_url", JStr (dp_TeamsURL x)); ("hooks_url", JStr (dp_HooksURL x));
    ("issue_events_url", JStr (dp_IssueEventsURL x));
    ("events_url", JStr (dp_EventsURL x)); ("assignees_url", JStr (dp_AssigneesURL x));
    ("branches_url", JStr (dp_BranchesURL x)); ("tags_url", JStr (dp_TagsURL x));
    ("blobs_url", JStr (dp_BlobsURL x)); ("git_tags_url", JStr (dp_GitTagsURL x));
    ("git_refs_url", JStr (dp_GitRefsURL x)); ("trees_url", JStr (dp_TreesURL x));
    ("statuses_url", JStr (dp_StatusesURL x)); ("languages_url", JStr (dp_LanguagesURL x));
    ("stargazers_url", JStr (dp_StargazersURL x));
    ("contributors_url", JStr (dp_ContributorsURL x));
    ("subscribers_url", JStr (dp_SubscribersURL x));
    ("subscription_url", JStr (dp_SubscriptionURL x));
    ("commits_url", JStr (dp_CommitsURL x));
    ("git_commits_url", JStr (dp_GitCommitsURL x));
    ("comments_url", JStr (dp_CommentsURL x));
    ("issue_comment_url", JStr (dp_IssueCommentURL x));
    ("contents_url", JStr (dp_ContentsURL x)); ("compare_url", JStr (dp_CompareURL x));
    ("merges_url", JStr (dp_MergesURL x)); ("archive_url", JStr (dp_ArchiveURL x));
    ("downloads_url", JStr (dp_DownloadsURL x)); ("issues_url", JStr (dp_IssuesURL x));
    ("pulls_url", JStr (dp_PullsURL x)); ("milestones_url", JStr (dp_MilestonesURL x));
    ("notifications_url", JStr (dp_NotificationsURL x));
    ("labels_url", JStr (dp_LabelsURL x)); ("releases_url", JStr (dp_ReleasesURL x));
    ("deployments_url", JStr (dp_DeploymentsURL x))].

Record StatusResponse : Type := MkStatusResponse {
  sr_SessionId : Z; sr_ControllerRepo : ControllerRepo; sr_Actor : Actor;
  sr_QueryLanguage : string; sr_QueryPackURL : string; sr_CreatedAt : string;
  sr_UpdatedAt : string; sr_ActionsWorkflowRunID : Z; sr_Status : string;
  sr_ScannedRepositories : list ScannedRepo; sr_SkippedRepositories : SkippedRepositories
}.

Definition StatusResponse_json (x : StatusResponse) : json :=
  JObj [
    ("id", JNum (itoa (sr_SessionId x)));
    ("controller_repo", ControllerRepo_json (sr_ControllerRepo x));
    ("actor", Actor_json (sr_Actor x)); ("query_language", JStr (sr_QueryLanguage x));
    ("query_pack_url", JStr (sr_QueryPackURL x)); ("created_at", JStr (sr_CreatedAt x));
    ("updated_at", JStr (sr_UpdatedAt x));
    ("actions_workflow_run_id", JNum (itoa (sr_ActionsWorkflowRunID x)));
    ("status", JStr (sr_Status x));
    ("scanned_repositories", JArr (map ScannedRepo_json (sr_ScannedRepositories x)));
    ("skipped_repositories", SkippedRepositories_json (sr_SkippedRepositories x))].

Record DownloadResponse : Type := MkDownloadResponse {
  dr_Repository : DownloadRepo; dr_AnalysisStatus : string; dr_ResultCount : Z;
  dr_ArtifactSizeBytes : Z; dr_DatabaseCommitSha : string;
  dr_SourceLocationPrefix : string; dr_ArtifactURL : string
}.

Definition DownloadResponse_json (x : DownloadResponse) : json :=
  JObj [
    ("repository", DownloadRepo_json (dr_Repository x));
    ("analysis_status", JStr (dr_AnalysisStatus x));
    ("result_count", JNum (itoa (dr_ResultCount x)));
    ("artifact_size_in_bytes", JNum (itoa (dr_ArtifactSizeBytes x)));
    ("database_commit_sha", JStr (dr_DatabaseCommitSha x));
    ("source_location_prefix", JStr (dr_SourceLocationPrefix x));
    ("artifact_url", JStr (dr_ArtifactURL x))].

Record SubmitResponse : Type := MkSubmitResponse {
  sb_ID : Z; sb_ControllerRepo : ControllerRepo; sb_Actor : Actor;
  sb_QueryLanguage : string; sb_QueryPackURL : string; sb_CreatedAt : string;
  sb_UpdatedAt : string; sb_Status : string; sb_SkippedRepositories : SkippedRepositories
}.

Definition SubmitResponse_json (x : SubmitResponse) : json :=
  JObj [
    ("id", JNum (itoa (sb_ID x)));
    ("controller_repo", ControllerRepo_json (sb_ControllerRepo x));
    ("actor", Actor_json (sb_Actor x)); ("query_language", JStr (sb_QueryLanguage x));
    ("query_pack_url", JStr (sb_QueryPackURL x)); ("created_at", JStr (sb_CreatedAt x));
    ("updated_at", JStr (sb_UpdatedAt x)); ("status", JStr (sb_Status x));
    ("skipped_repositories", SkippedRepositories_json (sb_SkippedRepositories x))].

Record SubmitMsg : Type := MkSubmitMsg {
  sm_ActionRepoRef : string; sm_Language : string; sm_QueryPack : string;
  sm_Repositories : list string
}.

Definition SubmitMsg_zero : SubmitMsg :=
  MkSubmitMsg "" "" "" [].

Definition sm_set_ActionRepoRef (v : string) (x : SubmitMsg) : SubmitMsg :=
  MkSubmitMsg v (sm_Language x) (sm_QueryPack x) (sm_Repositories x).
Definition sm_set_Language (v : string) (x : SubmitMsg) : SubmitMsg :=
  MkSubmitMsg (sm_ActionRepoRef x) v (sm_QueryPack x) (sm_Repositories x).
Definition sm_set_QueryPack (v : string) (x : SubmitMsg) : SubmitMsg :=
  MkSubmitMsg (sm_ActionRepoRef x) (sm_Language x) v (sm_Repositories x).
Definition sm_set_Repositories (v : list string) (x : SubmitMsg) : SubmitMsg :=
  MkSubmitMsg (sm_ActionRepoRef x) (sm_Language x) (sm_QueryPack x) v.

Definition SubmitMsg_fields : list (field SubmitMsg) :=
  [
    fld "action_repo_ref" sm_ActionRepoRef sm_set_ActionRepoRef dec_string;
    fld "language" sm_Language sm_set_Language dec_string;
    fld "query_pack" sm_QueryPack sm_set_QueryPack dec_string;
    fld "repositories" sm_Repositories sm_set_Repositories (dec_slice dec_string "")].
Definition SubmitMsg_dec : decoder SubmitMsg := dec_struct false SubmitMsg_fields.

