(* ===== verification/Messages.v ===== *)
(** The serialised forms: [pkg/common/jobspec.go], and the documents of the
    queue messages and of the rows of the state database.  The struct tags of
    [pkg/queue/types.go] are inside comments, so the member names on the wire
    are the Go field names. *)
From S2P Require Import Prelude GoStrings GoUtf8 GoJson GoCodec GoBase64 Common.

(** ** [JobSpec] *)
Definition JobSpec_json (js : JobSpec) : json :=
  JObj [("SessionID", JNum (itoa (SessionID js))); ("Owner", JStr (js_Owner js));
        ("Repo", JStr (js_Repo js))].

Definition set_SessionID (v : Z) (js : JobSpec) : JobSpec := MkJobSpec v (js_NameWithOwner js).
Definition set_Owner (v : string) (js : JobSpec) : JobSpec :=
  MkJobSpec (SessionID js) (MkNWO v (js_Repo js)).
Definition set_Repo (v : string) (js : JobSpec) : JobSpec :=
  MkJobSpec (SessionID js) (MkNWO (js_Owner js) v).

Definition JobSpec_fields : list (field JobSpec) :=
  [fld "SessionID" SessionID set_SessionID dec_int; fld "Owner" js_Owner set_Owner dec_string;
   fld "Repo" js_Repo set_Repo dec_string].

Definition JobSpec_dec : decoder JobSpec := dec_struct false JobSpec_fields.

Definition spec_valid (js : JobSpec) : Prop :=
  json_valid (SessionID js) /\ json_valid (js_Owner js) /\ json_valid (js_Repo js).

Lemma JobSpec_json_ok js : jok 1 (JobSpec_json js).
Proof. repeat constructor. Qed.

#[export, refine] Instance JobSpec_codec : JsonCodec JobSpec := {|
  to_json := JobSpec_json; of_json := JobSpec_dec; json_valid := spec_valid; json_depth := 1 |}.
Proof.
  - apply JobSpec_json_ok.
  - intros [sid [o r]] d cur (Hs & Ho & Hr) H. unfold JobSpec_dec, JobSpec_json in *.
    simpl in Hs, Ho, Hr. struct_roundtrip H [set_SessionID sid; set_Owner o; set_Repo r].
Defined.

(** ** [pkg/common/jobspec.go] *)
Definition EncodeJobSpec (jobSpec : JobSpec) : gores string :=
  let data := Marshal jobSpec in
  (b64_encode URLEncoding data, None).

Definition DecodeJobSpec (encoded : string) : gores JobSpec :=
  match b64_decode URLEncoding encoded with
  | None => (JobSpec_zero, Some (EText "illegal base64 data"))
  | Some data =>
      match Unmarshal of_json JobSpec_zero data with
      | None => (JobSpec_zero, Some (EText "invalid JSON"))
      | Some jobSpec => (jobSpec, None)
      end
  end.

(** What a spec is after a trip through JSON: its names sanitized. *)
Definition sanitize_spec (js : JobSpec) : JobSpec :=
  MkJobSpec (SessionID js) (MkNWO (sanitize (js_Owner js)) (sanitize (js_Repo js))).

Lemma JobSpec_dec_json js cur :
  min_int <= SessionID js <= max_int ->
  JobSpec_dec (jsan (JobSpec_json js)) cur = Some (sanitize_spec js).
Proof.
  intros Hs. unfold JobSpec_dec, JobSpec_json.
  cbn [jsan map fst snd dec_struct].
  eapply dec_members_step; [reflexivity|cbn beta; by rewrite dec_int_itoa|].
  do 2 (eapply dec_members_step; [reflexivity|reflexivity|]). reflexivity.
Qed.

(** C28.  A download token names the spec it was made from: decoding what
    [EncodeJobSpec] produced never fails and gives the spec back, with each
    invalid UTF-8 byte of the owner and repository replaced. *)
Theorem DecodeJobSpec_EncodeJobSpec js :
  min_int <= SessionID js <= max_int ->
  DecodeJobSpec (EncodeJobSpec js).1 = (sanitize_spec js, None).
Proof.
  intros Hs. unfold DecodeJobSpec, EncodeJobSpec, Marshal, Unmarshal. cbn [fst].
  rewrite b64_decode_encode, (json_document_print 1) by (apply JobSpec_json_ok || done).
  cbn [mbind option_bind of_json to_json JobSpec_codec]. by rewrite JobSpec_dec_json.
Qed.

Lemma sanitize_spec_valid js : spec_valid js -> sanitize_spec js = js.
Proof.
  destruct js as [sid [o r]]. intros (_ & Ho & Hr). simpl in *. unfold sanitize_spec. simpl.
  by rewrite !sanitize_valid.
Qed.

Lemma DecodeJobSpec_valid js : spec_valid js -> DecodeJobSpec (EncodeJobSpec js).1 = (js, None).
Proof.
  intros Hv. unfold DecodeJobSpec, EncodeJobSpec. cbn [fst].
  rewrite b64_decode_encode, Unmarshal_Marshal by done. done.
Qed.

Lemma DecodeJobSpec_EncodeJobSpec_witness :
  DecodeJobSpec (EncodeJobSpec (MkJobSpec 7 (MkNWO "google" "flatbuffers"))).1
  = (MkJobSpec 7 (MkNWO "google" "flatbuffers"), None).
Proof.
  apply (DecodeJobSpec_EncodeJobSpec (MkJobSpec 7 (MkNWO "google" "flatbuffers"))).
  unfold min_int, max_int. simpl. lia.
Defined.

(** ** The messages of the queue *)
Definition ArtifactLocation_json (x : ArtifactLocation) : json :=
  JObj [("Key", JStr (Key x)); ("Bucket", JStr (Bucket x))].
Definition set_Key (v : string) (x : ArtifactLocation) : ArtifactLocation := MkLoc v (Bucket x).
Definition set_Bucket (v : string) (x : ArtifactLocation) : ArtifactLocation := MkLoc (Key x) v.
Definition ArtifactLocation_fields : list (field ArtifactLocation) :=
  [fld "Key" Key set_Key dec_string; fld "Bucket" Bucket set_Bucket dec_string].
Definition ArtifactLocation_dec : decoder ArtifactLocation := dec_struct false ArtifactLocation_fields.

(** The values that survive, type by type: valid UTF-8 and 64-bit integers. *)
Definition loc_valid (x : ArtifactLocation) : Prop := json_valid (Key x) /\ json_valid (Bucket x).

Lemma JobSpec_dec_ok x d cur :
  spec_valid x -> reordered (jsan (JobSpec_json x)) d -> JobSpec_dec d cur = Some x.
Proof. exact (@of_to_json JobSpec JobSpec_codec x d cur). Qed.

Lemma ArtifactLocation_dec_ok x d cur :
  loc_valid x -> reordered (jsan (ArtifactLocation_json x)) d -> ArtifactLocation_dec d cur = Some x.
Proof.
  intros [Hk Hb] H. unfold ArtifactLocation_dec, ArtifactLocation_json in *. simpl in Hk, Hb.
  struct_roundtrip H [set_Key (Key x); set_Bucket (Bucket x)].
Qed.

#[export] Hint Resolve JobSpec_dec_ok ArtifactLocation_dec_ok : json_rt.

Definition AnalyzeJob_zero : AnalyzeJob := MkJob JobSpec_zero ArtifactLocation_zero "".
Definition AnalyzeJob_json (x : AnalyzeJob) : json :=
  JObj [("Spec", JobSpec_json (aj_Spec x));
        ("QueryPackLocation", ArtifactLocation_json (aj_QueryPackLocation x));
        ("QueryLanguage", JStr (aj_QueryLanguage x))].
Definition aj_set_Spec (v : JobSpec) (x : AnalyzeJob) : AnalyzeJob :=
  MkJob v (aj_QueryPackLocation x) (aj_QueryLanguage x).
Definition aj_set_QueryPackLocation (v : ArtifactLocation) (x : AnalyzeJob) : AnalyzeJob :=
  MkJob (aj_Spec x) v (aj_QueryLanguage x).
Definition aj_set_QueryLanguage (v : string) (x : AnalyzeJob) : AnalyzeJob :=
  MkJob (aj_Spec x) (aj_QueryPackLocation x) v.
Definition AnalyzeJob_fields : list (field AnalyzeJob) :=
  [fld "Spec" aj_Spec aj_set_Spec JobSpec_dec;
   fld "QueryPackLocation" aj_QueryPackLocation aj_set_QueryPackLocation ArtifactLocation_dec;
   fld "QueryLanguage" aj_QueryLanguage aj_set_QueryLanguage dec_string].
Definition AnalyzeJob_dec : decoder AnalyzeJob := dec_struct false AnalyzeJob_fields.
Definition job_valid (x : AnalyzeJob) : Prop :=
  json_valid (aj_Spec x) /\ loc_valid (aj_QueryPackLocation x) /\ valid_utf8 (aj_QueryLanguage x) = true.

#[export, refine] Instance AnalyzeJob_codec : JsonCodec AnalyzeJob := {|
  to_json := AnalyzeJob_json; of_json := AnalyzeJob_dec; json_valid := job_valid; json_depth := 2 |}.
Proof.
  - intros x. repeat constructor.
  - intros x d cur (Hs & Hl & Hq) H. unfold AnalyzeJob_dec, AnalyzeJob_json in *.
    struct_roundtrip H [aj_set_Spec (aj_Spec x); aj_set_QueryPackLocation (aj_QueryPackLocation x);
                        aj_set_QueryLanguage (aj_QueryLanguage x)].
Defined.

Definition AnalyzeResult_json (x : AnalyzeResult) : json :=
  JObj [("Spec", JobSpec_json (ar_Spec x)); ("Status", JNum (itoa (ar_Status x)));
        ("ResultCount", JNum (itoa (ar_ResultCount x)));
        ("ResultLocation", ArtifactLocation_json (ar_ResultLocation x));
        ("SourceLocationPrefix", JStr (ar_SourceLocationPrefix x));
        ("DatabaseSHA", JStr (ar_DatabaseSHA x))].
Definition ar_set_Spec (v : JobSpec) (x : AnalyzeResult) : AnalyzeResult :=
  MkResult v (ar_Status x) (ar_ResultCount x) (ar_ResultLocation x) (ar_SourceLocationPrefix x)
    (ar_DatabaseSHA x).
Definition ar_set_Status (v : Status) (x : AnalyzeResult) : AnalyzeResult :=
  MkResult (ar_Spec x) v (ar_ResultCount x) (ar_ResultLocation x) (ar_SourceLocationPrefix x)
    (ar_DatabaseSHA x).
Definition ar_set_ResultCount (v : Z) (x : AnalyzeResult) : AnalyzeResult :=
  MkResult (ar_Spec x) (ar_Status x) v (ar_ResultLocation x) (ar_SourceLocationPrefix x)
    (ar_DatabaseSHA x).
Definition ar_set_ResultLocation (v : ArtifactLocation) (x : AnalyzeResult) : AnalyzeResult :=
  MkResult (ar_Spec x) (ar_Status x) (ar_ResultCount x) v (ar_SourceLocationPrefix x)
    (ar_DatabaseSHA x).
Definition ar_set_SourceLocationPrefix (v : string) (x : AnalyzeResult) : AnalyzeResult :=
  MkResult (ar_Spec x) (ar_Status x) (ar_ResultCount x) (ar_ResultLocation x) v (ar_DatabaseSHA x).
Definition ar_set_DatabaseSHA (v : string) (x : AnalyzeResult) : AnalyzeResult :=
  MkResult (ar_Spec x) (ar_Status x) (ar_ResultCount x) (ar_ResultLocation x)
    (ar_SourceLocationPrefix x) v.
Definition AnalyzeResult_fields : list (field AnalyzeResult) :=
  [fld "Spec" ar_Spec ar_set_Spec JobSpec_dec; fld "Status" ar_Status ar_set_Status dec_int;
   fld "ResultCount" ar_ResultCount ar_set_ResultCount dec_int;
   fld "ResultLocation" ar_ResultLocation ar_set_ResultLocation ArtifactLocation_dec;
   fld "SourceLocationPrefix" ar_SourceLocationPrefix ar_set_SourceLocationPrefix dec_string;
   fld "DatabaseSHA" ar_DatabaseSHA ar_set_DatabaseSHA dec_string].
Definition AnalyzeResult_dec : decoder AnalyzeResult := dec_struct false AnalyzeResult_fields.
Definition result_valid (x : AnalyzeResult) : Prop :=
  json_valid (ar_Spec x) /\ json_valid (ar_Status x) /\ json_valid (ar_ResultCount x) /\
  loc_valid (ar_ResultLocation x) /\ valid_utf8 (ar_SourceLocationPrefix x) = true /\
  valid_utf8 (ar_DatabaseSHA x) = true.

#[export, refine] Instance AnalyzeResult_codec : JsonCodec AnalyzeResult := {|
  to_json := AnalyzeResult_json; of_json := AnalyzeResult_dec; json_valid := result_valid;
  json_depth := 2 |}.
Proof.
  - intros x. repeat constructor.
  - intros x d cur (Hs & Hst & Hc & Hl & Hp & Hd) H. unfold AnalyzeResult_dec, AnalyzeResult_json in *.
    simpl in Hst, Hc.
    struct_roundtrip H [ar_set_Spec (ar_Spec x); ar_set_Status (ar_Status x);
      ar_set_ResultCount (ar_ResultCount x); ar_set_ResultLocation (ar_ResultLocation x);
      ar_set_SourceLocationPrefix (ar_SourceLocationPrefix x); ar_set_DatabaseSHA (ar_DatabaseSHA x)].
Defined.

(** ** [JobInfo], a column of the state database *)
Definition repository_valid (x : Repository) : Prop :=
  json_valid (rp_ID x) /\ valid_utf8 (rp_Name x) = true /\ valid_utf8 (rp_FullName x) = true /\
  json_valid (rp_StargazersCount x) /\ valid_utf8 (rp_UpdatedAt x) = true.

Lemma Repository_dec_ok x d cur :
  repository_valid x -> reordered (jsan (Repository_json x)) d -> Repository_dec d cur = Some x.
Proof.
  intros (Hi & Hn & Hf & Hs & Hu) H. unfold Repository_dec, Repository_json in *. simpl in Hi, Hs.
  struct_roundtrip H [rp_set_ID (rp_ID x); rp_set_Name (rp_Name x); rp_set_FullName (rp_FullName x);
    rp_set_Private (rp_Private x); rp_set_StargazersCount (rp_StargazersCount x);
    rp_set_UpdatedAt (rp_UpdatedAt x)].
Qed.

Lemma repositories_dec_ok l d cur :
  Forall repository_valid l -> reordered (JArr (map jsan (map Repository_json l))) d ->
  dec_slice Repository_dec Repository_zero d cur = Some l.
Proof.
  intros Hl. apply dec_slice_ok. eapply Forall_impl; [|exact Hl].
  intros x Hx d' c. by apply Repository_dec_ok.
Qed.

Lemma names_dec_ok l d cur :
  Forall (fun s => valid_utf8 s = true) l -> reordered (JArr (map jsan (map JStr l))) d ->
  dec_slice dec_string "" d cur = Some l.
Proof.
  intros Hl. apply dec_slice_ok. eapply Forall_impl; [|exact Hl].
  intros x Hx d' c. by apply dec_string_ok.
Qed.

#[export] Hint Resolve repositories_dec_ok names_dec_ok : json_rt.

Definition skipped_valid (x : SkippedRepositories) : Prop :=
  (json_valid (am_RepositoryCount (sk_AccessMismatchRepos x)) /\
   Forall repository_valid (am_Repositories (sk_AccessMismatchRepos x))) /\
  (json_valid (nf_RepositoryCount (sk_NotFoundRepos x)) /\
   Forall (fun s => valid_utf8 s = true) (nf_RepositoryFullNames (sk_NotFoundRepos x))) /\
  (json_valid (nc_RepositoryCount (sk_NoCodeqlDBRepos x)) /\
   Forall repository_valid (nc_Repositories (sk_NoCodeqlDBRepos x))) /\
  (json_valid (ol_RepositoryCount (sk_OverLimitRepos x)) /\
   Forall repository_valid (ol_Repositories (sk_OverLimitRepos x))).

Lemma AccessMismatchRepos_dec_ok x d cur :
  json_valid (am_RepositoryCount x) /\ Forall repository_valid (am_Repositories x) ->
  reordered (jsan (AccessMismatchRepos_json x)) d -> AccessMismatchRepos_dec d cur = Some x.
Proof.
  intros [Hc Hr] H. unfold AccessMismatchRepos_dec, AccessMismatchRepos_json in *. simpl in Hc.
  struct_roundtrip H [am_set_RepositoryCount (am_RepositoryCount x);
    am_set_Repositories (am_Repositories x)].
Qed.

Lemma NotFoundRepos_dec_ok x d cur :
  json_valid (nf_RepositoryCount x) /\
  Forall (fun s => valid_utf8 s = true) (nf_RepositoryFullNames x) ->
  reordered (jsan (NotFoundRepos_json x)) d -> NotFoundRepos_dec d cur = Some x.
Proof.
  intros [Hc Hr] H. unfold NotFoundRepos_dec, NotFoundRepos_json in *. simpl in Hc.
  struct_roundtrip H [nf_set_RepositoryCount (nf_RepositoryCount x);
    nf_set_RepositoryFullNames (nf_RepositoryFullNames x)].
Qed.

Lemma NoCodeqlDBRepos_dec_ok x d cur :
  json_valid (nc_RepositoryCount x) /\ Forall repository_valid (nc_Repositories x) ->
  reordered (jsan (NoCodeqlDBRepos_json x)) d -> NoCodeqlDBRepos_dec d cur = Some x.
Proof.
  intros [Hc Hr] H. unfold NoCodeqlDBRepos_dec, NoCodeqlDBRepos_json in *. simpl in Hc.
  struct_roundtrip H [nc_set_RepositoryCount (nc_RepositoryCount x);
    nc_set_Repositories (nc_Repositories x)].
Qed.

Lemma OverLimitRepos_dec_ok x d cur :
  json_valid (ol_RepositoryCount x) /\ Forall repository_valid (ol_Repositories x) ->
  reordered (jsan (OverLimitRepos_json x)) d -> OverLimitRepos_dec d cur = Some x.
Proof.
  intros [Hc Hr] H. unfold OverLimitRepos_dec, OverLimitRepos_json in *. simpl in Hc.
  struct_roundtrip H [ol_set_RepositoryCount (ol_RepositoryCount x);
    ol_set_Repositories (ol_Repositories x)].
Qed.

#[export] Hint Resolve AccessMismatchRepos_dec_ok NotFoundRepos_dec_ok NoCodeqlDBRepos_dec_ok
  OverLimitRepos_dec_ok : json_rt.

Lemma SkippedRepositories_dec_ok x d cur :
  skipped_valid x -> reordered (jsan (SkippedRepositories_json x)) d ->
  SkippedRepositories_dec d cur = Some x.
Proof.
  intros (Ha & Hn & Hc & Ho) H. unfold SkippedRepositories_dec, SkippedRepositories_json in *.
  struct_roundtrip H [sk_set_AccessMismatchRepos (sk_AccessMismatchRepos x);
    sk_set_NotFoundRepos (sk_NotFoundRepos x); sk_set_NoCodeqlDBRepos (sk_NoCodeqlDBRepos x);
    sk_set_OverLimitRepos (sk_OverLimitRepos x)].
Qed.

#[export] Hint Resolve SkippedRepositories_dec_ok : json_rt.

Definition info_valid (x : JobInfo) : Prop :=
  valid_utf8 (ji_QueryLanguage x) = true /\ valid_utf8 (ji_CreatedAt x) = true /\
  valid_utf8 (ji_UpdatedAt x) = true /\ skipped_valid (ji_SkippedRepositories x).

#[export, refine] Instance JobInfo_codec : JsonCodec JobInfo := {|
  to_json := JobInfo_json; of_json := JobInfo_dec; json_valid := info_valid; json_depth := 5 |}.
Proof.
  - intros x. unfold JobInfo_json, SkippedRepositories_json, AccessMismatchRepos_json,
      NotFoundRepos_json, NoCodeqlDBRepos_json, OverLimitRepos_json.
    repeat constructor; simpl; apply Forall_map, Forall_forall; intros y _; simpl;
      unfold Repository_json; repeat constructor.
  - intros x d cur (Hq & Hc & Hu & Hs) H. unfold JobInfo_dec, JobInfo_json in *.
    struct_roundtrip H [ji_set_QueryLanguage (ji_QueryLanguage x); ji_set_CreatedAt (ji_CreatedAt x);
      ji_set_UpdatedAt (ji_UpdatedAt x); ji_set_SkippedRepositories (ji_SkippedRepositories x)].
Defined.
