(* ===== verification/Http.v ===== *)
(** A model of the part of Go's [net/http] the handlers see: the request they
    are given and the [http.ResponseWriter] they write to. *)
From S2P Require Import Prelude GoStrings.

(** A piece of a response body: bytes, or the line [http.Error] prints for an
    error value. *)
Inductive chunk := CBytes (b : string) | CErr (e : error).

(** The status line and headers are fixed by the first [WriteHeader]; later
    calls are superfluous and change nothing. *)
Record Writer : Type := MkWriter {
  wr_status : option Z;
  wr_header : gmap string string;
  wr_sent : gmap string string;
  wr_body : list chunk
}.

Definition fresh_writer : Writer := MkWriter None ∅ ∅ [].

Definition StatusOK : Z := 200.
Definition StatusNoContent : Z := 204.
Definition StatusBadRequest : Z := 400.
Definition StatusNotFound : Z := 404.
Definition StatusUnprocessableEntity : Z := 422.
Definition StatusInternalServerError : Z := 500.

Definition header_set (k v : string) (w : Writer) : Writer :=
  MkWriter (wr_status w) (<[k := v]> (wr_header w)) (wr_sent w) (wr_body w).

Definition write_header (code : Z) (w : Writer) : Writer :=
  match wr_status w with
  | Some _ => w
  | None => MkWriter (Some code) (wr_header w) (wr_header w) (wr_body w)
  end.

(** A 1xx, 204 or 304 response has no body; writing to it is refused. *)
Definition body_allowed (code : Z) : bool :=
  negb (((100 <=? code) && (code <=? 199)) || (code =? 204) || (code =? 304)).

Definition write (c : chunk) (w : Writer) : Writer :=
  let w' := write_header StatusOK w in
  match wr_status w' with
  | Some code =>
      if body_allowed code
      then MkWriter (wr_status w') (wr_header w') (wr_sent w') (wr_body w' ++ [c])
      else w'
  | None => w'
  end.

(** [http.Error(w, error, code)] of Go 1.22. *)
Definition http_error (c : chunk) (code : Z) (w : Writer) : Writer :=
  write c (write_header code
    (header_set "X-Content-Type-Options" "nosniff"
      (header_set "Content-Type" "text/plain; charset=utf-8" w))).

(** Setting the content type and writing the body: how every handler ends. *)
Definition respond (ctype body : string) (w : Writer) : Writer :=
  write (CBytes body) (header_set "Content-Type" ctype w).

(** [r.Body]: [nil], readable, or failing in [io.ReadAll]; [req_vars] is what
    [mux.Vars] gives. *)
Inductive request_body := BodyNil | BodyData (data : string) | BodyFails (e : error).

Record Request : Type := MkRequest { req_body : request_body; req_vars : gmap string string }.

(** Indexing a Go map with an absent key gives the zero value. *)
Definition var (r : Request) (k : string) : string := default "" (req_vars r !! k).

Lemma http_error_fresh c code :
  body_allowed code = true ->
  wr_status (http_error c code fresh_writer) = Some code /\
  wr_body (http_error c code fresh_writer) = [c].
Proof. intros H. unfold http_error, write. simpl. by rewrite H. Qed.

(** The first status sticks. *)
Lemma http_error_status c code w st :
  wr_status w = Some st -> wr_status (http_error c code w) = Some st.
Proof.
  destruct w as [ws h sent body]. simpl. intros ->.
  unfold http_error, write. simpl. by destruct (body_allowed st).
Qed.
