(* ===== verification/HepcServe.v ===== *)
(** [client/qldbtools/bin/hepc-serve.go]: the file server used in place of HEPC.

    A request is its path, already decoded; it has no range and no condition, and
    of the headers of a file only its type is kept ([content_type] stands for the
    guess made from its name and its first bytes).  The mux of [net/http] redirects
    the requests whose path, as it is escaped in the URL, is not clean; a slash or a
    dot that is escaped there is decoded only for the handlers. *)
From S2P Require Import Prelude GoStrings GoPath GoOs Http.

(** ** [net/http] and [path/filepath] *)

(** [strings.HasSuffix] *)
Fixpoint HasSuffix (s suffix : string) : bool :=
  String.eqb s suffix || match s with String _ s' => HasSuffix s' suffix | EmptyString => false end.

(** [containsDotDot]: what is between slashes, of both kinds ([isSlashRune]). *)
Definition containsDotDot (path : string) : bool :=
  existsb (String.eqb "..") (flat_map (split_byte "\") (split_byte "/" path)).

Definition StatusMovedPermanently : Z := 301.

(** Whether [os.Stat] succeeds, and with a directory. *)
Definition file_exists (fs : FS) (p : string) : bool := bool_decide (is_Some (fs_files fs !! Clean p)).

(** What is before the last slash must be a directory, whatever follows it. *)
Definition ends_plain (path : string) : bool :=
  let last := List.last (split_byte "/" path) "" in negb (String.eqb last "" || String.eqb last ".").

(** [filepath.EvalSymlinks], without symbolic links: the clean path of what is there. *)
Definition EvalSymlinks (path : string) : GM FS (gores string) :=
  let! err := Stat path in
  match err with
  | Some NotExist => gret ("", Some (ENOENT path))
  | Some (OtherError e) => gret ("", Some e)
  | None => fun fs =>
      if dir_exists fs (Clean path) || ends_plain path then (Val (Clean path, None), fs)
      else (Val ("", Some (ENOTDIR path)), fs)
  end.

(** [os.Stat] and [fileInfo.IsDir()]: [Some] of the second when there is no error. *)
Definition StatIsDir (path : string) : GM FS (option bool) :=
  let! err := Stat path in
  match err with
  | Some _ => gret None
  | None => fun fs => (Val (Some (dir_exists fs (Clean path))), fs)
  end.

Record HepcServer : Type := MkHepcServer { hs_fs : FS; hs_resp : Writer }.

Section server.
Context (content_type : string -> string -> string).

Notation M := (GM HepcServer).

Definition hs_on_fs {A} (m : GM FS A) : M A := zoom hs_fs (fun f s => MkHepcServer f (hs_resp s)) m.
Definition hs_on_resp (f : Writer -> Writer) : M unit := gmodify (fun s => MkHepcServer (hs_fs s) (f (hs_resp s))).

(** [http.ServeFile(w, r, name)] for the path of [r]. *)
Definition ServeFile (urlPath name : string) : M unit :=
  if containsDotDot urlPath then hs_on_resp (http_error (CBytes "invalid URL path") StatusBadRequest)
  else if HasSuffix urlPath "/index.html"
  then hs_on_resp (fun w => write_header StatusMovedPermanently (header_set "Location" "./" w))
  else
    let! (data, err) := hs_on_fs (ReadFile name) in
    match err with
    | Some _ => hs_on_resp (http_error (CBytes "404 page not found") StatusNotFound)
    | None => hs_on_resp (respond (content_type name data) data)
    end.

(** ** The handlers *)

(** [r.URL.Path[len("/db/"):]] *)
Definition after_db (urlPath : string) : outcome string :=
  if (4 <=? String.length urlPath)%nat then Val (String.substring 4 (String.length urlPath - 4) urlPath)
  else Panic "runtime error: slice bounds out of range".

Definition not_found (msg : string) : M unit := hs_on_resp (http_error (CBytes msg) StatusNotFound).

Definition serveFile (urlPath : string) : M unit :=
  match after_db urlPath with
  | Panic p => gpanic p
  | Val fullPath =>
      let! (resolvedPath, err) := hs_on_fs (EvalSymlinks fullPath) in
      match err with
      | Some _ => not_found "File not found"
      | None =>
          let! info := hs_on_fs (StatIsDir resolvedPath) in
          match info with
          | None | Some true => not_found "File not found"
          | Some false => ServeFile urlPath resolvedPath
          end
      end
  end.

Definition serveMetadata (dbDir urlPath : string) : M unit :=
  let metadataPath := Join dbDir "metadata.json" in
  let! info := hs_on_fs (StatIsDir metadataPath) in
  match info with
  | None | Some true => not_found "metadata.json not found"
  | Some false => ServeFile urlPath metadataPath
  end.

(** The three patterns of the mux, for a path that it does not redirect. *)
Definition serve (dbDir urlPath : string) : M unit :=
  if HasPrefix urlPath "/db/" then serveFile urlPath
  else if String.eqb urlPath "/index" || String.eqb urlPath "/api/v1/latest_results/codeql-all"
  then serveMetadata dbDir urlPath
  else not_found "404 page not found".

(** [main], up to listening: [None] is [os.Exit(1)], otherwise the address. *)
Definition main (dbDir host : string) (port : Z) : GM FS (option string) :=
  if String.eqb dbDir "" then gret None
  else
    let! err := Stat dbDir in
    if IsNotExist err then gret None else gret (Some (host +:+ ":" +:+ itoa port)).

(** ** What is served *)
Definition fault_free (fs : FS) : Prop := forall n, fs_fault fs n = None.

Definition answered (s s' : HepcServer) (w : Writer) : Prop :=
  hs_resp s' = w /\ fs_files (hs_fs s') = fs_files (hs_fs s) /\ fs_dirs (hs_fs s') = fs_dirs (hs_fs s).

Definition called (fs : FS) : FS := MkFS (fs_dirs fs) (fs_files fs) (fs_fault fs) (S (fs_calls fs)).

Lemma Stat_quiet fs path :
  fault_free fs ->
  Stat path fs = (Val (if dir_exists fs (Clean path) || file_exists fs path then None
                       else if through_file fs path then Some (OtherError (ENOTDIR path)) else Some NotExist),
                  called fs).
Proof.
  intros Hf. unfold Stat, gbind, os_call. rewrite (Hf _). cbn match.
  unfold file_exists, through_file, dir_exists, called. cbn [fs_dirs fs_files]. destruct (_ || _); [done|].
  by destruct (existsb _ _).
Qed.

Lemma substring_all s : String.substring 0 (String.length s) s = s.
Proof. induction s as [|c s IH]; cbn; [done|]. by rewrite IH. Qed.

Lemma after_db_path p : after_db ("/db/" +:+ p) = Val p.
Proof.
  unfold after_db. cbn [String.append String.length Nat.leb Nat.sub String.substring]. by rewrite Nat.sub_0_r, substring_all.
Qed.

Lemma hs_step {A} (m : GM FS A) s o f : m (hs_fs s) = (o, f) -> hs_on_fs m s = (o, MkHepcServer f (hs_resp s)).
Proof. intros H. unfold hs_on_fs, zoom. by rewrite H. Qed.

Lemma ServeFile_file urlPath name s data :
  fault_free (hs_fs s) -> fs_files (hs_fs s) !! Clean name = Some data ->
  exists s', ServeFile urlPath name s = (Val tt, s') /\
    answered s s'
      (if containsDotDot urlPath then http_error (CBytes "invalid URL path") StatusBadRequest (hs_resp s)
       else if HasSuffix urlPath "/index.html"
       then write_header StatusMovedPermanently (header_set "Location" "./" (hs_resp s))
       else respond (content_type name data) data (hs_resp s)).
Proof.
  intros Hf Hdata. unfold ServeFile. destruct (containsDotDot urlPath); [by eexists|].
  destruct (HasSuffix urlPath "/index.html"); [by eexists|].
  assert (ReadFile name (hs_fs s) = (Val (data, None), called (hs_fs s))) as Hr.
  { unfold ReadFile, gbind, os_call. rewrite (Hf _). cbn. by rewrite Hdata. }
  eexists. split; [by go_step (hs_step _ s _ _ Hr)|done].
Qed.

Definition there (fs : FS) (path : string) : bool := dir_exists fs (Clean path) || file_exists fs path.

Lemma EvalSymlinks_quiet fs path :
  fault_free fs ->
  exists e, EvalSymlinks path fs =
    (Val (if there fs path && (dir_exists fs (Clean path) || ends_plain path) then (Clean path, None)
          else ("", Some e)), called fs).
Proof.
  intros Hf. unfold EvalSymlinks, gbind. rewrite (Stat_quiet fs path Hf). unfold there.
  destruct (dir_exists fs (Clean path) || file_exists fs path); cbn [andb].
  - change (dir_exists (called fs)) with (dir_exists fs). exists (ENOTDIR path).
    by destruct (dir_exists fs (Clean path) || ends_plain path).
  - destruct (through_file fs path); by eexists.
Qed.

Lemma StatIsDir_quiet fs path :
  fault_free fs ->
  StatIsDir path fs =
    (Val (if there fs path then Some (dir_exists fs (Clean path)) else None), called fs).
Proof.
  intros Hf. unfold StatIsDir, gbind. rewrite (Stat_quiet fs path Hf). unfold there.
  destruct (dir_exists fs (Clean path) || file_exists fs path); [done|]. by destruct (through_file fs path).
Qed.

(** What [p] names, as a file and not as a directory: [a/] and [a/.] do not. *)
Definition file_named (fs : FS) (p : string) : option string :=
  if dir_exists fs (Clean p) || negb (ends_plain p) then None else fs_files fs !! Clean p.

Lemma serveFile_no_file p s :
  fault_free (hs_fs s) -> file_named (hs_fs s) p = None ->
  exists s', serveFile ("/db/" +:+ p) s = (Val tt, s') /\
    answered s s' (http_error (CBytes "File not found") StatusNotFound (hs_resp s)).
Proof.
  destruct s as [fs w]. cbn [hs_fs hs_resp]. intros Hf Hnone. unfold serveFile. rewrite after_db_path.
  destruct (EvalSymlinks_quiet fs p Hf) as [e He].
  destruct (there fs p && (dir_exists fs (Clean p) || ends_plain p)) eqn:Hev.
  2: { eexists. split; [by go_step (hs_step _ (MkHepcServer fs w) _ _ He)|done]. }
  pose proof (StatIsDir_quiet (called fs) (Clean p) Hf) as H2.
  assert ((if there (called fs) (Clean p) then Some (dir_exists (called fs) (Clean (Clean p))) else None) <> Some false)
    as Hdir.
  { unfold there, file_exists. rewrite Clean_Clean. change (dir_exists (called fs)) with (dir_exists fs).
    change (fs_files (called fs)) with (fs_files fs). unfold file_named in Hnone. unfold there, file_exists in Hev.
    destruct (dir_exists fs (Clean p)); [done|]. cbn [orb] in *. destruct (ends_plain p); [|by rewrite andb_false_r in Hev].
    cbn [negb] in Hnone. rewrite Hnone in Hev. by rewrite bool_decide_false in Hev by (by intros [? ?]). }
  destruct (if there _ _ then _ else None) as [[|]|]; [| |]; try done.
  all: eexists; (split; [etransitivity; [eapply gbind_val, (hs_step _ (MkHepcServer fs w) _ _ He)|]|]).
  all: cbn beta iota zeta; try (etransitivity; [eapply gbind_val, (hs_step _ (MkHepcServer (called fs) w) _ _ H2)|]).
  all: by cbn.
Qed.

Lemma serveFile_file p s data :
  fault_free (hs_fs s) -> file_named (hs_fs s) p = Some data ->
  exists s1, hs_resp s1 = hs_resp s /\ fs_files (hs_fs s1) = fs_files (hs_fs s) /\ fs_dirs (hs_fs s1) = fs_dirs (hs_fs s) /\
    fault_free (hs_fs s1) /\ serveFile ("/db/" +:+ p) s = ServeFile ("/db/" +:+ p) (Clean p) s1.
Proof.
  destruct s as [fs w]. cbn [hs_fs hs_resp]. intros Hf Hfile. unfold serveFile. rewrite after_db_path.
  unfold file_named in Hfile. destruct (dir_exists fs (Clean p)) eqn:Hdir; [done|].
  destruct (ends_plain p) eqn:Hplain; [|done]. cbn [orb negb] in Hfile.
  destruct (EvalSymlinks_quiet fs p Hf) as [e He]. unfold there, file_exists in He. rewrite Hdir, Hfile, Hplain in He.
  pose proof (StatIsDir_quiet (called fs) (Clean p) Hf) as H2. unfold there, file_exists in H2. rewrite Clean_Clean in H2.
  change (dir_exists (called fs) (Clean p)) with (dir_exists fs (Clean p)) in H2.
  change (fs_files (called fs)) with (fs_files fs) in H2. rewrite Hdir, Hfile in H2.
  rewrite bool_decide_true in He, H2 by done. cbn [orb andb] in He, H2.
  exists (MkHepcServer (called (called fs)) w). split_and!; [done..|].
  etransitivity; [eapply gbind_val, (hs_step _ (MkHepcServer fs w) _ _ He)|]. cbn beta iota zeta.
  etransitivity; [eapply gbind_val, (hs_step _ (MkHepcServer (called fs) w) _ _ H2)|]. by cbn beta iota zeta.
Qed.

End server.
