(* ===== verification/Queue.v ===== *)
(** [pkg/queue/queue_single.go]: a queue made of two buffered Go channels. *)
From S2P Require Import Prelude GoStrings GoUtf8 GoJson Common.

(** A buffered channel: what it holds, oldest first, and whether it was closed. *)
Record Chan (A : Type) : Type := MkChan { ch_cap : nat; ch_buf : list A; ch_closed : bool }.
Arguments MkChan {A} _ _ _.
Arguments ch_cap {A} _.
Arguments ch_buf {A} _.
Arguments ch_closed {A} _.

Definition make_chan {A} (cap : nat) : Chan A := MkChan cap [] false.

(** What a channel operation does when a goroutine attempts it: it goes
    through, it blocks (nothing happens), or it panics. *)
Inductive attempt (A : Type) : Type :=
| Done (a : A)
| Blocks
| Crash (msg : string).
Arguments Done {A} a.
Arguments Blocks {A}.
Arguments Crash {A} msg.

(** [ch <- x] *)
Definition send {A} (x : A) (ch : Chan A) : attempt (Chan A) :=
  if ch_closed ch then Crash "send on closed channel"
  else if (length (ch_buf ch) <? ch_cap ch)%nat
  then Done (MkChan (ch_cap ch) (ch_buf ch ++ [x]) false)
  else Blocks.

(** [x, ok := <-ch]: [None] is the zero value with [ok = false]. *)
Definition receive {A} (ch : Chan A) : attempt (option A * Chan A) :=
  match ch_buf ch with
  | x :: buf => Done (Some x, MkChan (ch_cap ch) buf (ch_closed ch))
  | [] => if ch_closed ch then Done (None, ch) else Blocks
  end.

(** [close(ch)] *)
Definition close {A} (ch : Chan A) : attempt (Chan A) :=
  if ch_closed ch then Crash "close of closed channel"
  else Done (MkChan (ch_cap ch) (ch_buf ch) true).

(** ** [QueueSingle] *)
Record QueueSingle : Type := MkQueueSingle {
  NumWorkers : Z; jobs : Chan AnalyzeJob; results : Chan AnalyzeResult
}.

Definition NewQueueSingle (numWorkers : Z) : QueueSingle :=
  MkQueueSingle numWorkers (make_chan 10) (make_chan 10).

Definition Jobs (q : QueueSingle) : Chan AnalyzeJob := jobs q.
Definition Results (q : QueueSingle) : Chan AnalyzeResult := results q.

Definition Close (q : QueueSingle) : attempt QueueSingle :=
  match close (jobs q) with
  | Done j =>
      match close (results q) with
      | Done r => Done (MkQueueSingle (NumWorkers q) j r)
      | Blocks => Blocks
      | Crash m => Crash m
      end
  | Blocks => Blocks
  | Crash m => Crash m
  end.

(** ** Channels as queues *)
Definition chan_ok {A} (ch : Chan A) : Prop := (length (ch_buf ch) <= ch_cap ch)%nat.

Lemma send_ok {A} (x : A) ch ch' :
  send x ch = Done ch' -> chan_ok ch ->
  ch_buf ch' = ch_buf ch ++ [x] /\ ch_cap ch' = ch_cap ch /\ chan_ok ch'.
Proof.
  unfold send, chan_ok. destruct (ch_closed ch); [done|].
  destruct (Nat.ltb_spec (length (ch_buf ch)) (ch_cap ch)); [|done].
  intros [= <-] _. simpl. rewrite length_app. simpl. split_and!; [done|done|lia].
Qed.

Lemma receive_ok {A} (x : A) ch ch' :
  receive ch = Done (Some x, ch') -> chan_ok ch ->
  ch_buf ch = x :: ch_buf ch' /\ ch_cap ch' = ch_cap ch /\ chan_ok ch'.
Proof.
  unfold receive, chan_ok. destruct (ch_buf ch) as [|y buf]; [by destruct (ch_closed ch)|].
  intros [= -> <-] Hok. simpl in *. split_and!; [done|done|lia].
Qed.

(** A run of sends and receives on an open channel. *)
Inductive chan_op (A : Type) := OpSend (x : A) | OpReceive.
Arguments OpSend {A} x.
Arguments OpReceive {A}.

Fixpoint run_chan {A} (ops : list (chan_op A)) (ch : Chan A) : option (list A * Chan A) :=
  match ops with
  | [] => Some ([], ch)
  | OpSend x :: ops' =>
      match send x ch with Done ch' => run_chan ops' ch' | _ => None end
  | OpReceive :: ops' =>
      match receive ch with
      | Done (Some x, ch') =>
          '(xs, ch'') ← run_chan ops' ch'; Some (x :: xs, ch'')
      | _ => None
      end
  end.

Definition sent {A} (ops : list (chan_op A)) : list A :=
  omap (fun op => match op with OpSend x => Some x | OpReceive => None end) ops.

(** The queue delivers every job once and in the order sent, never holds
    more than its capacity, and what was not delivered is still in it. *)
Theorem channel_is_fifo {A} (ops : list (chan_op A)) ch xs ch' :
  chan_ok ch -> run_chan ops ch = Some (xs, ch') ->
  ch_buf ch ++ sent ops = xs ++ ch_buf ch' /\ chan_ok ch' /\ ch_cap ch' = ch_cap ch.
Proof.
  revert ch xs. induction ops as [|[x|] ops IH]; intros ch xs Hok Hrun; simpl in Hrun.
  - simplify_eq. by rewrite app_nil_r.
  - destruct (send x ch) as [ch1| |] eqn:Hs; [|done..].
    destruct (send_ok _ _ _ Hs Hok) as (Hb & Hc & Hok1).
    destruct (IH ch1 xs Hok1 Hrun) as (H1 & H2 & H3). split_and!; [|done|congruence].
    rewrite Hb, <- app_assoc in H1. exact H1.
  - destruct (receive ch) as [[[x|] ch1]| |] eqn:Hr; [|done..].
    destruct (receive_ok _ _ _ Hr Hok) as (Hb & Hc & Hok1).
    destruct (run_chan ops ch1) as [[xs1 ch2]|] eqn:Hrun1; [|done]. simplify_eq/=.
    destruct (IH ch1 xs1 Hok1 Hrun1) as (H1 & H2 & H3). split_and!; [|done|congruence].
    rewrite Hb. simpl. by rewrite H1.
Qed.

Lemma channel_is_fifo_witness :
  let q := jobs (NewQueueSingle 2) in
  let job o := MkJob (MkJobSpec 1 (MkNWO o "r")) (MkLoc "k" "b") "cpp" in
  let ops := [OpSend (job "a"); OpSend (job "b"); OpReceive; OpSend (job "c"); OpReceive] in
  exists xs ch', run_chan ops q = Some (xs, ch') /\ xs = [job "a"; job "b"] /\
    ch_buf q ++ sent ops = xs ++ ch_buf ch' /\ chan_ok ch' /\ ch_cap ch' = ch_cap q.
Proof.
  intros q job ops. eexists _, _. split; [reflexivity|]. split; [reflexivity|].
  apply (channel_is_fifo ops q); [by apply Nat.le_0_l|reflexivity].
Defined.
