(* ===== verification/QueueRabbit.v ===== *)
(** [pkg/queue/queue_rabbitmq.go]: the queue over a RabbitMQ broker.

    The client library ([amqp091-go]) and the broker behind it are a parameter,
    the class [Amqp] over a state [W] of the network.  A pointer that may be nil is
    an option; what the library does with a nil receiver is left to it.  The Go
    channels of the queue have no buffer, so giving a job to one is giving it to
    a worker: it is recorded in [rw_jobs] (or [rw_results]).  Sleeping and logging
    have no effect. *)
From S2P Require Import Prelude GoStrings GoUtf8 GoJson GoCodec Common Messages Queue.

(** ** The client *)
Class Amqp (W : Type) : Type := {
  Connection : Type;
  AmqpChannel : Type;
  Delivery : Type;
  Confirmations : Type;
  Dial : string -> GM W (error + Connection);
  IsClosed : Connection -> GM W bool;
  CloseConnection : Connection -> GM W (option error);
  OpenChannel : Connection -> GM W (error + AmqpChannel);      (* [conn.Channel] *)
  CloseChannel : option AmqpChannel -> GM W (option error);
  QueueDeclare : AmqpChannel -> string -> GM W (option error);
  Qos : AmqpChannel -> GM W (option error);
  (* [channel.Get(queue, false)]: an error, no message, or one with its body *)
  Get : option AmqpChannel -> string -> GM W (error + option (string * Delivery));
  Ack : Delivery -> GM W (option error);
  Nack : Delivery -> GM W (option error);                      (* not requeued *)
  Confirm : option AmqpChannel -> GM W (option error);
  NotifyPublish : option AmqpChannel -> Z -> GM W Confirmations;
  PublishWithContext : option AmqpChannel -> string -> string -> GM W (option error);
  Await : Confirmations -> GM W (attempt bool);                 (* [(<-confirmations).Ack] *)
}.

Section rabbit.
Context {W : Type} `{Amqp W}.

Record RabbitMQQueue : Type := MkRabbit {
  conn : option Connection; channel : option AmqpChannel; connString : string
}.

(** What a goroutine of the queue sees: the queue, the network, and what went
    through the Go channels, in order. *)
Record RabbitWorld : Type := MkRW {
  rw_queue : RabbitMQQueue; rw_net : W; rw_jobs : list AnalyzeJob; rw_results : list AnalyzeResult
}.

Notation M := (GM RabbitWorld).

Definition net {A} (m : GM W A) : M A :=
  zoom rw_net (fun n w => MkRW (rw_queue w) n (rw_jobs w) (rw_results w)) m.
Definition set_queue (c : option Connection) (ch : option AmqpChannel) : M unit :=
  gmodify (fun w => MkRW (MkRabbit c ch (connString (rw_queue w))) (rw_net w) (rw_jobs w) (rw_results w)).
Definition give_job (job : AnalyzeJob) : M unit :=
  gmodify (fun w => MkRW (rw_queue w) (rw_net w) (rw_jobs w ++ [job]) (rw_results w)).
Definition give_result (r : AnalyzeResult) : M unit :=
  gmodify (fun w => MkRW (rw_queue w) (rw_net w) (rw_jobs w) (rw_results w ++ [r])).

(** ** [NewRabbitMQQueue] *)
Definition tryCount : nat := 5.
Definition jobsQueueName : string := "tasks".
Definition resultsQueueName : string := "results".

(** The goroutines it starts. *)
Inductive task := TConsumeJobs (queueName : string) | TPublishResults (queueName : string)
  | TPublishJobs (queueName : string) | TConsumeResults (queueName : string).

Definition tasks (isAgent : bool) : list task :=
  if isAgent then [TConsumeJobs jobsQueueName; TPublishResults resultsQueueName]
  else [TPublishJobs jobsQueueName; TConsumeResults resultsQueueName].

Definition rabbitMQURL (host : string) (port : Z) (user password : string) : string :=
  "amqp://" +:+ user +:+ ":" +:+ password +:+ "@" +:+ host +:+ ":" +:+ itoa port +:+ "/".

(** The loop over the attempts; [last] is the error of the one before. *)
Fixpoint dial_retry (url : string) (attempts : nat) (last : error) : GM W (error + Connection) :=
  match attempts with
  | O => gret (inl last)
  | S attempts' =>
      let! dialed := Dial url in
      match dialed with
      | inl e => dial_retry url attempts' e
      | inr c => gret (inr c)
      end
  end.

(** [if err := m; err != nil { conn.Close(); return nil, err }] *)
Definition or_close {A} (c : Connection) (ctx : string) (m : GM W (option error))
    (k : GM W (error + A)) : GM W (error + A) :=
  let! err := m in
  match err with
  | Some e => CloseConnection c ;;; gret (inl (EWrap ctx e))
  | None => k
  end.

Definition NewRabbitMQQueue (host : string) (port : Z) (user password : string) (isAgent : bool)
    : GM W (error + (RabbitMQQueue * list task)) :=
  let url := rabbitMQURL host port user password in
  let! dialed := dial_retry url tryCount (EText "") in
  match dialed with
  | inl e => gret (inl (EWrap "failed to connect" e))
  | inr c =>
      let! opened := OpenChannel c in
      match opened with
      | inl e => CloseConnection c ;;; gret (inl (EWrap "failed to open a channel" e))
      | inr ch =>
          or_close c "failed to declare tasks queue" (QueueDeclare ch jobsQueueName) (
          or_close c "failed to declare results queue" (QueueDeclare ch resultsQueueName) (
          or_close c "failed to set QoS" (Qos ch) (
          gret (inr (MkRabbit (Some c) (Some ch) url, tasks isAgent)))))
      end
  end.

(** ** The connection *)
Definition reconnectIfNeeded : M (option error) :=
  let! q := gget rw_queue in
  let! valid :=
    match conn q with
    | None => gret false
    | Some c =>
        let! closed := net (IsClosed c) in
        gret (negb closed && match channel q with Some _ => true | None => false end)
    end in
  if valid : bool then gret None
  else
    let! dialed := net (Dial (connString q)) in
    match dialed with
    | inl e => gret (Some (EWrap "failed to reconnect" e))
    | inr c =>
        let! opened := net (OpenChannel c) in
        match opened with
        | inl e => net (CloseConnection c) ;;; gret (Some (EWrap "failed to open channel" e))
        | inr ch => set_queue (Some c) (Some ch) ;;; gret None
        end
    end.

Definition invalidateConnection : M unit :=
  let! q := gget rw_queue in
  (match channel q with Some ch => net (CloseChannel (Some ch)) ;;; gret tt | None => gret tt end) ;;;
  (match conn q with Some c => net (CloseConnection c) ;;; gret tt | None => gret tt end) ;;;
  set_queue None None.

Definition Close : M unit :=
  let! q := gget rw_queue in
  net (CloseChannel (channel q)) ;;;
  match conn q with
  | Some c => net (CloseConnection c) ;;; gret tt
  | None => gpanic "runtime error: invalid memory address or nil pointer dereference"
  end.

(** ** The consumers: one turn of the loop, and a number of turns *)
Definition consume_job (queueName : string) : M unit :=
  let! err := reconnectIfNeeded in
  match err with
  | Some _ => gret tt
  | None =>
      let! q := gget rw_queue in
      let! got := net (Get (channel q) queueName) in
      match got with
      | inl _ => invalidateConnection
      | inr None => gret tt
      | inr (Some (body, msg)) =>
          match Unmarshal AnalyzeJob_dec AnalyzeJob_zero body with
          | None => net (Nack msg) ;;; gret tt
          | Some job => give_job job ;;; net (Ack msg) ;;; gret tt
          end
      end
  end.

Definition consume_result (queueName : string) : M unit :=
  let! err := reconnectIfNeeded in
  match err with
  | Some _ => gret tt
  | None =>
      let! q := gget rw_queue in
      let! got := net (Get (channel q) queueName) in
      match got with
      | inl _ => gret tt
      | inr None => gret tt
      | inr (Some (body, msg)) =>
          match Unmarshal AnalyzeResult_dec AnalyzeResult_zero body with
          | None => net (Nack msg) ;;; gret tt
          | Some result => give_result result ;;; net (Ack msg) ;;; gret tt
          end
      end
  end.

Fixpoint turns (n : nat) (body : M unit) : M unit :=
  match n with O => gret tt | S n' => body ;;; turns n' body end.

Definition ConsumeJobs (queueName : string) (n : nat) : M unit := turns n (consume_job queueName).
Definition ConsumeResults (queueName : string) (n : nat) : M unit := turns n (consume_result queueName).

(** ** The publishers *)
Definition confirmChannelSize : Z := 99999.

(** From the encoded message on: the errors are only logged, and the wait for the
    confirmation may never end. *)
Definition publish_bytes (queueName body : string) : M (attempt unit) :=
  let! q := gget rw_queue in
  net (Confirm (channel q)) ;;;
  let! confirmations := net (NotifyPublish (channel q) confirmChannelSize) in
  net (PublishWithContext (channel q) queueName body) ;;;
  let! confirm := net (Await confirmations) in
  match confirm with
  | Done _ => gret (Done tt)
  | Blocks => gret Blocks
  | Crash msg => gpanic msg
  end.

Definition publishJob (queueName : string) (job : AnalyzeJob) : M (attempt unit) :=
  publish_bytes queueName (Marshal job).
Definition publishResult (queueName : string) (result : AnalyzeResult) : M (attempt unit) :=
  publish_bytes queueName (Marshal result).

(** The loops over the Go channels, given what comes through them. *)
Fixpoint publish_all {A} (publish : A -> M (attempt unit)) (xs : list A) : M (attempt unit) :=
  match xs with
  | [] => gret (Done tt)
  | x :: xs' =>
      let! done := publish x in
      match done with Done _ => publish_all publish xs' | other => gret other end
  end.

Definition PublishJobs (queueName : string) (jobs : list AnalyzeJob) : M (attempt unit) :=
  publish_all (publishJob queueName) jobs.
Definition PublishResults (queueName : string) (results : list AnalyzeResult) : M (attempt unit) :=
  publish_all (publishResult queueName) results.

(** ** What a queue that was made is connected to *)

(** [connects url n w c w']: of at most [n] calls of [Dial] with [url], and nothing
    else, the last gave [c] and the others failed. *)
Inductive connects (url : string) : nat -> W -> Connection -> W -> Prop :=
| connects_now n w c w' : Dial url w = (Val (inr c), w') -> connects url (S n) w c w'
| connects_later n w e w1 c w' :
    Dial url w = (Val (inl e), w1) -> connects url n w1 c w' -> connects url (S n) w c w'.

Lemma dial_retry_spec url n last w c w' :
  dial_retry url n last w = (Val (inr c), w') <-> connects url n w c w'.
Proof.
  split.
  - revert last w. induction n as [|n IH]; intros last w Hm; [done|]. cbn [dial_retry] in Hm.
    apply gbind_val_inv in Hm as ([e|c'] & w1 & Hd & Hm).
    + eapply connects_later; [exact Hd|]. by eapply IH.
    + injection Hm as -> <-. by apply connects_now.
  - intros Hc. revert last. induction Hc as [n w c w' Hd|n w e w1 c w' Hd _ IH]; intros last;
      cbn [dial_retry]; unfold gbind; rewrite Hd; [done|apply IH].
Qed.

Lemma or_close_spec {A} c ctx m (k : GM W (error + A)) w v w' :
  or_close c ctx m k w = (Val (inr v), w') <-> exists w1, m w = (Val None, w1) /\ k w1 = (Val (inr v), w').
Proof.
  unfold or_close. split.
  - intros Hm. apply gbind_val_inv in Hm as ([e|] & w1 & Hn & Hm); [|by exists w1].
    by apply gbind_val_inv in Hm as (? & ? & _ & Hm).
  - intros (w1 & Hm & Hk). unfold gbind. by rewrite Hm.
Qed.

(** The calls that make a queue, in order, each of them without an error. *)
Definition made_by (url : string) (w : W) (c : Connection) (ch : AmqpChannel) (w' : W) : Prop :=
  exists w1 w2 w3 w4,
    connects url 5 w c w1 /\ OpenChannel c w1 = (Val (inr ch), w2) /\
    QueueDeclare ch "tasks" w2 = (Val None, w3) /\ QueueDeclare ch "results" w3 = (Val None, w4) /\
    Qos ch w4 = (Val None, w').

Lemma NewRabbitMQQueue_spec host port user password isAgent w q ts w' :
  NewRabbitMQQueue host port user password isAgent w = (Val (inr (q, ts)), w') <->
  exists c ch, made_by (rabbitMQURL host port user password) w c ch w' /\
    q = MkRabbit (Some c) (Some ch) (rabbitMQURL host port user password) /\ ts = tasks isAgent.
Proof.
  unfold NewRabbitMQQueue. cbn zeta. split.
  - intros Hm. apply gbind_val_inv in Hm as ([e|c] & w1 & H1 & Hm); [done|]. apply dial_retry_spec in H1.
    apply gbind_val_inv in Hm as ([e|ch] & w2 & H2 & Hm); [by apply gbind_val_inv in Hm as (? & ? & _ & Hm)|].
    apply or_close_spec in Hm as (w3 & H3 & Hm). apply or_close_spec in Hm as (w4 & H4 & Hm).
    apply or_close_spec in Hm as (w5 & H5 & Hm).
    injection Hm as <- <- <-. exists c, ch. split; [by exists w1, w2, w3, w4|done].
  - intros (c & ch & (w1 & w2 & w3 & w4 & H1 & H2 & H3 & H4 & H5) & -> & ->).
    unfold gbind at 1. rewrite (proj2 (dial_retry_spec _ _ _ _ _ _) H1). unfold gbind at 1. rewrite H2.
    apply or_close_spec. exists w3. split; [done|]. apply or_close_spec. exists w4. split; [done|].
    apply or_close_spec. by exists w'.
Qed.

End rabbit.
