(* ===== verification/QueueRabbitProps.v ===== *)
(** The RabbitMQ queue on a broker that works, and on a channel that died.

    [BrokerLaws] states what a working broker and its client do: messages wait in
    a queue in the order published, a message got is taken off, and one client
    does not disturb another. *)
From S2P Require Import Prelude GoStrings GoUtf8 GoJson GoCodec Common Messages Queue QueueRabbit.

Class BrokerLaws (W : Type) `{Amqp W} : Type := {
  usable : Connection -> AmqpChannel -> W -> Prop;
  ready : W -> string -> list string;
  outstanding : Delivery -> W -> Prop;
  notified : AmqpChannel -> Confirmations -> W -> Prop;
  confirmed : Confirmations -> W -> Prop;

  (* the queues and the clients as they were *)
  undisturbed (w w' : W) : Prop :=
    (forall q, ready w' q = ready w q) /\ (forall c ch, usable c ch w -> usable c ch w');

  usable_open c ch w : usable c ch w -> exists w', IsClosed c w = (Val false, w') /\ undisturbed w w';
  get_next c ch q w body rest :
    usable c ch w -> ready w q = body :: rest ->
    exists msg w', Get (Some ch) q w = (Val (inr (Some (body, msg))), w') /\ outstanding msg w' /\
      ready w' q = rest /\ (forall c ch, usable c ch w -> usable c ch w');
  ack_ok msg w :
    outstanding msg w -> exists err w', Ack msg w = (Val err, w') /\ undisturbed w w';
  confirm_ok c ch w :
    usable c ch w -> exists err w', Confirm (Some ch) w = (Val err, w') /\ undisturbed w w';
  notify_ok c ch n w :
    usable c ch w ->
    exists cf w', NotifyPublish (Some ch) n w = (Val cf, w') /\ undisturbed w w' /\ notified ch cf w';
  publish_ok c ch cf q body w :
    usable c ch w -> notified ch cf w ->
    exists err w', PublishWithContext (Some ch) q body w = (Val err, w') /\ confirmed cf w' /\
      ready w' q = ready w q ++ [body] /\ (forall c ch, usable c ch w -> usable c ch w');
  await_ok cf w :
    confirmed cf w -> exists ack w', Await cf w = (Val (Done ack), w') /\ undisturbed w w';
}.

Section laws.
Context {W : Type} `{BrokerLaws W}.

Lemma net_ok {A} (m : GM W A) (r : RabbitWorld) o n :
  m (rw_net r) = (o, n) -> net m r = (o, MkRW (rw_queue r) n (rw_jobs r) (rw_results r)).
Proof. intros Hm. unfold net, zoom. by rewrite Hm. Qed.

(** A queue with a connection that works. *)
Definition working (q : RabbitMQQueue) (w : W) : Prop :=
  exists c ch, conn q = Some c /\ channel q = Some ch /\ usable c ch w.

Lemma working_mono q w w' :
  (forall c ch, usable c ch w -> usable c ch w') -> working q w -> working q w'.
Proof. intros Hw (c & ch & H1 & H2 & H3). exists c, ch. auto. Qed.

Lemma reconnect_not_needed q w js rs :
  working q w ->
  exists w', reconnectIfNeeded (MkRW q w js rs) = (Val None, MkRW q w' js rs) /\ undisturbed w w'.
Proof.
  intros (c & ch & Hc & Hch & Hu). destruct (usable_open c ch w Hu) as (w' & Hcl & Hun).
  exists w'. split; [|done]. unfold reconnectIfNeeded.
  go_step (eq_refl (Val q, MkRW q w js rs)). rewrite Hc, Hch.
  assert ((let! closed := net (IsClosed c) in gret (negb closed && true)) (MkRW q w js rs)
          = (Val true, MkRW q w' js rs)) as Hvalid by by go_step (net_ok _ (MkRW q w js rs) _ _ Hcl).
  by go_step Hvalid.
Qed.

(** One message, published and confirmed. *)
Lemma publish_bytes_ok q w js rs name body :
  working q w ->
  exists w', publish_bytes name body (MkRW q w js rs) = (Val (Done tt), MkRW q w' js rs) /\
    ready w' name = ready w name ++ [body] /\ (forall c ch, usable c ch w -> usable c ch w').
Proof.
  intros (c & ch & Hc & Hch & Hu). unfold publish_bytes.
  destruct (confirm_ok c ch w Hu) as (e1 & w1 & H1 & Hr1 & Hu1).
  destruct (notify_ok c ch confirmChannelSize w1 (Hu1 _ _ Hu)) as (cf & w2 & H2 & [Hr2 Hu2] & Hn).
  destruct (publish_ok c ch cf name body w2 (Hu2 _ _ (Hu1 _ _ Hu)) Hn) as (e3 & w3 & H3 & Hcf & Hr3 & Hu3).
  destruct (await_ok cf w3 Hcf) as (ack & w4 & H4 & [Hr4 Hu4]).
  exists w4. split; [|split; [by rewrite Hr4, Hr3, Hr2, Hr1|by auto]].
  go_step (eq_refl (Val q, MkRW q w js rs)). rewrite Hch.
  go_step (net_ok _ (MkRW q w js rs) _ _ H1). go_step (net_ok _ (MkRW q w1 js rs) _ _ H2).
  go_step (net_ok _ (MkRW q w2 js rs) _ _ H3). by go_step (net_ok _ (MkRW q w3 js rs) _ _ H4).
Qed.

Lemma publish_jobs_ok q w js rs name xs :
  working q w ->
  exists w', PublishJobs name xs (MkRW q w js rs) = (Val (Done tt), MkRW q w' js rs) /\
    ready w' name = ready w name ++ map Marshal xs /\ (forall c ch, usable c ch w -> usable c ch w').
Proof.
  unfold PublishJobs. revert w. induction xs as [|x xs IH]; intros w Hw; cbn [publish_all].
  { exists w. rewrite app_nil_r. by split_and!. }
  destruct (publish_bytes_ok q w js rs name (Marshal x) Hw) as (w1 & H1 & Hr1 & Hu1).
  destruct (IH w1 (working_mono _ _ _ Hu1 Hw)) as (w2 & H2 & Hr2 & Hu2).
  exists w2. split_and!; [|by rewrite Hr2, Hr1, <- app_assoc|by auto].
  by go_step H1.
Qed.

(** A message that decodes is given to a worker and acknowledged. *)
Lemma consume_job_ok q w js rs name body rest job :
  working q w -> ready w name = body :: rest -> Unmarshal AnalyzeJob_dec AnalyzeJob_zero body = Some job ->
  exists w', consume_job name (MkRW q w js rs) = (Val tt, MkRW q w' (js ++ [job]) rs) /\
    ready w' name = rest /\ (forall c ch, usable c ch w -> usable c ch w').
Proof.
  intros Hw Hready Hdec. destruct (reconnect_not_needed q w js rs Hw) as (w1 & H1 & Hr1 & Hu1).
  pose proof Hw as (c & ch & Hc & Hch & Hu). rewrite <- Hr1 in Hready.
  destruct (get_next c ch name w1 body rest (Hu1 _ _ Hu) Hready) as (msg & w2 & H2 & Ho & Hr2 & Hu2).
  destruct (ack_ok msg w2 Ho) as (err & w3 & H3 & Hr3 & Hu3).
  exists w3. split_and!; [|by rewrite Hr3|by auto].
  unfold consume_job. go_step H1. go_step (eq_refl (Val q, MkRW q w1 js rs)). rewrite Hch.
  go_step (net_ok _ (MkRW q w1 js rs) _ _ H2). rewrite Hdec.
  go_step (eq_refl (Val tt, MkRW q w2 (js ++ [job]) rs)).
  by go_step (net_ok _ (MkRW q w2 (js ++ [job]) rs) _ _ H3).
Qed.

Lemma consume_jobs_ok q w js rs name xs :
  working q w -> ready w name = map Marshal xs -> Forall json_valid xs ->
  exists w', ConsumeJobs name (length xs) (MkRW q w js rs) = (Val tt, MkRW q w' (js ++ xs) rs) /\
    ready w' name = [].
Proof.
  unfold ConsumeJobs. revert w js. induction xs as [|x xs IH]; intros w js Hw Hready Hv; cbn [length turns].
  { exists w. by rewrite app_nil_r. }
  apply Forall_cons_1 in Hv as [Hx Hv].
  destruct (consume_job_ok q w js rs name (Marshal x) (map Marshal xs) x Hw Hready) as (w1 & H1 & Hr1 & Hu1).
  { exact (Unmarshal_Marshal x AnalyzeJob_zero Hx ltac:(done)). }
  destruct (IH w1 (js ++ [x]) (working_mono _ _ _ Hu1 Hw) Hr1 Hv) as (w2 & H2 & Hr2).
  exists w2. split; [|done]. go_step H1. by rewrite H2, <- app_assoc.
Qed.

(** C19.  On a working broker the jobs the server publishes reach the workers of an
    agent: every job once, in order and with every field as it was sent, and the
    queue is empty again; the publisher is not left waiting. *)
Theorem published_jobs_are_consumed qs qa jobs w :
  working qs w -> working qa w -> ready w jobsQueueName = [] -> Forall json_valid jobs ->
  exists w1 w2,
    PublishJobs jobsQueueName jobs (MkRW qs w [] []) = (Val (Done tt), MkRW qs w1 [] []) /\
    ConsumeJobs jobsQueueName (length jobs) (MkRW qa w1 [] []) = (Val tt, MkRW qa w2 jobs []) /\
    ready w2 jobsQueueName = [].
Proof.
  intros Hs Ha Hempty Hv.
  destruct (publish_jobs_ok qs w [] [] jobsQueueName jobs Hs) as (w1 & H1 & Hr1 & Hu1). rewrite Hempty in Hr1.
  destruct (consume_jobs_ok qa w1 [] [] jobsQueueName jobs (working_mono _ _ _ Hu1 Ha) Hr1 Hv) as (w2 & H2 & Hr2).
  by exists w1, w2.
Qed.
End laws.

(** ** A channel that died under an open connection

    What a channel exception leaves, for instance asking for a queue that the
    broker no longer has: every call on the channel fails, the connection is open. *)
Section dead.
Context {W : Type} `{Amqp W} (c : Connection) (ch : AmqpChannel) (dead : W -> Prop).
Context (dead_open : forall w, dead w -> exists w', IsClosed c w = (Val false, w') /\ dead w').
Context (dead_get : forall w q, dead w -> exists e w', Get (Some ch) q w = (Val (inl e), w') /\ dead w').

Lemma reconnect_dead url w js rs :
  dead w ->
  exists w', reconnectIfNeeded (MkRW (MkRabbit (Some c) (Some ch) url) w js rs)
    = (Val None, MkRW (MkRabbit (Some c) (Some ch) url) w' js rs) /\ dead w'.
Proof.
  intros (w' & Hcl & Hd)%dead_open. exists w'. split; [|done].
  set (q := MkRabbit (Some c) (Some ch) url). unfold reconnectIfNeeded.
  go_step (eq_refl (Val q, MkRW q w js rs)).
  assert ((let! closed := net (IsClosed c) in gret (negb closed && true)) (MkRW q w js rs)
          = (Val true, MkRW q w' js rs)) as Hvalid by by go_step (net_ok _ (MkRW q w js rs) _ _ Hcl).
  by go_step Hvalid.
Qed.

Lemma consume_result_dead url w js rs name :
  dead w ->
  exists w', consume_result name (MkRW (MkRabbit (Some c) (Some ch) url) w js rs)
    = (Val tt, MkRW (MkRabbit (Some c) (Some ch) url) w' js rs) /\ dead w'.
Proof.
  intros Hw. destruct (reconnect_dead url w js rs Hw) as (w1 & H1 & Hd1).
  destruct (dead_get w1 name Hd1) as (e & w2 & H2 & Hd2). exists w2. split; [|done].
  set (q := MkRabbit (Some c) (Some ch) url) in *. unfold consume_result. go_step H1.
  go_step (eq_refl (Val q, MkRW q w1 js rs)). by go_step (net_ok _ (MkRW q w1 js rs) _ _ H2).
Qed.

(** The agent's consumer: the failed poll closes both and drops them. *)
Lemma consume_job_dead url w js rs name :
  dead w -> (forall w, exists e w', CloseChannel (Some ch) w = (Val e, w')) ->
  (forall w, exists e w', CloseConnection c w = (Val e, w')) ->
  exists w', consume_job name (MkRW (MkRabbit (Some c) (Some ch) url) w js rs)
    = (Val tt, MkRW (MkRabbit None None url) w' js rs).
Proof.
  intros Hw Hcc Hco. set (q := MkRabbit (Some c) (Some ch) url).
  destruct (reconnect_dead url w js rs Hw) as (w1 & H1 & Hd1).
  destruct (dead_get w1 name Hd1) as (e & w2 & H2 & Hd2).
  destruct (Hcc w2) as (e3 & w3 & H3). destruct (Hco w3) as (e4 & w4 & H4). exists w4.
  unfold consume_job. go_step H1. go_step (eq_refl (Val q, MkRW q w1 js rs)).
  go_step (net_ok _ (MkRW q w1 js rs) _ _ H2). unfold invalidateConnection.
  go_step (eq_refl (Val q, MkRW q w2 js rs)). subst q. cbn [channel conn].
  unfold gbind. rewrite (net_ok _ (MkRW _ w2 js rs) _ _ H3). cbn.
  by rewrite (net_ok _ (MkRW _ w3 js rs) _ _ H4).
Qed.

(** Without a connection it is dialed again, at the address it was made with. *)
Lemma reconnect_dials url w js rs c' ch' wa wb :
  Dial url w = (Val (inr c'), wa) -> OpenChannel c' wa = (Val (inr ch'), wb) ->
  reconnectIfNeeded (MkRW (MkRabbit None None url) w js rs)
    = (Val None, MkRW (MkRabbit (Some c') (Some ch') url) wb js rs).
Proof.
  intros Hd Ho. set (q := MkRabbit None None url). unfold reconnectIfNeeded.
  go_step (eq_refl (Val q, MkRW q w js rs)). go_step (eq_refl (Val false, MkRW q w js rs)).
  go_step (net_ok _ (MkRW q w js rs) _ _ Hd). by go_step (net_ok _ (MkRW q wa js rs) _ _ Ho).
Qed.

Lemma reconnect_fails url w js rs e wa :
  Dial url w = (Val (inl e), wa) ->
  exists e', reconnectIfNeeded (MkRW (MkRabbit None None url) w js rs)
    = (Val (Some e'), MkRW (MkRabbit None None url) wa js rs).
Proof.
  intros Hd. set (q := MkRabbit None None url). unfold reconnectIfNeeded. eexists.
  go_step (eq_refl (Val q, MkRW q w js rs)). go_step (eq_refl (Val false, MkRW q w js rs)).
  by go_step (net_ok _ (MkRW q w js rs) _ _ Hd).
Qed.

End dead.
