(* ===== verification/ArtifactStore.v ===== *)
(** [pkg/artifactstore]: the interface [Store] and its in-memory implementation. *)
From S2P Require Import Prelude GoStrings GoUtf8 GoJson Common.

(** ** [interfaces.go] *)
Class Store (S : Type) : Type := {
  GetQueryPack : ArtifactLocation -> GM S (gores string);
  SaveQueryPack : Z -> string -> GM S (gores ArtifactLocation);
  GetArtifact : ArtifactLocation -> GM S (gores string);  (* the method GetResult *)
  GetResultSize : ArtifactLocation -> GM S (gores Z);
  SaveResult : JobSpec -> string -> GM S (gores ArtifactLocation);
}.

(** [fmt.Sprintf("%d-packs", sessionId)] *)
Definition pack_key (sessionId : Z) : string := itoa sessionId +:+ "-packs".

(** [fmt.Sprintf("%d-results-%s", jobSpec.SessionID, jobSpec.NameWithOwner)] *)
Definition result_key (js : JobSpec) : string :=
  itoa (SessionID js) +:+ "-results-" +:+ show_nwo (js_NameWithOwner js).

(** What the server and the agent rely on: what was saved is found at the
    location returned, the size is the length of the data, reading changes
    nothing, and saving an artifact leaves the ones with another key than its own. *)
Class StoreLaws (S : Type) `{Store S} : Prop := {
  saved_pack_found sid data s loc s' :
    SaveQueryPack sid data s = (Val (loc, None), s') ->
    GetQueryPack loc s' = (Val (data, None), s');
  saved_result_found js data s loc s' :
    SaveResult js data s = (Val (loc, None), s') ->
    GetArtifact loc s' = (Val (data, None), s');
  size_is_length loc s data s1 n s2 :
    GetArtifact loc s = (Val (data, None), s1) ->
    GetResultSize loc s = (Val (n, None), s2) -> n = slen data;
  reading_keeps_store loc s :
    (GetQueryPack loc s).2 = s /\ (GetArtifact loc s).2 = s /\ (GetResultSize loc s).2 = s;
  saved_result_key js data s loc s' :
    SaveResult js data s = (Val (loc, None), s') -> Key loc = result_key js;
  saved_result_keeps js data s loc s' l :
    SaveResult js data s = (Val (loc, None), s') ->
    Key l <> result_key js -> (GetArtifact l s').1 = (GetArtifact l s).1;
  saved_pack_keeps_results sid data s loc s' l :
    SaveQueryPack sid data s = (Val (loc, None), s') ->
    Key l <> pack_key sid -> (GetArtifact l s').1 = (GetArtifact l s).1;
}.

Lemma reads {S} `{StoreLaws S} loc (s : S) v : (GetArtifact loc s).1 = Val v -> GetArtifact loc s = (Val v, s).
Proof.
  destruct (reading_keeps_store loc s) as (_ & Hk & _). destruct (GetArtifact loc s) as [o s']. simpl in *. intros ->. by subst.
Qed.

(** A result saved after another under a different key leaves it where it is. *)
Lemma saved_result_frame {S} `{StoreLaws S} js js' data data' (s : S) loc s1 loc' s2 :
  result_key js <> result_key js' ->
  SaveResult js data s = (Val (loc, None), s1) -> SaveResult js' data' s1 = (Val (loc', None), s2) ->
  GetArtifact loc s2 = (Val (data, None), s2).
Proof.
  intros Hne H1 H2. apply reads. rewrite (saved_result_keeps _ _ _ _ _ loc H2).
  - by rewrite (saved_result_found _ _ _ _ _ H1).
  - by rewrite (saved_result_key _ _ _ _ _ H1).
Qed.

(** ** [store_memory.go] *)
Module Memory.

Record InMemoryArtifactStore : Type := MkStore {
  packs : gmap string string;
  results : gmap string string
}.

Definition NewInMemoryArtifactStore : InMemoryArtifactStore := MkStore ∅ ∅.

Definition GetQueryPack (location : ArtifactLocation) : GM InMemoryArtifactStore (gores string) :=
  fun store =>
    let key := Key location in
    match packs store !! key with
    | None => (Val ("", Some (EText ("query pack not found: " +:+ key))), store)
    | Some data => (Val (data, None), store)
    end.

Definition SaveQueryPack (sessionId : Z) (data : string)
    : GM InMemoryArtifactStore (gores ArtifactLocation) :=
  fun store =>
    let key := pack_key sessionId in
    (Val (MkLoc key AF_BUCKETNAME_PACKS, None),
     MkStore (<[key := data]> (packs store)) (results store)).

Definition GetResult (location : ArtifactLocation) : GM InMemoryArtifactStore (gores string) :=
  fun store =>
    let key := Key location in
    match results store !! key with
    | None => (Val ("", Some (EText ("result not found: " +:+ key))), store)
    | Some data => (Val (data, None), store)
    end.

Definition GetResultSize (location : ArtifactLocation) : GM InMemoryArtifactStore (gores Z) :=
  fun store =>
    let key := Key location in
    match results store !! key with
    | None => (Val (0, Some (EText ("result not found: " +:+ key))), store)
    | Some data => (Val (slen data, None), store)
    end.

Definition SaveResult (jobSpec : JobSpec) (data : string)
    : GM InMemoryArtifactStore (gores ArtifactLocation) :=
  fun store =>
    let key := result_key jobSpec in
    (Val (MkLoc key AF_BUCKETNAME_RESULTS, None),
     MkStore (packs store) (<[key := data]> (results store))).

End Memory.

#[export] Instance memory_store : Store Memory.InMemoryArtifactStore := {|
  GetQueryPack := Memory.GetQueryPack;
  SaveQueryPack := Memory.SaveQueryPack;
  GetArtifact := Memory.GetResult;
  GetResultSize := Memory.GetResultSize;
  SaveResult := Memory.SaveResult |}.

#[export] Instance memory_store_laws : StoreLaws Memory.InMemoryArtifactStore.
Proof.
  constructor; simpl.
  - intros sid data s loc s' [= <- <-]. unfold Memory.GetQueryPack. simpl.
    by rewrite lookup_insert_eq.
  - intros js data s loc s' [= <- <-]. unfold Memory.GetResult. simpl.
    by rewrite lookup_insert_eq.
  - intros loc s data s1 n s2. unfold Memory.GetResult, Memory.GetResultSize.
    destruct (Memory.results s !! Key loc); congruence.
  - intros loc s. unfold Memory.GetQueryPack, Memory.GetResult, Memory.GetResultSize.
    by destruct (Memory.packs s !! Key loc), (Memory.results s !! Key loc).
  - by intros js data s loc s' [= <- <-].
  - intros js data s loc s' l [= <- <-] Hne. unfold Memory.GetResult. simpl. rewrite lookup_insert_ne by done.
    by destruct (Memory.results s !! Key l).
  - intros sid data s loc s' l [= <- <-] _. unfold Memory.GetResult. simpl.
    by destruct (Memory.results s !! Key l).
Qed.

(** ** The keys *)
Lemma itoa_then_dash z1 z2 a b :
  itoa z1 +:+ String "-" a = itoa z2 +:+ String "-" b -> z1 = z2 /\ a = b.
Proof.
  assert (forall n1 n2, 0 <= n1 -> 0 <= n2 ->
    itoa_nat n1 +:+ String "-" a = itoa_nat n2 +:+ String "-" b ->
    itoa_nat n1 = itoa_nat n2 /\ a = b) as Hnat.
  { intros n1 n2 H1 H2 H. apply (f_equal take_digits) in H.
    rewrite !take_digits_all in H by (done || by apply digits_all). by simplify_eq. }
  assert (forall z, z < 0 -> itoa z = String "-" (itoa_nat (- z))) as Hneg.
  { intros z Hz. unfold itoa. by destruct (Z.ltb_spec z 0); [|lia]. }
  assert (forall z, 0 <= z -> itoa z = itoa_nat z) as Hpos.
  { intros z Hz. unfold itoa. by destruct (Z.ltb_spec z 0); [lia|]. }
  intros H. destruct (Z.lt_ge_cases z1 0), (Z.lt_ge_cases z2 0).
  - rewrite !Hneg in H by done. simpl in H. injection H as H.
    apply Hnat in H as [H ->]; [|lia..]. split; [|done]. apply (inj itoa). by rewrite !Hneg, H.
  - destruct (itoa_nat_shape z2) as (d & r & Hd & Heq); [lia|].
    rewrite Hneg, (Hpos z2), Heq in H by done. simpl in H. injection H as H _.
    destruct (digit_not_sign d Hd) as [_ Hn]. by rewrite <- H in Hn.
  - destruct (itoa_nat_shape z1) as (d & r & Hd & Heq); [lia|].
    rewrite Hpos, (Hneg z2), Heq in H by done. simpl in H. injection H as H _.
    destruct (digit_not_sign d Hd) as [_ Hn]. by rewrite H in Hn.
  - rewrite !Hpos in H by done. apply Hnat in H as [H ->]; [|lia..].
    split; [|done]. apply (inj itoa). by rewrite !Hpos, H.
Qed.

Lemma string_app_inj_r a b c : a +:+ c = b +:+ c -> a = b.
Proof.
  revert b. induction a as [|x a IH]; intros [|y b] H; simpl in H; [done| | |].
  - apply (f_equal String.length) in H. simpl in H. rewrite string_length_app in H. lia.
  - apply (f_equal String.length) in H. simpl in H. rewrite string_length_app in H. lia.
  - injection H as -> H. f_equal. by apply IH.
Qed.

Lemma owner_repo_inj (o1 o2 r1 r2 : string) :
  in_string " " o1 = false -> in_string " " o2 = false ->
  o1 +:+ String " " (r1 +:+ "}") = o2 +:+ String " " (r2 +:+ "}") -> o1 = o2 /\ r1 = r2.
Proof.
  intros H1 H2 H. pose proof (f_equal (split_byte " ") H) as Hs.
  rewrite !split_byte_app in Hs by done. injection Hs as -> _. split; [done|].
  apply (string_app_inj_r _ _ "}").
  clear - H. induction o2 as [|c o2 IH]; simpl in H; injection H; auto.
Qed.

Lemma result_key_inj js1 js2 :
  in_string " " (js_Owner js1) = false -> in_string " " (js_Owner js2) = false ->
  result_key js1 = result_key js2 -> js1 = js2.
Proof.
  destruct js1 as [s1 n1], js2 as [s2 n2]. unfold result_key, js_Owner. simpl. intros H1 H2 H.
  apply itoa_then_dash in H as [-> H]. injection H as H.
  apply owner_repo_inj in H as [??]; [|done..]. destruct n1, n2. by simplify_eq/=.
Qed.

Lemma pack_key_inj sid1 sid2 : pack_key sid1 = pack_key sid2 -> sid1 = sid2.
Proof. intros H. by apply itoa_then_dash in H as [-> _]. Qed.

Lemma result_key_not_pack js sid : result_key js <> pack_key sid.
Proof. intros H. apply itoa_then_dash in H as [_ H]. discriminate. Qed.

(** Results of different jobs are kept apart: after both were saved, each
    location gives back the bytes of its own job.  The owner's name must hold no
    space, which is what separates it from the repository's in the key. *)
Theorem results_are_kept_apart {S : Type} `{StoreLaws S} js1 js2 data1 data2 (s : S) loc1 s1 loc2 s2 :
  js1 <> js2 -> in_string " " (js_Owner js1) = false -> in_string " " (js_Owner js2) = false ->
  SaveResult js1 data1 s = (Val (loc1, None), s1) -> SaveResult js2 data2 s1 = (Val (loc2, None), s2) ->
  GetArtifact loc1 s2 = (Val (data1, None), s2) /\ GetArtifact loc2 s2 = (Val (data2, None), s2).
Proof.
  intros Hne Ho1 Ho2 H1 H2. split; [|by eapply saved_result_found].
  eapply saved_result_frame; [|exact H1|exact H2]. intros Hkey. by apply Hne, result_key_inj.
Qed.

Lemma results_are_kept_apart_witness :
  let js1 := MkJobSpec 1 (MkNWO "o" "r") in
  let js2 := MkJobSpec 1 (MkNWO "o" "q") in
  exists loc1 s1 loc2 s2,
    SaveResult js1 "one" Memory.NewInMemoryArtifactStore = (Val (loc1, None), s1) /\
    SaveResult js2 "two" s1 = (Val (loc2, None), s2) /\
    GetArtifact loc1 s2 = (Val ("one", None), s2) /\ GetArtifact loc2 s2 = (Val ("two", None), s2).
Proof.
  intros js1 js2. do 4 eexists. split; [reflexivity|]. split; [reflexivity|].
  by eapply (results_are_kept_apart js1 js2 "one" "two" Memory.NewInMemoryArtifactStore).
Defined.

(** With a space in the owner's name two repositories share a key. *)
Lemma result_keys_collide :
  result_key (MkJobSpec 1 (MkNWO "a b" "c")) = result_key (MkJobSpec 1 (MkNWO "a" "b c")).
Proof. done. Qed.
