(* ===== verification/StoreMinIO.v ===== *)
(** [pkg/artifactstore/store_minio.go] and [pkg/common/minio.go]: artifacts kept
    as objects of a bucket.

    The client ([minio-go]) is a parameter, the class [ObjectClient]; what the
    store needs of it is [ObjectClientLaws]: objects are read back as they were
    written, and reading changes nothing.  The store is then an instance of
    [Store] with its laws, so the theorems on the server hold for it. *)
From S2P Require Import Prelude GoStrings GoUtf8 GoJson Common ArtifactStore.

(** ** The client *)

(** An error of the client: a [minio.ErrorResponse] with its code, or another. *)
Inductive client_error := ErrorResponse (Code : string) | OtherClientError (e : error).

Definition to_error (e : client_error) : error :=
  match e with ErrorResponse code => EExt code | OtherClientError e => e end.

Class ObjectClient (C : Type) : Type := {
  Object : Type;
  BucketExists : string -> GM C (gores bool);
  MakeBucket : string -> GM C (option client_error);
  GetObject : string -> string -> GM C (error + Object);
  ReadAll : Object -> GM C (gores string);
  StatObject : string -> string -> GM C (gores Z);  (* [objectInfo.Size] *)
  PutObject : string -> string -> string -> string -> GM C (option error);
}.

(** The bytes of an object, as the two calls that fetch them give them. *)
Definition fetch {C} `{ObjectClient C} (bucket key : string) : GM C (gores string) :=
  let! got := GetObject bucket key in
  match got with
  | inl e => gret ("", Some e)
  | inr object =>
      let! (data, err) := ReadAll object in
      match err with Some e => gret ("", Some e) | None => gret (data, None) end
  end.

Class ObjectClientLaws (C : Type) `{ObjectClient C} : Prop := {
  fetch_keeps b k c : (fetch b k c).2 = c;
  stat_keeps b k c : (StatObject b k c).2 = c;
  exists_total b c : exists v, (BucketExists b c).1 = Val v;
  exists_keeps b c : (BucketExists b c).2 = c;
  put_fetch b k d ct c c' :
    PutObject b k d ct c = (Val None, c') -> (fetch b k c').1 = Val (d, None);
  put_frame b k d ct c o c' b' k' :
    PutObject b k d ct c = (o, c') -> (b', k') <> (b, k) -> (fetch b' k' c').1 = (fetch b' k' c).1;
  stat_is_length b k c d n :
    (fetch b k c).1 = Val (d, None) -> (StatObject b k c).1 = Val (n, None) -> n = slen d;
}.

(** [common.CreateMinIOBucketIfNotExists].  The assertion on the type of the
    error of [MakeBucket] has no second result: any other type is a panic. *)
Definition CreateMinIOBucketIfNotExists {C} `{ObjectClient C} (bucketName : string) : GM C (option error) :=
  let! (exists_, err) := BucketExists bucketName in
  match err with
  | Some e => gret (Some e)
  | None =>
      if negb exists_ then
        let! err := MakeBucket bucketName in
        match err with
        | Some (ErrorResponse code) =>
            if String.eqb code "BucketAlreadyOwnedByYou" then gret None
            else gret (Some (to_error (ErrorResponse code)))
        | Some (OtherClientError _) => gpanic "interface conversion: error is not minio.ErrorResponse"
        | None => gret None
        end
      else gret None
  end.

(** ** The store

    The names of the buckets are variables of the package, set once before the
    store is made; here they are kept with it. *)
Record MinIOArtifactStore (C : Type) : Type := MkMinIO {
  client : C; bucket_packs : string; bucket_results : string
}.
Arguments MkMinIO {C} _ _ _.
Arguments client {C} _.
Arguments bucket_packs {C} _.
Arguments bucket_results {C} _.

Module MinIO.
Section store.
Context {C : Type} `{ObjectClient C}.
Notation M := (GM (MinIOArtifactStore C)).

Definition on_client {A} (m : GM C A) : M A :=
  zoom client (fun c store => MkMinIO c (bucket_packs store) (bucket_results store)) m.

Definition MaxInt32 : Z := 2147483647.

Definition getArtifact (location : ArtifactLocation) : M (gores string) :=
  let bucket := Bucket location in
  let key := Key location in
  let! got := on_client (GetObject bucket key) in
  match got with
  | inl e => gret ("", Some e)
  | inr object =>
      let! (data, err) := on_client (ReadAll object) in
      match err with Some e => gret ("", Some e) | None => gret (data, None) end
  end.

(** A bucket that is not there is only logged. *)
Definition saveArtifact (bucket key data contentType : string) : M (gores ArtifactLocation) :=
  let! _ := on_client (BucketExists bucket) in
  let! err := on_client (PutObject bucket key data contentType) in
  match err with
  | Some e => gret (ArtifactLocation_zero, Some e)
  | None => gret (MkLoc key bucket, None)
  end.

Definition GetQueryPack (location : ArtifactLocation) : M (gores string) := getArtifact location.

Definition SaveQueryPack (jobId : Z) (data : string) : M (gores ArtifactLocation) :=
  let! bucket := gget bucket_packs in
  saveArtifact bucket (pack_key jobId) data "application/gzip".

Definition GetResult (location : ArtifactLocation) : M (gores string) := getArtifact location.

Definition GetResultSize (location : ArtifactLocation) : M (gores Z) :=
  let bucket := Bucket location in
  let key := Key location in
  let! (size, err) := on_client (StatObject bucket key) in
  match err with
  | Some e => gret (0, Some e)
  | None =>
      if MaxInt32 <? size
      then gret (0, Some (EText ("object size " +:+ itoa size +:+ " exceeds max int size")))
      else gret (size, None)
  end.

Definition SaveResult (jobSpec : JobSpec) (data : string) : M (gores ArtifactLocation) :=
  let! bucket := gget bucket_results in
  saveArtifact bucket (result_key jobSpec) data "application/zip".
End store.
End MinIO.

#[export] Instance minio_store {C} `{ObjectClient C} : Store (MinIOArtifactStore C) := {|
  GetQueryPack := MinIO.GetQueryPack;
  SaveQueryPack := MinIO.SaveQueryPack;
  GetArtifact := MinIO.GetResult;
  GetResultSize := MinIO.GetResultSize;
  SaveResult := MinIO.SaveResult |}.

(** ** The laws *)
Section laws.
Context {C : Type} `{ObjectClientLaws C}.
Implicit Types s : MinIOArtifactStore C.

Definition with_client (c : C) s : MinIOArtifactStore C := MkMinIO c (bucket_packs s) (bucket_results s).

Lemma with_client_id s : with_client (client s) s = s.
Proof. by destruct s. Qed.

Lemma on_client_ok {A} (m : GM C A) s o c :
  m (client s) = (o, c) -> MinIO.on_client m s = (o, with_client c s).
Proof. intros Hm. unfold MinIO.on_client, zoom. by rewrite Hm. Qed.

(** The store fetches what the client would. *)
Lemma getArtifact_fetch l s :
  MinIO.getArtifact l s = ((fetch (Bucket l) (Key l) (client s)).1, s).
Proof.
  pose proof (fetch_keeps (Bucket l) (Key l) (client s)) as Hk. revert Hk.
  unfold MinIO.getArtifact, fetch, gbind, MinIO.on_client, zoom.
  destruct (GetObject _ _ (client s)) as [[[e|o]|p] c] eqn:Hg; cbn.
  - intros ->. by destruct s.
  - destruct (ReadAll o c) as [[[d [e|]]|p] c'] eqn:Hr; cbn; intros ->; by destruct s.
  - intros ->. by destruct s.
Qed.

Lemma GetResultSize_stat l s :
  (MinIO.GetResultSize l s).2 = s /\
  forall n, (StatObject (Bucket l) (Key l) (client s)).1 = Val (n, None) ->
    (MinIO.GetResultSize l s).1 =
      if MinIO.MaxInt32 <? n
      then Val (0, Some (EText ("object size " +:+ itoa n +:+ " exceeds max int size"))) else Val (n, None).
Proof.
  pose proof (stat_keeps (Bucket l) (Key l) (client s)) as Hk. revert Hk.
  unfold MinIO.GetResultSize, gbind, MinIO.on_client, zoom.
  destruct (StatObject _ _ (client s)) as [[[n [e|]]|p] c] eqn:Hg; cbn; intros ->; fold (with_client (client s) s);
    rewrite with_client_id; (split; [by try case_match|]); [done| |done].
  intros n' [= ->]. by case_match.
Qed.

(** What saving comes to: one object written, at the location returned. *)
Lemma saveArtifact_inv b k d ct s loc s' :
  MinIO.saveArtifact b k d ct s = (Val (loc, None), s') ->
  loc = MkLoc k b /\ exists c, PutObject b k d ct (client s) = (Val None, c) /\ s' = with_client c s.
Proof.
  unfold MinIO.saveArtifact. intros Hs.
  destruct (exists_total b (client s)) as [v Hv]. pose proof (exists_keeps b (client s)) as Hk.
  destruct (BucketExists b (client s)) as [o c] eqn:Hb. cbn in Hv, Hk. subst o c.
  rewrite (gbind_val _ _ _ _ _ (on_client_ok _ s _ _ Hb)), with_client_id in Hs.
  apply gbind_val_inv in Hs as ([e|] & s1 & Hp & Hs); [done|]. injection Hs as <- <-. split; [done|].
  unfold MinIO.on_client, zoom in Hp. destruct (PutObject b k d ct (client s)) as [o c].
  injection Hp as -> <-. by exists c.
Qed.

Lemma saved_is_found b k d ct s loc s' :
  MinIO.saveArtifact b k d ct s = (Val (loc, None), s') ->
  MinIO.getArtifact loc s' = (Val (d, None), s').
Proof.
  intros (-> & c & Hp & ->)%saveArtifact_inv. rewrite getArtifact_fetch. cbn [Bucket Key client with_client]. by rewrite (put_fetch _ _ _ _ _ _ Hp).
Qed.

Lemma saving_keeps b k d ct s loc s' l :
  MinIO.saveArtifact b k d ct s = (Val (loc, None), s') -> Key l <> k ->
  (MinIO.getArtifact l s').1 = (MinIO.getArtifact l s).1.
Proof.
  intros (-> & c & Hp & ->)%saveArtifact_inv Hne. rewrite !getArtifact_fetch. cbn [fst client with_client].
  apply (put_frame _ _ _ _ _ _ _ _ _ Hp). congruence.
Qed.

#[export] Instance minio_store_laws : StoreLaws (MinIOArtifactStore C).
Proof.
  constructor; cbn [GetQueryPack SaveQueryPack GetArtifact GetResultSize SaveResult minio_store].
  - intros sid data s loc s'. apply saved_is_found.
  - intros js data s loc s'. apply saved_is_found.
  - intros loc s data s1 n s2 Hg Hs. unfold MinIO.GetResult in Hg. rewrite getArtifact_fetch in Hg.
    injection Hg as Hg _. apply (f_equal fst) in Hs.
    destruct (GetResultSize_stat loc s) as [_ Hstat].
    revert Hs. unfold MinIO.GetResultSize, gbind, MinIO.on_client, zoom.
    destruct (StatObject _ _ (client s)) as [[[n' [e|]]|p] c] eqn:Ho; cbn; [done| |done].
    destruct (MinIO.MaxInt32 <? n'); cbn; [done|]. intros [= <-].
    eapply stat_is_length; [exact Hg|by rewrite Ho].
  - intros loc s. unfold MinIO.GetQueryPack, MinIO.GetResult. rewrite getArtifact_fetch.
    by destruct (GetResultSize_stat loc s).
  - intros js data s loc s' Hs. by apply saveArtifact_inv in Hs as (-> & _).
  - intros js data s loc s' l Hs Hne. exact (saving_keeps _ _ _ _ _ _ _ l Hs Hne).
  - intros sid data s loc s' l Hs Hne. exact (saving_keeps _ _ _ _ _ _ _ l Hs Hne).
Qed.
End laws.
