(* ===== verification/State.v ===== *)
(** [pkg/state/interfaces.go]: the interface [ServerState] as type classes, and
    the abstract specification its implementations are held to.

    The interface is split in two: [SessionState] has every method but
    [GetRepoId], which [LocalState] does not define; [ServerState] adds it. *)
From S2P Require Import Prelude GoStrings GoUtf8 GoJson GoCodec Common.

(** ** The interface *)
Class SessionState (S : Type) : Type := {
  NextID : GM S Z;
  GetResult : JobSpec -> GM S (gores AnalyzeResult);
  GetJobSpecByRepoId : Z -> Z -> GM S (gores JobSpec);
  SetResult : JobSpec -> AnalyzeResult -> GM S unit;
  GetJobList : Z -> GM S (gores (list AnalyzeJob));
  GetJobInfo : JobSpec -> GM S (gores JobInfo);
  SetJobInfo : JobSpec -> JobInfo -> GM S unit;
  GetStatus : JobSpec -> GM S (gores Status);
  GetSessionStatus : Z -> GM S (gores StatusSummary);
  SetStatus : JobSpec -> Status -> GM S unit;
  AddJob : AnalyzeJob -> GM S unit;
}.

Class ServerState (S : Type) : Type := {
  ss_session :: SessionState S;
  GetRepoId : NameWithOwner -> GM S Z;
}.

(** ** The abstract state

    What the server can observe: which sessions exist, the jobs of each (in no
    particular order: one implementation keeps the order of submission, the
    other sorts by name), and the three maps from specs. *)
Record View : Type := MkView {
  v_known : Z -> Prop;
  v_jobs : Z -> list AnalyzeJob;
  v_status : gmap JobSpec Status;
  v_result : gmap JobSpec AnalyzeResult;
  v_info : gmap JobSpec JobInfo
}.

#[export] Instance view_equiv : Equiv View := fun v1 v2 =>
  (forall sid, v_known v1 sid <-> v_known v2 sid) /\
  (forall sid, v_jobs v1 sid ≡ₚ v_jobs v2 sid) /\
  v_status v1 = v_status v2 /\ v_result v1 = v_result v2 /\ v_info v1 = v_info v2.

#[export] Instance view_equivalence : Equivalence (≡@{View}).
Proof.
  split; unfold equiv, view_equiv.
  - intros v. by split_and!.
  - intros v1 v2 (? & Hj & ? & ? & ?). split_and!; [naive_solver| |congruence..].
    intros sid. by rewrite Hj.
  - intros v1 v2 v3 (Hk1 & Hj1 & ? & ? & ?) (Hk2 & Hj2 & ? & ? & ?).
    split_and!; [|intros sid; by rewrite Hj1, Hj2|congruence..].
    intros sid. by rewrite Hk1, Hk2.
Qed.

(** ** What each operation does to the abstract state *)
Definition view_open (id : Z) (v : View) : View :=
  MkView (fun sid => sid = id \/ v_known v sid)
    (fun sid => if decide (sid = id) then [] else v_jobs v sid)
    (v_status v) (v_result v) (v_info v).

Definition view_add_job (job : AnalyzeJob) (v : View) : View :=
  MkView (v_known v)
    (fun sid => if decide (sid = SessionID (aj_Spec job)) then job :: v_jobs v sid else v_jobs v sid)
    (v_status v) (v_result v) (v_info v).

Definition view_set_status (js : JobSpec) (st : Status) (v : View) : View :=
  MkView (v_known v) (v_jobs v) (<[js := st]> (v_status v)) (v_result v) (v_info v).

Definition view_set_result (js : JobSpec) (ar : AnalyzeResult) (v : View) : View :=
  MkView (v_known v) (v_jobs v) (v_status v) (<[js := ar]> (v_result v)) (v_info v).

Definition view_set_info (js : JobSpec) (ji : JobInfo) (v : View) : View :=
  MkView (v_known v) (v_jobs v) (v_status v) (v_result v) (<[js := ji]> (v_info v)).

Ltac view_proper :=
  intros v1 v2 (Hk & Hj & Hs & Hr & Hi); split_and!; simpl; try congruence; try done;
  intros sid; try case_decide; simpl; rewrite ?Hk, ?Hj; try done; naive_solver.

#[export] Instance view_open_proper id : Proper ((≡) ==> (≡)) (view_open id).
Proof. view_proper. Qed.
#[export] Instance view_add_job_proper job : Proper ((≡) ==> (≡)) (view_add_job job).
Proof. view_proper. Qed.
#[export] Instance view_set_status_proper js st : Proper ((≡) ==> (≡)) (view_set_status js st).
Proof. view_proper. Qed.
#[export] Instance view_set_result_proper js ar : Proper ((≡) ==> (≡)) (view_set_result js ar).
Proof. view_proper. Qed.
#[export] Instance view_set_info_proper js ji : Proper ((≡) ==> (≡)) (view_set_info js ji).
Proof. view_proper. Qed.

(** ** The status of a session

    The specification of the rules both implementations spell out as a switch
    over counters: a uniform session has the status of its jobs (all timed out
    counts as failed), a session with an unfinished job is pending, and any
    other mixture counts as succeeded. *)
Definition overall_spec (sts : list Status) : Status :=
  if decide (Forall (.= StatusSucceeded) sts) then StatusSucceeded
  else if decide (Forall (.= StatusFailed) sts) then StatusFailed
  else if decide (Forall (.= StatusCanceled) sts) then StatusCanceled
  else if decide (Forall (.= StatusTimedOut) sts) then StatusFailed
  else if decide (StatusPending ∈ sts \/ StatusInProgress ∈ sts) then StatusPending
  else StatusSucceeded.

Definition occurrences (st : Status) (sts : list Status) : Z :=
  Z.of_nat (length (List.filter (Z.eqb st) sts)).

(** The statuses of the jobs of a session, in the order of the map. *)
Definition session_statuses (sid : Z) (m : gmap JobSpec Status) : list Status :=
  map snd (List.filter (fun p => SessionID p.1 =? sid) (map_to_list m)).

(** ** The specification as a class

    [wf n] is the representation invariant (for the database it also says that
    the service answers) with [n] repository identifiers left to draw, [can_next]
    says that a session identifier is left, and [storable_*] are the values the
    implementation can represent. *)
Class SessionStateSpec (St : Type) `{SessionState St} : Type := {
  wf : nat -> St -> Prop;
  can_next : St -> Prop;
  view : St -> View;
  storable_spec : JobSpec -> Prop;
  storable_job : AnalyzeJob -> Prop;
  storable_result : AnalyzeResult -> Prop;
  storable_info : JobInfo -> Prop;

  wf_weaken n s : wf (S n) s -> wf n s;
  NextID_ok n s :
    wf n s -> can_next s ->
    exists id s', NextID s = (Val id, s') /\ wf n s' /\ view s' ≡ view_open id (view s) /\
      ~ v_known (view s) id /\ v_jobs (view s) id = [] /\
      (forall js, SessionID js = id -> v_status (view s) !! js = None);
  AddJob_ok n s job :
    wf (S n) s -> v_known (view s) (SessionID (aj_Spec job)) -> storable_job job ->
    aj_Spec job ∉ map aj_Spec (v_jobs (view s) (SessionID (aj_Spec job))) ->
    exists s', AddJob job s = (Val tt, s') /\ wf n s' /\ view s' ≡ view_add_job job (view s);
  SetStatus_ok n s js st :
    wf n s -> v_known (view s) (SessionID js) -> storable_spec js -> 0 <= st <= 5 ->
    exists s', SetStatus js st s = (Val tt, s') /\ wf n s' /\ view s' ≡ view_set_status js st (view s);
  SetResult_ok n s js ar :
    wf n s -> v_known (view s) (SessionID js) -> storable_result ar -> ar_Spec ar = js ->
    exists s', SetResult js ar s = (Val tt, s') /\ wf n s' /\ view s' ≡ view_set_result js ar (view s);
  SetJobInfo_ok n s js ji :
    wf n s -> v_known (view s) (SessionID js) -> storable_spec js -> storable_info ji ->
    exists s', SetJobInfo js ji s = (Val tt, s') /\ wf n s' /\ view s' ≡ view_set_info js ji (view s);

  GetStatus_ok n s js :
    wf n s -> storable_spec js ->
    match v_status (view s) !! js with
    | Some st => GetStatus js s = (Val (st, None), s)
    | None => exists v e, GetStatus js s = (Val (v, Some e), s)
    end;
  GetResult_ok n s js :
    wf n s -> storable_spec js ->
    match v_result (view s) !! js with
    | Some ar => GetResult js s = (Val (ar, None), s)
    | None => exists v e, GetResult js s = (Val (v, Some e), s)
    end;
  GetJobInfo_ok n s js :
    wf n s -> storable_spec js ->
    match v_info (view s) !! js with
    | Some ji => GetJobInfo js s = (Val (ji, None), s)
    | None => exists v e, GetJobInfo js s = (Val (v, Some e), s)
    end;
  GetJobList_ok n s sid :
    wf n s -> v_known (view s) sid ->
    exists l, GetJobList sid s = (Val (l, None), s) /\ l ≡ₚ v_jobs (view s) sid;
  GetSessionStatus_ok n s sid :
    wf n s -> session_statuses sid (v_status (view s)) <> [] ->
    exists sum, GetSessionStatus sid s = (Val (sum, None), s) /\
      Overall sum = overall_spec (session_statuses sid (v_status (view s))) /\
      forall st, 0 <= st <= 5 ->
        Counts sum !! st = Some (occurrences st (session_statuses sid (v_status (view s))));
}.

(** [GetRepoId] gives a repository an identifier, the same one ever after, by
    which [GetJobSpecByRepoId] finds it. *)
Class ServerStateSpec (St : Type) `{ServerState St} : Type := {
  sss_session :: SessionStateSpec St;
  repo_id : St -> NameWithOwner -> option Z;

  GetRepoId_ok n s sid nwo :
    wf (S n) s -> storable_spec (MkJobSpec sid nwo) ->
    exists id s', GetRepoId nwo s = (Val id, s') /\ wf n s' /\ view s' ≡ view s /\
      repo_id s' nwo = Some id /\ (forall i, repo_id s nwo = Some i -> i = id) /\
      (forall nwo', nwo' <> nwo -> repo_id s' nwo' = repo_id s nwo');
  GetJobSpecByRepoId_ok n s sid nwo id :
    wf n s -> repo_id s nwo = Some id -> - 2 ^ 31 <= id < 2 ^ 31 ->
    GetJobSpecByRepoId sid id s = (Val (MkJobSpec sid nwo, None), s);
}.

(** ** Counting statuses

    [counts[st]++] over a list of statuses, starting from the six known ones
    at zero: shared by the proofs about both implementations. *)
Definition zero_counts : gmap Status Z :=
  <[StatusPending := 0]> (<[StatusInProgress := 0]> (<[StatusSucceeded := 0]>
    (<[StatusFailed := 0]> (<[StatusCanceled := 0]> (<[StatusTimedOut := 0]> ∅))))).

Definition bump (counts : gmap Status Z) (st : Status) : gmap Status Z :=
  <[st := default 0 (counts !! st) + 1]> counts.

Lemma zero_counts_lookup st : 0 <= st <= 5 -> zero_counts !! st = Some 0.
Proof.
  intros H. assert (st = 0 \/ st = 1 \/ st = 2 \/ st = 3 \/ st = 4 \/ st = 5) as Hst by lia.
  by destruct Hst as [->|[->|[->|[->|[->| ->]]]]].
Qed.

Lemma occurrences_cons st x l :
  occurrences st (x :: l) = (if Z.eqb st x then 1 else 0) + occurrences st l.
Proof. unfold occurrences. simpl. destruct (Z.eqb st x); simpl; lia. Qed.

Lemma tally_lookup counts sts st v :
  counts !! st = Some v -> foldl bump counts sts !! st = Some (v + occurrences st sts).
Proof.
  revert counts v. induction sts as [|x sts IH]; intros counts v Hv.
  { simpl. rewrite Hv. f_equal. unfold occurrences. simpl. lia. }
  rewrite occurrences_cons. simpl. unfold bump at 2. destruct (Z.eqb_spec st x) as [->|Hne].
  - rewrite (IH _ (v + 1)); [f_equal; lia|]. by rewrite lookup_insert_eq, Hv.
  - rewrite (IH _ v); [f_equal; lia|]. by rewrite lookup_insert_ne.
Qed.

Lemma tally_zero sts st :
  0 <= st <= 5 -> foldl bump zero_counts sts !! st = Some (occurrences st sts).
Proof. intros H. by rewrite (tally_lookup _ _ _ 0 (zero_counts_lookup st H)). Qed.

Lemma occurrences_nonneg st sts : 0 <= occurrences st sts.
Proof. unfold occurrences. lia. Qed.

Lemma occurrences_le st sts : occurrences st sts <= Z.of_nat (length sts).
Proof.
  induction sts as [|x sts IH]; [done|]. rewrite occurrences_cons. simpl length.
  rewrite Nat2Z.inj_succ. destruct (Z.eqb st x); lia.
Qed.

Lemma occurrences_pos st sts : 0 < occurrences st sts <-> st ∈ sts.
Proof.
  induction sts as [|x sts IH]; [unfold occurrences; simpl; split; [lia|set_solver]|].
  rewrite occurrences_cons, elem_of_cons, <- IH. pose proof (occurrences_nonneg st sts).
  destruct (Z.eqb_spec st x); naive_solver lia.
Qed.

Lemma occurrences_all st sts :
  occurrences st sts = Z.of_nat (length sts) <-> Forall (.= st) sts.
Proof.
  induction sts as [|x sts IH]; [done|].
  rewrite occurrences_cons, list.Forall_cons, <- IH. simpl length. rewrite Nat2Z.inj_succ.
  pose proof (occurrences_le st sts). destruct (Z.eqb_spec st x); naive_solver lia.
Qed.

(** Reordering the jobs does not change the outcome: Go iterates over a map in
    a random order, and the database returns rows in any order. *)
#[export] Instance occurrences_perm st : Proper ((≡ₚ) ==> (=)) (occurrences st).
Proof. induction 1; rewrite ?occurrences_cons in *; lia. Qed.

Lemma overall_spec_occurrences sts :
  overall_spec sts =
  let n := Z.of_nat (length sts) in
  if occurrences StatusSucceeded sts =? n then StatusSucceeded
  else if occurrences StatusFailed sts =? n then StatusFailed
  else if occurrences StatusCanceled sts =? n then StatusCanceled
  else if occurrences StatusTimedOut sts =? n then StatusFailed
  else if (0 <? occurrences StatusPending sts) || (0 <? occurrences StatusInProgress sts)
  then StatusPending else StatusSucceeded.
Proof.
  unfold overall_spec. cbn zeta.
  assert (forall st, (occurrences st sts =? Z.of_nat (length sts)) = bool_decide (Forall (.= st) sts)) as E.
  { intros st. destruct (Z.eqb_spec (occurrences st sts) (Z.of_nat (length sts))); 
      symmetry; [apply bool_decide_eq_true_2|apply bool_decide_eq_false_2]; by rewrite <- occurrences_all. }
  rewrite !E.
  assert (((0 <? occurrences StatusPending sts) || (0 <? occurrences StatusInProgress sts))
          = bool_decide (StatusPending ∈ sts \/ StatusInProgress ∈ sts)) as ->.
  { apply eq_true_iff_eq. rewrite bool_decide_eq_true, orb_true_iff, !Z.ltb_lt, !occurrences_pos. done. }
  repeat match goal with |- context [decide ?P] => rewrite (decide_bool_decide P) end.
  done.
Qed.

#[export] Instance overall_spec_perm : Proper ((≡ₚ) ==> (=)) overall_spec.
Proof. intros l1 l2 H. rewrite !overall_spec_occurrences. cbn zeta.
  rewrite (Permutation_length H). by rewrite !H.
Qed.
