(* ===== verification/StateLocal.v ===== *)
(** [pkg/state/state_local.go]: the in-memory server state, and its refinement
    of the abstract specification of [State].

    Every method holds the mutex for its whole body, so a method is one atomic
    step on the state.  [GetSessionStatus] ranges over a Go map; the order is
    that of [map_to_list] here, and the result does not depend on it. *)
From S2P Require Import Prelude GoStrings GoUtf8 GoJson GoCodec Common State.

Record LocalState : Type := MkLocal {
  ls_jobs : gmap Z (list AnalyzeJob);
  ls_info : gmap JobSpec JobInfo;
  ls_status : gmap JobSpec Status;
  ls_result : gmap JobSpec AnalyzeResult;
  ls_sessionToJobIdToSpec : gmap Z (gmap Z JobSpec);
  ls_currentID : Z
}.

Module Local.

Definition NewLocalState (startingID : Z) : LocalState :=
  MkLocal {[startingID := []]} ∅ ∅ ∅ {[startingID := ∅]} startingID.

Definition NextID : GM LocalState Z := fun s =>
  let id := wrap_int (ls_currentID s + 1) in
  (Val id,
   MkLocal (<[id := []]> (ls_jobs s)) (ls_info s) (ls_status s) (ls_result s)
     (ls_sessionToJobIdToSpec s) id).

Definition GetResult (js : JobSpec) : GM LocalState (gores AnalyzeResult) := fun s =>
  match ls_result s !! js with
  | None => (Val (AnalyzeResult_zero,
                  Some (EText ("result not found for job spec " +:+ show_spec js))), s)
  | Some ar => (Val (ar, None), s)
  end.

Definition GetJobSpecByRepoId (sessionId jobRepoId : Z) : GM LocalState (gores JobSpec) := fun s =>
  match ls_sessionToJobIdToSpec s !! sessionId with
  | None => (Val (JobSpec_zero,
                  Some (EText ("job ids not found for session " +:+ itoa sessionId))), s)
  | Some idToSpec =>
      match idToSpec !! jobRepoId with
      | None => (Val (JobSpec_zero,
                      Some (EText ("job spec not found for job repo id " +:+ itoa jobRepoId))), s)
      | Some spec => (Val (spec, None), s)
      end
  end.

Definition SetResult (js : JobSpec) (analyzeResult : AnalyzeResult) : GM LocalState unit := fun s =>
  (Val tt,
   MkLocal (ls_jobs s) (ls_info s) (ls_status s) (<[js := analyzeResult]> (ls_result s))
     (ls_sessionToJobIdToSpec s) (ls_currentID s)).

Definition GetJobList (sessionID : Z) : GM LocalState (gores (list AnalyzeJob)) := fun s =>
  match ls_jobs s !! sessionID with
  | None => (Val ([], Some (EText ("job list not found for session " +:+ itoa sessionID))), s)
  | Some l => (Val (l, None), s)
  end.

Definition GetJobInfo (js : JobSpec) : GM LocalState (gores JobInfo) := fun s =>
  match ls_info s !! js with
  | None => (Val (JobInfo_zero,
                  Some (EText ("job info not found for job spec " +:+ show_spec js))), s)
  | Some ji => (Val (ji, None), s)
  end.

Definition SetJobInfo (js : JobSpec) (ji : JobInfo) : GM LocalState unit := fun s =>
  (Val tt,
   MkLocal (ls_jobs s) (<[js := ji]> (ls_info s)) (ls_status s) (ls_result s)
     (ls_sessionToJobIdToSpec s) (ls_currentID s)).

Definition GetStatus (js : JobSpec) : GM LocalState (gores Status) := fun s =>
  match ls_status s !! js with
  | None => (Val (StatusFailed,
                  Some (EText ("status not found for job spec " +:+ show_spec js))), s)
  | Some st => (Val (st, None), s)
  end.

(** The loop body of [GetSessionStatus]. *)
Definition count_job (sessionID : Z) (acc : gmap Status Z * Z) (entry : JobSpec * Status)
    : gmap Status Z * Z :=
  let '(counts, total) := acc in
  let '(jobSpec, status) := entry in
  if SessionID jobSpec =? sessionID then (bump counts status, total + 1) else (counts, total).

(** [counts[st]]: reading an absent key gives zero. *)
Definition count_of (counts : gmap Status Z) (st : Status) : Z := default 0 (counts !! st).

(** The switch of [GetSessionStatus], its cases in order. *)
Definition overall (counts : gmap Status Z) (total : Z) : Status :=
  if count_of counts StatusSucceeded =? total then StatusSucceeded
  else if count_of counts StatusFailed =? total then StatusFailed
  else if count_of counts StatusCanceled =? total then StatusCanceled
  else if count_of counts StatusTimedOut =? total then StatusFailed
  else if 0 <? count_of counts StatusInProgress then StatusPending
  else if (0 <? count_of counts StatusPending) && (count_of counts StatusInProgress =? 0)
  then StatusPending
  else if (count_of counts StatusPending =? 0) && (count_of counts StatusInProgress =? 0)
  then StatusSucceeded
  else StatusPending.

Definition GetSessionStatus (sessionID : Z) : GM LocalState (gores StatusSummary) := fun s =>
  let '(counts, total) := foldl (count_job sessionID) (zero_counts, 0) (map_to_list (ls_status s)) in
  if total =? 0
  then (Val (StatusSummary_zero,
             Some (EText ("no jobs found for session " +:+ itoa sessionID))), s)
  else (Val (MkSummary (overall counts total) counts, None), s).

Definition SetStatus (js : JobSpec) (status : Status) : GM LocalState unit := fun s =>
  (Val tt,
   MkLocal (ls_jobs s) (ls_info s) (<[js := status]> (ls_status s)) (ls_result s)
     (ls_sessionToJobIdToSpec s) (ls_currentID s)).

(** The panic leaves the mutations made before it (and the mutex locked). *)
Definition AddJob (job : AnalyzeJob) : GM LocalState unit := fun s =>
  let sessionID := SessionID (aj_Spec job) in
  let jobs' := default [] (ls_jobs s !! sessionID) ++ [job] in
  let idToSpec := default ∅ (ls_sessionToJobIdToSpec s !! sessionID) in
  let idToSpec' := <[Z.of_nat (size idToSpec) := aj_Spec job]> idToSpec in
  let s' := MkLocal (<[sessionID := jobs']> (ls_jobs s)) (ls_info s) (ls_status s) (ls_result s)
              (<[sessionID := idToSpec']> (ls_sessionToJobIdToSpec s)) (ls_currentID s) in
  if negb (Nat.eqb (length jobs') (size idToSpec'))
  then (Panic ("Unequal job list and job id map length. Session ID: " +:+ itoa sessionID), s')
  else (Val tt, s').

End Local.

#[export] Instance local_state : SessionState LocalState := {|
  NextID := Local.NextID;
  GetResult := Local.GetResult;
  GetJobSpecByRepoId := Local.GetJobSpecByRepoId;
  SetResult := Local.SetResult;
  GetJobList := Local.GetJobList;
  GetJobInfo := Local.GetJobInfo;
  SetJobInfo := Local.SetJobInfo;
  GetStatus := Local.GetStatus;
  GetSessionStatus := Local.GetSessionStatus;
  SetStatus := Local.SetStatus;
  AddJob := Local.AddJob |}.

(** ** The representation invariant

    The index map of a session numbers its job list from zero; every session
    and every row belongs to an identifier already handed out. *)
Definition jobs_of (s : LocalState) (sid : Z) : list AnalyzeJob := default [] (ls_jobs s !! sid).
Definition ids_of (s : LocalState) (sid : Z) : gmap Z JobSpec :=
  default ∅ (ls_sessionToJobIdToSpec s !! sid).

Definition numbers (ids : gmap Z JobSpec) (l : list AnalyzeJob) : Prop :=
  ids = list_to_map (imap (fun i job => (Z.of_nat i, aj_Spec job)) l).

Record local_wf (s : LocalState) : Prop := {
  lw_numbered : forall sid, numbers (ids_of s sid) (jobs_of s sid);
  lw_jobs_old : forall sid, is_Some (ls_jobs s !! sid) -> sid <= ls_currentID s;
  lw_ids_old : forall sid, is_Some (ls_sessionToJobIdToSpec s !! sid) -> is_Some (ls_jobs s !! sid);
  lw_status_old : forall js, is_Some (ls_status s !! js) -> SessionID js <= ls_currentID s;
  lw_current : min_int <= ls_currentID s <= max_int
}.

Definition local_view (s : LocalState) : View :=
  MkView (fun sid => is_Some (ls_jobs s !! sid)) (jobs_of s) (ls_status s) (ls_result s) (ls_info s).

(** ** The numbering of a session's jobs *)
Lemma numbers_nil : numbers ∅ [].
Proof. done. Qed.

Lemma imap_keys (l : list AnalyzeJob) :
  (imap (fun i job => (Z.of_nat i, aj_Spec job)) l).*1 = Z.of_nat <$> seq 0 (length l).
Proof.
  apply list_eq. intros i. rewrite !list_lookup_fmap, list_lookup_imap.
  destruct (l !! i) as [job|] eqn:E; simpl.
  - rewrite lookup_seq_lt by by eapply lookup_lt_Some. done.
  - rewrite lookup_seq_ge; [done|]. by apply lookup_ge_None.
Qed.

Lemma numbers_size ids l : numbers ids l -> size ids = length l.
Proof.
  intros ->. rewrite map_size_list_to_map.
  - by rewrite length_imap.
  - rewrite imap_keys. apply NoDup_fmap_2; [apply _|apply NoDup_seq].
Qed.

Lemma numbers_lookup ids l i : numbers ids l -> ids !! Z.of_nat i = aj_Spec <$> l !! i.
Proof.
  intros ->. apply option_eq. intros js. rewrite <- elem_of_list_to_map.
  2: { rewrite imap_keys. apply NoDup_fmap_2; [apply _|apply NoDup_seq]. }
  rewrite list_elem_of_lookup. setoid_rewrite list_lookup_imap. split.
  - intros [j Hj]. destruct (l !! j) as [job|] eqn:E; simplify_eq/=. by rewrite E.
  - intros Hi. destruct (l !! i) as [job|] eqn:E; simplify_eq/=. exists i. by rewrite E.
Qed.

Lemma numbers_snoc ids l job :
  numbers ids l -> numbers (<[Z.of_nat (size ids) := aj_Spec job]> ids) (l ++ [job]).
Proof.
  intros H. pose proof (numbers_size _ _ H) as Hs. unfold numbers in *.
  rewrite imap_app, list_to_map_app. simpl. rewrite Nat.add_0_r, Hs, <- H.
  rewrite insert_empty, <- insert_union_singleton_r; [done|].
  rewrite (numbers_lookup ids l) by done. by rewrite lookup_ge_None_2.
Qed.

Lemma jobs_of_insert s sid sid' l f g h m c :
  jobs_of (MkLocal (<[sid := l]> (ls_jobs s)) f g h m c) sid' = if decide (sid' = sid) then l else jobs_of s sid'.
Proof. unfold jobs_of. simpl. rewrite lookup_insert. repeat case_decide; simplify_eq; done. Qed.

(** ** Preservation of the invariant, operation by operation *)
Definition local_can_next (s : LocalState) : Prop := ls_currentID s < max_int.

Lemma NewLocalState_wf startingID :
  min_int <= startingID <= max_int -> local_wf (Local.NewLocalState startingID).
Proof.
  intros Hid. split; simpl; [| | | |done].
  - intros sid. unfold ids_of, jobs_of. simpl. rewrite !lookup_singleton. by case_decide.
  - intros sid [l Hl]. apply lookup_singleton_Some in Hl as [-> _]. lia.
  - intros sid [m Hm]. apply lookup_singleton_Some in Hm as [-> _].
    rewrite lookup_singleton_eq. by eexists.
  - intros js [st Hst]. by rewrite lookup_empty in Hst.
Qed.

Lemma local_NextID s :
  local_wf s -> local_can_next s ->
  let id := ls_currentID s + 1 in
  exists s', Local.NextID s = (Val id, s') /\ local_wf s' /\
    local_view s' ≡ view_open id (local_view s) /\
    ~ v_known (local_view s) id /\ v_jobs (local_view s) id = [] /\
    (forall js, SessionID js = id -> v_status (local_view s) !! js = None).
Proof.
  intros [Hn Hj Hi Hs Hc] Hnext id. unfold local_can_next in Hnext.
  assert (ls_jobs s !! id = None) as Hnone.
  { apply eq_None_not_Some. intros H%Hj. lia. }
  assert (Hid : id = ls_currentID s + 1) by done. clearbody id.
  unfold Local.NextID. rewrite wrap_int_small, <- Hid by lia. eexists. split; [done|]. split_and!.
  - split; simpl.
    + intros sid. rewrite jobs_of_insert. unfold ids_of. simpl.
      case_decide as Hsid; [rewrite Hsid|apply Hn].
      destruct (ls_sessionToJobIdToSpec s !! id) eqn:E; [|apply numbers_nil].
      destruct (Hi id) as [? Hx]; [by eexists|]. congruence.
    + intros sid [l Hl]. destruct (decide (sid = id)); simplify_map_eq; [lia|].
      assert (sid <= ls_currentID s) by by apply Hj; eexists. lia.
    + intros sid Hsid. rewrite lookup_insert. case_decide; [by eexists|by apply Hi].
    + intros js Hjs%Hs. lia.
    + lia.
  - split_and!; simpl; [|intros sid|done..].
    + intros sid. rewrite lookup_insert. case_decide; [naive_solver|].
      split; [by right|]. intros [|]; [congruence|done].
    + by rewrite jobs_of_insert.
  - simpl. rewrite Hnone. apply is_Some_None.
  - simpl. unfold jobs_of. by rewrite Hnone.
  - intros js Hjs. apply eq_None_not_Some. intros H%Hs. lia.
Qed.

(** [AddJob] appends, and its length check never fails. *)
Lemma local_AddJob s job :
  local_wf s -> is_Some (ls_jobs s !! SessionID (aj_Spec job)) ->
  exists s', Local.AddJob job s = (Val tt, s') /\ local_wf s' /\
    local_view s' ≡ view_add_job job (local_view s) /\
    jobs_of s' (SessionID (aj_Spec job)) = jobs_of s (SessionID (aj_Spec job)) ++ [job].
Proof.
  intros [Hn Hj Hi Hs Hc] Hknown. set (sid0 := SessionID (aj_Spec job)) in *.
  pose proof (numbers_snoc _ _ job (Hn sid0)) as Hsnoc.
  unfold Local.AddJob. fold sid0. fold (jobs_of s sid0). fold (ids_of s sid0).
  rewrite (numbers_size _ _ Hsnoc), Nat.eqb_refl. simpl. eexists. split; [done|]. split_and!.
  - split; simpl.
    + intros sid. rewrite jobs_of_insert. unfold ids_of at 1. simpl. rewrite lookup_insert.
      repeat case_decide; simplify_eq; [done|apply Hn].
    + intros sid [l Hl]. rewrite lookup_insert in Hl. case_decide as E; apply Hj; [by rewrite <- E|by eexists].
    + intros sid Hsid. rewrite lookup_insert in Hsid. rewrite lookup_insert.
      case_decide; [by eexists|by apply Hi].
    + done.
    + done.
  - split_and!; simpl; [|intros sid|done..].
    + intros sid. rewrite lookup_insert. case_decide as E; [|done].
      rewrite <- E. naive_solver.
    + rewrite jobs_of_insert. fold sid0. case_decide as E; [rewrite E|done].
      by rewrite Permutation_app_comm.
  - by rewrite jobs_of_insert, decide_True.
Qed.

Lemma local_SetStatus s js st :
  local_wf s -> is_Some (ls_jobs s !! SessionID js) ->
  exists s', Local.SetStatus js st s = (Val tt, s') /\ local_wf s' /\
    local_view s' ≡ view_set_status js st (local_view s).
Proof.
  intros [Hn Hj Hi Hs Hc] Hknown. eexists. split; [done|]. split; [|done].
  split; simpl; [done..| |done].
  intros js' [x Hx]. rewrite lookup_insert in Hx. case_decide as E; [rewrite <- E; by apply Hj|].
  apply Hs. by eexists.
Qed.

Lemma local_SetResult s js ar :
  local_wf s ->
  exists s', Local.SetResult js ar s = (Val tt, s') /\ local_wf s' /\
    local_view s' ≡ view_set_result js ar (local_view s).
Proof. intros [Hn Hj Hi Hs Hc]. eexists. split; [done|]. by split. Qed.

Lemma local_SetJobInfo s js ji :
  local_wf s ->
  exists s', Local.SetJobInfo js ji s = (Val tt, s') /\ local_wf s' /\
    local_view s' ≡ view_set_info js ji (local_view s).
Proof. intros [Hn Hj Hi Hs Hc]. eexists. split; [done|]. by split. Qed.

(** ** The status summary *)
Lemma count_job_fold sid (l : list (JobSpec * Status)) counts total :
  foldl (Local.count_job sid) (counts, total) l =
  let sts := map snd (List.filter (fun p => SessionID p.1 =? sid) l) in
  (foldl bump counts sts, total + Z.of_nat (length sts)).
Proof.
  revert counts total. induction l as [|[js st] l IH]; intros counts total; simpl.
  { by rewrite Z.add_0_r. }
  destruct (SessionID js =? sid); simpl; rewrite IH; simpl; f_equal; lia.
Qed.

(** The switch is the abstract rule; its default case is never reached. *)
Lemma overall_is_spec sts :
  Local.overall (foldl bump zero_counts sts) (Z.of_nat (length sts)) = overall_spec sts.
Proof.
  rewrite overall_spec_occurrences. unfold Local.overall, Local.count_of.
  rewrite !tally_zero by done. cbn [from_option id]. cbn zeta.
  pose proof (occurrences_nonneg StatusPending sts).
  pose proof (occurrences_nonneg StatusInProgress sts).
  repeat (case_match; try reflexivity); unfold StatusPending, StatusInProgress in *; lia.
Qed.

Lemma local_GetSessionStatus s sid :
  let sts := session_statuses sid (ls_status s) in
  Local.GetSessionStatus sid s =
  (Val (if decide (sts = [])
        then (StatusSummary_zero, Some (EText ("no jobs found for session " +:+ itoa sid)))
        else (MkSummary (overall_spec sts) (foldl bump zero_counts sts), None)), s).
Proof.
  unfold Local.GetSessionStatus. rewrite count_job_fold. cbn zeta. rewrite Z.add_0_l.
  fold (session_statuses sid (ls_status s)). rewrite overall_is_spec.
  destruct (session_statuses sid (ls_status s)) as [|x l]; [done|].
  rewrite decide_False by done. simpl length.
  by rewrite (proj2 (Z.eqb_neq (Z.of_nat (S (length l))) 0)) by lia.
Qed.

(** ** [LocalState] implements the specification *)
#[export, refine] Instance local_state_spec : SessionStateSpec LocalState := {|
  wf _ := local_wf; can_next := local_can_next; view := local_view;
  storable_spec _ := True; storable_job _ := True; storable_result _ := True;
  storable_info _ := True |}.
Proof.
  - done.
  - intros n s Hwf Hnext. exists (ls_currentID s + 1). by apply local_NextID.
  - intros n s job Hwf Hk _ _. destruct (local_AddJob s job Hwf Hk) as (s' & ? & ? & ? & _). by exists s'.
  - intros n s js st Hwf Hk _ _. by apply local_SetStatus.
  - intros n s js ar Hwf _ _ _. by apply local_SetResult.
  - intros n s js ji Hwf _ _ _. by apply local_SetJobInfo.
  - intros n s js _ _. simpl. unfold Local.GetStatus. destruct (ls_status s !! js); eauto.
  - intros n s js _ _. simpl. unfold Local.GetResult. destruct (ls_result s !! js); eauto.
  - intros n s js _ _. simpl. unfold Local.GetJobInfo. destruct (ls_info s !! js); eauto.
  - intros n s sid _ [l Hl]. simpl. unfold Local.GetJobList, jobs_of. rewrite Hl. eauto.
  - intros n s sid _ Hne. cbn [GetSessionStatus local_state]. rewrite local_GetSessionStatus.
    cbn zeta. rewrite decide_False by done. eexists. split; [done|]. simpl. split; [done|].
    intros st Hst. by apply tally_zero.
Defined.
