(* ===== verification/StatePostgres.v ===== *)
(** [pkg/state/state_postgres.go]: the server state kept in PostgreSQL.

    The tables are finite maps on their primary keys.  What the program sends
    to the service (statements) and gets back is modelled; the service itself is
    a parameter where its behaviour is not fixed by the statements: the text a
    [jsonb] column gives back, and the collation [ORDER BY] uses.  The state
    records which driver calls fail and where the iteration over rows is cut
    short, so that the error branches are reached; each method makes a driver
    call of a kind at most once. *)
From stdpp Require Import sorting.
From S2P Require Import Prelude GoStrings GoUtf8 GoJson GoCodec Common Messages State.

(** ** The service *)
Class PgService : Type := {
  jsonb : string -> option string;
  row_before : NameWithOwner -> NameWithOwner -> bool;
}.

(** A [jsonb] column gives back a document with the same members and values,
    its members possibly in another order. *)
Class PgServiceLaws `{PgService} : Prop := {
  jsonb_reads n d out :
    jok n d -> Z.of_nat n <= max_depth -> jsonb (jprint d) = Some out ->
    exists d', json_document out = Some d' /\ reordered (jsan d) d';
}.

(** The driver calls, one per statement of the file. *)
Inductive pg_op :=
| OpNextval | OpUpsertResult | OpSelectResult | OpUpsertInfo | OpSelectInfo | OpUpsertStatus
| OpSelectStatuses | OpSelectStatus | OpUpsertRepo | OpBegin | OpInsertJob | OpCommit
| OpSelectJobs | OpSelectRepo.

Record PGState : Type := MkPG {
  pg_seq : Z;                               (* session_id_seq *)
  pg_repo_seq : Z;                          (* the sequence of job_repo_map.job_repo_id *)
  pg_repo_map : gmap NameWithOwner Z;       (* job_repo_map *)
  pg_results : gmap JobSpec string;         (* analyze_results *)
  pg_jobs : gmap JobSpec string;            (* analyze_jobs *)
  pg_infos : gmap JobSpec string;           (* job_info *)
  pg_status : gmap JobSpec Status;          (* job_status *)
  pg_fault : pg_op -> option string;        (* the driver error of a call, if it fails *)
  pg_cut : option nat                       (* rows delivered before the connection drops *)
}.

(** ** Values the columns take *)
Definition max_int4 : Z := 2 ^ 31 - 1.
Definition int4_ok (z : Z) : bool := (- 2 ^ 31 <=? z) && (z <=? max_int4).
Definition text_ok (s : string) : bool := valid_utf8 s && negb (in_string "000" s).
Definition key_ok (js : JobSpec) : bool :=
  int4_ok (SessionID js) && text_ok (js_Owner js) && text_ok (js_Repo js).

Definition no_rows : error := EExt "no rows in result set".
Definition rejected : string := "invalid input".

Module Postgres.

(** A call that only reads: its error, or what it reads. *)
Definition query {A} (op : pg_op) (ok : bool) (zero : A) (read : PGState -> gores A)
    : GM PGState (gores A) := fun s =>
  match pg_fault s op with
  | Some e => (Val (zero, Some (EExt e)), s)
  | None => if negb ok then (Val (zero, Some (EExt rejected)), s) else (Val (read s), s)
  end.

(** A call that writes and cannot report an error: the method panics. *)
Definition exec (op : pg_op) (ok : bool) (name : string) (write : PGState -> option PGState)
    : GM PGState unit := fun s =>
  match pg_fault s op with
  | Some e => (Panic (name +:+ e), s)
  | None =>
      if negb ok then (Panic (name +:+ rejected), s)
      else match write s with
           | Some s' => (Val tt, s')
           | None => (Panic (name +:+ rejected), s)
           end
  end.

Definition with_seq z s := MkPG z (pg_repo_seq s) (pg_repo_map s) (pg_results s) (pg_jobs s)
  (pg_infos s) (pg_status s) (pg_fault s) (pg_cut s).
Definition with_repos q m s := MkPG (pg_seq s) q m (pg_results s) (pg_jobs s)
  (pg_infos s) (pg_status s) (pg_fault s) (pg_cut s).
Definition with_results m s := MkPG (pg_seq s) (pg_repo_seq s) (pg_repo_map s) m (pg_jobs s)
  (pg_infos s) (pg_status s) (pg_fault s) (pg_cut s).
Definition with_jobs m s := MkPG (pg_seq s) (pg_repo_seq s) (pg_repo_map s) (pg_results s) m
  (pg_infos s) (pg_status s) (pg_fault s) (pg_cut s).
Definition with_infos m s := MkPG (pg_seq s) (pg_repo_seq s) (pg_repo_map s) (pg_results s)
  (pg_jobs s) m (pg_status s) (pg_fault s) (pg_cut s).
Definition with_status m s := MkPG (pg_seq s) (pg_repo_seq s) (pg_repo_map s) (pg_results s)
  (pg_jobs s) (pg_infos s) m (pg_fault s) (pg_cut s).

Definition max_int8 : Z := 2 ^ 63 - 1.

(** [SELECT nextval('session_id_seq')]: a [bigint] sequence. *)
Definition NextID : GM PGState Z := fun s =>
  match pg_fault s OpNextval with
  | Some e => (Panic ("NextID(): " +:+ e), s)
  | None =>
      if max_int8 <=? pg_seq s then (Panic "NextID(): nextval: reached maximum value of sequence", s)
      else (Val (pg_seq s + 1), with_seq (pg_seq s + 1) s)
  end.

(** The loop over rows: [rows.Next] stops where the connection drops. *)
Definition delivered {A} (s : PGState) (rows : list A) : list A :=
  match pg_cut s with Some n => take n rows | None => rows end.

(** [rows.Err()] *)
Definition rows_err {A} (s : PGState) (rows : list A) : option error :=
  match pg_cut s with
  | Some n => if (n <? length rows)%nat then Some (EExt "unexpected EOF") else None
  | None => None
  end.

(** The loop body of [GetSessionStatus]. *)
Definition count_row (acc : gmap Status Z * Z) (st : Status) : gmap Status Z * Z :=
  (bump acc.1 st, acc.2 + 1).

Definition count_of (counts : gmap Status Z) (st : Status) : Z := default 0 (counts !! st).

(** The switch of [GetSessionStatus], its cases in order. *)
Definition overall (counts : gmap Status Z) (total : Z) : Status :=
  if count_of counts StatusSucceeded =? total then StatusSucceeded
  else if count_of counts StatusFailed =? total then StatusFailed
  else if count_of counts StatusCanceled =? total then StatusCanceled
  else if count_of counts StatusTimedOut =? total then StatusFailed
  else if 0 <? count_of counts StatusInProgress then StatusPending
  else if (0 <? count_of counts StatusPending) && (count_of counts StatusInProgress =? 0)
  then StatusPending
  else if (count_of counts StatusPending =? 0) && (count_of counts StatusInProgress =? 0)
  then StatusSucceeded
  else StatusPending.

(** The loop does not look at [rows.Err()] when it ends. *)
Definition GetSessionStatus (sessionID : Z) : GM PGState (gores StatusSummary) :=
  query OpSelectStatuses (int4_ok sessionID) StatusSummary_zero (fun s =>
    let rows := session_statuses sessionID (pg_status s) in
    let '(counts, total) := foldl count_row (zero_counts, 0) (delivered s rows) in
    (MkSummary (overall counts total) counts, None)).

Definition GetStatus (js : JobSpec) : GM PGState (gores Status) :=
  query (A := Status) OpSelectStatus (key_ok js) 0 (fun s =>
    match pg_status s !! js with
    | Some status => (status, None)
    | None => (0, Some no_rows)
    end).

Definition SetStatus (js : JobSpec) (status : Status) : GM PGState unit :=
  exec OpUpsertStatus (key_ok js && int4_ok status) "SetStatus(): " (fun s =>
    Some (with_status (<[js := status]> (pg_status s)) s)).

(** [INSERT ... ON CONFLICT (owner, repo) DO UPDATE ... RETURNING job_repo_id]:
    the default of the serial column is evaluated, and used up, even when the
    row exists. *)
Definition GetRepoId (cno : NameWithOwner) : GM PGState Z := fun s =>
  match pg_fault s OpUpsertRepo with
  | Some e => (Panic ("GetRepoId: " +:+ e), s)
  | None =>
      if negb (text_ok (Owner cno) && text_ok (Repo cno)) then (Panic ("GetRepoId: " +:+ rejected), s)
      else if max_int4 <=? pg_repo_seq s
      then (Panic "GetRepoId: nextval: reached maximum value of sequence", s)
      else
        let serial := pg_repo_seq s + 1 in
        match pg_repo_map s !! cno with
        | Some jobRepoID => (Val jobRepoID, with_repos serial (pg_repo_map s) s)
        | None => (Val serial, with_repos serial (<[cno := serial]> (pg_repo_map s)) s)
        end
  end.

Definition GetJobSpecByRepoId (sessionId jobRepoId : Z) : GM PGState (gores JobSpec) :=
  query OpSelectRepo (int4_ok jobRepoId) JobSpec_zero (fun s =>
    match List.filter (fun row => row.2 =? jobRepoId) (map_to_list (pg_repo_map s)) with
    | row :: _ => (MkJobSpec sessionId row.1, None)
    | [] => (JobSpec_zero, Some no_rows)
    end).

Section jsonb_columns.
Context `{PgService}.

(** Reading a [jsonb] column into a Go value. *)
Definition read_json {A} (d : decoder A) (zero : A) (what : string) (cell : option string) : gores A :=
  match cell with
  | None => (zero, Some no_rows)
  | Some jsonBytes =>
      match Unmarshal d zero jsonBytes with
      | Some v => (v, None)
      | None => (zero, Some (EWrap what (EText "invalid JSON")))
      end
  end.

Definition SetResult (js : JobSpec) (ar : AnalyzeResult) : GM PGState unit :=
  let ar := ar_set_Spec js ar in
  exec OpUpsertResult (key_ok js) "SetResult(): " (fun s =>
    out ← jsonb (Marshal ar); Some (with_results (<[js := out]> (pg_results s)) s)).

Definition GetResult (js : JobSpec) : GM PGState (gores AnalyzeResult) :=
  query OpSelectResult (key_ok js) AnalyzeResult_zero (fun s =>
    read_json AnalyzeResult_dec AnalyzeResult_zero "unmarshal AnalyzeResult" (pg_results s !! js)).

Definition SetJobInfo (js : JobSpec) (ji : JobInfo) : GM PGState unit :=
  exec OpUpsertInfo (key_ok js) "SetJobInfo(): " (fun s =>
    out ← jsonb (Marshal ji); Some (with_infos (<[js := out]> (pg_infos s)) s)).

Definition GetJobInfo (js : JobSpec) : GM PGState (gores JobInfo) :=
  query OpSelectInfo (key_ok js) JobInfo_zero (fun s =>
    read_json JobInfo_dec JobInfo_zero "unmarshal JobInfo" (pg_infos s !! js)).

(** The transaction holds the insertion only: [GetRepoId] runs on a connection
    of its own, so its effects stay when the transaction is rolled back. *)
Definition AddJob (job : AnalyzeJob) : GM PGState unit := fun s =>
  let js := aj_Spec job in
  match pg_fault s OpBegin with
  | Some e => (Panic ("AddJob(): " +:+ e), s)
  | None =>
      match pg_fault s OpInsertJob with
      | Some e => (Panic ("AddJob(): " +:+ e), s)
      | None =>
          match (if key_ok js then jsonb (Marshal job) else None) with
          | None => (Panic ("AddJob(): " +:+ rejected), s)
          | Some out =>
              let jobs' := match pg_jobs s !! js with
                           | Some _ => pg_jobs s (* ON CONFLICT DO NOTHING *)
                           | None => <[js := out]> (pg_jobs s)
                           end in
              gbind (GetRepoId (js_NameWithOwner js)) (fun jobRepoID s' =>
                match pg_fault s' OpCommit with
                | Some e => (Panic ("AddJob(): " +:+ e), s')
                | None => (Val tt, with_jobs jobs' s')
                end) s
          end
      end
  end.

(** [WHERE session_id = $1 ORDER BY owner, repo] *)
Definition row_le (r1 r2 : JobSpec * string) : Prop :=
  row_before (js_NameWithOwner r1.1) (js_NameWithOwner r2.1) = true.

#[export] Instance row_le_dec r1 r2 : Decision (row_le r1 r2).
Proof. unfold row_le. apply _. Defined.

Definition job_rows (sid : Z) (m : gmap JobSpec string) : list (JobSpec * string) :=
  merge_sort row_le (List.filter (fun p => SessionID p.1 =? sid) (map_to_list m)).

Fixpoint decode_jobs (rows : list string) : gores (list AnalyzeJob) :=
  match rows with
  | [] => ([], None)
  | jsonBytes :: rows' =>
      match Unmarshal AnalyzeJob_dec AnalyzeJob_zero jsonBytes with
      | None => ([], Some (EText "invalid JSON"))
      | Some job =>
          let '(jobs, err) := decode_jobs rows' in
          match err with Some e => ([], Some e) | None => (job :: jobs, None) end
      end
  end.

Definition GetJobList (sessionId : Z) : GM PGState (gores (list AnalyzeJob)) :=
  query OpSelectJobs (int4_ok sessionId) [] (fun s =>
    let rows := map snd (job_rows sessionId (pg_jobs s)) in
    let '(jobs, err) := decode_jobs (delivered s rows) in
    match err with
    | Some e => ([], Some e)
    | None => match rows_err s rows with Some e => ([], Some e) | None => (jobs, None) end
    end).

End jsonb_columns.
End Postgres.

#[export] Instance pg_session `{PgService} : SessionState PGState := {|
  NextID := Postgres.NextID;
  GetResult := Postgres.GetResult;
  GetJobSpecByRepoId := Postgres.GetJobSpecByRepoId;
  SetResult := Postgres.SetResult;
  GetJobList := Postgres.GetJobList;
  GetJobInfo := Postgres.GetJobInfo;
  SetJobInfo := Postgres.SetJobInfo;
  GetStatus := Postgres.GetStatus;
  GetSessionStatus := Postgres.GetSessionStatus;
  SetStatus := Postgres.SetStatus;
  AddJob := Postgres.AddJob |}.

#[export] Instance pg_server `{PgService} : ServerState PGState := {|
  ss_session := pg_session;
  GetRepoId := Postgres.GetRepoId |}.

(** ** The invariant *)
Definition decodes_to {A} (d : decoder A) (zero : A) (key : JobSpec -> A -> Prop)
    (m : gmap JobSpec string) : Prop :=
  forall js out, m !! js = Some out -> exists v, Unmarshal d zero out = Some v /\ key js v.

(** [n] serials of [job_repo_map] are left. *)
Record pg_wf (n : nat) (s : PGState) : Prop := {
  pw_up : forall op, pg_fault s op = None;
  pw_whole : pg_cut s = None;
  pw_seq : 0 <= pg_seq s <= max_int4;
  pw_serials : 0 <= pg_repo_seq s /\ pg_repo_seq s + Z.of_nat n <= max_int4;
  pw_ids : forall nwo id, pg_repo_map s !! nwo = Some id -> 0 < id <= pg_repo_seq s;
  pw_ids_inj : forall nwo1 nwo2 id,
    pg_repo_map s !! nwo1 = Some id -> pg_repo_map s !! nwo2 = Some id -> nwo1 = nwo2;
  pw_jobs : decodes_to AnalyzeJob_dec AnalyzeJob_zero (fun js job => aj_Spec job = js) (pg_jobs s);
  pw_results : decodes_to AnalyzeResult_dec AnalyzeResult_zero (fun _ _ => True) (pg_results s);
  pw_infos : decodes_to JobInfo_dec JobInfo_zero (fun _ _ => True) (pg_infos s);
  pw_known : forall js, is_Some (pg_jobs s !! js) \/ is_Some (pg_status s !! js) \/
      is_Some (pg_results s !! js) \/ is_Some (pg_infos s !! js) ->
    1 <= SessionID js <= pg_seq s
}.

Definition read_job : string -> option AnalyzeJob := Unmarshal AnalyzeJob_dec AnalyzeJob_zero.

Definition session_rows (sid : Z) (m : gmap JobSpec string) : list (JobSpec * string) :=
  List.filter (fun p => SessionID p.1 =? sid) (map_to_list m).

Definition session_jobs (sid : Z) (m : gmap JobSpec string) : list AnalyzeJob :=
  omap read_job (map snd (session_rows sid m)).

Definition pg_view (s : PGState) : View :=
  MkView (fun sid => 1 <= sid <= pg_seq s) (fun sid => session_jobs sid (pg_jobs s)) (pg_status s)
    (omap (Unmarshal AnalyzeResult_dec AnalyzeResult_zero) (pg_results s))
    (omap (Unmarshal JobInfo_dec JobInfo_zero) (pg_infos s)).

Definition pg_can_next (s : PGState) : Prop := pg_seq s < max_int4.

Lemma session_rows_insert sid m js out :
  m !! js = None ->
  session_rows sid (<[js := out]> m) ≡ₚ
  (if decide (sid = SessionID js) then (js, out) :: session_rows sid m else session_rows sid m).
Proof.
  intros Hm. unfold session_rows. rewrite map_to_list_insert by done. simpl.
  case_decide as E; [rewrite E, Z.eqb_refl; done|].
  by rewrite (proj2 (Z.eqb_neq _ _)) by congruence.
Qed.

Lemma session_jobs_insert sid m js out job :
  m !! js = None -> read_job out = Some job ->
  session_jobs sid (<[js := out]> m) ≡ₚ
  (if decide (sid = SessionID js) then job :: session_jobs sid m else session_jobs sid m).
Proof.
  intros Hm Hj. unfold session_jobs. rewrite session_rows_insert by done.
  case_decide; [|done]. simpl. by rewrite Hj.
Qed.

Lemma elem_of_session_rows sid m js out :
  (js, out) ∈ session_rows sid m <-> SessionID js = sid /\ m !! js = Some out.
Proof.
  unfold session_rows. rewrite list_elem_of_In, filter_In, <- list_elem_of_In, elem_of_map_to_list.
  simpl. rewrite Z.eqb_eq. naive_solver.
Qed.

Lemma session_jobs_none sid m :
  (forall js, is_Some (m !! js) -> SessionID js <> sid) -> session_jobs sid m = [].
Proof.
  intros H. unfold session_jobs. destruct (session_rows sid m) as [|[js out] l] eqn:E; [done|].
  assert ((js, out) ∈ session_rows sid m) as Hin by (rewrite E; left).
  apply elem_of_session_rows in Hin as [<- Hm]. exfalso. by eapply H; [eexists|].
Qed.

Lemma decode_jobs_ok rows :
  Forall (fun r => is_Some (read_job r)) rows -> Postgres.decode_jobs rows = (omap read_job rows, None).
Proof.
  induction 1 as [|r rows [job Hr] _ IH]; [done|]. simpl. unfold read_job in *. by rewrite Hr, IH.
Qed.

Lemma key_ok_known n s js :
  pg_wf n s -> 1 <= SessionID js <= pg_seq s ->
  text_ok (js_Owner js) = true -> text_ok (js_Repo js) = true -> key_ok js = true.
Proof.
  intros Hwf Hk Ho Hr. unfold key_ok. rewrite Ho, Hr. pose proof (pw_seq _ _ Hwf).
  unfold int4_ok. rewrite !andb_true_r, andb_true_iff, !Z.leb_le. lia.
Qed.

Lemma decodes_insert {A} (d : decoder A) zero key m js out v :
  decodes_to d zero key m -> Unmarshal d zero out = Some v -> key js v ->
  decodes_to d zero key (<[js := out]> m).
Proof.
  intros Hm Hd Hk js' out' H. apply lookup_insert_Some in H as [[<- <-]|[_ H]]; [by exists v|by apply Hm].
Qed.

(** ** Every operation against the view *)
Lemma pg_NextID n s :
  pg_wf n s -> pg_can_next s ->
  exists id s', Postgres.NextID s = (Val id, s') /\ pg_wf n s' /\
    pg_view s' ≡ view_open id (pg_view s) /\ ~ v_known (pg_view s) id /\
    v_jobs (pg_view s) id = [] /\ (forall js, SessionID js = id -> v_status (pg_view s) !! js = None).
Proof.
  intros Hwf Hn. pose proof Hwf as [Hup Hc Hs Hr Hi Hinj Hj Hre Hin Hk]. unfold pg_can_next in Hn.
  assert (forall js, SessionID js = pg_seq s + 1 -> ~ (1 <= SessionID js <= pg_seq s)) as Hnew by lia.
  assert (session_jobs (pg_seq s + 1) (pg_jobs s) = []) as Hnone.
  { apply session_jobs_none. intros js Hjs E. apply (Hnew js E). apply Hk. by left. }
  exists (pg_seq s + 1), (Postgres.with_seq (pg_seq s + 1) s).
  unfold Postgres.NextID. rewrite Hup.
  replace (Postgres.max_int8 <=? pg_seq s) with false by (unfold Postgres.max_int8, max_int4 in *; lia).
  split_and!; [done| | | |done|].
  - split; simpl; try done; [lia|]. intros js Hjs%Hk. lia.
  - split_and!; simpl; [lia| |done..]. intros sid. case_decide as E; [|done]. by rewrite E, Hnone.
  - simpl. lia.
  - intros js E. simpl. apply eq_None_not_Some. intros H. apply (Hnew js E). apply Hk. tauto.
Qed.

Lemma pg_GetRepoId n s nwo :
  pg_wf (S n) s -> text_ok (Owner nwo) = true -> text_ok (Repo nwo) = true ->
  exists id q m, Postgres.GetRepoId nwo s = (Val id, Postgres.with_repos q m s) /\
    pg_wf n (Postgres.with_repos q m s) /\ m !! nwo = Some id /\
    (forall i, pg_repo_map s !! nwo = Some i -> i = id) /\
    (forall nwo', nwo' <> nwo -> m !! nwo' = pg_repo_map s !! nwo').
Proof.
  intros [Hup Hc Hs Hr Hi Hinj Hj Hre Hin Hk] Ho Hrp. unfold Postgres.GetRepoId. rewrite Hup, Ho, Hrp.
  simpl. replace (max_int4 <=? pg_repo_seq s) with false by lia.
  destruct (pg_repo_map s !! nwo) as [id|] eqn:E.
  - exists id, (pg_repo_seq s + 1), (pg_repo_map s). split_and!; [done| |done|naive_solver|done].
    split; simpl; try done; [lia|]. intros nwo' id' H%Hi. lia.
  - exists (pg_repo_seq s + 1), (pg_repo_seq s + 1), (<[nwo := pg_repo_seq s + 1]> (pg_repo_map s)).
    split_and!; [done| |by rewrite lookup_insert_eq|done|intros; by rewrite lookup_insert_ne].
    split; simpl; try done; [lia| |].
    + intros nwo' id' H. apply lookup_insert_Some in H as [[_ <-]|[_ H%Hi]]; lia.
    + intros n1 n2 id' H1 H2. apply lookup_insert_Some in H1, H2.
      destruct H1 as [[<- H1]|[? H1]], H2 as [[<- H2]|[? H2]]; [done| | |by eapply Hinj].
      * apply Hi in H2. lia.
      * apply Hi in H1. lia.
Qed.

Section with_service.
Context `{PgServiceLaws}.

(** What a [jsonb] column gives back for a value that was stored. *)
Lemma stored_reads {A} `{JsonCodec A} (x zero : A) out :
  json_valid x -> Z.of_nat (json_depth (A := A)) <= max_depth -> jsonb (Marshal x) = Some out ->
  Unmarshal of_json zero out = Some x.
Proof.
  intros Hv Hd Hout. destruct (jsonb_reads _ _ _ (to_json_ok x) Hd Hout) as (d & Hdoc & Hr).
  unfold Unmarshal. rewrite Hdoc. simpl. by apply of_to_json.
Qed.

Definition pg_storable_spec (js : JobSpec) : Prop :=
  text_ok (js_Owner js) = true /\ text_ok (js_Repo js) = true.

Definition pg_storable {A} `{JsonCodec A} (spec : A -> JobSpec) (x : A) : Prop :=
  pg_storable_spec (spec x) /\ json_valid x /\ is_Some (jsonb (Marshal x)).

Lemma pg_AddJob n s job :
  pg_wf (S n) s -> v_known (pg_view s) (SessionID (aj_Spec job)) -> pg_storable aj_Spec job ->
  aj_Spec job ∉ map aj_Spec (v_jobs (pg_view s) (SessionID (aj_Spec job))) ->
  exists s', Postgres.AddJob job s = (Val tt, s') /\ pg_wf n s' /\
    pg_view s' ≡ view_add_job job (pg_view s).
Proof.
  intros Hwf Hknown ([Ho Hr] & Hv & out & Hout) Hnew.
  assert (read_job out = Some job) as Hread
    by exact (stored_reads job AnalyzeJob_zero out Hv ltac:(done) Hout).
  destruct (pg_GetRepoId n s (js_NameWithOwner (aj_Spec job)) Hwf Ho Hr) as (id & q & m & Hid & Hwf' & _).
  unfold Postgres.AddJob. rewrite !(pw_up _ _ Hwf), (key_ok_known _ s) by done. rewrite Hout.
  assert (pg_jobs s !! aj_Spec job = None) as Hfree.
  { apply eq_None_not_Some. intros [out' H']. apply Hnew.
    destruct (pw_jobs _ _ Hwf _ _ H') as (job' & Hj' & E).
    apply list_elem_of_In, in_map_iff. exists job'. split; [done|].
    apply list_elem_of_In. simpl. apply list_elem_of_omap. exists out'. split; [|done].
    apply list_elem_of_In, in_map_iff. exists (aj_Spec job, out'). split; [done|].
    apply list_elem_of_In. by apply elem_of_session_rows. }
  rewrite Hfree. unfold gbind. rewrite Hid. cbn [pg_fault Postgres.with_repos].
  rewrite (pw_up _ _ Hwf). eexists. split; [done|]. split.
  - destruct Hwf' as [Hup Hc Hs Hser Hi Hinj Hj Hre Hin Hk]. split; simpl in *; try done.
    + by eapply decodes_insert.
    + intros js [[x Hx]|Hx]; [|by apply Hk; right].
      apply lookup_insert_Some in Hx as [[<- _]|[_ Hx]]; [done|]. apply Hk. left. by eexists.
  - split_and!; simpl; [done| |done..]. intros sid.
    rewrite (session_jobs_insert _ _ _ _ job) by done. done.
Qed.

Lemma pg_SetStatus n s js st :
  pg_wf n s -> v_known (pg_view s) (SessionID js) -> pg_storable_spec js -> 0 <= st <= 5 ->
  exists s', Postgres.SetStatus js st s = (Val tt, s') /\ pg_wf n s' /\
    pg_view s' ≡ view_set_status js st (pg_view s).
Proof.
  intros Hwf Hknown [Ho Hr] Hst. unfold Postgres.SetStatus, Postgres.exec.
  rewrite (pw_up _ _ Hwf), (key_ok_known _ s) by done.
  replace (int4_ok st) with true by (unfold int4_ok, max_int4; lia). simpl.
  eexists. split; [done|]. split; [|done].
  destruct Hwf as [Hup Hc Hs Hser Hi Hinj Hj Hre Hin Hk]. split; simpl in *; try done.
  intros js' [Hx|[[x Hx]|Hx]]; [by apply Hk; left| |by apply Hk; right; right].
  apply lookup_insert_Some in Hx as [[<- _]|[_ Hx]]; [done|]. apply Hk. right. left. by eexists.
Qed.

Lemma pg_SetResult n s js ar :
  pg_wf n s -> v_known (pg_view s) (SessionID js) -> pg_storable ar_Spec ar -> ar_Spec ar = js ->
  exists s', Postgres.SetResult js ar s = (Val tt, s') /\ pg_wf n s' /\
    pg_view s' ≡ view_set_result js ar (pg_view s).
Proof.
  intros Hwf Hknown ([Ho Hr] & Hv & out & Hout) <-.
  assert (Unmarshal AnalyzeResult_dec AnalyzeResult_zero out = Some ar) as Hread
    by exact (stored_reads ar AnalyzeResult_zero out Hv ltac:(done) Hout).
  unfold Postgres.SetResult, Postgres.exec. rewrite (pw_up _ _ Hwf), (key_ok_known _ s) by done.
  replace (ar_set_Spec (ar_Spec ar) ar) with ar by by destruct ar. rewrite Hout. simpl.
  eexists. split; [done|]. split.
  - destruct Hwf as [Hup Hc Hs Hser Hi Hinj Hj Hre Hin Hk]. split; simpl in *; try done.
    + by eapply decodes_insert.
    + intros js' [Hx|[Hx|[[x Hx]|Hx]]]; [apply Hk; tauto..| |apply Hk; tauto].
      apply lookup_insert_Some in Hx as [[<- _]|[_ Hx]]; [done|]. apply Hk. right. right. left. by eexists.
  - split_and!; simpl; try done. by rewrite (omap_insert_Some _ _ _ _ ar).
Qed.

Lemma pg_SetJobInfo n s js ji :
  pg_wf n s -> v_known (pg_view s) (SessionID js) -> pg_storable_spec js ->
  json_valid ji /\ is_Some (jsonb (Marshal ji)) ->
  exists s', Postgres.SetJobInfo js ji s = (Val tt, s') /\ pg_wf n s' /\
    pg_view s' ≡ view_set_info js ji (pg_view s).
Proof.
  intros Hwf Hknown [Ho Hr] (Hv & out & Hout).
  assert (Unmarshal JobInfo_dec JobInfo_zero out = Some ji) as Hread
    by exact (stored_reads ji JobInfo_zero out Hv ltac:(done) Hout).
  unfold Postgres.SetJobInfo, Postgres.exec. rewrite (pw_up _ _ Hwf), (key_ok_known _ s) by done.
  rewrite Hout. simpl. eexists. split; [done|]. split.
  - destruct Hwf as [Hup Hc Hs Hser Hi Hinj Hj Hre Hin Hk]. split; simpl in *; try done.
    + by eapply decodes_insert.
    + intros js' [Hx|[Hx|[Hx|[x Hx]]]]; [apply Hk; tauto..|].
      apply lookup_insert_Some in Hx as [[<- _]|[_ Hx]]; [done|]. apply Hk. right. right. right. by eexists.
  - split_and!; simpl; try done. by rewrite (omap_insert_Some _ _ _ _ ji).
Qed.

(** ** Reads *)
Lemma query_ok {A} n s op (zero : A) read :
  pg_wf n s -> Postgres.query op true zero read s = (Val (read s), s).
Proof. intros Hwf. unfold Postgres.query. by rewrite (pw_up _ _ Hwf). Qed.

Lemma query_absent {A} n s op ok (zero : A) read e :
  pg_wf n s -> (ok = true -> read s = (zero, Some e)) ->
  exists v e, Postgres.query op ok zero read s = (Val (v, Some e), s).
Proof.
  intros Hwf Hr. unfold Postgres.query. rewrite (pw_up _ _ Hwf).
  destruct ok; simpl; [rewrite Hr by done|]; eauto.
Qed.

Lemma delivered_all {A} n s (rows : list A) :
  pg_wf n s -> Postgres.delivered s rows = rows /\ Postgres.rows_err s rows = None.
Proof. intros Hwf. unfold Postgres.delivered, Postgres.rows_err. by rewrite (pw_whole _ _ Hwf). Qed.

Lemma read_json_ok {A} (d : decoder A) (zero : A) key what m js :
  decodes_to d zero key m ->
  match omap (Unmarshal d zero) m !! js with
  | Some v => Postgres.read_json d zero what (m !! js) = (v, None)
  | None => Postgres.read_json d zero what (m !! js) = (zero, Some no_rows)
  end.
Proof.
  intros Hm. rewrite lookup_omap. unfold Postgres.read_json.
  destruct (m !! js) as [out|] eqn:E; [|done]. simpl.
  by destruct (Hm _ _ E) as (v & -> & _).
Qed.

Lemma pg_get_json {A} n s op (d : decoder A) zero key what m js :
  pg_wf n s -> decodes_to d zero key m -> (is_Some (m !! js) -> key_ok js = true) ->
  match omap (Unmarshal d zero) m !! js with
  | Some v => Postgres.query op (key_ok js) zero (fun _ => Postgres.read_json d zero what (m !! js)) s
              = (Val (v, None), s)
  | None => exists v e,
      Postgres.query op (key_ok js) zero (fun _ => Postgres.read_json d zero what (m !! js)) s
      = (Val (v, Some e), s)
  end.
Proof.
  intros Hwf Hm Hk. pose proof (read_json_ok _ _ _ what _ js Hm) as Hr.
  destruct (omap (Unmarshal d zero) m !! js) as [v|] eqn:E.
  - rewrite Hk.
    + by erewrite query_ok, Hr by done.
    + apply lookup_omap_Some in E as (out & _ & Hout). by eexists.
  - by eapply query_absent.
Qed.

Lemma count_rows_fold sts counts total :
  foldl Postgres.count_row (counts, total) sts =
  (foldl bump counts sts, total + Z.of_nat (length sts)).
Proof.
  revert counts total. induction sts as [|st sts IH]; intros counts total; simpl.
  { by rewrite Z.add_0_r. }
  unfold Postgres.count_row at 2. simpl. rewrite IH. f_equal. lia.
Qed.

Lemma pg_overall_is_spec sts :
  Postgres.overall (foldl bump zero_counts sts) (Z.of_nat (length sts)) = overall_spec sts.
Proof.
  rewrite overall_spec_occurrences. unfold Postgres.overall, Postgres.count_of.
  rewrite !tally_zero by done. cbn [from_option id]. cbn zeta.
  pose proof (occurrences_nonneg StatusPending sts).
  pose proof (occurrences_nonneg StatusInProgress sts).
  repeat (case_match; try reflexivity); unfold StatusPending, StatusInProgress in *; lia.
Qed.

(** The summary of the rows that were delivered. *)
Lemma pg_GetSessionStatus s sid :
  pg_fault s OpSelectStatuses = None -> int4_ok sid = true ->
  Postgres.GetSessionStatus sid s =
  (let sts := Postgres.delivered s (session_statuses sid (pg_status s)) in
   (Val (MkSummary (overall_spec sts) (foldl bump zero_counts sts), None), s)).
Proof.
  intros Hup Hid. unfold Postgres.GetSessionStatus, Postgres.query. rewrite Hup, Hid. simpl.
  rewrite count_rows_fold. rewrite Z.add_0_l. by rewrite pg_overall_is_spec.
Qed.

Lemma session_statuses_key sid m :
  session_statuses sid m <> [] -> exists js, SessionID js = sid /\ is_Some (m !! js).
Proof.
  unfold session_statuses. intros Hne.
  destruct (List.filter _ _) as [|[js st] l] eqn:E; [done|].
  assert ((js, st) ∈ List.filter (fun p => SessionID p.1 =? sid) (map_to_list m)) as Hin
    by (rewrite E; left).
  apply list_elem_of_In, filter_In in Hin as [Hin Hs]. apply list_elem_of_In, elem_of_map_to_list in Hin.
  simpl in Hs. exists js. split; [lia|by eexists].
Qed.

Lemma pg_GetJobList n s sid :
  pg_wf n s -> v_known (pg_view s) sid ->
  exists l, Postgres.GetJobList sid s = (Val (l, None), s) /\ l ≡ₚ v_jobs (pg_view s) sid.
Proof.
  intros Hwf Hk. simpl in Hk. pose proof (pw_seq _ _ Hwf) as Hseq.
  assert (int4_ok sid = true) as Hid by (unfold int4_ok; lia).
  unfold Postgres.GetJobList. rewrite Hid. rewrite (query_ok n) by exact Hwf.
  destruct (delivered_all n s (map snd (Postgres.job_rows sid (pg_jobs s))) Hwf) as [-> ->].
  assert (Postgres.job_rows sid (pg_jobs s) ≡ₚ session_rows sid (pg_jobs s)) as Hp.
  { apply merge_sort_Permutation. }
  rewrite decode_jobs_ok.
  - eexists. split; [done|]. simpl. unfold session_jobs. by rewrite Hp.
  - rewrite Hp. apply list.Forall_forall. intros out Hout.
    apply list_elem_of_In, in_map_iff in Hout as ([js o] & <- & Hin).
    apply list_elem_of_In, elem_of_session_rows in Hin as [_ Hm].
    destruct (pw_jobs _ _ Hwf _ _ Hm) as (job & Hj & _). by eexists.
Qed.

(** ** [PGState] implements the specification *)
#[export, refine] Instance pg_session_spec : SessionStateSpec PGState := {|
  wf := pg_wf; can_next := pg_can_next; view := pg_view;
  storable_spec := pg_storable_spec;
  storable_job := pg_storable aj_Spec;
  storable_result := pg_storable ar_Spec;
  storable_info ji := json_valid ji /\ is_Some (jsonb (Marshal ji)) |}.
Proof.
  - intros n s []. split; try done. lia.
  - intros n s. apply pg_NextID.
  - intros n s job. apply pg_AddJob.
  - intros n s js st. apply pg_SetStatus.
  - intros n s js ar. apply pg_SetResult.
  - intros n s js ji. apply pg_SetJobInfo.
  - intros n s js Hwf [Ho Hr]. simpl. unfold Postgres.GetStatus.
    destruct (pg_status s !! js) as [st|] eqn:E.
    + assert (key_ok js = true) as ->.
      { eapply key_ok_known; [exact Hwf|apply (pw_known _ _ Hwf); right; left; by eexists|done..]. }
      rewrite (query_ok n) by exact Hwf. cbn beta. by rewrite E.
    + eapply query_absent; [done|]. intros _. by rewrite E.
  - intros n s js Hwf [Ho Hr]. simpl. eapply pg_get_json; [done|apply (pw_results _ _ Hwf)|].
    intros ?. eapply key_ok_known; [exact Hwf|apply (pw_known _ _ Hwf); tauto|done..].
  - intros n s js Hwf [Ho Hr]. simpl. eapply pg_get_json; [done|apply (pw_infos _ _ Hwf)|].
    intros ?. eapply key_ok_known; [exact Hwf|apply (pw_known _ _ Hwf); tauto|done..].
  - intros n s sid Hwf Hk. by eapply pg_GetJobList.
  - intros n s sid Hwf Hne. cbn [GetSessionStatus pg_session].
    destruct (session_statuses_key _ _ Hne) as (js & <- & Hjs).
    rewrite pg_GetSessionStatus; [|apply (pw_up _ _ Hwf)|].
    + cbn zeta. destruct (delivered_all n s (session_statuses (SessionID js) (pg_status s)) Hwf) as [-> _].
      eexists. split; [done|]. split; [done|]. intros st Hst. by apply tally_zero.
    + pose proof (pw_known _ _ Hwf js ltac:(tauto)). pose proof (pw_seq _ _ Hwf).
      unfold int4_ok. lia.
Defined.

#[export, refine] Instance pg_server_spec : ServerStateSpec PGState := {|
  sss_session := pg_session_spec;
  repo_id s nwo := pg_repo_map s !! nwo |}.
Proof.
  - intros n s sid nwo Hwf [Ho Hr].
    destruct (pg_GetRepoId n s nwo Hwf Ho Hr) as (id & q & m & Hid & Hwf' & Hm & Hold & Hframe).
    exists id, (Postgres.with_repos q m s). by split_and!.
  - intros n s sid nwo id Hwf Hm Hid. simpl. unfold Postgres.GetJobSpecByRepoId.
    replace (int4_ok id) with true by (unfold int4_ok, max_int4; lia).
    rewrite (query_ok n) by exact Hwf.
    destruct (List.filter _ _) as [|[nwo' id'] l] eqn:E.
    + exfalso. assert ((nwo, id) ∈ List.filter (fun row : NameWithOwner * Z => row.2 =? id)
                                     (map_to_list (pg_repo_map s))) as Hin.
      { apply list_elem_of_In, filter_In. split; [|apply Z.eqb_refl].
        by apply list_elem_of_In, elem_of_map_to_list. }
      rewrite E in Hin. by apply not_elem_of_nil in Hin.
    + assert ((nwo', id') ∈ List.filter (fun row : NameWithOwner * Z => row.2 =? id)
                                     (map_to_list (pg_repo_map s))) as Hin by (rewrite E; left).
      apply list_elem_of_In, filter_In in Hin as [Hin Heq].
      apply list_elem_of_In, elem_of_map_to_list in Hin. simpl in Heq.
      replace id' with id in Hin by lia. by rewrite (pw_ids_inj _ _ Hwf _ _ _ Hin Hm).
Defined.

End with_service.

(** ** A fresh database, and a service that keeps the text of documents *)
Definition NewPGState : PGState := MkPG 0 0 ∅ ∅ ∅ ∅ ∅ (fun _ => None) None.

Lemma NewPGState_wf n : Z.of_nat n <= max_int4 -> pg_wf n NewPGState.
Proof.
  intros Hn. split; simpl; try done; try lia; unfold max_int4; try lia.
  all: intros ? * H; try (by rewrite lookup_empty in H).
  destruct H as [[? H]|[[? H]|[[? H]|[? H]]]]; by rewrite lookup_empty in H.
Qed.

Definition text_service : PgService := {| jsonb d := Some d; row_before _ _ := true |}.

Lemma text_service_laws : @PgServiceLaws text_service.
Proof.
  constructor. intros n d out Hok Hd [= <-]. exists (jsan d). split; [|apply reordered_refl].
  by eapply json_document_print.
Qed.
