(* ===== verification/PostgresSetup.v ===== *)
(** [NewPGState] and [SetupSchemas] of [pkg/state/state_postgres.go]: from the
    environment variables to a pool of connections and the tables they use.

    The connection pool and the certificates are parameters.  Of a database the
    catalog is kept: what [CREATE ... IF NOT EXISTS] reads and changes, without the
    indexes and the sequence a table brings along, whose names are none of the six.
    The rows are the business of [StatePostgres]. *)
From S2P Require Import Prelude GoStrings GoPath GoOs.

(** ** The catalog *)
Inductive column_type := SERIAL | TEXT | INTEGER | JSONB.

Record table : Type := MkTable {
  tb_columns : list (string * column_type);   (* all of them NOT NULL *)
  tb_primary_key : list string;
  tb_unique : list (list string)
}.

Inductive relation := Table (t : table) | Sequence.

#[export] Instance column_type_eq_dec : EqDecision column_type.
Proof. solve_decision. Defined.
#[export] Instance table_eq_dec : EqDecision table.
Proof. solve_decision. Defined.
#[export] Instance relation_eq_dec : EqDecision relation.
Proof. solve_decision. Defined.

(** [pg_locked] is the advisory lock as this session holds it; [pg_error] a
    schedule of errors, [pg_asked] the calls so far. *)
Record Database : Type := MkDatabase {
  pg_catalog : gmap string relation;
  pg_locked : bool;
  pg_error : nat -> option error;
  pg_asked : nat
}.

Definition session_table (payload : string * column_type) : relation :=
  Table (MkTable [("session_id", INTEGER); ("owner", TEXT); ("repo", TEXT); payload]
           ["session_id"; "owner"; "repo"] []).

Definition schemas : list (string * relation) :=
  [("job_repo_map", Table (MkTable [("job_repo_id", SERIAL); ("owner", TEXT); ("repo", TEXT)]
                             ["job_repo_id"] [["owner"; "repo"]]));
   ("session_id_seq", Sequence);
   ("analyze_results", session_table ("result", JSONB));
   ("analyze_jobs", session_table ("payload", JSONB));
   ("job_info", session_table ("payload", JSONB));
   ("job_status", session_table ("status", INTEGER))].

Module Setup.

Definition db_call : GM Database (option error) := fun db =>
  (Val (pg_error db (pg_asked db)), MkDatabase (pg_catalog db) (pg_locked db) (pg_error db) (S (pg_asked db))).

(** A relation of the name is kept as it is, whatever it is. *)
Definition create_if_not_exists (name : string) (r : relation) (db : Database) : Database :=
  MkDatabase (pg_catalog db ∪ {[name := r]}) (pg_locked db) (pg_error db) (pg_asked db).

Definition set_lock (b : bool) (db : Database) : Database :=
  MkDatabase (pg_catalog db) b (pg_error db) (pg_asked db).

(** A statement: its effect when it does not fail. *)
Definition Exec (f : Database -> Database) : GM Database (option error) :=
  let! err := db_call in
  match err with
  | Some e => gret (Some e)
  | None => gmodify f ;;; gret None
  end.

Fixpoint create_all (ss : list (string * relation)) : GM Database (startup unit) :=
  match ss with
  | [] => gret (Returns (inr tt))
  | (name, r) :: ss' =>
      let! err := Exec (create_if_not_exists name r) in
      match err with Some _ => gret (Exits 1) | None => create_all ss' end
  end.

(** [os.Exit] runs no deferred call: the lock is then left to the end of the session. *)
Definition SetupSchemas : GM Database (startup unit) :=
  let! err := db_call in  (* pool.Acquire *)
  match err with
  | Some _ => gret (Exits 1)
  | None =>
      let! err := Exec (set_lock true) in
      match err with
      | Some _ => gret (Exits 1)
      | None =>
          let! done := create_all schemas in
          match done with
          | Exits code => gret (Exits code)
          | Returns r => Exec (set_lock false) ;;; gret (Returns r)
          end
      end
  end.

(** ** [NewPGState] *)
Section new.
Context (LookupEnv : string -> option string).
Context {Config : Type} (ParseConfig : string -> error + Config).
Context (AppendCertsFromPEM : string -> bool).
(** [pgxpool.NewWithConfig]: the configuration, the certificates and the name the
    server must have, and the greatest number of connections. *)
Context (NewWithConfig : Config -> option (string * string) -> Z -> option error).

Record Boot : Type := MkBoot { bt_fs : FS; bt_db : Database }.
Notation M := (GM Boot).

Definition on_files {A} (m : GM FS A) : M A := zoom bt_fs (fun f b => MkBoot f (bt_db b)) m.
Definition on_database {A} (m : GM Database A) : M A := zoom bt_db (fun d b => MkBoot (bt_fs b) d) m.

Definition validateEnvVars (requiredEnvVars : list string) : bool :=
  existsb (fun envVar => match LookupEnv envVar with None => true | Some _ => false end) requiredEnvVars.

Definition postgres_vars : list string :=
  ["POSTGRES_USER"; "POSTGRES_PASSWORD"; "POSTGRES_DB"; "POSTGRES_HOST"; "POSTGRES_PORT"].

Definition dbURL (user pass host port db : string) : string :=
  "postgres://" +:+ user +:+ ":" +:+ pass +:+ "@" +:+ host +:+ ":" +:+ port +:+ "/" +:+ db.

(** The certificates, if there is a file of them; [None] is [os.Exit(1)]. *)
Definition tls_config (host : string) : M (option (option (string * string))) :=
  let caCertFile := Getenv LookupEnv "POSTGRES_CA_CERT_FILE" in
  if String.eqb caCertFile "" then gret (Some None)
  else
    let! (caCert, err) := on_files (ReadFile caCertFile) in
    match err with
    | Some _ => gret None
    | None => gret (if AppendCertsFromPEM caCert then Some (Some (caCert, host)) else None)
    end.

Definition MaxConns : Z := 10.

Definition NewPGState : M (startup unit) :=
  if validateEnvVars postgres_vars then gret (Exits 1)
  else
    let user := Getenv LookupEnv "POSTGRES_USER" in
    let pass := Getenv LookupEnv "POSTGRES_PASSWORD" in
    let host := Getenv LookupEnv "POSTGRES_HOST" in
    let port := Getenv LookupEnv "POSTGRES_PORT" in
    let db := Getenv LookupEnv "POSTGRES_DB" in
    match ParseConfig (dbURL user pass host port db) with
    | inl _ => gret (Exits 1)
    | inr config =>
        let! tls := tls_config host in
        match tls with
        | None => gret (Exits 1)
        | Some tls =>
            match NewWithConfig config tls MaxConns with
            | Some _ => gret (Exits 1)
            | None => on_database SetupSchemas
            end
        end
    end.
End new.
End Setup.

(** ** What is set up *)
Definition declared (ss : list (string * relation)) : gmap string relation := list_to_map ss.

(** The [i]-th call from here on. *)
Definition fails_at (db : Database) (i : nat) : option error := pg_error db (pg_asked db + i).

(** The first call of them to fail is the [i]-th; all of the first [n] go well. *)
Definition first_failure (db : Database) (i : nat) : Prop :=
  is_Some (fails_at db i) /\ forall j, (j < i)%nat -> fails_at db j = None.
Definition none_fails (db : Database) (n : nat) : Prop := forall j, (j < n)%nat -> fails_at db j = None.

Definition after_calls (catalog : gmap string relation) (locked : bool) (n : nat) (db : Database) : Database :=
  MkDatabase catalog locked (pg_error db) (pg_asked db + n).

Lemma db_call_spec db : Setup.db_call db = (Val (fails_at db 0), after_calls (pg_catalog db) (pg_locked db) 1 db).
Proof. unfold Setup.db_call, fails_at, after_calls. by rewrite Nat.add_0_r, Nat.add_1_r. Qed.

Lemma Exec_spec f db :
  Setup.Exec f db =
    match fails_at db 0 with
    | Some e => (Val (Some e), after_calls (pg_catalog db) (pg_locked db) 1 db)
    | None => (Val None, f (after_calls (pg_catalog db) (pg_locked db) 1 db))
    end.
Proof. unfold Setup.Exec, gbind. rewrite db_call_spec. by destruct (fails_at db 0). Qed.

Lemma fails_at_after c l n db i : fails_at (after_calls c l n db) i = fails_at db (n + i).
Proof. unfold fails_at, after_calls. cbn. by rewrite Nat.add_assoc. Qed.

(** What follows the first call: a failure there is one call nearer. *)
Lemma none_fails_S c l n db : none_fails db (S n) -> fails_at db 0 = None /\ none_fails (after_calls c l 1 db) n.
Proof.
  intros H. split; [apply H; lia|]. intros j Hj. rewrite fails_at_after. apply H. lia.
Qed.

Lemma first_failure_S c l i db :
  first_failure db (S i) -> fails_at db 0 = None /\ first_failure (after_calls c l 1 db) i.
Proof.
  intros [Hi H]. split; [apply H; lia|]. split; [by rewrite fails_at_after|].
  intros j Hj. rewrite fails_at_after. apply H. lia.
Qed.

Lemma declared_cons name r ss (m : gmap string relation) :
  m ∪ {[name := r]} ∪ declared ss = m ∪ declared ((name, r) :: ss).
Proof. unfold declared. cbn. by rewrite <- (assoc_L (∪)), <- insert_union_singleton_l. Qed.

Lemma declared_nil (m : gmap string relation) : m ∪ declared [] = m.
Proof. apply (right_id_L ∅ (∪)). Qed.

(** The relations are made in order, up to the first that fails. *)
Lemma create_all_ok ss db :
  none_fails db (length ss) ->
  Setup.create_all ss db =
    (Val (Returns (inr tt)), after_calls (pg_catalog db ∪ declared ss) (pg_locked db) (length ss) db).
Proof.
  revert db. induction ss as [|[name r] ss IH]; intros [c l er n] H; cbn [Setup.create_all].
  - unfold after_calls. cbn. by rewrite declared_nil, Nat.add_0_r.
  - apply (none_fails_S (c ∪ {[name := r]}) l) in H as [H0 H]. unfold gbind. rewrite Exec_spec, H0.
    etransitivity; [apply IH, H|]. unfold after_calls. cbn. by rewrite declared_cons, <- Nat.add_assoc.
Qed.

Lemma create_all_fails ss k db :
  (k < length ss)%nat -> first_failure db k ->
  Setup.create_all ss db =
    (Val (Exits 1), after_calls (pg_catalog db ∪ declared (take k ss)) (pg_locked db) (S k) db).
Proof.
  revert k db. induction ss as [|[name r] ss IH]; intros k [c l er n] Hk H; [cbn in Hk; lia|].
  cbn [Setup.create_all]. unfold gbind. rewrite Exec_spec. destruct k as [|k].
  - destruct H as [[e He] _]. rewrite He. unfold after_calls. cbn. by rewrite declared_nil.
  - apply (first_failure_S (c ∪ {[name := r]}) l) in H as [H0 H]. rewrite H0.
    etransitivity; [apply (IH k); [cbn in Hk; lia|exact H]|].
    unfold after_calls. cbn. by rewrite declared_cons, <- Nat.add_assoc.
Qed.

Lemma declared_elem k ss i r : declared (take k ss) !! i = Some r -> (i, r) ∈ ss.
Proof. intros H%elem_of_list_to_map_2. by eapply subseteq_take. Qed.

(** Where every name is taken nothing changes. *)
Lemma declared_absorbed k (m : gmap string relation) :
  (forall name r, (name, r) ∈ schemas -> is_Some (m !! name)) -> m ∪ declared (take k schemas) = m.
Proof.
  intros Hall. apply map_eq. intros i. rewrite lookup_union. destruct (m !! i) as [r|] eqn:Hi.
  - by destruct (declared _ !! i).
  - destruct (declared (take k schemas) !! i) as [r|] eqn:Hd; [|done].
    apply declared_elem, Hall in Hd as [? Hd]. congruence.
Qed.

(** The first [k] relations were made. *)
Definition made (k : nat) (db db' : Database) : Prop :=
  pg_catalog db' = pg_catalog db ∪ declared (take k schemas).

Definition all_there (db : Database) : Prop :=
  forall name r, (name, r) ∈ schemas -> is_Some (pg_catalog db !! name).

Lemma made_all db db' : made (length schemas) db db' -> all_there db'.
Proof.
  unfold made, all_there. intros -> name r Hin. rewrite firstn_all. apply lookup_union_is_Some. right.
  exists r. apply elem_of_list_to_map_1; [by apply (bool_decide_unpack _); vm_compute|done].
Qed.

(** The calls are the acquisition, the lock, the six creations and the unlock. *)
Lemma SetupSchemas_unlocks db :
  none_fails db 8 ->
  exists db', Setup.SetupSchemas db = (Val (Returns (inr tt)), db') /\ made (length schemas) db db' /\
    pg_locked db' = bool_decide (is_Some (fails_at db 8)).
Proof.
  intros H. apply (none_fails_S (pg_catalog db) (pg_locked db)) in H as [H0 H].
  apply (none_fails_S (pg_catalog db) true) in H as [H1 H].
  unfold Setup.SetupSchemas. unfold gbind at 1. rewrite db_call_spec, H0. unfold gbind at 1. rewrite Exec_spec, H1.
  set (db2 := Setup.set_lock true _). change (none_fails db2 6) in H. unfold gbind at 1.
  rewrite (create_all_ok schemas db2 H). unfold gbind. rewrite Exec_spec, fails_at_after.
  change (fails_at db2 (length schemas + 0)) with (pg_error db (pg_asked db + 1 + 1 + 6)).
  unfold fails_at. rewrite <- !Nat.add_assoc. change (1 + (1 + 6))%nat with 8%nat.
  destruct (pg_error db (pg_asked db + 8)); eexists; (split; [reflexivity|]); by split.
Qed.

(** What has been done when the [i]-th call fails. *)
Lemma SetupSchemas_exits i db :
  (i < 8)%nat -> first_failure db i ->
  exists db', Setup.SetupSchemas db = (Val (Exits 1), db') /\ made (i - 2) db db' /\
    pg_locked db' = (pg_locked db || (2 <=? i)%nat).
Proof.
  intros Hi H. unfold Setup.SetupSchemas. unfold gbind at 1. rewrite db_call_spec. destruct i as [|i].
  { destruct H as [[e He] _]. rewrite He. eexists. split; [reflexivity|].
    split; [by unfold made; rewrite declared_nil|by rewrite orb_false_r]. }
  apply (first_failure_S (pg_catalog db) (pg_locked db)) in H as [H0 H]. rewrite H0.
  unfold gbind at 1. rewrite Exec_spec. destruct i as [|i].
  { destruct H as [[e He] _]. rewrite He. eexists. split; [reflexivity|].
    split; [by unfold made; rewrite declared_nil|by rewrite orb_false_r]. }
  apply (first_failure_S (pg_catalog db) true) in H as [H1 H]. rewrite H1.
  set (db2 := Setup.set_lock true _). change (first_failure db2 i) in H. unfold gbind.
  rewrite (create_all_fails schemas i db2) by (first [exact H|cbn; lia]).
  eexists. split; [reflexivity|]. split; [|by rewrite orb_true_r].
  by replace (S (S i) - 2)%nat with i by lia.
Qed.

(** Of eight calls, none fails or one is the first to. *)
Lemma first_failure_dec n db : none_fails db n \/ exists i, (i < n)%nat /\ first_failure db i.
Proof.
  induction n as [|n [IH|(i & Hi & IH)]]; [left; intros j; lia| |right; exists i; split; [lia|done]].
  destruct (fails_at db n) as [e|] eqn:E.
  - right. exists n. split; [lia|]. by split.
  - left. intros j Hj. destruct (decide (j = n)) as [->|]; [done|apply IH; lia].
Qed.

(** C21.  Setting up the schemas asks for a connection, takes the lock, makes the
    six relations in order and gives the lock back.  When none of the calls before
    the last fails it returns with all six there, and the lock is held still
    exactly when the last call fails.  When one fails, the process ends with code
    1, with the relations made before that call and no others, and holding the lock
    if it was taken.  A relation that was there already is kept as it was, so a
    second start changes nothing. *)
Theorem schemas_are_set_up db :
  (none_fails db 8 ->
   exists db', Setup.SetupSchemas db = (Val (Returns (inr tt)), db') /\ made (length schemas) db db' /\
     all_there db' /\ pg_locked db' = bool_decide (is_Some (fails_at db 8))) /\
  (forall i, (i < 8)%nat -> first_failure db i ->
   exists db', Setup.SetupSchemas db = (Val (Exits 1), db') /\ made (i - 2) db db' /\
     pg_locked db' = (pg_locked db || (2 <=? i)%nat)) /\
  (all_there db -> pg_catalog (Setup.SetupSchemas db).2 = pg_catalog db).
Proof.
  split_and!.
  - intros (db' & Hrun & Hmade & Hlock)%SetupSchemas_unlocks. exists db'. split_and!; try done. by eapply made_all.
  - intros i. apply SetupSchemas_exits.
  - intros Hall. destruct (first_failure_dec 8 db) as [H|(i & Hi & H)].
    + apply SetupSchemas_unlocks in H as (db' & -> & Hmade & _). unfold made in Hmade. cbn [snd].
      by rewrite Hmade, declared_absorbed.
    + apply SetupSchemas_exits in H as (db' & -> & Hmade & _); [|done]. unfold made in Hmade. cbn [snd].
      by rewrite Hmade, declared_absorbed.
Qed.
