(* ===== verification/StateRefine.v ===== *)
(** Sequences of calls on a server state: each implementation refines an abstract
    machine, call by call, and where two machines do the same a client cannot tell
    the implementations apart.  The file ends with where they do differ: the
    numbers of repositories, sessions without a job, cut connections, and used-up
    identifiers. *)
From S2P Require Import Prelude GoStrings GoUtf8 GoJson GoCodec Common Messages State StateLocal.
From S2P Require Import StatePostgres.

(** ** Calls and answers

    Every method of [ServerState] but [GetRepoId], which the in-memory state does
    not have. *)
Inductive call : Type :=
| CallNextID
| CallAddJob (job : AnalyzeJob)
| CallSetStatus (js : JobSpec) (st : Status)
| CallSetResult (ar : AnalyzeResult)
| CallSetJobInfo (js : JobSpec) (ji : JobInfo)
| CallGetStatus (js : JobSpec)
| CallGetResult (js : JobSpec)
| CallGetJobInfo (js : JobSpec)
| CallGetJobSpecByRepoId (sid jobRepoId : Z)
| CallGetJobList (sid : Z)
| CallGetSessionStatus (sid : Z).

(** Every method. *)
Inductive server_call : Type :=
| OnSession (c : call)
| CallGetRepoId (nwo : NameWithOwner).

(** What a client can see of an answer: the value, or that there was an error;
    of a summary, its verdict and the six counts. *)
Inductive answer : Type :=
| AnsUnit
| AnsId (id : Z)
| AnsStatus (st : option Status)
| AnsResult (ar : option AnalyzeResult)
| AnsInfo (ji : option JobInfo)
| AnsSpec (js : option JobSpec)
| AnsJobs (l : option (list AnalyzeJob))
| AnsSummary (sum : option (Status * list (option Z))).

Definition seen {A} (r : gores A) : option A := match r.2 with None => Some r.1 | Some _ => None end.

Definition all_statuses : list Status :=
  [StatusPending; StatusInProgress; StatusSucceeded; StatusFailed; StatusCanceled; StatusTimedOut].

Definition seen_summary (sum : StatusSummary) : Status * list (option Z) :=
  (Overall sum, map (Counts sum !!.) all_statuses).

Class Performs (C St : Type) := perform : C -> GM St answer.

#[export] Instance perform_call {St} `{!SessionState St} : Performs call St := fun c =>
  match c with
  | CallNextID => let! id := NextID in gret (AnsId id)
  | CallAddJob job => AddJob job ;;; gret AnsUnit
  | CallSetStatus js st => SetStatus js st ;;; gret AnsUnit
  | CallSetResult ar => SetResult (ar_Spec ar) ar ;;; gret AnsUnit
  | CallSetJobInfo js ji => SetJobInfo js ji ;;; gret AnsUnit
  | CallGetStatus js => let! r := GetStatus js in gret (AnsStatus (seen r))
  | CallGetResult js => let! r := GetResult js in gret (AnsResult (seen r))
  | CallGetJobInfo js => let! r := GetJobInfo js in gret (AnsInfo (seen r))
  | CallGetJobSpecByRepoId sid id => let! r := GetJobSpecByRepoId sid id in gret (AnsSpec (seen r))
  | CallGetJobList sid => let! r := GetJobList sid in gret (AnsJobs (seen r))
  | CallGetSessionStatus sid => let! r := GetSessionStatus sid in gret (AnsSummary (seen_summary <$> seen r))
  end.

#[export] Instance perform_server_call {St} `{!ServerState St} : Performs server_call St := fun c =>
  match c with
  | OnSession c => perform c
  | CallGetRepoId nwo => let! id := GetRepoId nwo in gret (AnsId id)
  end.

(** The lists of jobs come in some order. *)
Inductive same_answer : answer -> answer -> Prop :=
| same_eq a : same_answer a a
| same_jobs l1 l2 : l1 ≡ₚ l2 -> same_answer (AnsJobs (Some l1)) (AnsJobs (Some l2)).

Lemma same_answer_trans a1 a2 a3 : same_answer a1 a2 -> same_answer a2 a3 -> same_answer a1 a3.
Proof. intros [|l1 l2 H1] H2; [done|]. inversion H2; constructor; by etrans. Qed.

Lemma same_answer_sym a1 a2 : same_answer a1 a2 -> same_answer a2 a1.
Proof. intros [|l1 l2 H]; by constructor. Qed.

(** ** Machines, and the simulation of a sequence of calls *)

(** [cm_fits] is what a client must keep to; [cm_cost] the serials a call uses up. *)
Class CallMachine (C M : Type) := {
  cm_next : C -> M -> M;
  cm_answer : C -> M -> answer;
  cm_fits : C -> M -> Prop;
  cm_cost : C -> nat
}.

Section sequences.
Context {C M St : Type} `{!CallMachine C M, !Performs C St}.

Fixpoint perform_all (cs : list C) : GM St (list answer) :=
  match cs with
  | [] => gret []
  | c :: cs' =>
      let! a := perform c in
      let! answers := perform_all cs' in
      gret (a :: answers)
  end.

Definition machine_after (cs : list C) (m : M) : M := foldl (fun m c => cm_next c m) m cs.

Fixpoint machine_answers (cs : list C) (m : M) : list answer :=
  match cs with [] => [] | c :: cs' => cm_answer c m :: machine_answers cs' (cm_next c m) end.

Fixpoint calls_fit (cs : list C) (m : M) : Prop :=
  match cs with [] => True | c :: cs' => cm_fits c m /\ calls_fit cs' (cm_next c m) end.

Definition cost (cs : list C) : nat := sum_list_with cm_cost cs.

(** If every call is simulated, so is a sequence. *)
Lemma sequence_simulated (R : nat -> St -> M -> Prop) (storable : C -> Prop) :
  (forall n s c m, R (cm_cost c + n)%nat s m -> cm_fits c m -> storable c ->
     exists a s', perform c s = (Val a, s') /\ same_answer a (cm_answer c m) /\ R n s' (cm_next c m)) ->
  forall cs n s m, R (cost cs + n)%nat s m -> calls_fit cs m -> Forall storable cs ->
    exists answers s', perform_all cs s = (Val answers, s') /\
      Forall2 same_answer answers (machine_answers cs m) /\ R n s' (machine_after cs m).
Proof.
  intros Hstep cs n. induction cs as [|c cs IH]; intros s m HR Hfit Hst.
  { exists [], s. by split_and!. }
  apply Forall_cons_1 in Hst as [Hc Hcs]. destruct Hfit as [Hfc Hfcs].
  destruct (Hstep (cost cs + n)%nat s c m) as (a & s1 & H1 & Ha & HR1); [by rewrite Nat.add_assoc|done|done|].
  destruct (IH s1 (cm_next c m) HR1 Hfcs Hcs) as (answers & s' & H2 & Hans & HR').
  exists (a :: answers), s'. split_and!; [|by constructor|done].
  cbn [perform_all]. go_step H1. by go_step H2.
Qed.
End sequences.

(** ** The abstract state of a server

    What a client sees of sessions ([View]), the last session identifier given
    out, and the numbers by which [GetJobSpecByRepoId] finds a repository.  How
    repositories are numbered is where the implementations part. *)
Class Numbering (I : Type) := {
  nb_open : Z -> I -> I;                   (* a new session *)
  nb_add : AnalyzeJob -> I -> I;           (* a new job *)
  nb_find : I -> Z -> Z -> option JobSpec; (* by session and number *)
  nb_limit : Z                             (* of session identifiers *)
}.

Record Machine (I : Type) : Type := MkMachine { mc_view : View; mc_last : Z; mc_ids : I }.
Arguments MkMachine {I} _ _ _.
Arguments mc_view {I} _.
Arguments mc_last {I} _.
Arguments mc_ids {I} _.

Section machine.
Context {I : Type} `{!Numbering I}.

Definition with_view (v : View) (m : Machine I) : Machine I := MkMachine v (mc_last m) (mc_ids m).

Definition spec_next (c : call) (m : Machine I) : Machine I :=
  match c with
  | CallNextID =>
      let id := mc_last m + 1 in MkMachine (view_open id (mc_view m)) id (nb_open id (mc_ids m))
  | CallAddJob job => MkMachine (view_add_job job (mc_view m)) (mc_last m) (nb_add job (mc_ids m))
  | CallSetStatus js st => with_view (view_set_status js st (mc_view m)) m
  | CallSetResult ar => with_view (view_set_result (ar_Spec ar) ar (mc_view m)) m
  | CallSetJobInfo js ji => with_view (view_set_info js ji (mc_view m)) m
  | _ => m
  end.

Definition spec_answer (c : call) (m : Machine I) : answer :=
  let v := mc_view m in
  match c with
  | CallNextID => AnsId (mc_last m + 1)
  | CallAddJob _ | CallSetStatus _ _ | CallSetResult _ | CallSetJobInfo _ _ => AnsUnit
  | CallGetStatus js => AnsStatus (v_status v !! js)
  | CallGetResult js => AnsResult (v_result v !! js)
  | CallGetJobInfo js => AnsInfo (v_info v !! js)
  | CallGetJobSpecByRepoId sid id => AnsSpec (nb_find (mc_ids m) sid id)
  | CallGetJobList sid => AnsJobs (Some (v_jobs v sid))
  | CallGetSessionStatus sid =>
      let sts := session_statuses sid (v_status v) in
      AnsSummary (Some (overall_spec sts, map (fun st => Some (occurrences st sts)) all_statuses))
  end.

(** What a client must keep to: calls on sessions that exist, one [AddJob] per
    repository of a session, a status that is one of the six, and no summary of
    a session without a job. *)
Definition call_fits (c : call) (m : Machine I) : Prop :=
  let v := mc_view m in
  match c with
  | CallNextID => mc_last m < nb_limit
  | CallAddJob job => v_known v (SessionID (aj_Spec job)) /\
      aj_Spec job ∉ map aj_Spec (v_jobs v (SessionID (aj_Spec job)))
  | CallSetStatus js st => v_known v (SessionID js) /\ 0 <= st <= 5
  | CallSetResult ar => v_known v (SessionID (ar_Spec ar))
  | CallSetJobInfo js _ => v_known v (SessionID js)
  | CallGetStatus _ | CallGetResult _ | CallGetJobInfo _ | CallGetJobSpecByRepoId _ _ => True
  | CallGetJobList sid => v_known v sid
  | CallGetSessionStatus sid => session_statuses sid (v_status v) <> []
  end.

#[export] Instance call_machine : CallMachine call (Machine I) := {|
  cm_next := spec_next; cm_answer := spec_answer; cm_fits := call_fits;
  cm_cost c := match c with CallAddJob _ => 1%nat | _ => 0%nat end |}.
End machine.

Definition call_storable St `{SessionStateSpec St} (c : call) : Prop :=
  match c with
  | CallAddJob job => storable_job (St := St) job
  | CallSetStatus js _ | CallGetStatus js | CallGetResult js | CallGetJobInfo js => storable_spec (St := St) js
  | CallSetResult ar => storable_result (St := St) ar
  | CallSetJobInfo js ji => storable_spec (St := St) js /\ storable_info (St := St) ji
  | _ => True
  end.

(** ** An implementation with its numbers *)
Class NumberedState (St I : Type) `{SessionStateSpec St, Numbering I} := {
  last_id : St -> Z;
  ids_in : St -> I;
  next_is_last n s :
    wf n s -> last_id s < nb_limit ->
    can_next s /\ forall id s', NextID s = (Val id, s') ->
      id = last_id s + 1 /\ last_id s' = id /\ ids_in s' = nb_open id (ids_in s);
  add_numbers n s job s' :
    wf (S n) s -> storable_job job -> AddJob job s = (Val tt, s') ->
    last_id s' = last_id s /\ ids_in s' = nb_add job (ids_in s);
  status_numbers js st s s' : SetStatus js st s = (Val tt, s') -> last_id s' = last_id s /\ ids_in s' = ids_in s;
  result_numbers js ar s s' : SetResult js ar s = (Val tt, s') -> last_id s' = last_id s /\ ids_in s' = ids_in s;
  info_numbers js ji s s' : SetJobInfo js ji s = (Val tt, s') -> last_id s' = last_id s /\ ids_in s' = ids_in s;
  find_by_number n s sid id :
    wf n s -> exists r, GetJobSpecByRepoId sid id s = (Val r, s) /\ seen r = nb_find (ids_in s) sid id
}.

Section refinement.
Context {St I : Type} `{NumberedState St I}.

Definition machine_of (s : St) : Machine I := MkMachine (view s) (last_id s) (ids_in s).

Record simulates (n : nat) (s : St) (m : Machine I) : Prop := {
  sim_wf : wf n s;
  sim_view : view s ≡ mc_view m;
  sim_last : last_id s = mc_last m;
  sim_ids : ids_in s = mc_ids m
}.

Lemma simulates_self n s : wf n s -> simulates n s (machine_of s).
Proof. by split. Qed.

Lemma simulates_step n s s' (m m' : Machine I) v :
  simulates n s m -> wf n s' -> view s' ≡ v -> mc_view m' ≡ v ->
  last_id s' = last_id s /\ ids_in s' = ids_in s -> mc_last m' = mc_last m -> mc_ids m' = mc_ids m ->
  simulates n s' m'.
Proof.
  intros [_ _ Hl Hi] Hwf Hv Hm [Hl' Hi'] El Ei. split; [done|by rewrite Hv|congruence|congruence].
Qed.

(** A query answers the same on equal views, and changes nothing. *)
Lemma query_step n s (m : Machine I) c a :
  simulates n s m -> perform c s = (Val a, s) -> same_answer a (spec_answer c m) -> spec_next c m = m ->
  exists a s', perform c s = (Val a, s') /\ same_answer a (cm_answer c m) /\ simulates n s' (cm_next c m).
Proof. intros Hs Hp Ha Hn. exists a, s. split_and!; [done|done|]. cbn [cm_next call_machine]. by rewrite Hn. Qed.

Lemma write_step n s s' (m : Machine I) c v' :
  simulates n s m -> perform c s = (Val AnsUnit, s') -> spec_answer c m = AnsUnit -> wf n s' -> view s' ≡ v' ->
  last_id s' = last_id s /\ ids_in s' = ids_in s -> spec_next c m = with_view (mc_view (spec_next c m)) m ->
  mc_view (spec_next c m) ≡ v' ->
  exists a s', perform c s = (Val a, s') /\ same_answer a (cm_answer c m) /\ simulates n s' (cm_next c m).
Proof.
  intros Hs Hp Ha Hwf Hv Hk Hn Hm. exists AnsUnit, s'. split_and!; [done| |].
  - cbn [cm_answer call_machine]. rewrite Ha. constructor.
  - cbn [cm_next call_machine]. rewrite Hn. by eapply simulates_step.
Qed.

Lemma view_lookups v1 v2 js :
  v1 ≡ v2 -> v_status v1 !! js = v_status v2 !! js /\ v_result v1 !! js = v_result v2 !! js /\
    v_info v1 !! js = v_info v2 !! js.
Proof. by intros (_ & _ & -> & -> & ->). Qed.

Lemma NextID_simulated n s (m : Machine I) :
  simulates n s m -> mc_last m < nb_limit ->
  exists a s', perform CallNextID s = (Val a, s') /\ same_answer a (cm_answer CallNextID m) /\
    simulates n s' (cm_next CallNextID m).
Proof.
  intros [Hwf Hv Hl Hi] Hlim. rewrite <- Hl in Hlim. destruct (next_is_last n s Hwf Hlim) as [Hcan Hnext].
  destruct (NextID_ok n s Hwf Hcan) as (id & s' & Hrun & Hwf' & Hv' & _).
  destruct (Hnext id s' Hrun) as (-> & Hl' & Hi'). exists (AnsId (last_id s + 1)), s'. split_and!.
  - unfold perform, perform_call. by go_step Hrun.
  - cbn. rewrite Hl. constructor.
  - split; cbn; [done| |by rewrite <- Hl|by rewrite <- Hl, <- Hi]. by rewrite Hv', Hv, <- Hl.
Qed.

Lemma AddJob_simulated n s (m : Machine I) job :
  simulates (S n) s m -> call_fits (CallAddJob job) m -> storable_job (St := St) job ->
  exists a s', perform (CallAddJob job) s = (Val a, s') /\ same_answer a (cm_answer (CallAddJob job) m) /\
    simulates n s' (cm_next (CallAddJob job) m).
Proof.
  intros [Hwf Hv Hl Hi] [Hk Hnew] Hst. pose proof Hv as (Hkv & Hjv & _). apply Hkv in Hk. rewrite <- (Hjv _) in Hnew.
  destruct (AddJob_ok n s job) as (s' & Hrun & Hwf' & Hv'); [done..|].
  destruct (add_numbers n s job s' Hwf Hst Hrun) as [Hl' Hi'].
  exists AnsUnit, s'. split_and!; [unfold perform, perform_call; by go_step Hrun|constructor|].
  split; cbn; [done|by rewrite Hv', Hv|congruence|congruence].
Qed.

Lemma perform_simulated n s c (m : Machine I) :
  simulates (cm_cost c + n) s m -> cm_fits c m -> call_storable St c ->
  exists a s', perform c s = (Val a, s') /\ same_answer a (cm_answer c m) /\ simulates n s' (cm_next c m).
Proof.
  intros Hs Hfit Hst. pose proof Hs as [Hwf Hv Hl Hi]. pose proof Hv as (Hkv & Hjv & Hsv & _).
  destruct c as [|job|js st|ar|js ji|js|js|js|sid id|sid|sid];
    cbn [cm_cost cm_fits call_machine call_fits call_storable Nat.add] in *;
    try (destruct (view_lookups _ _ js Hv) as (Els & Elr & Eli)).
  - by apply NextID_simulated.
  - by apply AddJob_simulated.
  - destruct Hfit as [Hk Hr]. apply Hkv in Hk. destruct (SetStatus_ok n s js st) as (s' & Hrun & Hwf' & Hv'); [done..|].
    eapply write_step; [exact Hs|unfold perform, perform_call; by go_step Hrun|done|done|exact Hv'|
      by eapply status_numbers|done|cbn; by rewrite Hv].
  - apply Hkv in Hfit. destruct (SetResult_ok n s (ar_Spec ar) ar) as (s' & Hrun & Hwf' & Hv'); [done..|].
    eapply write_step; [exact Hs|unfold perform, perform_call; by go_step Hrun|done|done|exact Hv'|
      by eapply result_numbers|done|cbn; by rewrite Hv].
  - destruct Hst as [Hsp Hji]. apply Hkv in Hfit.
    destruct (SetJobInfo_ok n s js ji) as (s' & Hrun & Hwf' & Hv'); [done..|].
    eapply write_step; [exact Hs|unfold perform, perform_call; by go_step Hrun|done|done|exact Hv'|
      by eapply info_numbers|done|cbn; by rewrite Hv].
  - pose proof (GetStatus_ok n s js Hwf Hst) as Hq. rewrite Els in Hq.
    destruct (v_status (mc_view m) !! js) as [st|] eqn:E; [|destruct Hq as (v & e & Hq)];
      (eapply query_step; [done|unfold perform, perform_call; by go_step Hq|cbn; rewrite E; constructor|done]).
  - pose proof (GetResult_ok n s js Hwf Hst) as Hq. rewrite Elr in Hq.
    destruct (v_result (mc_view m) !! js) as [ar|] eqn:E; [|destruct Hq as (v & e & Hq)];
      (eapply query_step; [done|unfold perform, perform_call; by go_step Hq|cbn; rewrite E; constructor|done]).
  - pose proof (GetJobInfo_ok n s js Hwf Hst) as Hq. rewrite Eli in Hq.
    destruct (v_info (mc_view m) !! js) as [ji|] eqn:E; [|destruct Hq as (v & e & Hq)];
      (eapply query_step; [done|unfold perform, perform_call; by go_step Hq|cbn; rewrite E; constructor|done]).
  - destruct (find_by_number n s sid id Hwf) as (r & Hq & Er). eapply query_step; [done| | |done].
    + unfold perform, perform_call. by go_step Hq.
    + cbn. rewrite Er, Hi. constructor.
  - apply Hkv in Hfit. destruct (GetJobList_ok n s sid Hwf Hfit) as (l & Hq & Hp). eapply query_step; [done| | |done].
    + unfold perform, perform_call. by go_step Hq.
    + cbn. constructor. by rewrite Hp, (Hjv _).
  - rewrite <- Hsv in Hfit. destruct (GetSessionStatus_ok n s sid Hwf Hfit) as (sum & Hq & Ho & Hc).
    eapply query_step; [done| | |done].
    + unfold perform, perform_call. by go_step Hq.
    + cbn [spec_answer]. unfold seen_summary, all_statuses. cbn. rewrite Ho, !Hc, <- Hsv by done. constructor.
Qed.
End refinement.

(** ** The in-memory state numbers the jobs of each session from zero *)
Definition SessionSpecs : Type := gmap Z (list JobSpec).

#[export] Instance session_numbering : Numbering SessionSpecs := {|
  nb_open id ids := <[id := []]> ids;
  nb_add job ids :=
    let sid := SessionID (aj_Spec job) in <[sid := default [] (ids !! sid) ++ [aj_Spec job]]> ids;
  nb_find ids sid i := if decide (0 <= i) then default [] (ids !! sid) !! Z.to_nat i else None;
  nb_limit := max_int |}.

Lemma numbers_negative ids l i : numbers ids l -> i < 0 -> ids !! i = None.
Proof.
  intros -> Hi. apply not_elem_of_list_to_map_1. rewrite imap_keys.
  intros (k & -> & _)%list_elem_of_fmap. lia.
Qed.

Lemma local_find s sid i :
  local_wf s ->
  exists r, Local.GetJobSpecByRepoId sid i s = (Val r, s) /\
    seen r = nb_find (I := SessionSpecs) (map aj_Spec <$> ls_jobs s) sid i.
Proof.
  intros Hwf. pose proof (lw_numbered _ Hwf sid) as Hn. unfold ids_of, jobs_of in Hn.
  assert (default [] ((map aj_Spec <$> ls_jobs s) !! sid) = map aj_Spec (default [] (ls_jobs s !! sid))) as Hd.
  { rewrite lookup_fmap. by destruct (ls_jobs s !! sid). }
  change (nb_find (map aj_Spec <$> ls_jobs s) sid i) with
    (if decide (0 <= i) then default [] ((map aj_Spec <$> ls_jobs s) !! sid) !! Z.to_nat i else None).
  rewrite Hd. unfold Local.GetJobSpecByRepoId.
  assert (default ∅ (ls_sessionToJobIdToSpec s !! sid) !! i =
    (if decide (0 <= i) then map aj_Spec (default [] (ls_jobs s !! sid)) !! Z.to_nat i else None)) as Hi.
  { case_decide as Hpos; [|by eapply numbers_negative; [|lia]].
    rewrite <- (Z2Nat.id i) at 1 by done. rewrite (numbers_lookup _ _ _ Hn). by rewrite list_lookup_fmap. }
  rewrite <- Hi. destruct (ls_sessionToJobIdToSpec s !! sid) as [m|]; cbn [default from_option id].
  - destruct (m !! i); by eexists.
  - rewrite lookup_empty. by eexists.
Qed.

#[export, refine] Instance local_numbered : NumberedState LocalState SessionSpecs := {|
  last_id := ls_currentID; ids_in s := map aj_Spec <$> ls_jobs s |}.
Proof.
  - intros n s Hwf Hlim. split; [exact Hlim|]. intros id s' [= <- <-]. cbn.
    rewrite wrap_int_small by (pose proof (lw_current _ Hwf); cbn in Hlim; lia). by rewrite fmap_insert.
  - intros n s job s' Hwf _ Hrun. cbn in Hrun. unfold Local.AddJob in Hrun.
    destruct (negb _); [done|]. injection Hrun as <-. split; [done|]. set (sid := SessionID (aj_Spec job)).
    change (nb_add job (map aj_Spec <$> ls_jobs s)) with
      (<[sid := default [] ((map aj_Spec <$> ls_jobs s) !! sid) ++ [aj_Spec job]]> (map aj_Spec <$> ls_jobs s)).
    cbn [ls_jobs]. rewrite fmap_insert, lookup_fmap, map_app. by destruct (ls_jobs s !! sid).
  - by intros js st s s' [= <-].
  - by intros js ar s s' [= <-].
  - by intros js ji s s' [= <-].
  - intros n s sid id Hwf. by apply local_find.
Defined.

(** ** The database numbers repositories, for all sessions at once *)
Record RepoSerials : Type := MkSerials { rs_last : Z; rs_map : gmap NameWithOwner Z }.

(** Asking for a number uses up a serial, whether or not it is given out. *)
Definition serial_next (nwo : NameWithOwner) (r : RepoSerials) : RepoSerials :=
  MkSerials (rs_last r + 1)
    (match rs_map r !! nwo with Some _ => rs_map r | None => <[nwo := rs_last r + 1]> (rs_map r) end).
Definition serial_of (nwo : NameWithOwner) (r : RepoSerials) : Z := default (rs_last r + 1) (rs_map r !! nwo).

(** The map from numbers to repositories. *)
Definition by_number (m : gmap NameWithOwner Z) : gmap Z NameWithOwner :=
  list_to_map (prod_swap <$> map_to_list m).

#[export] Instance serial_numbering : Numbering RepoSerials := {|
  nb_open _ r := r;
  nb_add job := serial_next (js_NameWithOwner (aj_Spec job));
  nb_find r sid id := MkJobSpec sid <$> by_number (rs_map r) !! id;
  nb_limit := max_int4 |}.

#[export] Instance server_machine : CallMachine server_call (Machine RepoSerials) := {|
  cm_next c m :=
    match c with
    | OnSession c => cm_next c m
    | CallGetRepoId nwo => MkMachine (mc_view m) (mc_last m) (serial_next nwo (mc_ids m))
    end;
  cm_answer c m :=
    match c with OnSession c => cm_answer c m | CallGetRepoId nwo => AnsId (serial_of nwo (mc_ids m)) end;
  cm_fits c m := match c with OnSession c => cm_fits c m | CallGetRepoId _ => True end;
  cm_cost c := match c with OnSession c => cm_cost (M := Machine RepoSerials) c | CallGetRepoId _ => 1%nat end |}.

Definition serials (s : PGState) : RepoSerials := MkSerials (pg_repo_seq s) (pg_repo_map s).

Lemma by_number_lookup m id nwo :
  (forall nwo1 nwo2 id, m !! nwo1 = Some id -> m !! nwo2 = Some id -> nwo1 = nwo2) ->
  by_number m !! id = Some nwo <-> m !! nwo = Some id.
Proof.
  intros Hinj. unfold by_number. rewrite <- elem_of_list_to_map.
  - rewrite list_elem_of_fmap. split.
    + intros ([nwo' id'] & [= -> ->] & Hin). by apply elem_of_map_to_list.
    + intros H. exists (nwo, id). split; [done|]. by apply elem_of_map_to_list.
  - rewrite <- list_fmap_compose. apply NoDup_fmap_2_strong; [|apply NoDup_map_to_list].
    intros [n1 i1] [n2 i2] H1%elem_of_map_to_list H2%elem_of_map_to_list E. cbn in E. subst i2.
    by rewrite (Hinj _ _ _ H1 H2).
Qed.

Lemma GetRepoId_inv nwo s id s' :
  Postgres.GetRepoId nwo s = (Val id, s') ->
  id = serial_of nwo (serials s) /\ serials s' = serial_next nwo (serials s) /\ pg_seq s' = pg_seq s /\
  pg_view s' = pg_view s.
Proof.
  unfold Postgres.GetRepoId, serial_of, serial_next, serials. intros H.
  destruct (pg_fault s OpUpsertRepo); [done|]. destruct (negb _); [done|]. destruct (max_int4 <=? _); [done|].
  cbn [rs_map rs_last]. destruct (pg_repo_map s !! nwo); injection H as <- <-; done.
Qed.

Section service.
Context `{PgServiceLaws}.

Lemma AddJob_numbers job s s' :
  Postgres.AddJob job s = (Val tt, s') ->
  pg_seq s' = pg_seq s /\ serials s' = serial_next (js_NameWithOwner (aj_Spec job)) (serials s).
Proof.
  unfold Postgres.AddJob. intros Hrun. destruct (pg_fault s OpBegin); [done|]. destruct (pg_fault s OpInsertJob); [done|].
  destruct (if key_ok _ then _ else _); [|done].
  apply gbind_val_inv in Hrun as (id & s1 & (_ & Hser & Hseq & _)%GetRepoId_inv & Hrun).
  destruct (pg_fault s1 OpCommit); [done|]. injection Hrun as <-. by split.
Qed.

Lemma exec_keeps op ok name (write : PGState -> option PGState) s s' :
  (forall s1, write s = Some s1 -> pg_seq s1 = pg_seq s /\ serials s1 = serials s) ->
  Postgres.exec op ok name write s = (Val tt, s') -> pg_seq s' = pg_seq s /\ serials s' = serials s.
Proof.
  unfold Postgres.exec. intros Hw Hrun. destruct (pg_fault s op); [done|]. destruct (negb ok); [done|].
  destruct (write s) eqn:E; [|done]. injection Hrun as <-. by apply Hw.
Qed.

Lemma pg_find n s sid id :
  pg_wf n s ->
  exists r, Postgres.GetJobSpecByRepoId sid id s = (Val r, s) /\ seen r = nb_find (serials s) sid id.
Proof.
  intros Hwf. unfold Postgres.GetJobSpecByRepoId, Postgres.query. rewrite (pw_up _ _ Hwf).
  change (nb_find (serials s) sid id) with (MkJobSpec sid <$> by_number (pg_repo_map s) !! id).
  assert (forall nwo, by_number (pg_repo_map s) !! id = Some nwo <-> pg_repo_map s !! nwo = Some id) as Hby.
  { intros nwo. apply by_number_lookup, (pw_ids_inj _ _ Hwf). }
  destruct (int4_ok id) eqn:Hid; cbn [negb].
  - assert (forall row, row ∈ List.filter (fun row : NameWithOwner * Z => row.2 =? id) (map_to_list (pg_repo_map s)) <->
      pg_repo_map s !! row.1 = Some row.2 /\ row.2 = id) as Hrow.
    { intros [nwo i]. rewrite list_elem_of_In, filter_In, <- list_elem_of_In, elem_of_map_to_list, Z.eqb_eq. done. }
    destruct (List.filter _ _) as [|[nwo i] rows].
    + eexists. split; [done|]. destruct (by_number _ !! id) as [nwo|]; [|done].
      pose proof (proj1 (Hby nwo) eq_refl) as E. assert ((nwo, id) ∈ @nil (NameWithOwner * Z)) as Hin by by apply Hrow.
      by apply not_elem_of_nil in Hin.
    + assert (pg_repo_map s !! nwo = Some i /\ i = id) as [Hm ->] by (apply (Hrow (nwo, i)); left).
      eexists. split; [done|]. by apply Hby in Hm as ->.
  - eexists. split; [done|]. destruct (by_number _ !! id) as [nwo|]; [|done].
    pose proof (proj1 (Hby nwo) eq_refl) as E. apply (pw_ids _ _ Hwf) in E. pose proof (pw_serials _ _ Hwf). unfold int4_ok in Hid. lia.
Qed.

#[export, refine] Instance pg_numbered : NumberedState PGState RepoSerials := {|
  last_id := pg_seq; ids_in := serials |}.
Proof.
  - intros n s Hwf Hlim. split; [exact Hlim|]. intros id s' Hrun. cbn in Hrun. unfold Postgres.NextID in Hrun.
    rewrite (pw_up _ _ Hwf) in Hrun. destruct (_ <=? _); [done|]. by injection Hrun as <- <-.
  - intros n s job s' _ _ Hrun. by apply AddJob_numbers in Hrun.
  - intros js st s s'. apply exec_keeps. by intros s1 [= <-].
  - intros js ar s s'. apply exec_keeps. intros s1 Hw. destruct (jsonb _); [|done]. by injection Hw as <-.
  - intros js ji s s'. apply exec_keeps. intros s1 Hw. destruct (jsonb _); [|done]. by injection Hw as <-.
  - intros n s sid id Hwf. by eapply pg_find.
Defined.

Definition server_storable (c : server_call) : Prop :=
  match c with
  | OnSession c => call_storable PGState c
  | CallGetRepoId nwo => text_ok (Owner nwo) = true /\ text_ok (Repo nwo) = true
  end.

Lemma server_simulated n s c m :
  simulates (cm_cost c + n) s m -> cm_fits c m -> server_storable c ->
  exists a s', perform c s = (Val a, s') /\ same_answer a (cm_answer c m) /\ simulates n s' (cm_next c m).
Proof.
  destruct c as [c|nwo]; [apply perform_simulated|]. intros [Hwf Hv Hl Hi] _ [Ho Hr].
  destruct (pg_GetRepoId n s nwo Hwf Ho Hr) as (id & q & k & Hrun & Hwf' & _).
  destruct (GetRepoId_inv _ _ _ _ Hrun) as (Eid & Eser & Eseq & Ev). cbn in Hl, Hi, Hv.
  exists (AnsId id), (Postgres.with_repos q k s). split_and!.
  - unfold perform, perform_server_call. by go_step Hrun.
  - cbn. rewrite Eid, Hi. constructor.
  - split; cbn; [done|by rewrite <- Hv|by rewrite <- Hl|by rewrite Eser, Hi].
Qed.
End service.

(** ** The two implementations *)

(** C7.  The in-memory state refines the machine that numbers the jobs of each
    session from zero.  Any sequence of calls of any of its methods that keeps to
    the contract returns, without a panic, the answers of the machine up to the
    order of a job list, an error exactly where the machine has nothing to answer,
    and leaves the state the machine is in. *)
Theorem local_state_refines cs s :
  local_wf s -> calls_fit cs (machine_of s) ->
  exists answers s', perform_all (C := call) cs s = (Val answers, s') /\
    Forall2 same_answer answers (machine_answers cs (machine_of s)) /\
    simulates 0 s' (machine_after cs (machine_of s)).
Proof.
  intros Hwf Hfit. apply (sequence_simulated simulates (call_storable LocalState)).
  - intros n s0 c m. apply perform_simulated.
  - by apply simulates_self.
  - done.
  - apply list.Forall_true. by intros [].
Qed.

Section theorems.
Context `{PgServiceLaws}.

(** C6.  The PostgreSQL state refines the machine that numbers repositories, for
    all twelve methods, for values a [text] and a [jsonb] column can hold, and as
    long as repository serials are left: the same conclusion. *)
Theorem postgres_state_refines cs s n :
  pg_wf (cost (M := Machine RepoSerials) cs + n) s -> calls_fit cs (machine_of s) -> Forall server_storable cs ->
  exists answers s', perform_all (C := server_call) cs s = (Val answers, s') /\
    Forall2 same_answer answers (machine_answers cs (machine_of s)) /\
    simulates n s' (machine_after cs (machine_of s)).
Proof.
  intros Hwf Hfit Hst. apply (sequence_simulated simulates server_storable); [|by apply simulates_self|done|done].
  intros n0 s0 c m. apply server_simulated.
Qed.

(** Calls that do not ask for a repository by its number. *)
Definition by_name (c : call) : Prop := match c with CallGetJobSpecByRepoId _ _ => False | _ => True end.

(** Such a client sees the sessions of a machine and not its numbers. *)
Lemma same_sessions {I1 I2} `{!Numbering I1, !Numbering I2} cs (m1 : Machine I1) (m2 : Machine I2) :
  nb_limit (I := I2) <= nb_limit (I := I1) -> mc_view m1 = mc_view m2 -> mc_last m1 = mc_last m2 ->
  Forall by_name cs ->
  machine_answers cs m1 = machine_answers cs m2 /\ (calls_fit cs m2 -> calls_fit cs m1) /\
  cost (M := Machine I1) cs = cost (M := Machine I2) cs.
Proof.
  intros Hlim Hv Hl Hcs. revert m1 m2 Hv Hl. induction Hcs as [|c cs Hc _ IH]; intros m1 m2 Hv Hl; [done|].
  destruct (IH (cm_next c m1) (cm_next c m2)) as (Ha & Hf & Hk).
  { destruct c; cbn; rewrite ?Hv, ?Hl; done. }
  { destruct c; cbn; rewrite ?Hl; done. }
  split_and!.
  - cbn [machine_answers]. rewrite Ha. f_equal. destruct c; cbn; rewrite ?Hv, ?Hl; done.
  - intros [Hfit Hrest]. split; [|by apply Hf]. destruct c; cbn in *; rewrite ?Hv, ?Hl; try done; lia.
  - unfold cost in *. cbn [sum_list_with]. by rewrite Hk.
Qed.

End theorems.

(** ** Where they differ *)
Section service.
Context `{PgServiceLaws}.

(** The numbers of repositories: the in-memory state finds the first job of a
    session under 0, of any number of jobs; the database has no repository under
    0, and finds the one of a number for a session that does not exist as well. *)
Lemma repository_numbers_differ n (l : LocalState) (p : PGState) sid job jobs nwo id :
  local_wf l -> ls_jobs l !! sid = Some (job :: jobs) -> pg_wf n p -> pg_repo_map p !! nwo = Some id ->
  GetJobSpecByRepoId sid 0 l = (Val (aj_Spec job, None), l) /\
  (exists v e, GetJobSpecByRepoId sid 0 p = (Val (v, Some e), p)) /\
  forall sid', GetJobSpecByRepoId sid' id p = (Val (MkJobSpec sid' nwo, None), p).
Proof.
  intros Hl Hjobs Hp Hid. split_and!.
  - destruct (local_find l sid 0 Hl) as ([js o] & Hrun & Hseen).
    change (seen (js, o) = default [] ((map aj_Spec <$> ls_jobs l) !! sid) !! 0%nat) in Hseen.
    rewrite lookup_fmap, Hjobs in Hseen. destruct o; [done|]. injection Hseen as ->. exact Hrun.
  - destruct (pg_find n p sid 0 Hp) as ([js [e|]] & Hrun & Hseen); [by exists js, e|].
    change (Some js = MkJobSpec sid <$> by_number (pg_repo_map p) !! 0) in Hseen.
    destruct (by_number (pg_repo_map p) !! 0) as [nwo'|] eqn:E; [|done].
    apply by_number_lookup in E; [|apply (pw_ids_inj _ _ Hp)]. apply (pw_ids _ _ Hp) in E. lia.
  - intros sid'. destruct (pg_find n p sid' id Hp) as ([js o] & Hrun & Hseen).
    change (seen (js, o) = MkJobSpec sid' <$> by_number (pg_repo_map p) !! id) in Hseen.
    rewrite (proj2 (by_number_lookup _ _ nwo (pw_ids_inj _ _ Hp)) Hid) in Hseen.
    destruct o; [done|]. injection Hseen as ->. exact Hrun.
Qed.

(** A session without a job: the in-memory state says there is none, the
    database says it succeeded, with all counts at zero. *)
Theorem session_without_jobs_differs sid (l : LocalState) (p : PGState) :
  pg_fault p OpSelectStatuses = None -> int4_ok sid = true ->
  session_statuses sid (ls_status l) = [] -> session_statuses sid (pg_status p) = [] ->
  (exists e, GetSessionStatus sid l = (Val (StatusSummary_zero, Some e), l)) /\
  GetSessionStatus sid p = (Val (MkSummary StatusSucceeded zero_counts, None), p).
Proof.
  intros Hup Hid Hl Hp. split.
  - cbn [GetSessionStatus local_state]. rewrite local_GetSessionStatus. cbn zeta. rewrite Hl. by eexists.
  - cbn [GetSessionStatus pg_session]. rewrite pg_GetSessionStatus by done. cbn zeta. rewrite Hp.
    unfold Postgres.delivered. by destruct (pg_cut p) as [[]|].
Qed.

(** C39.  The database reports the status of the rows it received: when the
    connection drops in the middle the summary is that of the rows before, with
    no error, and so a session whose first rows succeeded can be reported as
    succeeded; the list of jobs reports the same loss as an error. *)
Theorem cut_connection_truncates_status s sid n :
  pg_fault s OpSelectStatuses = None -> pg_fault s OpSelectJobs = None -> int4_ok sid = true ->
  pg_cut s = Some n ->
  (let rows := take n (session_statuses sid (pg_status s)) in
   GetSessionStatus sid s = (Val (MkSummary (overall_spec rows) (foldl bump zero_counts rows), None), s)) /\
  ((n < length (Postgres.job_rows sid (pg_jobs s)))%nat ->
   exists e, GetJobList sid s = (Val ([], Some e), s)).
Proof.
  intros Hup Hup' Hid Hcut. split.
  - cbn [GetSessionStatus pg_session]. rewrite pg_GetSessionStatus by done. cbn zeta.
    unfold Postgres.delivered. by rewrite Hcut.
  - intros Hlt. cbn [GetJobList pg_session]. unfold Postgres.GetJobList, Postgres.query.
    rewrite Hup', Hid. cbn [negb]. unfold Postgres.rows_err. rewrite Hcut, length_map.
    rewrite (proj2 (Nat.ltb_lt _ _) Hlt). by destruct (Postgres.decode_jobs _) as [jobs [e|]]; eexists.
Qed.
End service.

(** *** Serials *)

(** [k] lookups of the identifier of one repository. *)
Definition lookups (k : nat) (nwo : NameWithOwner) : GM PGState unit :=
  gforeach (fun _ => let! _ := Postgres.GetRepoId nwo in gret tt) (seq 0 k).

Lemma GetRepoId_uses_serial s nwo id :
  pg_fault s OpUpsertRepo = None -> text_ok (Owner nwo) && text_ok (Repo nwo) = true ->
  pg_repo_map s !! nwo = Some id -> pg_repo_seq s < max_int4 ->
  Postgres.GetRepoId nwo s = (Val id, Postgres.with_repos (pg_repo_seq s + 1) (pg_repo_map s) s).
Proof.
  intros Hup Ht Hm Hs. unfold Postgres.GetRepoId. rewrite Hup, Ht, Hm. simpl.
  by replace (max_int4 <=? pg_repo_seq s) with false by lia.
Qed.

(** C40.  Asking for the identifier of a repository that already has one uses up
    a serial each time (the insertion that conflicts has drawn its default), so
    after as many lookups as there are serials the next one, whatever the
    repository, is a panic. *)
Theorem lookups_exhaust_serials s nwo id k :
  pg_fault s OpUpsertRepo = None -> text_ok (Owner nwo) && text_ok (Repo nwo) = true ->
  pg_repo_map s !! nwo = Some id -> pg_repo_seq s + Z.of_nat k = max_int4 ->
  exists s', lookups k nwo s = (Val tt, s') /\ pg_repo_map s' = pg_repo_map s /\
    forall nwo', exists p, Postgres.GetRepoId nwo' s' = (Panic p, s').
Proof.
  unfold lookups. generalize 0%nat. revert s. induction k as [|k IH]; intros s i Hup Ht Hm Hseq.
  - exists s. split_and!; [done|done|]. intros nwo'. unfold Postgres.GetRepoId. rewrite Hup.
    destruct (text_ok (Owner nwo') && text_ok (Repo nwo')); cbn [negb]; [|by eexists].
    replace (max_int4 <=? pg_repo_seq s) with true by lia. by eexists.
  - cbn [seq gforeach].
    assert ((let! _ := Postgres.GetRepoId nwo in gret tt) s =
      (Val tt, Postgres.with_repos (pg_repo_seq s + 1) (pg_repo_map s) s)) as Hstep.
    { unfold gbind. by rewrite (GetRepoId_uses_serial s nwo id) by (done || lia). }
    erewrite gbind_val by exact Hstep.
    destruct (IH (Postgres.with_repos (pg_repo_seq s + 1) (pg_repo_map s) s) (S i)) as (s' & -> & Hmap & Hp);
      try done; [simpl; lia|].
    by exists s'.
Qed.

(** *** Witnesses *)
Definition spec0 : JobSpec := MkJobSpec 1 (MkNWO "o" "r").
Definition job0 : AnalyzeJob := MkJob spec0 (MkLoc "1-packs" "mrvabucket") "cpp".
Definition calls0 : list call :=
  [CallSetStatus spec0 StatusPending; CallAddJob job0; CallGetStatus spec0; CallGetJobList 1;
   CallSetStatus spec0 StatusSucceeded; CallGetSessionStatus 1; CallGetResult spec0; CallNextID].
(** ... and then the job by its number, which is 0 in one and 1 in the other. *)
Definition local_calls0 : list call := calls0 ++ [CallGetJobSpecByRepoId 1 0].
Definition pg_calls0 : list server_call :=
  map OnSession calls0 ++ [CallGetRepoId (MkNWO "o" "r"); OnSession (CallGetJobSpecByRepoId 1 1)].
Definition local0 : LocalState := Local.NewLocalState 1.
Definition pg0 : PGState := Postgres.with_seq 1 NewPGState.

Lemma local0_known sid : v_known (local_view local0) sid <-> sid = 1.
Proof.
  change (is_Some (({[1 := []]} : gmap Z (list AnalyzeJob)) !! sid) <-> sid = 1).
  rewrite lookup_singleton_is_Some. naive_solver.
Qed.

Lemma calls_fit_app {C M} `{CallMachine C M} cs1 cs2 (m : M) :
  calls_fit cs1 m -> calls_fit cs2 (machine_after cs1 m) -> calls_fit (cs1 ++ cs2) m.
Proof.
  revert m. induction cs1 as [|c cs1 IH]; intros m; [done|]. intros [Hc Hcs] Hrest. split; [done|]. by apply IH.
Qed.

Lemma calls_fit_session cs (m : Machine RepoSerials) : calls_fit cs m -> calls_fit (map OnSession cs) m.
Proof. revert m. induction cs as [|c cs IH]; intros m; [done|]. intros [Hc Hcs]. split; [done|]. by apply IH. Qed.

Lemma calls0_fit {I} `{Numbering I} (m : Machine I) :
  v_known (mc_view m) 1 -> v_jobs (mc_view m) 1 = [] -> v_status (mc_view m) = ∅ -> mc_last m < nb_limit ->
  calls_fit calls0 m.
Proof.
  intros Hk Hj Hs Hlim. split; [by split|]. split.
  { split; [exact Hk|]. change (spec0 ∉ map aj_Spec (v_jobs (mc_view m) 1)). rewrite Hj. apply not_elem_of_nil. }
  split; [done|]. split; [exact Hk|]. split; [by split|]. split; [|done].
  change (session_statuses 1 (<[spec0 := StatusSucceeded]> (<[spec0 := StatusPending]> (v_status (mc_view m)))) <> []).
  rewrite Hs. vm_compute. done.
Qed.

Lemma local_state_refines_witness :
  exists answers s', perform_all local_calls0 local0 = (Val answers, s') /\
    Forall2 same_answer answers (machine_answers local_calls0 (machine_of local0)) /\
    machine_answers local_calls0 (machine_of local0) =
      [AnsUnit; AnsUnit; AnsStatus (Some StatusPending); AnsJobs (Some [job0]); AnsUnit;
       AnsSummary (Some (StatusSucceeded, [Some 0; Some 0; Some 1; Some 0; Some 0; Some 0]));
       AnsResult None; AnsId 2; AnsSpec (Some spec0)].
Proof.
  destruct (local_state_refines local_calls0 local0) as (answers & s' & Hrun & Hall & _).
  - by apply NewLocalState_wf.
  - apply calls_fit_app; [|by split]. apply calls0_fit; [by apply local0_known|done..].
  - exists answers, s'. split; [exact Hrun|]. split; [exact Hall|]. vm_compute. reflexivity.
Defined.

#[local] Existing Instance text_service.
#[local] Existing Instance text_service_laws.

Lemma pg0_wf n : Z.of_nat n <= max_int4 -> pg_wf n pg0.
Proof.
  intros Hn. destruct (pg_NextID n NewPGState) as (id & s' & H & Hwf & _);
    [by apply NewPGState_wf|done|].
  change (Postgres.NextID NewPGState) with (Val 1 : outcome Z, pg0) in H. congruence.
Qed.

Lemma pg0_jobs : v_jobs (pg_view pg0) 1 = [].
Proof. vm_compute. done. Qed.

Lemma calls0_storable : Forall (call_storable PGState) calls0.
Proof.
  assert (storable_spec (St := PGState) spec0) as Hs by done.
  assert (storable_job (St := PGState) job0) as Hj.
  { split; [done|]. split; [|by eexists]. repeat split; done. }
  by repeat constructor.
Qed.

Lemma pg0_fit : calls_fit calls0 (machine_of pg0).
Proof. apply calls0_fit; [done|apply pg0_jobs|done|done]. Qed.

Lemma postgres_state_refines_witness :
  exists answers s', perform_all pg_calls0 pg0 = (Val answers, s') /\
    Forall2 same_answer answers (machine_answers pg_calls0 (machine_of pg0)) /\
    machine_answers pg_calls0 (machine_of pg0) =
      [AnsUnit; AnsUnit; AnsStatus (Some StatusPending); AnsJobs (Some [job0]); AnsUnit;
       AnsSummary (Some (StatusSucceeded, [Some 0; Some 0; Some 1; Some 0; Some 0; Some 0]));
       AnsResult None; AnsId 2; AnsId 1; AnsSpec (Some spec0)].
Proof.
  destruct (postgres_state_refines pg_calls0 pg0 0) as (answers & s' & Hrun & Hall & _).
  - by apply pg0_wf.
  - apply calls_fit_app; [|by split]. apply calls_fit_session, pg0_fit.
  - apply Forall_app_2; [|by repeat constructor]. apply Forall_map. eapply Forall_impl; [|apply calls0_storable]. done.
  - exists answers, s'. split; [exact Hrun|]. split; [exact Hall|]. vm_compute. reflexivity.
Defined.


Lemma session_without_jobs_differs_witness :
  (exists e, GetSessionStatus 1 local0 = (Val (StatusSummary_zero, Some e), local0)) /\
  GetSessionStatus 1 pg0 = (Val (MkSummary StatusSucceeded zero_counts, None), pg0).
Proof. by apply (session_without_jobs_differs 1 local0 pg0). Defined.

(** A database whose connection drops after the first row. *)
Definition cut_pg : PGState :=
  MkPG 1 0 ∅ ∅ ∅ ∅
    (<[MkJobSpec 1 (MkNWO "o" "q") := StatusSucceeded]> {[spec0 := StatusSucceeded]})
    (fun _ => None) (Some 1%nat).

Lemma cut_connection_truncates_status_witness :
  GetSessionStatus 1 cut_pg =
  (Val (MkSummary StatusSucceeded (bump zero_counts StatusSucceeded), None), cut_pg).
Proof. exact (proj1 (cut_connection_truncates_status cut_pg 1 1 eq_refl eq_refl eq_refl eq_refl)). Defined.

Lemma lookups_exhaust_serials_witness :
  let s := Postgres.with_repos (max_int4 - 2) {[MkNWO "o" "r" := 1]} pg0 in
  exists s', lookups 2 (MkNWO "o" "r") s = (Val tt, s') /\ pg_repo_map s' = pg_repo_map s /\
    forall nwo', exists p, Postgres.GetRepoId nwo' s' = (Panic p, s').
Proof. intros s. by apply (lookups_exhaust_serials s (MkNWO "o" "r") 1 2). Defined.
