(* ===== verification/QldbStore.v ===== *)
(** [pkg/qldbstore/interfaces.go]: the store of CodeQL databases. *)
From S2P Require Import Prelude GoStrings GoUtf8 GoJson GoCodec Common.

Class QldbStore (S : Type) : Type := {
  (* (notFoundRepos, foundRepos) *)
  FindAvailableDBs : list NameWithOwner -> GM S (list NameWithOwner * list NameWithOwner);
  GetDatabase : NameWithOwner -> GM S (gores string);
}.

(** What the server relies on: the answer splits the request in two, keeping
    its order and its repetitions. *)
Class QldbStoreLaws (S : Type) `{QldbStore S} : Prop := {
  find_splits req s :
    exists notFound found s', FindAvailableDBs req s = (Val (notFound, found), s') /\
      notFound ++ found ≡ₚ req /\ notFound `sublist_of` req /\ found `sublist_of` req;
}.

Lemma filter_sublist {A} (P : A -> bool) (l : list A) : List.filter P l `sublist_of` l.
Proof. induction l as [|x l IH]; simpl; [done|]. destruct (P x); by constructor. Qed.

(** The loop both implementations run, with [P] deciding that a repository is there. *)
Lemma partition_splits {A} (P : A -> bool) (l : list A) :
  let notFound := List.filter (fun x => negb (P x)) l in
  let found := List.filter P l in
  notFound ++ found ≡ₚ l /\ notFound `sublist_of` l /\ found `sublist_of` l.
Proof. split_and!; [apply Permutation_partition|apply filter_sublist..]. Qed.
