(* ===== verification/QldbLocal.v ===== *)
(** [pkg/qldbstore/qldbstore_local.go]: databases as files under a base path. *)
From S2P Require Import Prelude GoStrings GoUtf8 GoJson GoPath GoOs Common QldbStore.

(** The store and the file system it looks at. *)
Record FilesystemCodeQLDatabaseStore : Type := MkFsStore { basePath : string; fsq_fs : FS }.

Module Filesystem.

Definition NewLocalFilesystemCodeQLDatabaseStore (base : string) (fs : FS) : FilesystemCodeQLDatabaseStore :=
  MkFsStore base fs.

Definition on_fs {A} (m : GM FS A) : GM FilesystemCodeQLDatabaseStore A :=
  zoom fsq_fs (fun fs s => MkFsStore (basePath s) fs) m.

Definition db_path (base : string) (repo : NameWithOwner) : string :=
  Join base (Owner repo +:+ "/" +:+ Repo repo +:+ "/" +:+ Owner repo +:+ "_" +:+ Repo repo +:+ "_db.zip").

(** A file that cannot be examined counts as found: only [IsNotExist] is tested. *)
Fixpoint FindAvailableDBs (analysisReposRequested : list NameWithOwner)
    : GM FilesystemCodeQLDatabaseStore (list NameWithOwner * list NameWithOwner) :=
  match analysisReposRequested with
  | [] => gret ([], [])
  | repo :: rest =>
      let! base := gget basePath in
      let! err := on_fs (Stat (db_path base repo)) in
      let! (notFoundRepos, foundRepos) := FindAvailableDBs rest in
      if IsNotExist err then gret (repo :: notFoundRepos, foundRepos)
      else gret (notFoundRepos, repo :: foundRepos)
  end.

Definition GetDatabase (location : NameWithOwner) : GM FilesystemCodeQLDatabaseStore (gores string) :=
  let! base := gget basePath in
  let! err := on_fs (Stat (db_path base location)) in
  if IsNotExist err
  then gret ("", Some (EText ("database not found for " +:+ show_nwo location)))
  else
    let! (data, err) := on_fs (ReadFile (db_path base location)) in
    match err with
    | Some e => gret ("", Some e)
    | None => gret (data, None)
    end.

End Filesystem.

#[export] Instance filesystem_qldb : QldbStore FilesystemCodeQLDatabaseStore := {|
  FindAvailableDBs := Filesystem.FindAvailableDBs;
  GetDatabase := Filesystem.GetDatabase |}.

Lemma Stat_val p fs : exists r, Stat p fs = (Val r, MkFS (fs_dirs fs) (fs_files fs) (fs_fault fs) (S (fs_calls fs))).
Proof.
  unfold Stat, gbind, os_call. destruct (fs_fault fs (fs_calls fs)); [by eexists|].
  repeat case_match; by eexists.
Qed.

#[export] Instance filesystem_qldb_laws : QldbStoreLaws FilesystemCodeQLDatabaseStore.
Proof.
  constructor. intros req. cbn [FindAvailableDBs filesystem_qldb].
  induction req as [|repo req IH]; intros s.
  { exists [], [], s. done. }
  cbn [Filesystem.FindAvailableDBs]. unfold gbind at 1. cbn [gget].
  destruct (Stat_val (Filesystem.db_path (basePath s) repo) (fsq_fs s)) as [r Hr].
  unfold gbind at 1. unfold Filesystem.on_fs at 1, zoom. rewrite Hr.
  edestruct IH as (nf & f & s' & H & Hp & Hsnf & Hsf). unfold gbind at 1. rewrite H. clear H IH.
  destruct (IsNotExist r); do 3 eexists; (split; [reflexivity|]).
  - split_and!; [by simpl; rewrite Hp|by constructor|by constructor].
  - split_and!; [by rewrite <- Permutation_middle, Hp|by constructor|by constructor].
Qed.
