(* ===== verification/Hepc.v ===== *)
(** [pkg/qldbstore/qldbstore_hepc.go]: the store of databases served by HEPC.

    The store caches an index of databases for a configured time.  The clock,
    the network, the environment variables, the [spigot-cli] program and the
    [gzip]/[tar] readers are an environment the operations are run in; the
    clock and the network may answer differently each time they are asked.
    [FindAvailableDBs] and the cache part of [GetDatabase] hold the mutex while
    they touch the cache, so each is one step. *)
From S2P Require Import Prelude GoStrings GoUtf8 GoJson GoCodec GoPath GoOs Archive Common.
From S2P Require Import QldbStore.

Record HepcResult : Type := MkHepcResult {
  GitBranch : string; GitCommitID : string; GitRepo : string; IngestionDatetime : string;
  ResultURL : string; ToolID : string; ToolName : string; ToolVersion : string; Projname : string
}.

Definition HepcResult_zero : HepcResult := MkHepcResult "" "" "" "" "" "" "" "" "".

Definition HepcResult_fields : list (field HepcResult) :=
  let mk f v x := MkHepcResult
    (if Nat.eqb f 0 then v else GitBranch x) (if Nat.eqb f 1 then v else GitCommitID x)
    (if Nat.eqb f 2 then v else GitRepo x) (if Nat.eqb f 3 then v else IngestionDatetime x)
    (if Nat.eqb f 4 then v else ResultURL x) (if Nat.eqb f 5 then v else ToolID x)
    (if Nat.eqb f 6 then v else ToolName x) (if Nat.eqb f 7 then v else ToolVersion x)
    (if Nat.eqb f 8 then v else Projname x) in
  [fld "git_branch" GitBranch (mk 0%nat) dec_string; fld "git_commit_id" GitCommitID (mk 1%nat) dec_string;
   fld "git_repo" GitRepo (mk 2%nat) dec_string;
   fld "ingestion_datetime_utc" IngestionDatetime (mk 3%nat) dec_string;
   fld "result_url" ResultURL (mk 4%nat) dec_string; fld "tool_id" ToolID (mk 5%nat) dec_string;
   fld "tool_name" ToolName (mk 6%nat) dec_string; fld "tool_version" ToolVersion (mk 7%nat) dec_string;
   fld "projname" Projname (mk 8%nat) dec_string].
Definition HepcResult_dec : decoder HepcResult := dec_struct false HepcResult_fields.

(** A response: status code and line, the body that can be read and how reading ends. *)
Record Response : Type := MkResponse {
  rs_code : Z; rs_status : string; rs_body : string; rs_read : option error
}.

Record HepcEnv : Type := MkHepcEnv {
  he_now : nat -> Z;                              (* time.Now(), in nanoseconds *)
  he_get : nat -> string -> error + Response;     (* http.Get *)
  he_getenv : string -> string;                   (* os.Getenv *)
  he_home : gores string;                         (* os.UserHomeDir *)
  he_spigot : nat -> string -> string * option error; (* stdout and exit of spigot-cli *)
  he_tgz : string -> error + list TarItem         (* gzip.NewReader and tar.Reader *)
}.

(** [hp_updated] is [None] while it is the zero [time.Time]; [hp_tick] counts
    the questions asked to the environment. *)
Record HepcStore : Type := MkHepc {
  hp_Endpoint : string;
  hp_metadataCache : list HepcResult;
  hp_cacheLastUpdated : option Z;
  hp_cacheDuration : Z;
  hp_tick : nat;
  hp_fs : FS
}.

(** ** Durations: [time.Duration] is an [int64] of nanoseconds *)
Definition Minute : Z := 60000000000.
Definition defaultCacheDurationMinutes : Z := 60.

Definition Atoi (s : string) : gores Z :=
  match ParseInt_aux s 64 with
  | inl v => (v, None)
  | inr e => (0, Some (ENum "Atoi" s (match e with ErrRange => true | ErrSyntax => false end)))
  end.

Definition getMetaCacheDuration (getenv : string -> string) : Z :=
  let durationStr := getenv "MRVA_HEPC_CACHE_DURATION" in
  if String.eqb durationStr "" then wrap_int (Minute * defaultCacheDurationMinutes)
  else
    let '(duration, err) := Atoi durationStr in
    match err with
    | Some _ => wrap_int (Minute * defaultCacheDurationMinutes)
    | None => wrap_int (Minute * duration)
    end.

(** [time.Since], saturating; the zero time is further back than a duration reaches. *)
Definition Since (now : Z) (t : option Z) : Z :=
  match t with
  | None => max_int
  | Some t => Z.max min_int (Z.min max_int (now - t))
  end.

(** [json.NewDecoder(r)], [Decode] until [io.EOF]; a value is at least one byte,
    so the length of the input is fuel enough. *)
Fixpoint decode_stream (fuel : nat) (data : string) : option (list HepcResult) :=
  match skip_ws data with
  | EmptyString => Some []
  | _ =>
      match fuel with
      | O => None
      | S fuel' =>
          '(v, rest) ← DecodeFirst HepcResult_dec HepcResult_zero data;
          vs ← decode_stream fuel' rest;
          Some (v :: vs)
      end
  end.

Definition decode_results (data : string) : option (list HepcResult) :=
  decode_stream (String.length data) data.

(** [replaceHepcURL] *)
Definition replaceHepcURL (getenv : string -> string) (originalURL : string) : string :=
  let hepcEndpoint :=
    if String.eqb (getenv "MRVA_HEPC_ENDPOINT") "" then "http://hepc:8070"
    else getenv "MRVA_HEPC_ENDPOINT" in
  replace_first originalURL "http://hepc" hepcEndpoint.

(** [extractDatabaseFromTar], after the reader has been opened. *)
Fixpoint find_database (items : list TarItem) : string * bool * option error :=
  match items with
  | [] => ("", false, None)
  | TarFail e :: _ => ("", false, Some (EWrap "failed to read tar entry" e))
  | TarEntry name _ data read :: items' =>
      if String.eqb name "artifacts/codeql_database.zip" then
        match read with
        | Some e => ("", false, Some (EWrap "failed to extract zip from tar" e))
        | None => (data, true, None)
        end
      else find_database items'
  end.

Definition extractDatabaseFromTar (tgz : string -> error + list TarItem) (tarStream : string)
    : string * bool * option error :=
  match tgz tarStream with
  | inl e => ("", false, Some (EWrap "failed to open gzip stream" e))
  | inr items => find_database items
  end.

Definition isGzip (fullBody : string) : bool := HasPrefix fullBody gzip_magic.

Definition NewHepcStore (getenv : string -> string) (endpoint : string) (fs : FS) : HepcStore :=
  MkHepc endpoint [] None (getMetaCacheDuration getenv) 0 fs.

Module HepcOps.
Section with_env.
Context (env : HepcEnv).
Notation M := (GM HepcStore).

Definition tick (s : HepcStore) : HepcStore :=
  MkHepc (hp_Endpoint s) (hp_metadataCache s) (hp_cacheLastUpdated s) (hp_cacheDuration s)
    (S (hp_tick s)) (hp_fs s).

(** Asking the environment. *)
Definition ask {A} (q : nat -> A) : M A := fun s => (Val (q (hp_tick s)), tick s).

Definition on_fs {A} (m : GM FS A) : M A :=
  zoom hp_fs (fun fs s => MkHepc (hp_Endpoint s) (hp_metadataCache s) (hp_cacheLastUpdated s)
                            (hp_cacheDuration s) (hp_tick s) fs) m.

Definition fetchViaHTTP : M (gores (list HepcResult)) :=
  let! endpoint := gget hp_Endpoint in
  let! answer := ask (fun n => he_get env n (endpoint +:+ "/index")) in
  match answer with
  | inl e => gret ([], Some (EWrap "error fetching metadata" e))
  | inr resp =>
      if negb (rs_code resp =? 200)
      then gret ([], Some (EText ("non-OK HTTP status: " +:+ rs_status resp)))
      else
        match decode_results (rs_body resp), rs_read resp with
        | Some results, None => gret (results, None)
        | _, Some e => gret ([], Some (EWrap "error decoding JSON" e))
        | None, None => gret ([], Some (EWrap "error decoding JSON" (EText "invalid JSON")))
        end
  end.

Definition expand_home (outDir : string) : gores string :=
  match strip_prefix "~/" outDir with
  | Some rest => match he_home env with
                 | (_, Some e) => ("", Some e)
                 | (home, None) => (Join home rest, None)
                 end
  | None => (outDir, None)
  end.

Definition missing_env : list string :=
  (if String.eqb (he_getenv env "MRVA_HEPC_OUTDIR") "" then ["MRVA_HEPC_OUTDIR"] else []) ++
  (if String.eqb (he_getenv env "MRVA_HEPC_TOOL") "" then ["MRVA_HEPC_TOOL"] else []).

Definition fetchViaCli : M (gores (list HepcResult)) :=
  match missing_env with
  | _ :: _ => gret ([], Some (EText ("missing required environment variables: " +:+ join ", " missing_env)))
  | [] =>
      let '(outDir, err) := expand_home (he_getenv env "MRVA_HEPC_OUTDIR") in
      match err with
      | Some e => gret ([], Some e)
      | None =>
          let! err := on_fs (MkdirAll outDir) in
          match err with
          | Some e => gret ([], Some e)
          | None =>
              let jsonPath := Join outDir "spigot-results.json" in
              let! err := on_fs (OpenTrunc jsonPath) in
              match err with
              | Some e => gret ([], Some e)
              | None =>
                  let! (stdout, err) := ask (fun n => he_spigot env n (he_getenv env "MRVA_HEPC_TOOL")) in
                  on_fs (gmodify (with_file (Clean jsonPath) stdout)) ;;;
                  match err with
                  | Some e => gret ([], Some e)
                  | None =>
                      let! (data, err) := on_fs (ReadFile jsonPath) in
                      match err with
                      | Some e => gret ([], Some (EWrap "failed to open result file" e))
                      | None =>
                          match decode_results data with
                          | Some results => gret (results, None)
                          | None => gret ([], Some (EWrap "error decoding CLI JSON" (EText "invalid JSON")))
                          end
                      end
                  end
              end
          end
      end
  end.

Definition fetchMetadata : M (gores (list HepcResult)) :=
  if String.eqb (he_getenv env "MRVA_HEPC_DATAVIACLI") "1" then fetchViaCli else fetchViaHTTP.

(** The part under the mutex, the same in both operations: the cached index,
    refreshed if it is too old. *)
Definition cached_results : M (gores (list HepcResult)) :=
  let! now := ask (he_now env) in
  let! last := gget hp_cacheLastUpdated in
  let! duration := gget hp_cacheDuration in
  if duration <? Since now last then
    let! (results, err) := fetchMetadata in
    match err with
    | Some e => gret ([], Some e)
    | None =>
        let! updated := ask (he_now env) in
        gmodify (fun s => MkHepc (hp_Endpoint s) results (Some updated) (hp_cacheDuration s)
                            (hp_tick s) (hp_fs s)) ;;;
        gret (results, None)
    end
  else
    let! cache := gget hp_metadataCache in
    gret (cache, None).

Definition in_index (results : list HepcResult) (repo : NameWithOwner) : bool :=
  existsb (fun r => String.eqb (Projname r) (full_name repo)) results.

Definition FindAvailableDBs (analysisReposRequested : list NameWithOwner)
    : M (list NameWithOwner * list NameWithOwner) :=
  let! (cachedResults, err) := cached_results in
  match err with
  | Some _ => gret (analysisReposRequested, [])
  | None =>
      gret (List.filter (fun r => negb (in_index cachedResults r)) analysisReposRequested,
            List.filter (in_index cachedResults) analysisReposRequested)
  end.

(** The first entry of that name gives the URL. *)
Definition result_url (results : list HepcResult) (key : string) : string :=
  match List.find (fun r => String.eqb (Projname r) key) results with
  | Some r => ResultURL r
  | None => ""
  end.

Definition GetDatabase (location : NameWithOwner) : M (gores string) :=
  let! (cachedResults, err) := cached_results in
  match err with
  | Some e => gret ("", Some (EWrap "error refreshing metadata cache" e))
  | None =>
      let key := full_name location in
      let resultURL := result_url cachedResults key in
      if String.eqb resultURL ""
      then gret ("", Some (EText ("database not found for repository: " +:+ key)))
      else
        let! answer := ask (fun n => he_get env n (replaceHepcURL (he_getenv env) resultURL)) in
        match answer with
        | inl e => gret ("", Some (EWrap "error fetching database" e))
        | inr resp =>
            if negb (rs_code resp =? 200)
            then gret ("", Some (EText ("non-OK HTTP status for database fetch: " +:+ rs_status resp)))
            else
              match rs_read resp with
              | Some e => gret ("", Some (EWrap "error reading database content" e))
              | None =>
                  let fullBody := rs_body resp in
                  if isGzip fullBody then
                    match extractDatabaseFromTar (he_tgz env) fullBody with
                    | (_, _, Some e) => gret ("", Some e)
                    | (_, false, None) => gret ("", Some (EText "zip file not found in tar archive"))
                    | (data, true, None) => gret (data, None)
                    end
                  else gret (fullBody, None)
              end
        end
  end.

End with_env.
End HepcOps.

Definition hepc_qldb (env : HepcEnv) : QldbStore HepcStore := {|
  FindAvailableDBs := HepcOps.FindAvailableDBs env;
  GetDatabase := HepcOps.GetDatabase env |}.

(** ** The store never panics, and always splits the request *)
Lemma ask_total {A} (q : nat -> A) : total (HepcOps.ask q).
Proof. intros s. by do 2 eexists. Qed.

Lemma on_fs_total {A} (m : GM FS A) : total m -> total (HepcOps.on_fs m).
Proof. apply total_zoom. Qed.

#[export] Hint Resolve ask_total on_fs_total : mrva.

Section with_env.
Context (env : HepcEnv).

Lemma fetchMetadata_total : total (HepcOps.fetchMetadata env).
Proof. unfold HepcOps.fetchMetadata, HepcOps.fetchViaCli, HepcOps.fetchViaHTTP. go_total. Qed.

Lemma cached_results_total : total (HepcOps.cached_results env).
Proof. pose proof fetchMetadata_total. unfold HepcOps.cached_results. go_total. Qed.

(** Whatever the network, the clock and the index do, the answer splits the
    request in two. *)
Lemma hepc_qldb_laws : @QldbStoreLaws HepcStore (hepc_qldb env).
Proof.
  constructor. intros req s. cbn [FindAvailableDBs hepc_qldb]. unfold HepcOps.FindAvailableDBs.
  destruct (cached_results_total s) as ([results err] & s' & H).
  erewrite gbind_val by exact H. destruct err as [e|]; do 3 eexists; (split; [reflexivity|]).
  - rewrite app_nil_r. split_and!; [done|done|apply sublist_nil_l].
  - apply partition_splits.
Qed.

(** ** The cache *)
Definition fresh_at (s : HepcStore) : Prop :=
  Since (he_now env (hp_tick s)) (hp_cacheLastUpdated s) <= hp_cacheDuration s.

Lemma cached_results_fresh s :
  fresh_at s ->
  HepcOps.cached_results env s = (Val (hp_metadataCache s, None), HepcOps.tick s).
Proof.
  intros Hf. unfold HepcOps.cached_results, gbind, HepcOps.ask, gget. cbn.
  replace (hp_cacheDuration s <? _) with false by (symmetry; apply Z.ltb_ge; exact Hf). done.
Qed.

(** The index, when it was read and for how long it is good. *)
Definition cache_of (s : HepcStore) : list HepcResult * option Z * Z :=
  (hp_metadataCache s, hp_cacheLastUpdated s, hp_cacheDuration s).

Lemma ask_keeps {A} (q : nat -> A) : keeps cache_of (HepcOps.ask q).
Proof. done. Qed.

Lemma on_fs_keeps {A} (m : GM FS A) : keeps cache_of (HepcOps.on_fs m).
Proof. intros s. unfold HepcOps.on_fs, zoom. by destruct (m (hp_fs s)). Qed.

#[local] Hint Resolve ask_keeps on_fs_keeps : mrva.

Lemma fetchMetadata_keeps : keeps cache_of (HepcOps.fetchMetadata env).
Proof. unfold HepcOps.fetchMetadata, HepcOps.fetchViaCli, HepcOps.fetchViaHTTP. go_keeps. Qed.

(** The repositories an index has an entry for, and the others. *)
Definition indexed (index : list HepcResult) (repo : NameWithOwner) : bool :=
  bool_decide (full_name repo ∈ map Projname index).
Definition answer_of (index : list HepcResult) (req : list NameWithOwner) : list NameWithOwner * list NameWithOwner :=
  (List.filter (fun r => negb (indexed index r)) req, List.filter (indexed index) req).

Lemma in_index_indexed index repo : HepcOps.in_index index repo = indexed index repo.
Proof.
  unfold HepcOps.in_index, indexed. induction index as [|r index IH]; [done|]. cbn [existsb map].
  rewrite IH. destruct (String.eqb_spec (Projname r) (full_name repo)) as [E|E]; cbn [orb].
  - symmetry. apply bool_decide_true. rewrite E. left.
  - apply bool_decide_ext. rewrite elem_of_cons. naive_solver.
Qed.

Lemma answers_of_index index req :
  (List.filter (fun r => negb (HepcOps.in_index index r)) req, List.filter (HepcOps.in_index index) req)
  = answer_of index req.
Proof.
  unfold answer_of. f_equal; apply filter_ext; intros r; by rewrite in_index_indexed.
Qed.

Lemma cached_results_stale s :
  ~ fresh_at s ->
  HepcOps.cached_results env s =
    (let! (results, err) := HepcOps.fetchMetadata env in
     match err with
     | Some e => gret ([], Some e)
     | None =>
         let! updated := HepcOps.ask (he_now env) in
         gmodify (fun s => MkHepc (hp_Endpoint s) results (Some updated) (hp_cacheDuration s) (hp_tick s) (hp_fs s)) ;;;
         gret (results, None)
     end) (HepcOps.tick s).
Proof.
  intros Hf. unfold HepcOps.cached_results, gbind at 1 2 3, HepcOps.ask at 1, gget. cbn match.
  change (hp_cacheLastUpdated (HepcOps.tick s)) with (hp_cacheLastUpdated s).
  change (hp_cacheDuration (HepcOps.tick s)) with (hp_cacheDuration s).
  by replace (hp_cacheDuration s <? _) with true by (symmetry; apply Z.ltb_lt; unfold fresh_at in Hf; lia).
Qed.

(** C32.  A lookup is answered by the index, in the order and with the repetitions
    of the request.  A fresh index is asked nothing but the time; one too old is
    fetched first, takes the place of the old one with the time of now, and
    answers; when it cannot be fetched every repository is reported as not found
    and the old index stays for the next attempt. *)
Theorem lookup_uses_the_index s req :
  (fresh_at s ->
   HepcOps.FindAvailableDBs env req s = (Val (answer_of (hp_metadataCache s) req), HepcOps.tick s)) /\
  (forall results s1, ~ fresh_at s -> HepcOps.fetchMetadata env (HepcOps.tick s) = (Val (results, None), s1) ->
   exists s2, HepcOps.FindAvailableDBs env req s = (Val (answer_of results req), s2) /\
     cache_of s2 = (results, Some (he_now env (hp_tick s1)), hp_cacheDuration s)) /\
  (forall v e s1, ~ fresh_at s -> HepcOps.fetchMetadata env (HepcOps.tick s) = (Val (v, Some e), s1) ->
   HepcOps.FindAvailableDBs env req s = (Val (req, []), s1) /\ cache_of s1 = cache_of s).
Proof.
  pose proof (fetchMetadata_keeps (HepcOps.tick s)) as Hk. split_and!.
  - intros Hf. unfold HepcOps.FindAvailableDBs. go_step (cached_results_fresh s Hf). by rewrite <- answers_of_index.
  - intros results s1 Hf H. rewrite H in Hk. injection Hk as _ _ Hd. eexists. split.
    + unfold HepcOps.FindAvailableDBs. unfold gbind at 1. rewrite cached_results_stale by done.
      unfold gbind at 1. rewrite H, <- answers_of_index. reflexivity.
    + unfold cache_of. cbn. by rewrite Hd.
  - intros v e s1 Hf H. rewrite H in Hk. split; [|exact Hk].
    unfold HepcOps.FindAvailableDBs. unfold gbind at 1. rewrite cached_results_stale by done.
    unfold gbind at 1. by rewrite H.
Qed.

Lemma replace_first_prefix old p new : replace_first (old +:+ p) old new = new +:+ p.
Proof.
  assert (strip_prefix old (old +:+ p) = Some p) as H by by apply strip_prefix_Some.
  unfold replace_first. destruct (old +:+ p) as [|c s0] eqn:E; by rewrite H.
Qed.

(** The first entry of that name: the ones before have others. *)
Definition first_entry (index : list HepcResult) (repo : NameWithOwner) (r : HepcResult) : Prop :=
  exists before after, index = before ++ r :: after /\ Projname r = full_name repo /\
    Forall (fun r' => Projname r' <> full_name repo) before.

Lemma first_entry_found index repo r :
  first_entry index repo r -> HepcOps.result_url index (full_name repo) = ResultURL r.
Proof.
  intros (before & after & -> & Hr & Hb). unfold HepcOps.result_url.
  induction Hb as [|r' before Hne _ IH]; cbn [app List.find].
  - by rewrite Hr, String.eqb_refl.
  - by rewrite (proj2 (String.eqb_neq _ _) Hne).
Qed.

Lemma first_entry_exists index repo : indexed index repo = true -> exists r, first_entry index repo r.
Proof.
  intros Hin%bool_decide_eq_true. induction index as [|r index IH]; [by apply not_elem_of_nil in Hin|].
  destruct (decide (Projname r = full_name repo)) as [E|E].
  - exists r, [], index. by split_and!.
  - apply elem_of_cons in Hin as [Hin|Hin]; [congruence|].
    destruct (IH Hin) as (r' & before & after & -> & Hr & Hb). exists r', (r :: before), after.
    split_and!; [done|done|by constructor].
Qed.

Lemma not_indexed_url index repo : indexed index repo = false -> HepcOps.result_url index (full_name repo) = "".
Proof.
  rewrite <- in_index_indexed. unfold HepcOps.result_url, HepcOps.in_index.
  induction index as [|r index IH]; cbn [existsb List.find]; [done|]. by destruct (String.eqb _ _).
Qed.

(** The database of a response: its body, or what the archive in it holds. *)
Definition database_in (resp : Response) (data : string) : Prop :=
  rs_code resp = 200 /\ rs_read resp = None /\
  if isGzip (rs_body resp) then extractDatabaseFromTar (he_tgz env) (rs_body resp) = (data, true, None)
  else data = rs_body resp.

(** C31.  With an index that stays fresh, a database that is reported as found has a
    first entry of its name, and [GetDatabase] asks the configured endpoint for the
    path of that entry, if its URL begins with the fixed host, and gives back the
    database of the response, unpacked if it is a gzip stream.  One that is not
    found is an error, and nothing is asked. *)
Theorem found_database_is_fetched s repo :
  fresh_at s ->
  (indexed (hp_metadataCache s) repo = true -> exists r, first_entry (hp_metadataCache s) repo r) /\
  (forall r path resp data,
     first_entry (hp_metadataCache s) repo r -> ResultURL r = "http://hepc" +:+ path ->
     he_get env (S (hp_tick s))
       ((if String.eqb (he_getenv env "MRVA_HEPC_ENDPOINT") "" then "http://hepc:8070"
         else he_getenv env "MRVA_HEPC_ENDPOINT") +:+ path) = inr resp ->
     database_in resp data ->
     (HepcOps.GetDatabase env repo s).1 = Val (data, None)) /\
  (indexed (hp_metadataCache s) repo = false ->
   exists e, HepcOps.GetDatabase env repo s = (Val ("", Some e), HepcOps.tick s)).
Proof.
  intros Hf. split_and!; [apply first_entry_exists| |].
  - intros r path resp data Hfirst Hpath Hget (Hcode & Hread & Hdata).
    unfold HepcOps.GetDatabase. erewrite gbind_val by exact (cached_results_fresh s Hf). cbn beta iota zeta.
    rewrite (first_entry_found _ _ _ Hfirst), Hpath.
    change (String.eqb ("http://hepc" +:+ path) "") with false. cbn iota.
    unfold gbind, HepcOps.ask. cbn [HepcOps.tick hp_tick]. unfold replaceHepcURL.
    rewrite replace_first_prefix, Hget, Hcode, Hread. cbn [negb Z.eqb Pos.eqb fst].
    destruct (isGzip (rs_body resp)); [by rewrite Hdata|by subst data].
  - intros Hnone. eexists. unfold HepcOps.GetDatabase.
    erewrite gbind_val by exact (cached_results_fresh s Hf). cbn beta iota zeta. by rewrite not_indexed_url.
Qed.

End with_env.

(** ** The configured duration *)
Lemma Atoi_itoa z : min_int <= z <= max_int -> Atoi (itoa z) = (z, None).
Proof.
  intros Hz. unfold Atoi. pose proof (ParseInt_itoa z 64 ltac:(lia)) as H.
  unfold ParseInt, min_int, max_int in *. specialize (H ltac:(lia)).
  destruct (ParseInt_aux (itoa z) 64) as [v|[]]; congruence.
Qed.

Lemma itoa_nonempty z : String.eqb (itoa z) "" = false.
Proof. destruct (itoa_head z) as (c & r & -> & _). done. Qed.

(** C33.  The configured number of minutes is honoured as long as it fits a
    duration (153722867 minutes are 292 years); one more wraps around to a
    negative duration, for which no index is ever fresh. *)
Theorem cache_duration_bounds getenv d :
  getenv "MRVA_HEPC_CACHE_DURATION" = itoa d ->
  (- 153722867 <= d <= 153722867 -> getMetaCacheDuration getenv = 60000000000 * d) /\
  (d = 153722868 -> getMetaCacheDuration getenv < 0).
Proof.
  intros Henv. unfold getMetaCacheDuration. cbn zeta. rewrite Henv, itoa_nonempty.
  split; [intros Hd|intros ->]; rewrite Atoi_itoa by (unfold min_int, max_int; lia); cbn iota beta.
  - apply wrap_int_small. unfold min_int, max_int, Minute. lia.
  - vm_compute. done.
Qed.

(** *** Witnesses: one database in the index *)
Definition resp0 : Response := MkResponse 200 "200 OK" "PK" None.
Definition env0 : HepcEnv :=
  MkHepcEnv (fun _ => 0) (fun _ url => if String.eqb url "http://hepc:8070/db/1" then inr resp0
                                       else inl (EText "unreachable"))
    (fun _ => "") ("/root", None) (fun _ _ => ("", None)) (fun _ => inr []).
Definition entry0 : HepcResult :=
  MkHepcResult "" "" "" "" "http://hepc/db/1" "" "" "" "o/r".
Definition hepc0 : HepcStore :=
  MkHepc "http://hepc:8070" [entry0] (Some 0) (60 * Minute) 0 (MkFS ∅ ∅ (fun _ => None) 0).
Definition empty_hepc : HepcStore := NewHepcStore (fun _ => "") "http://hepc:8070" (MkFS ∅ ∅ (fun _ => None) 0).

Lemma lookup_uses_the_index_witness :
  HepcOps.FindAvailableDBs env0 [MkNWO "o" "r"; MkNWO "a" "b"] hepc0 =
    (Val ([MkNWO "a" "b"], [MkNWO "o" "r"]), HepcOps.tick hepc0) /\
  exists s', HepcOps.FindAvailableDBs env0 [MkNWO "o" "r"] empty_hepc = (Val ([MkNWO "o" "r"], []), s') /\
    cache_of s' = cache_of empty_hepc.
Proof.
  split.
  - exact (proj1 (lookup_uses_the_index env0 hepc0 [MkNWO "o" "r"; MkNWO "a" "b"])
             ltac:(unfold fresh_at; vm_compute; done)).
  - assert (exists v e s', HepcOps.fetchMetadata env0 (HepcOps.tick empty_hepc) = (Val (v, Some e), s')) as (v & e & s' & H).
    { do 3 eexists. vm_compute. reflexivity. }
    exists s'. eapply (lookup_uses_the_index env0 empty_hepc [MkNWO "o" "r"]); [|exact H].
    unfold fresh_at. intros Hf. vm_compute in Hf. by apply Hf.
Defined.

(** Of two entries of the name the first is fetched. *)
Definition entry1 : HepcResult := MkHepcResult "" "" "" "" "http://hepc/db/2" "" "" "" "o/r".
Definition hepc1 : HepcStore :=
  MkHepc "http://hepc:8070" [entry0; entry1] (Some 0) (60 * Minute) 0 (MkFS ∅ ∅ (fun _ => None) 0).

Lemma found_database_is_fetched_witness :
  (HepcOps.GetDatabase env0 (MkNWO "o" "r") hepc1).1 = Val ("PK", None) /\
  exists e, HepcOps.GetDatabase env0 (MkNWO "a" "b") hepc1 = (Val ("", Some e), HepcOps.tick hepc1).
Proof.
  split.
  - destruct (found_database_is_fetched env0 hepc1 (MkNWO "o" "r")) as (_ & H & _);
      [unfold fresh_at; vm_compute; done|].
    apply (H entry0 "/db/1" resp0 "PK"); [|reflexivity|vm_compute; reflexivity|].
    + exists [], [entry1]. split; [reflexivity|]. split; [reflexivity|constructor].
    + split; [reflexivity|]. split; reflexivity.
  - apply (found_database_is_fetched env0 hepc1 (MkNWO "a" "b")); [unfold fresh_at; vm_compute; done|].
    vm_compute. reflexivity.
Defined.

Lemma cache_duration_bounds_witness :
  let getenv name := if String.eqb name "MRVA_HEPC_CACHE_DURATION" then "153722868" else "" in
  getMetaCacheDuration getenv < 0.
Proof.
  intros getenv. apply (cache_duration_bounds getenv 153722868); [|done]. vm_compute. done.
Defined.

(** A URL that already has a port gets a second one. *)
Lemma replaceHepcURL_doubles_port :
  replaceHepcURL (fun _ => "") "http://hepc:8070/db/db-collection-host.tmp/x.zip"
  = "http://hepc:8070:8070/db/db-collection-host.tmp/x.zip".
Proof. reflexivity. Qed.
