(* ===== verification/Server.v ===== *)
(** [pkg/server]: the handlers of [CommanderSingle].

    The handlers are written against the interfaces [ServerState], [Store] and
    [QldbStore], as the Go code is.  A handler is a computation on the [World]
    one request sees: the stores, the messages sent to the jobs channel, the
    response.  Sends are recorded in order; a handler runs to completion here,
    the interleavings with workers and the results consumer are in [System].
    Logging is not modelled. *)
From S2P Require Import Prelude GoStrings GoUtf8 GoJson GoCodec GoBase64 Common Messages Http.
From S2P Require Import ArtifactStore State QldbStore Archive GoOs.

(** ** [types.go] *)
Record SessionInfo : Type := MkSessionInfo {
  si_ID : Z;
  si_QueryPack : string;
  si_Language : QueryLanguage;
  si_AccessMismatchRepos : list NameWithOwner;
  si_NotFoundRepos : list NameWithOwner;
  si_NoCodeqlDBRepos : list NameWithOwner
}.

(** [Visibles] and the [ResponseWriter] of the request being served.
    [w_tick] counts the readings of the clock. *)
Record World (SS AS DS : Type) : Type := MkWorld {
  w_state : SS;
  w_arts : AS;
  w_db : DS;
  w_jobs : list AnalyzeJob;
  w_resp : Writer;
  w_tick : nat
}.
Arguments MkWorld {SS AS DS} _ _ _ _ _ _.
Arguments w_state {SS AS DS} _.
Arguments w_arts {SS AS DS} _.
Arguments w_db {SS AS DS} _.
Arguments w_jobs {SS AS DS} _.
Arguments w_resp {SS AS DS} _.
Arguments w_tick {SS AS DS} _.

(** ** Pure helpers *)

(** [nwoToNwoStringArray] *)
Definition nwoToNwoStringArray (nwo : list NameWithOwner) : list string * Z :=
  (map full_name nwo, Z.of_nat (length nwo)).

(** [tryParseSubmitMsg]: the first JSON value of the body, unknown fields refused. *)
Definition tryParseSubmitMsg (buf : string) : gores SubmitMsg :=
  match DecodeFirst (dec_struct true SubmitMsg_fields) SubmitMsg_zero buf with
  | Some (m, _) => (m, None)
  | None => (SubmitMsg_zero, Some (EText "invalid submission"))
  end.

Section handlers.
Context {SS AS DS : Type} `{ServerState SS} `{Store AS} `{QldbStore DS}.

(** The environment: [os.Getenv] and the readings of [time.Now().Format(time.RFC3339)]. *)
Context (getenv : string -> string) (clock : nat -> string).

Notation World := (World SS AS DS).
Notation M := (GM World).

Definition on_state {A} (m : GM SS A) : M A :=
  zoom w_state (fun s w => MkWorld s (w_arts w) (w_db w) (w_jobs w) (w_resp w) (w_tick w)) m.
Definition on_arts {A} (m : GM AS A) : M A :=
  zoom w_arts (fun s w => MkWorld (w_state w) s (w_db w) (w_jobs w) (w_resp w) (w_tick w)) m.
Definition on_db {A} (m : GM DS A) : M A :=
  zoom w_db (fun s w => MkWorld (w_state w) (w_arts w) s (w_jobs w) (w_resp w) (w_tick w)) m.
Definition on_resp (f : Writer -> Writer) : M unit :=
  gmodify (fun w => MkWorld (w_state w) (w_arts w) (w_db w) (w_jobs w) (f (w_resp w)) (w_tick w)).

(** [c.v.Queue.Jobs() <- job] *)
Definition send_job (job : AnalyzeJob) : M unit :=
  gmodify (fun w => MkWorld (w_state w) (w_arts w) (w_db w) (w_jobs w ++ [job]) (w_resp w) (w_tick w)).

(** [time.Now().Format(time.RFC3339)] *)
Definition now : M string := fun w =>
  (Val (clock (w_tick w)),
   MkWorld (w_state w) (w_arts w) (w_db w) (w_jobs w) (w_resp w) (S (w_tick w))).

Definition Error (c : chunk) (code : Z) : M unit := on_resp (http_error c code).
Definition reply_json (doc : json) : M unit := on_resp (respond "application/json" (jprint doc)).

(** *** Submitting *)
Definition start_analysis (queryPackLocation : ArtifactLocation) (sessionId : Z)
    (queryLanguage : QueryLanguage) (nwo : NameWithOwner) : M unit :=
  let jobSpec := MkJobSpec sessionId nwo in
  let info := MkJob jobSpec queryPackLocation queryLanguage in
  send_job info ;;;
  on_state (SetStatus jobSpec StatusPending) ;;;
  on_state (AddJob info).

Definition startAnalyses (analysisRepos : list NameWithOwner) (queryPackLocation : ArtifactLocation)
    (sessionId : Z) (queryLanguage : QueryLanguage) : M unit :=
  gforeach (start_analysis queryPackLocation sessionId queryLanguage) analysisRepos.

Fixpoint nwoToDummyRepositories (nwo : list NameWithOwner) : M (list Repository) :=
  match nwo with
  | [] => gret []
  | repo :: nwo' =>
      let! t := now in
      let! repos := nwoToDummyRepositories nwo' in
      gret (MkRepository (-1) (Repo repo) (full_name repo) false 0 t :: repos)
  end.

Definition nwoToDummyRepositoryArray (nwo : list NameWithOwner) : M (list Repository * Z) :=
  let! repos := nwoToDummyRepositories nwo in
  gret (repos, Z.of_nat (length nwo)).

(** [json.Marshal] cannot fail on the response types (no channels, functions,
    floats or cyclic values), so its error branches do not appear. *)
Definition buildSessionInfoResponseJson (si : SessionInfo) : M (gores json) :=
  let '(repoNames, count) := nwoToNwoStringArray (si_NotFoundRepos si) in
  let notFoundRepos := MkNotFoundRepos count repoNames in
  let! (repos, _) := nwoToDummyRepositoryArray (si_AccessMismatchRepos si) in
  let accessMismatchRepos := MkAccessMismatchRepos count repos in
  let! (repos, _) := nwoToDummyRepositoryArray (si_NoCodeqlDBRepos si) in
  let noCodeQLDBRepos := MkNoCodeqlDBRepos count repos in
  let! (repos, _) := nwoToDummyRepositoryArray (si_NoCodeqlDBRepos si) in
  let overlimitRepos := MkOverLimitRepos count repos in
  let skippedRepositories :=
    MkSkippedRepositories accessMismatchRepos notFoundRepos noCodeQLDBRepos overlimitRepos in
  let! createdAt := now in
  let! updatedAt := now in
  let response :=
    MkSubmitResponse (si_ID si) ControllerRepo_zero Actor_zero (si_Language si) (si_QueryPack si)
      createdAt updatedAt "in_progress" skippedRepositories in
  let! (joblist, err) := on_state (GetJobList (si_ID si)) in
  match err with
  | Some e => gret (JNull, Some e)
  | None =>
      gforeach (fun job =>
        on_state (SetJobInfo (MkJobSpec (si_ID si) (js_NameWithOwner (aj_Spec job)))
          (MkJobInfo (si_Language si) (sb_CreatedAt response) (sb_UpdatedAt response)
             skippedRepositories))) joblist ;;;
      gret (SubmitResponse_json response, None)
  end.

Definition decodeAndSaveBase64QueryPack (qp : string) (sessionId : Z) : M (gores ArtifactLocation) :=
  match b64_decode StdEncoding qp with
  | None => gret (ArtifactLocation_zero, Some (EText "illegal base64 data"))
  | Some tgz =>
      let! (artifactLocation, err) := on_arts (SaveQueryPack sessionId tgz) in
      match err with
      | Some e => gret (ArtifactLocation_zero, Some e)
      | None => gret (artifactLocation, None)
      end
  end.

(** The loop over [msg.Repositories].  An entry without exactly one slash gets
    a 400 but the loop goes on: [t[1]] panics if there was no slash, and the
    first two pieces are used if there were several. *)
Fixpoint collect_repos (entries : list string) : M (list NameWithOwner) :=
  match entries with
  | [] => gret []
  | v :: entries' =>
      let t := split_byte "/" v in
      (if negb (Nat.eqb (length t) 2)
       then Error (CBytes "Invalid owner / repository entry") StatusBadRequest
       else gret tt) ;;;
      match t with
      | o :: r :: _ =>
          let! rest := collect_repos entries' in
          gret (MkNWO o r :: rest)
      | _ => gpanic "runtime error: index out of range [1] with length 1"
      end
  end.

Definition request_info : Type := (QueryLanguage * list NameWithOwner * ArtifactLocation)%type.
Definition no_request_info : request_info := ("", [], ArtifactLocation_zero).

Definition collectRequestInfoAndSaveQueryPack (r : Request) (sessionId : Z) : M (gores request_info) :=
  match req_body r with
  | BodyNil =>
      let err := EText "missing request body" in
      Error (CErr err) StatusNoContent ;;;
      gret (no_request_info, Some err)
  | BodyFails err =>
      (* [var w http.ResponseWriter] shadows the writer with a nil interface *)
      gpanic "runtime error: invalid memory address or nil pointer dereference"
  | BodyData buf =>
      let '(msg, err) := tryParseSubmitMsg buf in
      match err with
      | Some e =>
          Error (CErr e) StatusBadRequest ;;;
          gret (no_request_info, Some e)
      | None =>
          if negb (IsBase64Gzip (sm_QueryPack msg)) then
            let e := EText "MRVA submission body querypack has invalid format" in
            Error (CErr e) StatusBadRequest ;;;
            gret (no_request_info, Some e)
          else
            let! (queryPackLocation, err) :=
              decodeAndSaveBase64QueryPack (sm_QueryPack msg) sessionId in
            match err with
            | Some e =>
                Error (CErr e) StatusBadRequest ;;;
                gret (no_request_info, Some e)
            | None =>
                let! sessionRepos := collect_repos (sm_Repositories msg) in
                gret (sm_Language msg, sessionRepos, queryPackLocation, None)
            end
      end
  end.

Definition MRVARequestCommon (r : Request) : M unit :=
  let! sessionId := on_state NextID in
  let! (queryLanguage, repoNWOs, queryPackLocation, err) :=
    collectRequestInfoAndSaveQueryPack r sessionId in
  match err with
  | Some e => Error (CErr e) StatusBadRequest
  | None =>
      let! (notFoundRepos, analysisRepos) := on_db (FindAvailableDBs repoNWOs) in
      startAnalyses analysisRepos queryPackLocation sessionId queryLanguage ;;;
      let sessionInfo :=
        MkSessionInfo sessionId (itoa sessionId) queryLanguage [] notFoundRepos [] in
      let! (submitResponseJson, err) := buildSessionInfoResponseJson sessionInfo in
      match err with
      | Some e => Error (CErr e) StatusInternalServerError
      | None => reply_json submitResponseJson
      end
  end.

Definition MRVARequest (r : Request) : M unit := MRVARequestCommon r.
Definition MRVARequestID (r : Request) : M unit := MRVARequestCommon r.
Definition RootHandler (r : Request) : M unit := gret tt.

(** *** Status *)
Definition empty_skipped : SkippedRepositories :=
  MkSkippedRepositories (MkAccessMismatchRepos 0 []) (MkNotFoundRepos 0 [])
    (MkNoCodeqlDBRepos 0 []) (MkOverLimitRepos 0 []).

Definition submitEmptyStatusResponse (jsSessionID : Z) : M unit :=
  let ji := MkJobInfo "" "" "" empty_skipped in
  reply_json (StatusResponse_json
    (MkStatusResponse jsSessionID ControllerRepo_zero Actor_zero (ji_QueryLanguage ji) ""
       (ji_CreatedAt ji) (ji_UpdatedAt ji) (-1) (ToExternalString StatusSucceeded) []
       (ji_SkippedRepositories ji))).

(** The entry of one job; [None] when an error response was written and the
    handler returns. *)
Definition scan_job (ji : JobInfo) (job : AnalyzeJob) : M (option ScannedRepo) :=
  let spec := aj_Spec job in
  let! (status, err) := on_state (GetStatus spec) in
  match err with
  | Some e => Error (CErr e) StatusUnprocessableEntity ;;; gret None
  | None =>
      let entry (resultCount artifactSize : Z) : M (option ScannedRepo) :=
        let! jobRepoId := on_state (GetRepoId (js_NameWithOwner spec)) in
        gret (Some (MkScannedRepo
          (MkRepository jobRepoId (js_Repo spec) (full_name (js_NameWithOwner spec)) false 0
             (ji_UpdatedAt ji))
          (ToExternalString status) resultCount artifactSize)) in
      if negb (status =? StatusSucceeded) then entry 0 0
      else
        let! (jobResult, err) := on_state (GetResult spec) in
        match err with
        | Some e => Error (CErr e) StatusUnprocessableEntity ;;; gret None
        | None =>
            let! (artifactSize, err) := on_arts (GetResultSize (ar_ResultLocation jobResult)) in
            match err with
            | Some e => Error (CErr e) StatusUnprocessableEntity ;;; gret None
            | None => entry (ar_ResultCount jobResult) artifactSize
            end
        end
  end.

Fixpoint scan_jobs (ji : JobInfo) (jobs : list AnalyzeJob) : M (option (list ScannedRepo)) :=
  match jobs with
  | [] => gret (Some [])
  | job :: jobs' =>
      let! first := scan_job ji job in
      match first with
      | None => gret None
      | Some repo =>
          let! rest := scan_jobs ji jobs' in
          gret (match rest with None => None | Some repos => Some (repo :: repos) end)
      end
  end.

Definition submitStatusResponse (js : JobSpec) (ji : JobInfo) : M unit :=
  let! (jobs, err) := on_state (GetJobList (SessionID js)) in
  match err with
  | Some e => Error (CErr e) StatusUnprocessableEntity
  | None =>
      let! scanned := scan_jobs ji jobs in
      match scanned with
      | None => gret tt
      | Some scannedRepos =>
          let! (sessionSummary, err) := on_state (GetSessionStatus (SessionID js)) in
          match err with
          | Some e => Error (CErr e) StatusUnprocessableEntity
          | None =>
              reply_json (StatusResponse_json
                (MkStatusResponse (SessionID js) ControllerRepo_zero Actor_zero
                   (ji_QueryLanguage ji) "" (ji_CreatedAt ji) (ji_UpdatedAt ji) (-1)
                   (ToExternalString (Overall sessionSummary)) scannedRepos
                   (ji_SkippedRepositories ji)))
          end
      end
  end.

Definition MRVAStatusCommon (owner repo variantAnalysisID : string) : M unit :=
  let '(sessionId, err) := ParseInt variantAnalysisID 32 in
  match err with
  | Some e => Error (CErr e) StatusBadRequest
  | None =>
      let! (jobs, err) := on_state (GetJobList sessionId) in
      match err with
      | Some _ => Error (CBytes "No jobs found for given session id") StatusNotFound
      | None =>
          match jobs with
          | [] => submitEmptyStatusResponse sessionId
          | job :: _ =>
              let! (jobInfo, err) := on_state (GetJobInfo (aj_Spec job)) in
              match err with
              | Some _ => Error (CBytes "No job info found for given session id") StatusBadRequest
              | None => submitStatusResponse (aj_Spec job) jobInfo
              end
          end
      end
  end.

Definition MRVAStatusID (r : Request) : M unit :=
  MRVAStatusCommon "unused" "unused" (var r "codeql_variant_analysis_id").

Definition MRVAStatus (r : Request) : M unit :=
  MRVAStatusCommon (var r "owner") (var r "repo") (var r "codeql_variant_analysis_id").

(** *** Downloads *)
Definition env_or (name fallback : string) : string :=
  if String.eqb (getenv name) "" then fallback else getenv name.

Definition artifact_url (encodedJobSpec : string) : string :=
  "http://" +:+ env_or "SERVER_HOST" "localhost" +:+ ":" +:+ env_or "SERVER_PORT" "8080"
    +:+ "/download/" +:+ encodedJobSpec.

Definition download_repo (jobRepoId : Z) (jobSpec : JobSpec) : DownloadRepo :=
  MkDownloadRepo jobRepoId "" (js_Repo jobSpec) (full_name (js_NameWithOwner jobSpec)) false Actor_zero
    "" "" false "" "" "" "" "" "" "" "" "" "" "" "" "" "" "" "" "" "" "" "" "" "" "" "" "" "" "" "" ""
    "" "" "" "" "" "" "".

Definition sendArtifactDownloadResponse (jobRepoId : Z) (jobSpec : JobSpec) : M unit :=
  let! (jobStatus, err) := on_state (GetStatus jobSpec) in
  match err with
  | Some e => Error (CErr e) StatusUnprocessableEntity
  | None =>
      if jobStatus =? StatusSucceeded then
        let! (jobResult, err) := on_state (GetResult jobSpec) in
        match err with
        | Some e => Error (CErr e) StatusUnprocessableEntity
        | None =>
            let! (jobResultData, err) := on_arts (GetArtifact (ar_ResultLocation jobResult)) in
            match err with
            | Some e => Error (CErr e) StatusInternalServerError
            | None =>
                let '(encodedJobSpec, err) := EncodeJobSpec jobSpec in
                match err with
                | Some _ => Error (CBytes "Failed to encode job spec") StatusInternalServerError
                | None =>
                    reply_json (DownloadResponse_json
                      (MkDownloadResponse (download_repo jobRepoId jobSpec)
                         (ToExternalString jobStatus) (ar_ResultCount jobResult)
                         (slen jobResultData) (ar_DatabaseSHA jobResult)
                         (ar_SourceLocationPrefix jobResult) (artifact_url encodedJobSpec)))
                end
            end
        end
      else
        reply_json (DownloadResponse_json
          (MkDownloadResponse (download_repo jobRepoId jobSpec) (ToExternalString jobStatus)
             0 0 "" "" ""))
  end.

Definition MRVADownloadArtifactCommon (jobRepoId : Z) (jobSpec : JobSpec) : M unit :=
  sendArtifactDownloadResponse jobRepoId jobSpec.

Definition MRVADownloadArtifactID (r : Request) : M unit :=
  let '(sessionId, err) := ParseInt (var r "codeql_variant_analysis_id") 32 in
  match err with
  | Some e => Error (CErr e) StatusBadRequest
  | None =>
      let '(repoId, err) := ParseInt (var r "repository_id") 32 in
      match err with
      | Some e => Error (CErr e) StatusBadRequest
      | None =>
          let! (jobSpec, err) := on_state (GetJobSpecByRepoId sessionId repoId) in
          match err with
          | Some e => Error (CErr e) StatusUnprocessableEntity
          | None => MRVADownloadArtifactCommon repoId jobSpec
          end
      end
  end.

Definition MRVADownloadArtifact (r : Request) : M unit :=
  let '(sessionId, err) := ParseInt (var r "codeql_variant_analysis_id") 32 in
  match err with
  | Some e => Error (CErr e) StatusBadRequest
  | None =>
      MRVADownloadArtifactCommon (-1)
        (MkJobSpec sessionId (MkNWO (var r "repo_owner") (var r "repo_name")))
  end.

Definition MRVADownloadQLDB (r : Request) : M unit :=
  let dbl := MkNWO (var r "repo_owner") (var r "repo_name") in
  let! (dbContent, err) := on_db (GetDatabase dbl) in
  match err with
  | Some _ => Error (CBytes "Failed to retrieve ql database") StatusInternalServerError
  | None => on_resp (respond "application/octet-stream" dbContent)
  end.

Definition MRVADownloadServe (r : Request) : M unit :=
  let '(jobSpec, err) := DecodeJobSpec (var r "encoded_job_spec") in
  match err with
  | Some _ => Error (CBytes "Invalid job spec") StatusBadRequest
  | None =>
      let! (result, err) := on_state (GetResult jobSpec) in
      match err with
      | Some _ => Error (CBytes "Failed to get result") StatusInternalServerError
      | None =>
          let! (data, err) := on_arts (GetArtifact (ar_ResultLocation result)) in
          match err with
          | Some _ => Error (CBytes "Failed to retrieve artifact") StatusInternalServerError
          | None => on_resp (respond "application/octet-stream" data)
          end
      end
  end.

(** *** Endpoints: the routes [setupEndpoints] registers; which route a path
    matches, and with which variables, is the router's business. *)
Inductive endpoint : Type :=
| EpRoot | EpHealthz | EpSubmit | EpSubmitID | EpStatus | EpStatusID
| EpDownloadQLDB | EpDownloadArtifact | EpDownloadArtifactID | EpDownloadServe | EpNotFound.

Definition serve (e : endpoint) (r : Request) : M unit :=
  match e with
  | EpRoot => RootHandler r
  | EpHealthz => on_resp (write_header StatusOK) ;;; on_resp (write (CBytes "ok"))
  | EpSubmit => MRVARequest r
  | EpSubmitID => MRVARequestID r
  | EpStatus => MRVAStatus r
  | EpStatusID => MRVAStatusID r
  | EpDownloadQLDB => MRVADownloadQLDB r
  | EpDownloadArtifact => MRVADownloadArtifact r
  | EpDownloadArtifactID => MRVADownloadArtifactID r
  | EpDownloadServe => MRVADownloadServe r
  | EpNotFound => Error (CBytes "Not Found") StatusNotFound
  end.

(** *** The results consumer: the body of the loop of [ConsumeResults] *)
Definition consume_result (r : AnalyzeResult) : M unit :=
  on_state (SetResult (ar_Spec r) r) ;;;
  on_state (SetStatus (ar_Spec r) (ar_Status r)).

End handlers.

(** *** [ListenAndServe]: the socket is a parameter, from an address to an error. *)
Definition ListenAndServe (LookupEnv : string -> option string) (http_ListenAndServe : string -> option error)
    : startup unit :=
  let port := Getenv LookupEnv "SERVER_PORT" in
  let port := if String.eqb port "" then "8080" else port in
  match http_ListenAndServe (":" +:+ port) with
  | Some _ => Exits 1
  | None => Returns (inr tt)
  end.
