(* ===== verification/ServerSpec.v ===== *)
(** The handlers of [Server] against the specifications of the stores: what a
    request does to the abstract state, to the queue and to the response.
    Every theorem holds for any implementation of the interfaces. *)
From S2P Require Import Prelude GoStrings GoUtf8 GoJson GoCodec GoBase64 Common Messages Http.
From S2P Require Import ArtifactStore State QldbStore Archive Server.

(** ** Sessions in the abstract state *)
Definition job_of (loc : ArtifactLocation) (sid : Z) (lang : QueryLanguage) (nwo : NameWithOwner)
    : AnalyzeJob := MkJob (MkJobSpec sid nwo) loc lang.

Definition view_start (v : View) (job : AnalyzeJob) : View :=
  view_add_job job (view_set_status (aj_Spec job) StatusPending v).

Definition view_inform (ji : JobInfo) (v : View) (js : JobSpec) : View := view_set_info js ji v.

#[export] Instance view_start_proper : Proper ((≡) ==> (=) ==> (≡)) view_start.
Proof. intros v1 v2 H j ? <-. unfold view_start. by rewrite H. Qed.

#[export] Instance view_start_fold_proper : Proper ((≡) ==> (=) ==> (≡)) (foldl view_start).
Proof.
  intros v1 v2 H l ? <-. revert v1 v2 H. induction l as [|j l IH]; intros v1 v2 H; [done|].
  simpl. apply IH. by rewrite H.
Qed.

#[export] Instance view_inform_fold_proper ji : Proper ((≡) ==> (=) ==> (≡)) (foldl (view_inform ji)).
Proof.
  intros v1 v2 H l ? <-. revert v1 v2 H. induction l as [|j l IH]; intros v1 v2 H; [done|].
  simpl. apply IH. unfold view_inform. by rewrite H.
Qed.

Lemma starts_frame jobs v :
  (forall sid, v_known (foldl view_start v jobs) sid <-> v_known v sid) /\
  v_result (foldl view_start v jobs) = v_result v /\ v_info (foldl view_start v jobs) = v_info v.
Proof. revert v. induction jobs as [|j l IH]; intros v; simpl; [done|]. destruct (IH (view_start v j)) as (?&?&?). naive_solver. Qed.

Lemma starts_jobs jobs v sid :
  v_jobs (foldl view_start v jobs) sid ≡ₚ
  List.filter (fun j => SessionID (aj_Spec j) =? sid) jobs ++ v_jobs v sid.
Proof.
  revert v. induction jobs as [|j l IH]; intros v; simpl; [done|]. rewrite IH. simpl.
  case_decide as E.
  - rewrite (proj2 (Z.eqb_eq _ _)) by done. simpl. by rewrite Permutation_middle.
  - by rewrite (proj2 (Z.eqb_neq _ _)) by congruence.
Qed.

Lemma starts_status jobs v js :
  v_status (foldl view_start v jobs) !! js =
  if decide (js ∈ map aj_Spec jobs) then Some StatusPending else v_status v !! js.
Proof.
  revert v. induction jobs as [|j l IH]; intros v; simpl; [done|]. rewrite IH. simpl.
  rewrite lookup_insert. repeat case_decide; set_solver.
Qed.

Lemma informs_frame ji specs v :
  (forall sid, v_known (foldl (view_inform ji) v specs) sid <-> v_known v sid) /\
  v_jobs (foldl (view_inform ji) v specs) = v_jobs v /\
  v_status (foldl (view_inform ji) v specs) = v_status v /\
  v_result (foldl (view_inform ji) v specs) = v_result v.
Proof. revert v. induction specs as [|j l IH]; intros v; simpl; [done|]. apply (IH (view_inform ji v j)). Qed.

Lemma informs_info ji specs v js :
  v_info (foldl (view_inform ji) v specs) !! js =
  if decide (js ∈ specs) then Some ji else v_info v !! js.
Proof.
  revert v. induction specs as [|j l IH]; intros v; simpl; [done|]. rewrite IH. simpl.
  rewrite lookup_insert. repeat case_decide; set_solver.
Qed.

(** What accepting a submission means: session [sid] is open, its jobs are the
    repositories found, each pending and described by [ji]; the rest is as it was. *)
Record accepted (sid : Z) (loc : ArtifactLocation) (lang : QueryLanguage)
    (found : list NameWithOwner) (ji : JobInfo) (v v' : View) : Prop := {
  acc_known : forall x, v_known v' x <-> x = sid \/ v_known v x;
  acc_jobs : v_jobs v' sid ≡ₚ map (job_of loc sid lang) found;
  acc_jobs_frame : forall x, x <> sid -> v_jobs v' x ≡ₚ v_jobs v x;
  acc_pending : forall nwo, nwo ∈ found -> v_status v' !! MkJobSpec sid nwo = Some StatusPending;
  acc_info : forall nwo, nwo ∈ found -> v_info v' !! MkJobSpec sid nwo = Some ji;
  acc_frame : forall js, js ∉ map (MkJobSpec sid) found ->
    v_status v' !! js = v_status v !! js /\ v_info v' !! js = v_info v !! js;
  acc_result : v_result v' = v_result v
}.

Definition accepted_view (sid : Z) (jobs : list AnalyzeJob) (ji : JobInfo) (v : View) : View :=
  foldl (view_inform ji) (foldl view_start (view_open sid v) jobs) (map aj_Spec jobs).

Lemma specs_of_jobs loc sid lang found :
  map aj_Spec (map (job_of loc sid lang) found) = map (MkJobSpec sid) found.
Proof. by rewrite map_map. Qed.

Lemma in_specs sid found nwo : MkJobSpec sid nwo ∈ map (MkJobSpec sid) found <-> nwo ∈ found.
Proof.
  rewrite !list_elem_of_In, in_map_iff. split; [intros (x & E & H); by simplify_eq|]. by exists nwo.
Qed.

Lemma accepted_view_accepted sid loc lang found ji v :
  accepted sid loc lang found ji v (accepted_view sid (map (job_of loc sid lang) found) ji v).
Proof.
  unfold accepted_view. set (jobs := map (job_of loc sid lang) found).
  destruct (informs_frame ji (map aj_Spec jobs) (foldl view_start (view_open sid v) jobs)) as (Hk & Hj & Hs & Hr).
  destruct (starts_frame jobs (view_open sid v)) as (Hk' & Hr' & Hi').
  assert (forall x, List.filter (fun j => SessionID (aj_Spec j) =? x) jobs
                    = if decide (x = sid) then jobs else []) as Hfilter.
  { intros x. unfold jobs. clear. induction found as [|nwo found IH]; simpl; [by case_decide|].
    rewrite IH. destruct (Z.eqb_spec sid x), (decide (x = sid)); congruence. }
  split.
  - intros x. by rewrite Hk, Hk'.
  - rewrite Hj, starts_jobs, Hfilter. simpl. rewrite !decide_True by done. by rewrite app_nil_r.
  - intros x Hx. rewrite Hj, starts_jobs, Hfilter. simpl. by rewrite !decide_False by done.
  - intros nwo Hnwo. rewrite Hs, starts_status. unfold jobs. rewrite specs_of_jobs.
    by rewrite decide_True by by apply in_specs.
  - intros nwo Hnwo. rewrite informs_info. unfold jobs. rewrite specs_of_jobs.
    by rewrite decide_True by by apply in_specs.
  - intros js Hjs. rewrite informs_info, Hs, starts_status, Hi'. unfold jobs. rewrite specs_of_jobs.
    by rewrite !decide_False.
  - by rewrite Hr, Hr'.
Qed.

#[export] Instance accepted_proper sid loc lang found ji :
  Proper ((≡) ==> (≡) ==> iff) (accepted sid loc lang found ji).
Proof.
  assert (forall v1 v2 w1 w2, v1 ≡ v2 -> w1 ≡ w2 -> accepted sid loc lang found ji v1 w1 ->
          accepted sid loc lang found ji v2 w2) as H.
  { intros v1 v2 w1 w2 (Hk & Hj & Hs & Hr & Hi) (Hk' & Hj' & Hs' & Hr' & Hi') [A1 A2 A3 A4 A5 A6 A7].
    split; try rewrite <- Hs; try rewrite <- Hs'; try rewrite <- Hi; try rewrite <- Hi'; try done.
    - intros x. by rewrite <- Hk', A1, Hk.
    - by rewrite <- Hj'.
    - intros x Hx. by rewrite <- Hj', A3, Hj.
    - by rewrite <- Hr', A7. }
  intros v1 v2 Hv w1 w2 Hw. split; apply H; done || by symmetry.
Qed.

(** ** Submitting *)
Section submit.
Context {SS AS DS : Type} `{!ServerState SS, !ServerStateSpec SS, !Store AS, !StoreLaws AS,
  !QldbStore DS, !QldbStoreLaws DS}.
Context (clock : nat -> string).

Implicit Types w : World SS AS DS.

Definition with_state (s : SS) w : World SS AS DS :=
  MkWorld s (w_arts w) (w_db w) (w_jobs w) (w_resp w) (w_tick w).

Lemma on_state_ok {A} (m : GM SS A) w o s' :
  m (w_state w) = (o, s') -> on_state m w = (o, with_state s' w).
Proof. intros H. unfold on_state, zoom. by rewrite H. Qed.

Lemma on_db_ok {A} (m : GM DS A) w o d :
  m (w_db w) = (o, d) ->
  on_db m w = (o, MkWorld (w_state w) (w_arts w) d (w_jobs w) (w_resp w) (w_tick w)).
Proof. intros H. unfold on_db, zoom. by rewrite H. Qed.

Definition queued (jobs : list AnalyzeJob) (s : SS) w : World SS AS DS :=
  MkWorld s (w_arts w) (w_db w) (w_jobs w ++ jobs) (w_resp w) (w_tick w).

Lemma start_analysis_ok n w loc sid lang nwo :
  let job := job_of loc sid lang nwo in
  wf (S n) (w_state w) -> v_known (view (w_state w)) sid ->
  storable_spec (aj_Spec job) -> storable_job job ->
  aj_Spec job ∉ map aj_Spec (v_jobs (view (w_state w)) sid) ->
  exists s', start_analysis loc sid lang nwo w = (Val tt, queued [job] s' w) /\ wf n s' /\
    view s' ≡ view_start (view (w_state w)) job.
Proof.
  intros job Hwf Hk Hspec Hjob Hnew.
  destruct (SetStatus_ok (S n) (w_state w) (aj_Spec job) StatusPending) as (s1 & H1 & Hwf1 & Hv1);
    [done|done|done|done|].
  pose proof Hv1 as (Hk1 & Hj1 & _).
  destruct (AddJob_ok n s1 job) as (s2 & H2 & Hwf2 & Hv2); [done|by apply Hk1|done| |].
  { by rewrite (Hj1 _). }
  exists s2. split_and!; [|done|by rewrite Hv2, Hv1].
  unfold start_analysis. cbn zeta. fold job. unfold job_of in job. fold job.
  unfold gbind at 1. cbn [send_job gmodify].
  erewrite gbind_val; [|by apply on_state_ok]. by erewrite on_state_ok.
Qed.

Lemma startAnalyses_ok n repos w loc sid lang :
  wf (length repos + n) (w_state w) -> v_known (view (w_state w)) sid -> NoDup repos ->
  (forall nwo, nwo ∈ repos -> storable_spec (MkJobSpec sid nwo) /\ storable_job (job_of loc sid lang nwo) /\
     MkJobSpec sid nwo ∉ map aj_Spec (v_jobs (view (w_state w)) sid)) ->
  exists s', startAnalyses repos loc sid lang w
             = (Val tt, queued (map (job_of loc sid lang) repos) s' w) /\ wf n s' /\
    view s' ≡ foldl view_start (view (w_state w)) (map (job_of loc sid lang) repos).
Proof.
  revert w. induction repos as [|nwo repos IH]; intros w Hwf Hk Hnd Hst; simpl.
  { exists (w_state w). split_and!; [|done|done]. unfold queued. rewrite app_nil_r. by destruct w. }
  apply list.NoDup_cons in Hnd as [Hnin Hnd]. destruct (Hst nwo) as (Hs & Hj & Hn); [left|].
  destruct (start_analysis_ok (length repos + n) w loc sid lang nwo) as (s1 & H1 & Hwf1 & Hv1); [done..|].
  destruct (IH (queued [job_of loc sid lang nwo] s1 w)) as (s2 & H2 & Hwf2 & Hv2); simpl.
  - done.
  - destruct Hv1 as [Hk1 _]. by apply Hk1.
  - done.
  - intros nwo' Hin. destruct (Hst nwo') as (?&?&Hn'); [by right|]. split_and!; [done|done|].
    destruct Hv1 as (_ & Hj1 & _). rewrite (Hj1 sid). simpl. rewrite decide_True by done.
    simpl. rewrite not_elem_of_cons. split; [|done]. intros [= ->]. done.
  - exists s2. split_and!; [|done|by rewrite Hv2; simpl; rewrite Hv1].
    unfold startAnalyses in *. simpl. erewrite gbind_val by exact H1. rewrite H2.
    unfold queued. simpl. by rewrite <- app_assoc.
Qed.

Lemma SetJobInfo_loop n w sid ji specs :
  wf n (w_state w) -> v_known (view (w_state w)) sid -> storable_info ji ->
  (forall js, js ∈ specs -> SessionID js = sid /\ storable_spec js) ->
  exists s', gforeach (fun js => on_state (SetJobInfo js ji)) specs w = (Val tt, with_state s' w) /\
    wf n s' /\ view s' ≡ foldl (view_inform ji) (view (w_state w)) specs.
Proof.
  revert w. induction specs as [|js specs IH]; intros w Hwf Hk Hji Hsp; simpl.
  { exists (w_state w). by destruct w. }
  destruct (Hsp js) as [Hsid Hst]; [left|].
  destruct (SetJobInfo_ok n (w_state w) js ji) as (s1 & H1 & Hwf1 & Hv1); [done|by rewrite Hsid|done|done|].
  destruct (IH (with_state s1 w)) as (s2 & H2 & Hwf2 & Hv2); simpl; [done| |done| |].
  - destruct Hv1 as [Hk1 _]. by apply Hk1.
  - intros js' Hin. apply Hsp. by right.
  - exists s2. split_and!; [|done|].
    + erewrite gbind_val; [|by apply on_state_ok]. by rewrite H2.
    + rewrite Hv2. simpl. unfold view_inform at 2. by rewrite Hv1.
Qed.

Lemma informs_perm ji specs specs' v :
  specs ≡ₚ specs' -> foldl (view_inform ji) v specs ≡ foldl (view_inform ji) v specs'.
Proof.
  intros Hp. destruct (informs_frame ji specs v) as (Hk & Hj & Hs & Hr).
  destruct (informs_frame ji specs' v) as (Hk' & Hj' & Hs' & Hr'). split_and!.
  - intros sid. by rewrite Hk, Hk'.
  - intros sid. by rewrite Hj, Hj'.
  - congruence.
  - congruence.
  - apply map_eq. intros js. rewrite !informs_info.
    by rewrite (decide_ext _ _ _ _ (elem_of_Permutation_proper js _ _ Hp)).
Qed.

(** The skipped repositories of a response: the count of the repositories not
    found is the count of every category, the other lists being empty. *)
Definition skipped_of (notFound : list NameWithOwner) : SkippedRepositories :=
  let count := Z.of_nat (length notFound) in
  MkSkippedRepositories (MkAccessMismatchRepos count []) (MkNotFoundRepos count (map full_name notFound))
    (MkNoCodeqlDBRepos count []) (MkOverLimitRepos count []).

Definition info_of (lang : QueryLanguage) (notFound : list NameWithOwner) (tick : nat) : JobInfo :=
  MkJobInfo lang (clock tick) (clock (S tick)) (skipped_of notFound).

Definition submit_response (sid : Z) (lang : QueryLanguage) (notFound : list NameWithOwner) (tick : nat)
    : SubmitResponse :=
  MkSubmitResponse sid ControllerRepo_zero Actor_zero lang (itoa sid) (clock tick) (clock (S tick))
    "in_progress" (skipped_of notFound).

Definition two_ticks (s : SS) w : World SS AS DS :=
  MkWorld s (w_arts w) (w_db w) (w_jobs w) (w_resp w) (S (S (w_tick w))).

Lemma buildSessionInfo_ok n w sid lang loc found notFound :
  let ji := info_of lang notFound (w_tick w) in
  wf n (w_state w) -> v_known (view (w_state w)) sid -> storable_info ji ->
  v_jobs (view (w_state w)) sid ≡ₚ map (job_of loc sid lang) found ->
  (forall nwo, nwo ∈ found -> storable_spec (MkJobSpec sid nwo)) ->
  exists s', buildSessionInfoResponseJson clock (MkSessionInfo sid (itoa sid) lang [] notFound []) w
    = (Val (SubmitResponse_json (submit_response sid lang notFound (w_tick w)), None), two_ticks s' w) /\
    wf n s' /\
    view s' ≡ foldl (view_inform ji) (view (w_state w)) (map (MkJobSpec sid) found).
Proof.
  intros ji Hwf Hk Hji Hjobs Hst.
  destruct (GetJobList_ok n (w_state w) sid Hwf Hk) as (l & Hl & Hp).
  assert (map (fun job => MkJobSpec sid (js_NameWithOwner (aj_Spec job))) l
          ≡ₚ map (MkJobSpec sid) found) as Hspecs.
  { rewrite Hp, Hjobs, map_map. done. }
  set (w1 := two_ticks (w_state w) w).
  destruct (SetJobInfo_loop n w1 sid ji
    (map (fun job => MkJobSpec sid (js_NameWithOwner (aj_Spec job))) l)) as (s' & Hs & Hwf' & Hv);
    [done|done|done| |].
  { intros js. rewrite Hspecs, list_elem_of_In, in_map_iff. intros (nwo & <- & Hin).
    split; [done|]. by apply Hst, list_elem_of_In. }
  exists s'. split_and!; [|done|by rewrite Hv, (informs_perm _ _ _ _ Hspecs)].
  rewrite gforeach_map in Hs. unfold buildSessionInfoResponseJson, nwoToNwoStringArray.
  cbn [si_NotFoundRepos si_AccessMismatchRepos si_NoCodeqlDBRepos si_ID si_Language si_QueryPack
       nwoToDummyRepositoryArray nwoToDummyRepositories gbind gret now sb_CreatedAt sb_UpdatedAt w_state
       w_arts w_db w_jobs w_resp w_tick].
  change (MkWorld (w_state w) (w_arts w) (w_db w) (w_jobs w) (w_resp w) (S (S (w_tick w)))) with w1.
  go_step (on_state_ok _ w1 _ _ Hl). go_step Hs. done.
Qed.

(** The loop over the repositories of a message: what is kept of an entry, and
    the complaints written to the response. *)
Definition well_formed_entry (e : string) : bool := Nat.eqb (length (split_byte "/" e)) 2.

Definition complain (e : string) (r : Writer) : Writer :=
  if well_formed_entry e then r
  else http_error (CBytes "Invalid owner / repository entry") StatusBadRequest r.

Definition entry_is (e : string) (nwo : NameWithOwner) : Prop :=
  exists rest, split_byte "/" e = Owner nwo :: Repo nwo :: rest.

Definition with_resp (r : Writer) w : World SS AS DS :=
  MkWorld (w_state w) (w_arts w) (w_db w) (w_jobs w) r (w_tick w).

Lemma collect_repos_ok entries repos w :
  Forall2 entry_is entries repos ->
  collect_repos entries w = (Val repos, with_resp (foldl (fun r e => complain e r) (w_resp w) entries) w).
Proof.
  intros H. revert w. induction H as [|e nwo entries repos [rest He] _ IH]; intros w; simpl.
  { by destruct w. }
  assert ((if negb (length (split_byte "/" e) =? 2)%nat
           then Error (CBytes "Invalid owner / repository entry") StatusBadRequest else gret tt) w
          = (Val tt, with_resp (complain e (w_resp w)) w)) as Hc.
  { unfold complain, well_formed_entry. destruct (length (split_byte "/" e) =? 2)%nat; simpl; [by destruct w|done]. }
  erewrite gbind_val by exact Hc. rewrite He.
  erewrite gbind_val by apply IH. by destruct nwo.
Qed.

Lemma full_name_entry nwo :
  in_string "/" (Owner nwo) = false -> in_string "/" (Repo nwo) = false ->
  split_byte "/" (full_name nwo) = [Owner nwo; Repo nwo].
Proof.
  intros Ho Hr. unfold full_name. change ("/" +:+ Repo nwo) with (String "/" (Repo nwo)).
  rewrite split_byte_app by done. by rewrite split_byte_no_sep.
Qed.

Lemma no_complaints entries r :
  Forall (fun e => well_formed_entry e = true) entries ->
  foldl (fun r e => complain e r) r entries = r.
Proof.
  intros H. revert r. induction H as [|e entries He _ IH]; intros r; [done|].
  simpl. unfold complain at 2. by rewrite He.
Qed.

(** What the parts of a request that is not refused have in common. *)
Record readable (r : Request) (w : World SS AS DS) (sid : Z) (s1 : SS) (msg : SubmitMsg)
    (tgz : string) (loc : ArtifactLocation) (a1 : AS) : Prop := {
  rd_id : NextID (w_state w) = (Val sid, s1);
  rd_body : exists buf, req_body r = BodyData buf /\ tryParseSubmitMsg buf = (msg, None);
  rd_gzip : IsBase64Gzip (sm_QueryPack msg) = true;
  rd_base64 : b64_decode StdEncoding (sm_QueryPack msg) = Some tgz;
  rd_saved : SaveQueryPack sid tgz (w_arts w) = (Val (loc, None), a1)
}.

Lemma collect_request_ok r w sid s1 msg tgz loc a1 repos :
  readable r w sid s1 msg tgz loc a1 -> Forall2 entry_is (sm_Repositories msg) repos ->
  collectRequestInfoAndSaveQueryPack r sid (with_state s1 w) =
  (Val (sm_Language msg, repos, loc, None),
   MkWorld s1 a1 (w_db w) (w_jobs w)
     (foldl (fun r e => complain e r) (w_resp w) (sm_Repositories msg)) (w_tick w)).
Proof.
  intros [_ (buf & Hb & Hp) Hg Hd Hs] Hr. unfold collectRequestInfoAndSaveQueryPack.
  rewrite Hb, Hp, Hg. cbn [negb]. unfold decodeAndSaveBase64QueryPack. rewrite Hd.
  unfold gbind at 1 2. unfold on_arts, zoom. cbn [w_arts with_state]. rewrite Hs. cbn [gret].
  erewrite gbind_val by by apply collect_repos_ok. done.
Qed.

(** The whole request, for entries with at least one slash each. *)
Lemma submission_runs n r w sid s1 msg tgz loc a1 repos notFound found d1 :
  let lang := sm_Language msg in
  let ji := info_of lang notFound (w_tick w) in
  wf (length found + n) (w_state w) -> can_next (w_state w) ->
  readable r w sid s1 msg tgz loc a1 -> Forall2 entry_is (sm_Repositories msg) repos ->
  FindAvailableDBs repos (w_db w) = (Val (notFound, found), d1) -> NoDup found ->
  (forall nwo, nwo ∈ found -> storable_spec (MkJobSpec sid nwo) /\ storable_job (job_of loc sid lang nwo)) ->
  storable_info ji ->
  exists s', MRVARequestCommon clock r w =
    (Val tt, MkWorld s' a1 d1 (w_jobs w ++ map (job_of loc sid lang) found)
       (respond "application/json" (jprint (SubmitResponse_json (submit_response sid lang notFound (w_tick w))))
          (foldl (fun r e => complain e r) (w_resp w) (sm_Repositories msg)))
       (S (S (w_tick w)))) /\
    wf n s' /\ accepted sid loc lang found ji (view (w_state w)) (view s').
Proof.
  intros lang ji Hwf Hnext Hrd Hrepos Hfind Hnd Hst Hji.
  destruct (NextID_ok _ _ Hwf Hnext) as (id & s1' & Hid & Hwf1 & Hv1 & Hnew & Hnojobs & Hnostatus).
  pose proof (rd_id _ _ _ _ _ _ _ _ Hrd) as Hid'. rewrite Hid' in Hid. injection Hid as <- <-.
  pose proof Hv1 as (Hk1 & Hj1 & _).
  set (w2 := MkWorld s1 a1 d1 (w_jobs w) (foldl (fun r e => complain e r) (w_resp w) (sm_Repositories msg)) (w_tick w)).
  destruct (startAnalyses_ok n found w2 loc sid lang) as (s2 & Hs2 & Hwf2 & Hv2); [done| |done| |].
  { apply Hk1. by left. }
  { intros nwo Hin. destruct (Hst nwo Hin). split_and!; [done|done|].
    simpl. rewrite (Hj1 sid). simpl. rewrite decide_True by done. apply not_elem_of_nil. }
  set (w3 := queued (map (job_of loc sid lang) found) s2 w2) in *.
  assert (view s2 ≡ foldl view_start (view_open sid (view (w_state w))) (map (job_of loc sid lang) found))
    as Hv2'.
  { rewrite Hv2. simpl. by rewrite Hv1. }
  pose proof Hv2' as (Hk2 & Hj2 & _). destruct (starts_frame (map (job_of loc sid lang) found)
    (view_open sid (view (w_state w)))) as (Hkf & _ & _).
  destruct (buildSessionInfo_ok n w3 sid lang loc found notFound) as (s3 & Hs3 & Hwf3 & Hv3).
  - done.
  - apply Hk2, Hkf. by left.
  - done.
  - simpl. rewrite (Hj2 sid). pose proof (acc_jobs _ _ _ _ _ _ _ (accepted_view_accepted sid loc lang found ji
      (view (w_state w)))) as Hacc. unfold accepted_view in Hacc.
    destruct (informs_frame ji (map aj_Spec (map (job_of loc sid lang) found))
      (foldl view_start (view_open sid (view (w_state w))) (map (job_of loc sid lang) found))) as (_ & Hjf & _).
    by rewrite Hjf in Hacc.
  - intros nwo Hin. by apply Hst.
  - exists s3. split_and!; [|done|].
    + unfold MRVARequestCommon. go_step (on_state_ok _ w _ _ Hid').
      go_step (collect_request_ok _ _ _ _ _ _ _ _ _ Hrd Hrepos).
      go_step (on_db_ok _ (MkWorld s1 a1 (w_db w) _ _ _) _ _ Hfind).
      go_step Hs2. go_step Hs3. done.
    + rewrite Hv3. simpl. rewrite Hv2'. fold ji.
      rewrite <- (specs_of_jobs loc sid lang found). apply accepted_view_accepted.
Qed.
End submit.
