(* ===== verification/ServerProps.v ===== *)
(** What the server promises a client, for any implementation of the stores:
    submissions, status reports, downloads and published results. *)
From S2P Require Import Prelude GoStrings GoUtf8 GoJson GoCodec GoBase64 Common Messages Http.
From S2P Require Import ArtifactStore State QldbStore Archive Server ServerSpec.

Section props.
Context {SS AS DS : Type} `{!ServerState SS, !ServerStateSpec SS, !Store AS, !StoreLaws AS,
  !QldbStore DS, !QldbStoreLaws DS}.
Context (getenv : string -> string) (clock : nat -> string).

Implicit Types w : World SS AS DS.

Definition slash_free (nwo : NameWithOwner) : Prop :=
  in_string "/" (Owner nwo) = false /\ in_string "/" (Repo nwo) = false.

Lemma full_names_entries repos :
  Forall slash_free repos ->
  Forall2 entry_is (map full_name repos) repos /\
  Forall (fun e => well_formed_entry e = true) (map full_name repos).
Proof.
  induction 1 as [|nwo repos [Ho Hr] _ [IH1 IH2]]; [by split; constructor|].
  pose proof (full_name_entry nwo Ho Hr) as E. split; constructor; try done.
  - by exists [].
  - unfold well_formed_entry. by rewrite E.
Qed.

(** C1.  A well-formed submission is accepted: the jobs of the repositories
    that have a database are sent to the queue in order, the session is fresh
    and lists exactly those jobs, each pending and described by the response,
    other sessions and results are untouched, the query pack can be read back
    from the location the jobs carry, and the response carries the session. *)
Theorem submission_accepted n r w sid s1 msg tgz loc a1 repos notFound found d1 :
  let lang := sm_Language msg in
  let ji := info_of clock lang notFound (w_tick w) in
  wf (length found + n) (w_state w) -> can_next (w_state w) ->
  readable r w sid s1 msg tgz loc a1 ->
  sm_Repositories msg = map full_name repos -> Forall slash_free repos -> NoDup repos ->
  FindAvailableDBs repos (w_db w) = (Val (notFound, found), d1) ->
  (forall nwo, nwo ∈ found ->
     storable_spec (MkJobSpec sid nwo) /\ storable_job (job_of loc sid lang nwo)) ->
  storable_info ji ->
  exists s', MRVARequestCommon clock r w =
    (Val tt, MkWorld s' a1 d1 (w_jobs w ++ map (job_of loc sid lang) found)
       (respond "application/json"
          (jprint (SubmitResponse_json (submit_response clock sid lang notFound (w_tick w)))) (w_resp w))
       (S (S (w_tick w)))) /\
    wf n s' /\ accepted sid loc lang found ji (view (w_state w)) (view s') /\
    ~ v_known (view (w_state w)) sid /\ notFound ++ found ≡ₚ repos /\
    GetQueryPack loc a1 = (Val (tgz, None), a1).
Proof.
  intros lang ji Hwf Hnext Hrd Hrepos Hslash Hnd Hfind Hst Hji.
  destruct (full_names_entries repos Hslash) as [Hent Hwell]. rewrite <- Hrepos in Hent, Hwell.
  destruct (find_splits repos (w_db w)) as (nf & f & d' & Hf' & Hperm & Hsub & Hsub').
  rewrite Hfind in Hf'. injection Hf' as <- <- <-.
  assert (NoDup found) as Hnd' by by eapply sublist_NoDup.
  destruct (submission_runs clock n r w sid s1 msg tgz loc a1 repos notFound found d1)
    as (s' & Hrun & Hwf' & Hacc); [done..|].
  rewrite no_complaints in Hrun by done. exists s'. split_and!; [done|done|done| |done|].
  - destruct (NextID_ok _ _ Hwf Hnext) as (id & s1' & Hid & _ & _ & Hnew & _).
    rewrite (rd_id _ _ _ _ _ _ _ _ Hrd) in Hid. by injection Hid as <- <-.
  - eapply saved_pack_found, (rd_saved _ _ _ _ _ _ _ _ Hrd).
Qed.

(** C22.  An entry of the repository list with more than one slash is answered
    with status 400, and yet the whole submission is queued, the entry standing
    for its first two pieces. *)
Theorem malformed_entry_still_runs n r w sid s1 msg tgz loc a1 repos notFound found d1 e :
  let lang := sm_Language msg in
  let ji := info_of clock lang notFound (w_tick w) in
  wf (length found + n) (w_state w) -> can_next (w_state w) -> w_resp w = fresh_writer ->
  readable r w sid s1 msg tgz loc a1 ->
  Forall2 entry_is (sm_Repositories msg) repos ->
  e ∈ sm_Repositories msg -> well_formed_entry e = false ->
  FindAvailableDBs repos (w_db w) = (Val (notFound, found), d1) -> NoDup found ->
  (forall nwo, nwo ∈ found ->
     storable_spec (MkJobSpec sid nwo) /\ storable_job (job_of loc sid lang nwo)) ->
  storable_info ji ->
  exists w', MRVARequestCommon clock r w = (Val tt, w') /\
    wr_status (w_resp w') = Some StatusBadRequest /\
    w_jobs w' = w_jobs w ++ map (job_of loc sid lang) found /\
    accepted sid loc lang found ji (view (w_state w)) (view (w_state w')).
Proof.
  intros lang ji Hwf Hnext Hresp Hrd Hent Hin Hbad Hfind Hnd Hst Hji.
  destruct (submission_runs clock n r w sid s1 msg tgz loc a1 repos notFound found d1)
    as (s' & Hrun & Hwf' & Hacc); [done..|].
  eexists. split_and!; [exact Hrun| |done|done]. cbn [w_resp]. rewrite Hresp.
  assert (forall r0, wr_status r0 = Some StatusBadRequest ->
    wr_status (foldl (fun r e => complain e r) r0 (sm_Repositories msg)) = Some StatusBadRequest) as Hkeep.
  { clear. induction (sm_Repositories msg) as [|e l IH]; intros r0 H0; [done|]. simpl. apply IH.
    unfold complain. destruct (well_formed_entry e); [done|]. by apply http_error_status. }
  assert (wr_status (foldl (fun r e => complain e r) fresh_writer (sm_Repositories msg))
          = Some StatusBadRequest) as Hst'.
  { clear - Hin Hbad. induction (sm_Repositories msg) as [|e' l IH]; [by apply not_elem_of_nil in Hin|].
    simpl. destruct (well_formed_entry e') eqn:E.
    - unfold complain at 2. rewrite E. apply IH. apply elem_of_cons in Hin as [->|]; congruence.
    - unfold complain at 2. rewrite E. clear IH Hin.
      assert (forall r0, wr_status r0 = Some StatusBadRequest ->
        wr_status (foldl (fun r e => complain e r) r0 l) = Some StatusBadRequest) as Hk.
      { induction l as [|e2 l IH]; intros r0 H0; [done|]. simpl. apply IH.
        unfold complain. destruct (well_formed_entry e2); [done|]. by apply http_error_status. }
      apply Hk. by apply http_error_fresh. }
  unfold respond, write, write_header, header_set. cbn [wr_status]. rewrite Hst'. cbn [wr_status].
  by destruct (body_allowed StatusBadRequest).
Qed.

(** ** Refused submissions *)

(** The status and the error of a request that is refused. *)
Definition refusal (r : Request) (sid : Z) (a : AS) : option (Z * error) :=
  match req_body r with
  | BodyNil => Some (StatusNoContent, EText "missing request body")
  | BodyFails _ => None
  | BodyData buf =>
      match tryParseSubmitMsg buf with
      | (_, Some e) => Some (StatusBadRequest, e)
      | (msg, None) =>
          if negb (IsBase64Gzip (sm_QueryPack msg))
          then Some (StatusBadRequest, EText "MRVA submission body querypack has invalid format")
          else
            match b64_decode StdEncoding (sm_QueryPack msg) with
            | None => Some (StatusBadRequest, EText "illegal base64 data")
            | Some tgz =>
                match SaveQueryPack sid tgz a with
                | (Val (_, Some e), _) => Some (StatusBadRequest, e)
                | _ => None
                end
            end
      end
  end.

(** C23.  A request without a readable message and a valid query pack is
    refused before anything is queued: the session that was opened stays empty,
    the databases are not consulted, and the status is 400, or 204 for a missing
    body.  The error is written twice to the body (a 204 has none). *)
Theorem submission_refused r w sid s1 code e :
  NextID (w_state w) = (Val sid, s1) -> w_resp w = fresh_writer ->
  refusal r sid (w_arts w) = Some (code, e) ->
  exists w', MRVARequestCommon clock r w = (Val tt, w') /\
    w_state w' = s1 /\ w_jobs w' = w_jobs w /\ w_db w' = w_db w /\
    wr_status (w_resp w') = Some code /\
    wr_body (w_resp w') = (if code =? StatusNoContent then [] else [CErr e; CErr e]).
Proof.
  intros Hid Hresp Href.
  assert (exists a', collectRequestInfoAndSaveQueryPack r sid (with_state s1 w) =
    (Val (no_request_info, Some e), MkWorld s1 a' (w_db w) (w_jobs w)
       (http_error (CErr e) code (w_resp w)) (w_tick w)) /\ (code = 204 \/ code = 400)) as (a' & Hc & Hcode).
  { unfold refusal in Href. unfold collectRequestInfoAndSaveQueryPack.
    destruct (req_body r) as [|buf|]; [|destruct (tryParseSubmitMsg buf) as [msg [err|]]|done].
    - injection Href as <- <-. exists (w_arts w). split; [done|by left].
    - injection Href as <- <-. exists (w_arts w). split; [done|by right].
    - destruct (IsBase64Gzip (sm_QueryPack msg)); cbn [negb] in *.
      2: { injection Href as <- <-. exists (w_arts w). split; [done|by right]. }
      unfold decodeAndSaveBase64QueryPack.
      destruct (b64_decode StdEncoding (sm_QueryPack msg)) as [tgz|].
      2: { injection Href as <- <-. exists (w_arts w). split; [done|by right]. }
      unfold gbind at 1 2, on_arts, zoom. cbn [w_arts with_state].
      destruct (SaveQueryPack sid tgz (w_arts w)) as [[[loc [err|]]|] a']; try done.
      injection Href as <- <-. exists a'. split; [done|by right]. }
  exists (MkWorld s1 a' (w_db w) (w_jobs w)
    (http_error (CErr e) StatusBadRequest (http_error (CErr e) code (w_resp w))) (w_tick w)).
  split.
  { unfold MRVARequestCommon. go_step (on_state_ok _ w _ _ Hid). by go_step Hc. }
  rewrite Hresp. by destruct Hcode as [-> | ->].
Qed.

(** C24.  Two requests make the handler panic after a session identifier was
    used up: one whose body cannot be read (the error is written to a nil
    [ResponseWriter]), and one with an entry without a slash, which also leaves
    the query pack saved; nothing is queued in either case. *)
Theorem submission_panics r w sid s1 :
  NextID (w_state w) = (Val sid, s1) ->
  (forall err, req_body r = BodyFails err ->
     exists p, MRVARequestCommon clock r w = (Panic p, with_state s1 w)) /\
  (forall msg tgz loc a1 before e after,
     readable r w sid s1 msg tgz loc a1 ->
     sm_Repositories msg = map full_name before ++ e :: after -> Forall slash_free before ->
     in_string "/" e = false ->
     exists p w', MRVARequestCommon clock r w = (Panic p, w') /\
       w_state w' = s1 /\ w_jobs w' = w_jobs w /\ w_arts w' = a1).
Proof.
  intros Hid. split.
  - intros err Hb. unfold MRVARequestCommon. eexists.
    erewrite gbind_val by exact (on_state_ok _ w _ _ Hid).
    apply gbind_panic. unfold collectRequestInfoAndSaveQueryPack. by rewrite Hb.
  - intros msg tgz loc a1 before e after Hrd Hrepos Hbefore He.
    assert (forall w0, exists p w', collect_repos (sm_Repositories msg) w0 = (Panic p, w') /\
      w_state w' = w_state w0 /\ w_jobs w' = w_jobs w0 /\ w_arts w' = w_arts w0) as Hcol.
    { rewrite Hrepos. clear Hrepos Hrd Hid. induction Hbefore as [|nwo before [Ho Hr] _ IH]; intros w0.
      - cbn [map app collect_repos]. rewrite split_byte_no_sep by done. by do 2 eexists.
      - cbn [map app collect_repos]. rewrite (full_name_entry nwo Ho Hr). cbn.
        destruct (IH w0) as (p & w' & H & Hrest). exists p, w'. split; [|done].
        unfold gbind at 1, gret. by apply gbind_panic. }
    destruct (Hcol (MkWorld s1 a1 (w_db w) (w_jobs w) (w_resp w) (w_tick w))) as (p & w' & Hp & Hs & Hj & Ha).
    destruct Hrd as [_ (buf & Hb & Hm) Hg Hd Hsv].
    exists p, w'. split_and!; [|done..].
    unfold MRVARequestCommon. erewrite gbind_val by exact (on_state_ok _ w _ _ Hid).
    apply gbind_panic. unfold collectRequestInfoAndSaveQueryPack.
    rewrite Hb, Hm, Hg. cbn [negb]. unfold decodeAndSaveBase64QueryPack. rewrite Hd.
    unfold gbind at 1 2. unfold on_arts, zoom. cbn [w_arts with_state]. rewrite Hsv. cbn [gret].
    by apply gbind_panic.
Qed.

(** ** Status reports *)

(** What the report says of a job: the repository's stable identifier, the
    status, and for a job that succeeded the counts of its result. *)
Definition reported (ji : JobInfo) (v : View) (a : AS) (s : SS) (job : AnalyzeJob) (repo : ScannedRepo)
    : Prop :=
  let spec := aj_Spec job in
  exists st, v_status v !! spec = Some st /\
    sc_AnalysisStatus repo = ToExternalString st /\
    repo_id s (js_NameWithOwner spec) = Some (rp_ID (sc_Repository repo)) /\
    rp_FullName (sc_Repository repo) = full_name (js_NameWithOwner spec) /\
    rp_UpdatedAt (sc_Repository repo) = ji_UpdatedAt ji /\
    (st <> StatusSucceeded -> sc_ResultCount repo = 0 /\ sc_ArtifactSizeBytes repo = 0) /\
    (st = StatusSucceeded -> exists ar, v_result v !! spec = Some ar /\
       sc_ResultCount repo = ar_ResultCount ar /\
       (GetResultSize (ar_ResultLocation ar) a).1 = Val (sc_ArtifactSizeBytes repo, None)).

(** A job the report can be made for. *)
Definition reportable (v : View) (a : AS) (job : AnalyzeJob) : Prop :=
  storable_spec (aj_Spec job) /\
  exists st, v_status v !! aj_Spec job = Some st /\
    (st = StatusSucceeded -> exists ar size, v_result v !! aj_Spec job = Some ar /\
       (GetResultSize (ar_ResultLocation ar) a).1 = Val (size, None)).

Definition ids_kept (s s' : SS) : Prop :=
  forall nwo id, repo_id s nwo = Some id -> repo_id s' nwo = Some id.

Lemma on_arts_read {A} (m : GM AS A) w v :
  (m (w_arts w)).1 = Val v -> (m (w_arts w)).2 = w_arts w -> on_arts m w = (Val v, w).
Proof.
  intros H1 H2. unfold on_arts, zoom. destruct (m (w_arts w)) as [o a]. simpl in *. subst. by destruct w.
Qed.

Lemma with_state_id w : with_state (w_state w) w = w.
Proof. by destruct w. Qed.

Lemma get_repo_id_step n w spec :
  wf (S n) (w_state w) -> storable_spec spec ->
  exists id s', on_state (GetRepoId (js_NameWithOwner spec)) w = (Val id, with_state s' w) /\
    wf n s' /\ view s' ≡ view (w_state w) /\ repo_id s' (js_NameWithOwner spec) = Some id /\
    ids_kept (w_state w) s'.
Proof.
  intros Hwf Hst. destruct spec as [sid nwo].
  destruct (GetRepoId_ok n (w_state w) sid nwo Hwf Hst) as (id & s' & H & Hwf' & Hv & Hid & Hold & Hfr).
  exists id, s'. split_and!; [by apply on_state_ok|done|done|done|].
  intros nwo' i Hi. destruct (decide (nwo' = nwo)) as [->|Hne]; [by rewrite (Hold i Hi)|by rewrite Hfr].
Qed.

Lemma scan_job_ok n w ji job :
  wf (S n) (w_state w) -> reportable (view (w_state w)) (w_arts w) job ->
  exists s' repo, scan_job ji job w = (Val (Some repo), with_state s' w) /\ wf n s' /\
    view s' ≡ view (w_state w) /\ ids_kept (w_state w) s' /\
    reported ji (view (w_state w)) (w_arts w) s' job repo.
Proof.
  intros Hwf (Hst & st & Hstatus & Hres).
  destruct (get_repo_id_step n w (aj_Spec job) Hwf Hst) as (id & s' & Hid & Hwf' & Hv & Hrid & Hkeep).
  pose proof (GetStatus_ok (S n) (w_state w) (aj_Spec job) Hwf Hst) as Hs. rewrite Hstatus in Hs.
  destruct (decide (st = StatusSucceeded)) as [E|E].
  - destruct (Hres E) as (ar & size & Har & Hsize). subst st.
    pose proof (GetResult_ok (S n) (w_state w) (aj_Spec job) Hwf Hst) as Hr. rewrite Har in Hr.
    destruct (reading_keeps_store (ar_ResultLocation ar) (w_arts w)) as (_ & _ & Hsame).
    exists s'. eexists. split_and!; [|done|done|done|].
    + unfold scan_job. go_step (on_state_ok _ w _ _ Hs). rewrite with_state_id. cbn [negb].
      change (StatusSucceeded =? StatusSucceeded) with true. cbn [negb].
      go_step (on_state_ok _ w _ _ Hr). rewrite with_state_id.
      go_step (on_arts_read _ w _ Hsize Hsame). go_step Hid. reflexivity.
    + exists StatusSucceeded. cbn [sc_AnalysisStatus sc_Repository sc_ResultCount sc_ArtifactSizeBytes rp_ID rp_FullName rp_UpdatedAt].
      split_and!; try done. intros _. by exists ar.
  - exists s'. eexists. split_and!; [|done|done|done|].
    + unfold scan_job. go_step (on_state_ok _ w _ _ Hs). rewrite with_state_id.
      rewrite (proj2 (Z.eqb_neq _ _) E). cbn [negb]. go_step Hid. reflexivity.
    + exists st. cbn [sc_AnalysisStatus sc_Repository sc_ResultCount sc_ArtifactSizeBytes rp_ID rp_FullName rp_UpdatedAt].
      by split_and!.
Qed.

Lemma reported_later ji v a s s' job repo :
  ids_kept s s' -> reported ji v a s job repo -> reported ji v a s' job repo.
Proof.
  intros Hk (st & H1 & H2 & H3 & H4). exists st. split_and!; try done; try apply H4. by apply Hk.
Qed.

Lemma scan_jobs_ok n jobs w ji :
  wf (length jobs + n) (w_state w) ->
  Forall (reportable (view (w_state w)) (w_arts w)) jobs ->
  exists s' repos, scan_jobs ji jobs w = (Val (Some repos), with_state s' w) /\ wf n s' /\
    view s' ≡ view (w_state w) /\ ids_kept (w_state w) s' /\
    Forall2 (reported ji (view (w_state w)) (w_arts w) s') jobs repos.
Proof.
  revert w. induction jobs as [|job jobs IH]; intros w Hwf Hall.
  { exists (w_state w), []. rewrite with_state_id. split_and!; [done|done|done|by intros ??|constructor]. }
  apply Forall_cons_1 in Hall as [Hjob Hall].
  destruct (scan_job_ok (length jobs + n) w ji job Hwf Hjob) as (s1 & repo & H1 & Hwf1 & Hv1 & Hk1 & Hr1).
  destruct (IH (with_state s1 w)) as (s2 & repos & H2 & Hwf2 & Hv2 & Hk2 & Hr2).
  - done.
  - eapply Forall_impl; [|exact Hall]. intros j. unfold reportable. cbn [w_state with_state w_arts].
    pose proof Hv1 as (_ & _ & Hs & Hr & _). by rewrite Hs, Hr.
  - exists s2, (repo :: repos). cbn [with_state w_state w_arts] in *. split_and!.
    + cbn [scan_jobs]. go_step H1. by go_step H2.
    + done.
    + by rewrite Hv2.
    + intros nwo id Hid. by apply Hk2, Hk1.
    + constructor; [by eapply reported_later|].
      pose proof Hv1 as (_ & _ & Hs & Hr & _). eapply Forall2_impl; [|exact Hr2].
      intros j r. unfold reported. by rewrite Hs, Hr.
Qed.

Lemma session_statuses_nonempty sid js st m :
  m !! js = Some st -> SessionID js = sid -> session_statuses sid m <> [].
Proof.
  intros Hm Hs. unfold session_statuses. intros Hnil. apply map_eq_nil in Hnil.
  assert (In (js, st) (List.filter (fun p => SessionID p.1 =? sid) (map_to_list m))) as Hin.
  { apply filter_In. split; [by apply list_elem_of_In, elem_of_map_to_list|]. simpl. lia. }
  by rewrite Hnil in Hin.
Qed.

(** The answer for a session: its information, and the status the rules give
    to the statuses of its jobs. *)
Definition status_response (sid : Z) (ji : JobInfo) (v : View) (repos : list ScannedRepo) : StatusResponse :=
  MkStatusResponse sid ControllerRepo_zero Actor_zero (ji_QueryLanguage ji) "" (ji_CreatedAt ji)
    (ji_UpdatedAt ji) (-1)
    (ToExternalString (overall_spec (session_statuses sid (v_status v)))) repos (ji_SkippedRepositories ji).

(** The answer, for the list of jobs the state gives. *)
Lemma status_answer n w id owner repo sid ji jobs :
  ParseInt id 32 = (sid, None) -> wf (length jobs + n) (w_state w) -> jobs <> [] ->
  GetJobList sid (w_state w) = (Val (jobs, None), w_state w) ->
  Forall (fun job => SessionID (aj_Spec job) = sid /\ v_info (view (w_state w)) !! aj_Spec job = Some ji /\
     reportable (view (w_state w)) (w_arts w) job) jobs ->
  exists s' repos,
    MRVAStatusCommon owner repo id w =
      (Val tt, with_resp
         (respond "application/json"
            (jprint (StatusResponse_json (status_response sid ji (view (w_state w)) repos))) (w_resp w))
         (with_state s' w)) /\
    wf n s' /\ view s' ≡ view (w_state w) /\ ids_kept (w_state w) s' /\
    Forall2 (reported ji (view (w_state w)) (w_arts w) s') jobs repos.
Proof.
  intros Hid Hwf Hne Hl Hall. destruct jobs as [|job jobs]; [done|].
  pose proof Hall as Hall2. apply Forall_cons_1 in Hall2 as [(Hjs & Hji & Hjr) _].
  pose proof Hjr as (Hst & st & Hstat & _).
  pose proof (GetJobInfo_ok _ (w_state w) (aj_Spec job) Hwf Hst) as Hinfo. rewrite Hji in Hinfo.
  destruct (scan_jobs_ok n (job :: jobs) w ji Hwf) as (s' & repos & Hscan & Hwf' & Hv & Hids & Hrep).
  { eapply Forall_impl; [|exact Hall]. by intros j (_ & _ & ?). }
  assert (session_statuses sid (v_status (view s')) <> []) as Hsome.
  { pose proof Hv as (_ & _ & -> & _). by eapply session_statuses_nonempty. }
  destruct (GetSessionStatus_ok n s' sid Hwf' Hsome) as (sum & Hsum & Hov & _).
  exists s', repos. split_and!; try done.
  unfold MRVAStatusCommon. rewrite Hid. go_step (on_state_ok _ w _ _ Hl). rewrite with_state_id.
  go_step (on_state_ok _ w _ _ Hinfo). rewrite with_state_id.
  unfold submitStatusResponse. rewrite Hjs. go_step (on_state_ok _ w _ _ Hl). rewrite with_state_id.
  go_step Hscan. go_step (on_state_ok _ (with_state s' w) _ _ Hsum). rewrite Hov.
  pose proof Hv as (_ & _ & Hs & _). unfold status_response. by rewrite <- Hs.
Qed.

(** C2.  A status request for a session with jobs reports every job of the
    session once, with its own status and result, and the overall status by the
    rules; it changes nothing a client can see, and the identifiers it reports
    are the repositories' from then on. *)
Theorem status_report n w id owner repo sid ji :
  ParseInt id 32 = (sid, None) ->
  wf (length (v_jobs (view (w_state w)) sid) + n) (w_state w) ->
  v_known (view (w_state w)) sid -> v_jobs (view (w_state w)) sid <> [] ->
  Forall (fun job => SessionID (aj_Spec job) = sid /\ v_info (view (w_state w)) !! aj_Spec job = Some ji /\
     reportable (view (w_state w)) (w_arts w) job) (v_jobs (view (w_state w)) sid) ->
  exists s' jobs repos,
    MRVAStatusCommon owner repo id w =
      (Val tt, with_resp
         (respond "application/json"
            (jprint (StatusResponse_json (status_response sid ji (view (w_state w)) repos))) (w_resp w))
         (with_state s' w)) /\
    wf n s' /\ view s' ≡ view (w_state w) /\ ids_kept (w_state w) s' /\
    jobs ≡ₚ v_jobs (view (w_state w)) sid /\
    Forall2 (reported ji (view (w_state w)) (w_arts w) s') jobs repos.
Proof.
  intros Hid Hwf Hk Hne Hall.
  destruct (GetJobList_ok _ (w_state w) sid Hwf Hk) as (jobs & Hl & Hp).
  rewrite <- Hp in Hall. assert (length jobs = length (v_jobs (view (w_state w)) sid)) as Hlen by by rewrite Hp.
  rewrite <- Hlen in Hwf.
  destruct (status_answer n w id owner repo sid ji jobs Hid Hwf) as (s' & repos & Hrun & ? & ? & ? & ?); [|done|done|].
  { intros ->. by apply Permutation_nil in Hp. }
  exists s', jobs, repos. by split_and!.
Qed.

(** The other answers to a status request: a number that is not a 32-bit
    integer is a bad request, a session the state has no list for is not found,
    and a session without jobs has succeeded. *)
Theorem status_of_no_jobs w id owner repo :
  (forall sid e, ParseInt id 32 = (sid, Some e) ->
     MRVAStatusCommon owner repo id w
     = (Val tt, with_resp (http_error (CErr e) StatusBadRequest (w_resp w)) w)) /\
  (forall sid v e s', ParseInt id 32 = (sid, None) -> GetJobList sid (w_state w) = (Val (v, Some e), s') ->
     MRVAStatusCommon owner repo id w
     = (Val tt, with_resp (http_error (CBytes "No jobs found for given session id") StatusNotFound (w_resp w))
                  (with_state s' w))) /\
  (forall sid s', ParseInt id 32 = (sid, None) -> GetJobList sid (w_state w) = (Val ([], None), s') ->
     MRVAStatusCommon owner repo id w
     = (Val tt, with_resp (respond "application/json"
                  (jprint (StatusResponse_json
                     (MkStatusResponse sid ControllerRepo_zero Actor_zero "" "" "" "" (-1) "succeeded" []
                        empty_skipped))) (w_resp w)) (with_state s' w))).
Proof.
  split_and!; intros *; unfold MRVAStatusCommon.
  - intros ->. done.
  - intros -> Hl. by go_step (on_state_ok _ w _ _ Hl).
  - intros -> Hl. by go_step (on_state_ok _ w _ _ Hl).
Qed.

(** ** Downloads *)

(** The token of a job that has a result is answered with the artifact. *)
Lemma token_served n w js ar data r :
  wf n (w_state w) -> storable_spec js -> spec_valid js ->
  v_result (view (w_state w)) !! js = Some ar ->
  (GetArtifact (ar_ResultLocation ar) (w_arts w)).1 = Val (data, None) ->
  var r "encoded_job_spec" = (EncodeJobSpec js).1 ->
  MRVADownloadServe r w = (Val tt, with_resp (respond "application/octet-stream" data (w_resp w)) w).
Proof.
  intros Hwf Hst Hvalid Hres Hdata Hvar.
  destruct (reading_keeps_store (ar_ResultLocation ar) (w_arts w)) as (_ & Hsame & _).
  pose proof (GetResult_ok n (w_state w) js Hwf Hst) as Hgr. rewrite Hres in Hgr.
  unfold MRVADownloadServe. rewrite Hvar, DecodeJobSpec_valid by done.
  go_step (on_state_ok _ w _ _ Hgr). rewrite with_state_id. by go_step (on_arts_read _ w _ Hdata Hsame).
Qed.

(** C9.  From result to bytes: for a job that succeeded, the answer to a
    download request carries the counts of the result, the size of the artifact
    and a URL, and requesting the last segment of that URL gives exactly those
    bytes; neither request changes the state. *)
Theorem download_url_serves_result n w w' repoId js ar data r :
  wf n (w_state w) -> storable_spec js -> spec_valid js ->
  v_status (view (w_state w)) !! js = Some StatusSucceeded ->
  v_result (view (w_state w)) !! js = Some ar ->
  (GetArtifact (ar_ResultLocation ar) (w_arts w)).1 = Val (data, None) ->
  w_state w' = w_state w -> w_arts w' = w_arts w ->
  var r "encoded_job_spec" = (EncodeJobSpec js).1 ->
  MRVADownloadArtifactCommon getenv repoId js w =
    (Val tt, with_resp (respond "application/json" (jprint (DownloadResponse_json
       (MkDownloadResponse (download_repo repoId js) "succeeded" (ar_ResultCount ar) (slen data)
          (ar_DatabaseSHA ar) (ar_SourceLocationPrefix ar)
          (artifact_url getenv (EncodeJobSpec js).1)))) (w_resp w)) w) /\
  MRVADownloadServe r w' =
    (Val tt, with_resp (respond "application/octet-stream" data (w_resp w')) w').
Proof.
  intros Hwf Hst Hvalid Hstatus Hres Hdata Hs' Ha' Hvar.
  destruct (reading_keeps_store (ar_ResultLocation ar) (w_arts w)) as (_ & Hsame & _).
  pose proof (GetStatus_ok n (w_state w) js Hwf Hst) as Hgs. rewrite Hstatus in Hgs.
  pose proof (GetResult_ok n (w_state w) js Hwf Hst) as Hgr. rewrite Hres in Hgr.
  split.
  - unfold MRVADownloadArtifactCommon, sendArtifactDownloadResponse.
    go_step (on_state_ok _ w _ _ Hgs). rewrite with_state_id.
    change (StatusSucceeded =? StatusSucceeded) with true. cbn iota.
    go_step (on_state_ok _ w _ _ Hgr). rewrite with_state_id.
    go_step (on_arts_read _ w _ Hdata Hsame).
    unfold reply_json, on_resp, gmodify, with_resp. done.
  - rewrite <- Hs' in Hwf, Hres. rewrite <- Ha' in Hdata. by eapply token_served.
Qed.

(** C26.  A job that has not succeeded has nothing to download: the answer
    carries its status and neither counts nor a URL; a job without a status is
    unprocessable. *)
Theorem download_of_unfinished n w repoId js :
  wf n (w_state w) -> storable_spec js ->
  (forall st, v_status (view (w_state w)) !! js = Some st -> st <> StatusSucceeded ->
     MRVADownloadArtifactCommon getenv repoId js w =
       (Val tt, with_resp (respond "application/json" (jprint (DownloadResponse_json
          (MkDownloadResponse (download_repo repoId js) (ToExternalString st) 0 0 "" "" ""))) (w_resp w)) w)) /\
  (v_status (view (w_state w)) !! js = None ->
     exists e, MRVADownloadArtifactCommon getenv repoId js w =
       (Val tt, with_resp (http_error (CErr e) StatusUnprocessableEntity (w_resp w)) w)).
Proof.
  intros Hwf Hst. pose proof (GetStatus_ok n (w_state w) js Hwf Hst) as Hgs.
  unfold MRVADownloadArtifactCommon, sendArtifactDownloadResponse. split.
  - intros st Hstatus Hne. rewrite Hstatus in Hgs. go_step (on_state_ok _ w _ _ Hgs).
    rewrite with_state_id, (proj2 (Z.eqb_neq _ _) Hne). done.
  - intros Hnone. rewrite Hnone in Hgs. destruct Hgs as (v & e & Hgs). exists e.
    go_step (on_state_ok _ w _ _ Hgs). by rewrite with_state_id.
Qed.

(** C25.  The identifier a status report gives a repository is the one a
    download by identifier understands: the request by identifier is the request
    by name. *)
Theorem download_by_reported_id n w r sid nwo id :
  wf n (w_state w) -> repo_id (w_state w) nwo = Some id ->
  ParseInt (var r "codeql_variant_analysis_id") 32 = (sid, None) ->
  ParseInt (var r "repository_id") 32 = (id, None) ->
  MRVADownloadArtifactID getenv r w = MRVADownloadArtifactCommon getenv id (MkJobSpec sid nwo) w.
Proof.
  intros Hwf Hid Hs Hr. unfold MRVADownloadArtifactID. rewrite Hs, Hr.
  apply ParseInt_range in Hr; [|lia].
  pose proof (GetJobSpecByRepoId_ok n (w_state w) sid nwo id Hwf Hid ltac:(lia)) as H.
  go_step (on_state_ok _ w _ _ H). by rewrite with_state_id.
Qed.

(** Publishing a result makes its status and its content the job's, and
    leaves every other job as it was. *)
Lemma consume_result_ok n w ar :
  wf n (w_state w) -> v_known (view (w_state w)) (SessionID (ar_Spec ar)) ->
  storable_spec (ar_Spec ar) -> storable_result ar -> 0 <= ar_Status ar <= 5 ->
  exists s', consume_result ar w = (Val tt, with_state s' w) /\ wf n s' /\
    view s' ≡ view_set_status (ar_Spec ar) (ar_Status ar) (view_set_result (ar_Spec ar) ar (view (w_state w))).
Proof.
  intros Hwf Hk Hspec Hst Hs.
  destruct (SetResult_ok n (w_state w) (ar_Spec ar) ar) as (s1 & H1 & Hwf1 & Hv1); [done..|].
  destruct (SetStatus_ok n s1 (ar_Spec ar) (ar_Status ar)) as (s2 & H2 & Hwf2 & Hv2); [done| |done|done|].
  { destruct Hv1 as [Hk1 _]. by apply Hk1. }
  exists s2. split_and!; [|done|by rewrite Hv2, Hv1].
  unfold consume_result. go_step (on_state_ok _ w _ _ H1).
  by rewrite (on_state_ok _ (with_state s1 w) _ _ H2).
Qed.

End props.
