(* ===== verification/ServerMinIO.v ===== *)
(** The server on the MinIO store: what becomes of a session one of whose results
    is larger than the store will say. *)
From S2P Require Import Prelude GoStrings GoUtf8 GoJson GoCodec GoBase64 Common Messages Http.
From S2P Require Import ArtifactStore StoreMinIO State QldbStore Archive Server ServerSpec ServerProps.

Section status.
Context {SS AS DS : Type} `{!ServerState SS, !ServerStateSpec SS, !Store AS, !StoreLaws AS, !QldbStore DS}.
Implicit Types w : World SS AS DS.

(** A job the report can be asked for: the store answers for its size, if only
    with an error. *)
Definition askable (v : View) (a : AS) (job : AnalyzeJob) : Prop :=
  storable_spec (aj_Spec job) /\
  exists st, v_status v !! aj_Spec job = Some st /\
    (st = StatusSucceeded -> exists ar size err, v_result v !! aj_Spec job = Some ar /\
       (GetResultSize (ar_ResultLocation ar) a).1 = Val (size, err)).

(** One whose size is refused. *)
Definition size_refused (v : View) (a : AS) (job : AnalyzeJob) (e : error) : Prop :=
  v_status v !! aj_Spec job = Some StatusSucceeded /\
  exists ar size, v_result v !! aj_Spec job = Some ar /\
    (GetResultSize (ar_ResultLocation ar) a).1 = Val (size, Some e).

Definition refusal (e : error) w : World SS AS DS :=
  with_resp (http_error (CErr e) StatusUnprocessableEntity (w_resp w)) w.

Lemma scan_job_refused n w ji job e :
  wf n (w_state w) -> storable_spec (aj_Spec job) -> size_refused (view (w_state w)) (w_arts w) job e ->
  scan_job ji job w = (Val None, refusal e w).
Proof.
  intros Hwf Hst (Hstatus & ar & size & Har & Hsize).
  pose proof (GetStatus_ok n (w_state w) (aj_Spec job) Hwf Hst) as Hs. rewrite Hstatus in Hs.
  pose proof (GetResult_ok n (w_state w) (aj_Spec job) Hwf Hst) as Hr. rewrite Har in Hr.
  destruct (reading_keeps_store (ar_ResultLocation ar) (w_arts w)) as (_ & _ & Hsame).
  unfold scan_job. go_step (on_state_ok _ w _ _ Hs). rewrite with_state_id.
  change (StatusSucceeded =? StatusSucceeded) with true. cbn [negb].
  go_step (on_state_ok _ w _ _ Hr). rewrite with_state_id.
  go_step (on_arts_read _ w _ Hsize Hsame). done.
Qed.

Lemma askable_cases v a job :
  askable v a job -> reportable v a job \/ exists e, size_refused v a job e.
Proof.
  intros (Hst & st & Hs & Hr). destruct (decide (st = StatusSucceeded)) as [E|E].
  - destruct (Hr E) as (ar & size & [e|] & Har & Hsize); subst st.
    + right. exists e. split; [done|]. by exists ar, size.
    + left. split; [done|]. exists StatusSucceeded. split; [done|]. intros _. by exists ar, size.
  - left. split; [done|]. by exists st.
Qed.

(** A loop over jobs one of which is refused ends with an error. *)
Lemma scan_jobs_refused n jobs w ji :
  wf (length jobs + n) (w_state w) ->
  Forall (askable (view (w_state w)) (w_arts w)) jobs ->
  (exists job e, job ∈ jobs /\ size_refused (view (w_state w)) (w_arts w) job e) ->
  exists s' e, scan_jobs ji jobs w = (Val None, refusal e (with_state s' w)).
Proof.
  revert w. induction jobs as [|job jobs IH]; intros w Hwf Hall (j & e & Hin & Hj).
  { by apply elem_of_nil in Hin. }
  apply Forall_cons_1 in Hall as [Hjob Hall].
  destruct (askable_cases _ _ _ Hjob) as [Hrep|(e' & Href)].
  - destruct (scan_job_ok (length jobs + n) w ji job Hwf Hrep) as (s1 & repo & H1 & Hwf1 & Hv1 & _ & _).
    pose proof Hv1 as (_ & _ & Hs & Hr & _).
    destruct (IH (with_state s1 w)) as (s2 & e2 & H2).
    + done.
    + eapply Forall_impl; [|exact Hall]. intros j'. unfold askable. cbn [w_state with_state w_arts].
      by rewrite Hs, Hr.
    + exists j, e. apply elem_of_cons in Hin as [->|Hin].
      * destruct Hj as (Hst & ar & size & Har & Hsize). destruct Hrep as (_ & st & Hst' & Hres).
        destruct (Hres ltac:(congruence)) as (ar' & size' & Har' & Hsize'). congruence.
      * split; [done|]. unfold size_refused. cbn [w_state with_state w_arts]. by rewrite Hs, Hr.
    + exists s2, e2. cbn [scan_jobs]. go_step H1. by go_step H2.
  - exists (w_state w), e'. rewrite with_state_id. cbn [scan_jobs].
    destruct Hjob as [Hst _]. by go_step (scan_job_refused _ w ji job e' Hwf Hst Href).
Qed.

Lemma status_refused n w id owner repo sid ji :
  ParseInt id 32 = (sid, None) ->
  wf (length (v_jobs (view (w_state w)) sid) + n) (w_state w) -> v_known (view (w_state w)) sid ->
  Forall (fun job => SessionID (aj_Spec job) = sid /\ v_info (view (w_state w)) !! aj_Spec job = Some ji /\
     askable (view (w_state w)) (w_arts w) job) (v_jobs (view (w_state w)) sid) ->
  (exists job e, job ∈ v_jobs (view (w_state w)) sid /\ size_refused (view (w_state w)) (w_arts w) job e) ->
  exists s' e, MRVAStatusCommon owner repo id w = (Val tt, refusal e (with_state s' w)).
Proof.
  intros Hid Hwf Hk Hall Hsome.
  destruct (GetJobList_ok _ (w_state w) sid Hwf Hk) as (jobs & Hl & Hp).
  setoid_rewrite <- Hp in Hsome. rewrite <- Hp in Hall.
  destruct jobs as [|job jobs]; [destruct Hsome as (? & ? & Hin & _); by apply elem_of_nil in Hin|].
  pose proof Hall as Hall2. apply Forall_cons_1 in Hall2 as [(Hjs & Hji & (Hst & _)) _].
  pose proof (GetJobInfo_ok _ (w_state w) (aj_Spec job) Hwf Hst) as Hinfo. rewrite Hji in Hinfo.
  rewrite <- Hp in Hwf.
  destruct (scan_jobs_refused n (job :: jobs) w ji Hwf) as (s' & e & Hscan).
  { eapply Forall_impl; [|exact Hall]. by intros j (_ & _ & ?). }
  { done. }
  exists s', e. unfold MRVAStatusCommon. rewrite Hid. go_step (on_state_ok _ w _ _ Hl). rewrite with_state_id.
  go_step (on_state_ok _ w _ _ Hinfo). rewrite with_state_id.
  unfold submitStatusResponse. rewrite Hjs. go_step (on_state_ok _ w _ _ Hl). rewrite with_state_id.
  by go_step Hscan.
Qed.
End status.

(** C27.  A result whose archive is larger than 2^31 - 1 bytes takes the status of
    its whole session with it: the store refuses to say its size, and the request
    is answered with that error, 422, whatever the other jobs have come to.  The
    archive is stored and is read all the same. *)
Theorem oversized_result_hides_session {SS DS C} `{!ServerState SS, !ServerStateSpec SS, !QldbStore DS}
    `{ObjectClientLaws C} n (w : World SS (MinIOArtifactStore C) DS) id owner repo sid ji job ar size data :
  ParseInt id 32 = (sid, None) ->
  wf (length (v_jobs (view (w_state w)) sid) + n) (w_state w) -> v_known (view (w_state w)) sid ->
  Forall (fun job => SessionID (aj_Spec job) = sid /\ v_info (view (w_state w)) !! aj_Spec job = Some ji /\
     askable (view (w_state w)) (w_arts w) job) (v_jobs (view (w_state w)) sid) ->
  job ∈ v_jobs (view (w_state w)) sid ->
  v_status (view (w_state w)) !! aj_Spec job = Some StatusSucceeded ->
  v_result (view (w_state w)) !! aj_Spec job = Some ar ->
  (fetch (Bucket (ar_ResultLocation ar)) (Key (ar_ResultLocation ar)) (client (w_arts w))).1 = Val (data, None) ->
  (StatObject (Bucket (ar_ResultLocation ar)) (Key (ar_ResultLocation ar)) (client (w_arts w))).1 = Val (size, None) ->
  MinIO.MaxInt32 < slen data ->
  (exists s' e, MRVAStatusCommon owner repo id w =
     (Val tt, with_resp (http_error (CErr e) StatusUnprocessableEntity (w_resp w)) (with_state s' w))) /\
  GetArtifact (ar_ResultLocation ar) (w_arts w) = (Val (data, None), w_arts w).
Proof.
  intros Hid Hwf Hk Hall Hin Hst Har Hfetch Hstat Hbig.
  rewrite <- (stat_is_length _ _ _ _ _ Hfetch Hstat) in Hbig. apply Z.ltb_lt in Hbig. split.
  - destruct (status_refused n w id owner repo sid ji Hid Hwf Hk Hall) as (s' & e & Hrun).
    + exists job. eexists. split; [done|]. split; [done|]. exists ar, 0. split; [done|].
      destruct (GetResultSize_stat (ar_ResultLocation ar) (w_arts w)) as [_ Hs].
      cbn [GetResultSize minio_store]. rewrite (Hs _ Hstat), Hbig. done.
    + exists s', e. rewrite Hrun. done.
  - cbn [GetArtifact minio_store]. unfold MinIO.GetResult. by rewrite getArtifact_fetch, Hfetch.
Qed.
