(* ===== verification/Agent.v ===== *)
(** [pkg/agent/agent.go]: running one analysis job, and the loop of a worker.

    The analysis proper ([codeql.RunQuery], [codeql.GenerateResultsZipArchive])
    drives an external program; here the two functions are arguments.  So are
    the names of the temporary directory. *)
From S2P Require Import Prelude GoStrings GoUtf8 GoJson GoPath GoOs Archive Common ArtifactStore.
From S2P Require Import State QldbStore.

(** ** [pkg/codeql/types.go] *)
Record BqrsFilePaths : Type := MkBqrs { BasePath : string; RelativeFilePaths : list string }.
Record RunQueryResult : Type := MkRunQueryResult {
  rq_ResultCount : Z; rq_DatabaseSHA : string; rq_SourceLocationPrefix : string;
  rq_BqrsFilePaths : BqrsFilePaths; rq_SarifFilePath : string
}.

(** What a worker can reach. *)
Record AgentWorld (SS AS DS : Type) : Type := MkAgent {
  ag_state : SS; ag_arts : AS; ag_db : DS; ag_fs : FS
}.
Arguments MkAgent {SS AS DS} _ _ _ _.
Arguments ag_state {SS AS DS} _.
Arguments ag_arts {SS AS DS} _.
Arguments ag_db {SS AS DS} _.
Arguments ag_fs {SS AS DS} _.

(** The number of workers [StartAndMonitorWorkers] starts. *)
Definition worker_count (desiredWorkerCount : Z) : Z :=
  if 0 <? desiredWorkerCount then desiredWorkerCount else 1.

Section agent.
Context {SS AS DS : Type} `{!ServerState SS, !Store AS, !QldbStore DS}.
Context (RunQuery : string -> QueryLanguage -> string -> string -> GM FS (gores RunQueryResult)).
Context (GenerateResultsZipArchive : RunQueryResult -> GM FS (gores string)).
Context (tgz_reader : string -> error + list TarItem).

Notation M := (GM (AgentWorld SS AS DS)).

Definition ag_on_state {A} (m : GM SS A) : M A :=
  zoom ag_state (fun s w => MkAgent s (ag_arts w) (ag_db w) (ag_fs w)) m.
Definition ag_on_arts {A} (m : GM AS A) : M A :=
  zoom ag_arts (fun s w => MkAgent (ag_state w) s (ag_db w) (ag_fs w)) m.
Definition ag_on_db {A} (m : GM DS A) : M A :=
  zoom ag_db (fun s w => MkAgent (ag_state w) (ag_arts w) s (ag_fs w)) m.
Definition ag_on_fs {A} (m : GM FS A) : M A :=
  zoom ag_fs (fun s w => MkAgent (ag_state w) (ag_arts w) (ag_db w) s) m.

(** [if err := m; err != nil { return result, fmt.Errorf(ctx, err) }] *)
Definition try (result : AnalyzeResult) (ctx : string) (m : M (option error))
    (k : M (gores AnalyzeResult)) : M (gores AnalyzeResult) :=
  let! err := m in
  match err with Some e => gret (result, Some (EWrap ctx e)) | None => k end.

(** [v, err := m; if err != nil { return result, fmt.Errorf(ctx, err) }] *)
Definition try_get {A} (result : AnalyzeResult) (ctx : string) (m : M (gores A))
    (k : A -> M (gores AnalyzeResult)) : M (gores AnalyzeResult) :=
  let! (v, err) := m in
  match err with Some e => gret (result, Some (EWrap ctx e)) | None => k v end.

Definition failed_result (job : AnalyzeJob) : AnalyzeResult :=
  MkResult (aj_Spec job) StatusFailed 0 ArtifactLocation_zero "" "".

(** The body of [RunAnalysisJob] once the temporary directory is there. *)
Definition analyze_in (tempDir : string) (job : AnalyzeJob) : M (gores AnalyzeResult) :=
  let result := failed_result job in
  let queryPackArchivePath := Join tempDir "query-pack.tar.gz" in
  let queryPackPath := Join tempDir "pack" in
  let databasePath := Join tempDir "database.zip" in
  try_get result "failed to download query pack" (ag_on_arts (GetQueryPack (aj_QueryPackLocation job)))
    (fun queryPackData =>
  try result "failed to write query pack archive to disk"
    (ag_on_fs (WriteFile queryPackArchivePath queryPackData))
  (try result "failed to create query pack directory" (ag_on_fs (Mkdir queryPackPath))
  (try result "failed to extract query pack"
    (ag_on_fs (UntarGz tgz_reader queryPackArchivePath queryPackPath))
  (try_get result ("failed to get database for " +:+ full_name (js_NameWithOwner (aj_Spec job)))
    (ag_on_db (GetDatabase (js_NameWithOwner (aj_Spec job))))
    (fun databaseData =>
  try result "failed to write CodeQL database to disk" (ag_on_fs (WriteFile databasePath databaseData))
  (try_get result "failed to run analysis"
    (ag_on_fs (RunQuery databasePath (aj_QueryLanguage job) queryPackPath tempDir))
    (fun runResult =>
  try_get result "failed to generate results archive" (ag_on_fs (GenerateResultsZipArchive runResult))
    (fun resultsArchive =>
  try_get result "failed to save results archive" (ag_on_arts (SaveResult (aj_Spec job) resultsArchive))
    (fun resultsLocation =>
  gret (MkResult (aj_Spec job) StatusSucceeded (rq_ResultCount runResult) resultsLocation
          (rq_SourceLocationPrefix runResult) (rq_DatabaseSHA runResult), None)))))))))).

(** [defer os.RemoveAll(tempDir)]: run after the body, a panic included. *)
Definition deferred {A} (m : M A) (cleanup : M unit) : M A := fun w =>
  let '(o, w') := m w in
  match cleanup w' with
  | (Val _, w'') => (o, w'')
  | (Panic p, w'') => (Panic p, w'')
  end.

(** [uuid] is the fresh name [uuid.New()] gives. *)
Definition RunAnalysisJob (tmp uuid : string) (job : AnalyzeJob) : M (gores AnalyzeResult) :=
  let tempDir := Join tmp uuid in
  try (failed_result job) "failed to create temporary directory" (ag_on_fs (MkdirAll tempDir))
    (deferred (analyze_in tempDir job) (ag_on_fs (RemoveAll tempDir))).

(** ** [RunWorker]

    What the two selects of the loop can see, in the order they see it, and the
    results sent to the results channel.  [uuid] gives each analysis its name. *)
Inductive event := EvStop | EvCancelled | EvClosed | EvJob (job : AnalyzeJob) (uuid : string).

Fixpoint RunWorker (tmp : string) (events : list event) : M (list AnalyzeResult) :=
  match events with
  | [] | EvStop :: _ | EvCancelled :: _ | EvClosed :: _ => gret []
  | EvJob job uuid :: events' =>
      ag_on_state (SetStatus (aj_Spec job) StatusInProgress) ;;;
      let! (result, err) := RunAnalysisJob tmp uuid job in
      match err with
      | Some _ => RunWorker tmp events'
      | None =>
          let! published := RunWorker tmp events' in
          gret (result :: published)
      end
  end.

(** ** What an analysis returns *)
Lemma try_inv result ctx m k w r o w' :
  try result ctx m k w = (Val (r, o), w') ->
  (exists e, o = Some e /\ r = result) \/ exists w1, m w = (Val None, w1) /\ k w1 = (Val (r, o), w').
Proof.
  unfold try. intros H. apply gbind_val_inv in H as ([e|] & w1 & Hm & H).
  - injection H as <- <- _. left. by eexists.
  - right. by exists w1.
Qed.

Lemma try_get_inv {A} result ctx (m : M (gores A)) k w r o w' :
  try_get result ctx m k w = (Val (r, o), w') ->
  (exists e, o = Some e /\ r = result) \/
  exists v w1, m w = (Val (v, None), w1) /\ k v w1 = (Val (r, o), w').
Proof.
  unfold try_get. intros H. apply gbind_val_inv in H as ([v [e|]] & w1 & Hm & H).
  - injection H as <- <- _. left. by eexists.
  - right. by exists v, w1.
Qed.

Lemma zoom_arts_inv {A} (m : GM AS A) w o w' :
  ag_on_arts m w = (o, w') -> m (ag_arts w) = (o, ag_arts w') /\ ag_fs w' = ag_fs w /\ ag_state w' = ag_state w.
Proof. unfold ag_on_arts, zoom. destruct (m (ag_arts w)) as [o' a]. by intros [= <- <-]. Qed.

Definition untouched (w w' : AgentWorld SS AS DS) : Prop := ag_state w' = ag_state w /\ ag_arts w' = ag_arts w.

Lemma fs_untouched {A} (m : GM FS A) w o w' : ag_on_fs m w = (o, w') -> untouched w w'.
Proof. unfold ag_on_fs, zoom. destruct (m (ag_fs w)) as [o' f]. by intros [= <- <-]. Qed.

Lemma db_untouched {A} (m : GM DS A) w o w' : ag_on_db m w = (o, w') -> untouched w w'.
Proof. unfold ag_on_db, zoom. destruct (m (ag_db w)) as [o' d]. by intros [= <- <-]. Qed.

Lemma pack_untouched `{!StoreLaws AS} loc w o w' : ag_on_arts (GetQueryPack loc) w = (o, w') -> untouched w w'.
Proof.
  intros (H & _ & Hs)%zoom_arts_inv. split; [done|].
  destruct (reading_keeps_store loc (ag_arts w)) as (Hk & _). by rewrite H in Hk.
Qed.

(** An analysis without an error: it named its job, and saved one archive. *)
Definition succeeded_with (job : AnalyzeJob) (r : AnalyzeResult) (w w' : AgentWorld SS AS DS) : Prop :=
  ar_Spec r = aj_Spec job /\ ar_Status r = StatusSucceeded /\ ag_state w' = ag_state w /\
  exists archive, SaveResult (aj_Spec job) archive (ag_arts w) = (Val (ar_ResultLocation r, None), ag_arts w').

Lemma succeeded_found `{!StoreLaws AS} job r w w' :
  succeeded_with job r w w' ->
  exists archive, GetArtifact (ar_ResultLocation r) (ag_arts w') = (Val (archive, None), ag_arts w').
Proof. intros (_ & _ & _ & archive & Hsave). exists archive. by eapply saved_result_found. Qed.

(** Either the failed result with an error, or a success whose archive is saved. *)
Lemma analyze_in_result `{!StoreLaws AS} tempDir job w r o w' :
  analyze_in tempDir job w = (Val (r, o), w') ->
  (exists e, o = Some e /\ r = failed_result job) \/ (o = None /\ succeeded_with job r w w').
Proof.
  unfold analyze_in. intros H.
  apply try_get_inv in H as [?|(v1 & w1 & [S1 A1]%pack_untouched & H)]; [by left|].
  apply try_inv in H as [?|(w2 & [S2 A2]%fs_untouched & H)]; [by left|].
  apply try_inv in H as [?|(w3 & [S3 A3]%fs_untouched & H)]; [by left|].
  apply try_inv in H as [?|(w4 & [S4 A4]%fs_untouched & H)]; [by left|].
  apply try_get_inv in H as [?|(v5 & w5 & [S5 A5]%db_untouched & H)]; [by left|].
  apply try_inv in H as [?|(w6 & [S6 A6]%fs_untouched & H)]; [by left|].
  apply try_get_inv in H as [?|(v7 & w7 & [S7 A7]%fs_untouched & H)]; [by left|].
  apply try_get_inv in H as [?|(v8 & w8 & [S8 A8]%fs_untouched & H)]; [by left|].
  apply try_get_inv in H as [?|(loc & w9 & Hsave & H)]; [by left|].
  right. injection H as <- <- <-. apply zoom_arts_inv in Hsave as (Hsave & _ & S9).
  split; [done|]. split_and!; [done|done|congruence|]. exists v8. cbn [ar_ResultLocation].
  by rewrite A8, A7, A6, A5, A4, A3, A2, A1 in Hsave.
Qed.

(** The temporary directory is gone once the body has run. *)
Lemma RunAnalysisJob_inv tmp uuid job w r o w' :
  RunAnalysisJob tmp uuid job w = (Val (r, o), w') ->
  (exists e e0 fs, o = Some e /\ r = failed_result job /\
     MkdirAll (Join tmp uuid) (ag_fs w) = (Val (Some e0), fs) /\ w' = MkAgent (ag_state w) (ag_arts w) (ag_db w) fs) \/
  exists w1 w2 fs, MkdirAll (Join tmp uuid) (ag_fs w) = (Val None, ag_fs w1) /\
    analyze_in (Join tmp uuid) job w1 = (Val (r, o), w2) /\
    RemoveAll (Join tmp uuid) (ag_fs w2) = (Val tt, fs) /\
    w' = MkAgent (ag_state w2) (ag_arts w2) (ag_db w2) fs.
Proof.
  unfold RunAnalysisJob. cbn zeta. intros H. unfold try in H.
  apply gbind_val_inv in H as ([e|] & w1 & Hm & H).
  - injection H as <- <- <-. left. unfold ag_on_fs, zoom in Hm.
    destruct (MkdirAll (Join tmp uuid) (ag_fs w)) as [o' fs']. injection Hm as -> <-.
    by exists (EWrap "failed to create temporary directory" e), e, fs'.
  - right. unfold deferred in H. destruct (analyze_in (Join tmp uuid) job w1) as [o1 w2] eqn:Ha.
    unfold ag_on_fs, zoom in H.
    destruct (RemoveAll_total (Join tmp uuid) (ag_fs w2)) as ([] & fs' & Hrm). rewrite Hrm in H.
    injection H as -> <-. exists w1, w2, fs'. split; [|done].
    unfold ag_on_fs, zoom in Hm. destruct (MkdirAll (Join tmp uuid) (ag_fs w)) as [o' fs1]. by injection Hm as -> <-.
Qed.

Lemma RunAnalysisJob_result `{!StoreLaws AS} tmp uuid job w r o w' :
  RunAnalysisJob tmp uuid job w = (Val (r, o), w') ->
  (exists e, o = Some e /\ r = failed_result job) \/ (o = None /\ succeeded_with job r w w').
Proof.
  unfold RunAnalysisJob. cbn zeta. intros H. apply try_inv in H as [?|(w1 & [S1 A1]%fs_untouched & H)]; [by left|].
  unfold deferred in H. destruct (analyze_in (Join tmp uuid) job w1) as [o1 w2] eqn:Ha.
  destruct (ag_on_fs (RemoveAll (Join tmp uuid)) w2) as [[u|p] w3] eqn:Hrm; [|done].
  apply fs_untouched in Hrm as [S3 A3]. injection H as -> <-.
  apply analyze_in_result in Ha as [?|(-> & Hsp & Hst & Hs & archive & Hsave)]; [by left|right].
  split; [done|]. split_and!; [done|done|congruence|]. exists archive. by rewrite A3, <- A1.
Qed.

(** C16.  An analysis that reports no error names the job it was given, says
    succeeded, and its archive can be read at the location it reports; one that
    reports an error comes with a result that says failed.  If the calls of the
    file system do not fail, its temporary directory is gone afterwards, with every
    file and directory in it; when the directory could not be made in the first
    place, the analysis is an error and no file has changed. *)
Theorem analysis_outcome `{!StoreLaws AS} tmp uuid job w r o w' :
  RunAnalysisJob tmp uuid job w = (Val (r, o), w') ->
  ((exists e, o = Some e /\ r = failed_result job) \/
   (o = None /\ ar_Spec r = aj_Spec job /\ ar_Status r = StatusSucceeded /\
    exists archive, GetArtifact (ar_ResultLocation r) (ag_arts w') = (Val (archive, None), ag_arts w'))) /\
  ((forall n, fs_fault (ag_fs w') n = None) ->
   match (MkdirAll (Join tmp uuid) (ag_fs w)).1 with
   | Val None => forall p, under (Join tmp uuid) p = true ->
       fs_files (ag_fs w') !! p = None /\ p ∉ fs_dirs (ag_fs w')
   | _ => o <> None /\ fs_files (ag_fs w') = fs_files (ag_fs w)
   end).
Proof.
  intros H. split.
  { apply RunAnalysisJob_result in H as [?|(-> & Hok)]; [by left|right].
    split_and!; [done|apply Hok|apply Hok|by eapply succeeded_found]. }
  intros Hf. apply RunAnalysisJob_inv in H as [(e & e0 & fs & -> & -> & Hmk & ->)|(w1 & w2 & fs & Hmk & Ha & Hrm & ->)];
    rewrite Hmk; cbn [ag_fs fst] in *.
  - split; [done|by apply mkdirs_files in Hmk].
  - intros p Hu. pose proof (RemoveAll_faults (Join tmp uuid) (ag_fs w2)) as Hsame.
    pose proof (RemoveAll_removes (Join tmp uuid) (ag_fs w2) p) as Hgone. rewrite Hrm in Hsame, Hgone.
    cbn [snd] in Hsame. apply Hgone; [by rewrite <- Hsame|done].
Qed.

(** What an analysis can come to, as a relation: the one the workers of
    [System] are given, with the laws assumed of it there. *)
Definition analysis_of (job : AnalyzeJob) (o : option AnalyzeResult) : Prop :=
  exists tmp uuid w r err w', RunAnalysisJob tmp uuid job w = (Val (r, err), w') /\
    o = match err with Some _ => None | None => Some r end.

Lemma analysis_of_ok `{!StoreLaws AS} job r :
  analysis_of job (Some r) -> ar_Spec r = aj_Spec job /\ ar_Status r = StatusSucceeded.
Proof.
  intros (tmp & uuid & w & r' & err & w' & H & Ho).
  apply RunAnalysisJob_result in H as [(e & -> & _)|(-> & H1 & H2 & _)]; [done|]. by injection Ho as ->.
Qed.

(** C17.  Every result a worker publishes says succeeded and belongs to one of
    the jobs it received; the failed results never leave the worker. *)
Theorem published_results_succeed `{!StoreLaws AS} tmp events w published w' :
  RunWorker tmp events w = (Val published, w') ->
  Forall (fun r => ar_Status r = StatusSucceeded /\
     exists job uuid, EvJob job uuid ∈ events /\ ar_Spec r = aj_Spec job) published.
Proof.
  revert w published w'. induction events as [|ev events IH]; intros w published w' H.
  { injection H as <- _. constructor. }
  destruct ev as [| | |job uuid]; try (injection H as <- _; constructor).
  cbn [RunWorker] in H. apply gbind_val_inv in H as (u & w1 & _ & H).
  apply gbind_val_inv in H as ([r [e|]] & w2 & Hrun & H).
  - eapply Forall_impl; [|by eapply IH]. intros r' (Hs & job' & uuid' & Hin & Hsp).
    split; [done|]. exists job', uuid'. split; [by right|done].
  - apply gbind_val_inv in H as (rs & w3 & Hrest & H). injection H as <- _.
    apply RunAnalysisJob_result in Hrun as [(e & [=] & _)|(_ & Hsp & Hs & _)]. constructor.
    + split; [done|]. exists job, uuid. split; [left|done].
    + eapply Forall_impl; [|by eapply IH]. intros r' (Hs' & job' & uuid' & Hin & Hsp').
      split; [done|]. exists job', uuid'. split; [by right|done].
Qed.
End agent.
