(* ===== verification/Pool.v ===== *)
(** [StartAndMonitorWorkers] and the loops of [RunWorker]: a pool of workers, how
    it is started and how it comes to an end.

    A worker is at one of the selects of its loop, in an analysis, at the send of
    its result, or done.  The context is cancelled, jobs arrive and results are
    taken by the rest of the program: the steps labelled [Env].  The channels are
    those of [Queue]; what an analysis does to the state is in [Agent]. *)
From S2P Require Import Prelude GoStrings GoUtf8 GoJson GoPath GoOs Archive Common ArtifactStore State QldbStore.
From S2P Require Import Queue Agent.

Inductive wpoint : Type :=
| PTop                          (* the outer select *)
| PWait                         (* the inner select *)
| PBusy (job : AnalyzeJob)
| PSend (r : AnalyzeResult)     (* queue.Results() <- result *)
| PDone.

Inductive mpoint : Type :=
| MWaiting                      (* <-ctx.Done() *)
| MClosing (i : nat)            (* the loop over stopChans *)
| MReturned.

Record Pool : Type := MkPool {
  po_cancelled : bool;
  po_main : mpoint;
  po_stops : list (Chan unit);
  po_workers : list wpoint;
  po_wg : Z;
  po_jobs : Chan AnalyzeJob;
  po_results : Chan AnalyzeResult
}.

(** The loop that starts the workers: one stop channel and one [wg.Add(1)] each. *)
Fixpoint start_workers (n : nat) (p : Pool) : Pool :=
  match n with
  | O => p
  | S n' =>
      start_workers n'
        (MkPool (po_cancelled p) (po_main p) (po_stops p ++ [make_chan 0]) (po_workers p ++ [PTop])
           (po_wg p + 1) (po_jobs p) (po_results p))
  end.

Definition StartAndMonitorWorkers (desiredWorkerCount : Z) (q : QueueSingle) : Pool :=
  start_workers (Z.to_nat (worker_count desiredWorkerCount))
    (MkPool false MWaiting [] [] 0 (Jobs q) (Results q)).

(** ** Steps *)
Inductive label : Type := Env | Own | Took (job : AnalyzeJob).

Definition at_worker (i : nat) (pt : wpoint) (p : Pool) : Pool :=
  MkPool (po_cancelled p) (po_main p) (po_stops p) (<[i := pt]> (po_workers p)) (po_wg p) (po_jobs p) (po_results p).
(** [return], with the deferred [wg.Done()]. *)
Definition worker_returns (i : nat) (p : Pool) : Pool :=
  MkPool (po_cancelled p) (po_main p) (po_stops p) (<[i := PDone]> (po_workers p)) (po_wg p - 1) (po_jobs p)
    (po_results p).
Definition at_main (m : mpoint) (stops : list (Chan unit)) (p : Pool) : Pool :=
  MkPool (po_cancelled p) m stops (po_workers p) (po_wg p) (po_jobs p) (po_results p).
Definition with_po_jobs (ch : Chan AnalyzeJob) (p : Pool) : Pool :=
  MkPool (po_cancelled p) (po_main p) (po_stops p) (po_workers p) (po_wg p) ch (po_results p).
Definition with_po_results (ch : Chan AnalyzeResult) (p : Pool) : Pool :=
  MkPool (po_cancelled p) (po_main p) (po_stops p) (po_workers p) (po_wg p) (po_jobs p) ch.
Definition cancel (p : Pool) : Pool :=
  MkPool true (po_main p) (po_stops p) (po_workers p) (po_wg p) (po_jobs p) (po_results p).

(** [case <-stopChan] and [case <-ctx.Done()] of either select. *)
Definition told_to_stop (p : Pool) (i : nat) : Prop :=
  po_cancelled p = true \/ exists ch, po_stops p !! i = Some ch /\ receive ch = Done (None, ch).

Section pool.
Context (analysis : AnalyzeJob -> option AnalyzeResult -> Prop).

Inductive pool_step (p : Pool) : label -> Pool -> Prop :=
| ps_cancel : pool_step p Env (cancel p)
| ps_arrive job ch : send job (po_jobs p) = Done ch -> pool_step p Env (with_po_jobs ch p)
| ps_taken r ch : receive (po_results p) = Done (Some r, ch) -> pool_step p Env (with_po_results ch p)
| ps_stop i pt :
    po_workers p !! i = Some pt -> pt = PTop \/ pt = PWait -> told_to_stop p i ->
    pool_step p Own (worker_returns i p)
| ps_default i :
    po_workers p !! i = Some PTop -> ~ told_to_stop p i -> pool_step p Own (at_worker i PWait p)
| ps_job i job ch :
    po_workers p !! i = Some PWait -> receive (po_jobs p) = Done (Some job, ch) ->
    pool_step p (Took job) (with_po_jobs ch (at_worker i (PBusy job) p))
| ps_closed i ch :
    po_workers p !! i = Some PWait -> receive (po_jobs p) = Done (None, ch) ->
    pool_step p Own (worker_returns i p)
| ps_succeed i job r :
    po_workers p !! i = Some (PBusy job) -> analysis job (Some r) -> pool_step p Own (at_worker i (PSend r) p)
| ps_fail i job :
    po_workers p !! i = Some (PBusy job) -> analysis job None -> pool_step p Own (at_worker i PTop p)
| ps_send i r ch :
    po_workers p !! i = Some (PSend r) -> send r (po_results p) = Done ch ->
    pool_step p Own (with_po_results ch (at_worker i PTop p))
| ps_main_cancelled :
    po_main p = MWaiting -> po_cancelled p = true -> pool_step p Own (at_main (MClosing 0) (po_stops p) p)
| ps_main_close i ch ch' :
    po_main p = MClosing i -> po_stops p !! i = Some ch -> close ch = Done ch' ->
    pool_step p Own (at_main (MClosing (S i)) (<[i := ch']> (po_stops p)) p)
| ps_main_return i :
    po_main p = MClosing i -> po_stops p !! i = None -> pool_step p Own (at_main MReturned (po_stops p) p).

Inductive pool_run : Pool -> list label -> Pool -> Prop :=
| run_nil p : pool_run p [] p
| run_cons p l p' ls p'' : pool_step p l p' -> pool_run p' ls p'' -> pool_run p (l :: ls) p''.
End pool.

(** ** What holds throughout *)
Definition is_done (pt : wpoint) : bool := match pt with PDone => true | _ => false end.
Definition alive (ws : list wpoint) : nat := total_of (fun pt => if is_done pt then 0 else 1)%nat ws.

(** How many stop channels the main goroutine has closed. *)
Definition closed_to (p : Pool) : nat :=
  match po_main p with MWaiting => 0 | MClosing i => i | MReturned => length (po_stops p) end.

Record pool_ok (p : Pool) : Prop := {
  po_lengths : length (po_stops p) = length (po_workers p);
  po_counter : po_wg p = Z.of_nat (alive (po_workers p));
  po_closed : forall i ch, po_stops p !! i = Some ch -> ch = MkChan 0 [] (bool_decide (i < closed_to p)%nat);
  po_closing : po_main p <> MWaiting -> po_cancelled p = true;
  po_open : ch_closed (po_results p) = false
}.

Lemma alive_insert ws i pt pt' :
  ws !! i = Some pt ->
  (alive (<[i := pt']> ws) + (if is_done pt then 0 else 1) = alive ws + (if is_done pt' then 0 else 1))%nat.
Proof.
  intros Hi. exact (total_of_insert _ _ _ _ pt' Hi).
Qed.

Lemma start_workers_eq n p :
  start_workers n p = MkPool (po_cancelled p) (po_main p) (po_stops p ++ replicate n (make_chan 0))
    (po_workers p ++ replicate n PTop) (po_wg p + Z.of_nat n) (po_jobs p) (po_results p).
Proof.
  revert p. induction n as [|n IH]; intros p; cbn [start_workers replicate].
  - rewrite !app_nil_r, Z.add_0_r. by destruct p.
  - rewrite IH. cbn [po_cancelled po_main po_stops po_workers po_wg po_jobs po_results].
    rewrite <- !app_assoc. cbn [app]. f_equal. lia.
Qed.

Lemma alive_replicate n : alive (replicate n PTop) = n.
Proof. induction n as [|n IH]; [done|]. unfold alive, total_of in *. cbn. by rewrite IH. Qed.

Lemma start_ok desired q : ch_closed (Results q) = false -> pool_ok (StartAndMonitorWorkers desired q).
Proof.
  intros Hq. unfold StartAndMonitorWorkers. rewrite start_workers_eq.
  split; cbn [po_cancelled po_main po_stops po_workers po_wg po_jobs po_results app].
  - by rewrite !length_replicate.
  - by rewrite alive_replicate, Z.add_0_l.
  - intros i ch [-> _]%lookup_replicate. rewrite bool_decide_false; [done|]. cbn. lia.
  - done.
  - done.
Qed.

Section steps.
Context (analysis : AnalyzeJob -> option AnalyzeResult -> Prop).

(** A worker that moves but does not return, and one that does. *)
Lemma at_worker_ok p i pt pt' :
  pool_ok p -> po_workers p !! i = Some pt -> is_done pt = false -> is_done pt' = false ->
  pool_ok (at_worker i pt' p).
Proof.
  intros [H1 H2 H3 H4 H5] Hi Hd Hd'. pose proof (alive_insert _ _ _ pt' Hi) as Ha. rewrite Hd, Hd' in Ha.
  split; cbn [at_worker po_cancelled po_main po_stops po_workers po_wg po_jobs po_results closed_to]; try done.
  - by rewrite length_insert.
  - lia.
Qed.

Lemma worker_returns_ok p i pt :
  pool_ok p -> po_workers p !! i = Some pt -> is_done pt = false -> pool_ok (worker_returns i p).
Proof.
  intros [H1 H2 H3 H4 H5] Hi Hd. pose proof (alive_insert _ _ _ PDone Hi) as Ha. rewrite Hd in Ha. cbn in Ha.
  split; cbn [worker_returns po_cancelled po_main po_stops po_workers po_wg po_jobs po_results closed_to]; try done.
  - by rewrite length_insert.
  - lia.
Qed.

Lemma with_po_jobs_ok p ch : pool_ok p -> pool_ok (with_po_jobs ch p).
Proof. by intros [H1 H2 H3 H4 H5]. Qed.

Lemma with_po_results_ok p ch : pool_ok p -> ch_closed ch = false -> pool_ok (with_po_results ch p).
Proof. intros [H1 H2 H3 H4 H5] Hc. by split. Qed.

Lemma send_keeps_open {A} (x : A) ch ch' : send x ch = Done ch' -> ch_closed ch' = false.
Proof. unfold send. destruct (ch_closed ch); [done|]. destruct (_ <? _)%nat; [|done]. by intros [= <-]. Qed.

Lemma receive_keeps_closed {A} (ch ch' : Chan A) o : receive ch = Done (o, ch') -> ch_closed ch' = ch_closed ch.
Proof.
  unfold receive. destruct (ch_buf ch); [|by intros [= _ <-]]. destruct (ch_closed ch) eqn:E; [|done].
  by intros [= _ <-].
Qed.

Lemma pool_step_ok p l p' : pool_step analysis p l p' -> pool_ok p -> pool_ok p'.
Proof.
  intros Hs Hok. pose proof (po_open _ Hok) as Hopen. destruct Hs.
  - by destruct Hok.
  - by apply with_po_jobs_ok.
  - apply with_po_results_ok; [done|]. by erewrite receive_keeps_closed.
  - eapply worker_returns_ok; [done..|]. by destruct H0 as [->| ->].
  - by eapply at_worker_ok.
  - apply with_po_jobs_ok. by eapply at_worker_ok.
  - by eapply worker_returns_ok.
  - by eapply at_worker_ok.
  - by eapply at_worker_ok.
  - apply with_po_results_ok; [by eapply at_worker_ok|by eapply send_keeps_open].
  - destruct Hok as [K1 K2 K3 K4 K5]. split; cbn; try done. intros i ch Hi. rewrite (K3 i ch Hi).
    unfold closed_to. by rewrite H.
  - destruct Hok as [K1 K2 K3 K4 K5]. split; cbn; try done.
    + by rewrite length_insert.
    + intros j ch0 Hj. pose proof (K3 _ _ H0) as Hch. unfold closed_to in *. rewrite H in *.
      rewrite bool_decide_false in Hch by lia. subst ch. injection H1 as <-.
      apply list_lookup_insert_Some in Hj as [(<- & <- & _)|[Hne Hj]].
      * by rewrite bool_decide_true by lia.
      * rewrite (K3 _ _ Hj). f_equal. apply bool_decide_ext. lia.
    + intros _. apply K4. by rewrite H.
  - destruct Hok as [K1 K2 K3 K4 K5]. split; cbn; try done.
    + intros j ch Hj. rewrite (K3 _ _ Hj). f_equal. apply bool_decide_ext.
      unfold closed_to. rewrite H. cbn. apply lookup_lt_Some in Hj. apply lookup_ge_None in H0. lia.
    + intros _. apply K4. by rewrite H.
Qed.

Lemma pool_run_ok p ls p' : pool_run analysis p ls p' -> pool_ok p -> pool_ok p'.
Proof. induction 1; [done|]. intros Hok. apply IHpool_run. by eapply pool_step_ok. Qed.

(** ** After the context is cancelled *)
Definition point_work (pt : wpoint) : nat :=
  match pt with PDone => 0 | PTop => 1 | PSend _ => 2 | PBusy _ => 3 | PWait => 4 end.
Definition main_work (p : Pool) : nat :=
  match po_main p with
  | MWaiting => length (po_stops p) + 2 | MClosing i => length (po_stops p) - i + 1 | MReturned => 0
  end.
Definition pool_work (p : Pool) : nat := (total_of point_work (po_workers p) + main_work p)%nat.

(** The workers that may still receive a job. *)
Definition may_take (pt : wpoint) : nat := match pt with PWait => 1 | _ => 0 end.
Definition waiting (p : Pool) : nat := total_of may_take (po_workers p).

Definition is_own (l : label) : bool := match l with Env => false | _ => true end.
Definition is_took (l : label) : bool := match l with Took _ => true | _ => false end.
Definition count (f : label -> bool) (ls : list label) : nat := length (List.filter f ls).

Lemma pool_work_worker ws i pt pt' :
  ws !! i = Some pt ->
  (total_of point_work (<[i := pt']> ws) + point_work pt = total_of point_work ws + point_work pt')%nat /\
  (total_of may_take (<[i := pt']> ws) + may_take pt = total_of may_take ws + may_take pt')%nat.
Proof. intros Hi. split; by apply total_of_insert. Qed.

Lemma cancelled_step p l p' :
  po_cancelled p = true -> pool_step analysis p l p' ->
  po_cancelled p' = true /\ (pool_work p' + count is_own [l] <= pool_work p)%nat /\
  (waiting p' + count is_took [l] <= waiting p)%nat.
Proof.
  intros Hc Hs.
  destruct Hs; (split; [done|]); unfold pool_work, waiting, main_work; cbn [count List.filter is_own is_took length
    at_worker worker_returns at_main with_po_jobs with_po_results cancel po_workers po_main po_stops];
    try match goal with Hi : po_workers p !! ?i = Some _ |- context [<[?i := ?b]> (po_workers p)] =>
      destruct (pool_work_worker _ _ _ b Hi) as [Hw Hq]; cbn [point_work may_take] in Hw, Hq end;
    rewrite ?length_insert; try lia.
  - destruct H0 as [->| ->]; cbn in Hw, Hq; lia.
  - destruct H0. by left.
  - rewrite H. lia.
  - rewrite H. apply lookup_lt_Some in H0. lia.
  - rewrite H. lia.
Qed.

Lemma cancelled_run p ls p' :
  pool_run analysis p ls p' -> po_cancelled p = true ->
  po_cancelled p' = true /\ (pool_work p' + count is_own ls <= pool_work p)%nat /\
  (waiting p' + count is_took ls <= waiting p)%nat.
Proof.
  induction 1 as [p|p l p1 ls p2 Hs Hrun IH]; intros Hc; [split_and!; [done|cbn; lia|cbn; lia]|].
  destruct (cancelled_step p l p1 Hc Hs) as (Hc1 & Hw & Hq). destruct (IH Hc1) as (Hc2 & Hw2 & Hq2).
  split_and!; [done| |]; unfold count in *; cbn in *; destruct l; cbn in *; lia.
Qed.

(** When nothing but the rest of the program can move. *)
Lemma pool_at_end p :
  pool_ok p -> po_cancelled p = true -> (forall job, exists o, analysis job o) ->
  (forall l p', pool_step analysis p l p' -> l = Env) ->
  po_main p = MReturned /\
  forall i pt, po_workers p !! i = Some pt -> pt = PDone \/ exists r, pt = PSend r /\ send r (po_results p) = Blocks.
Proof.
  intros Hok Hc Htotal Hend. split.
  - destruct (po_main p) as [|i|] eqn:Hm; [| |done].
    + by discriminate (Hend _ _ (ps_main_cancelled _ _ Hm Hc)).
    + destruct (po_stops p !! i) as [ch|] eqn:Hi.
      * pose proof (po_closed _ Hok _ _ Hi) as Hch. unfold closed_to in Hch. rewrite Hm, bool_decide_false in Hch by lia.
        subst ch. by discriminate (Hend _ _ (ps_main_close _ _ _ _ _ Hm Hi eq_refl)).
      * by discriminate (Hend _ _ (ps_main_return _ _ _ Hm Hi)).
  - intros i [| |job|r|] Hi.
    + discriminate (Hend _ _ (ps_stop _ _ _ _ Hi (or_introl eq_refl) (or_introl Hc))).
    + discriminate (Hend _ _ (ps_stop _ _ _ _ Hi (or_intror eq_refl) (or_introl Hc))).
    + destruct (Htotal job) as [[r|] Hr].
      * discriminate (Hend _ _ (ps_succeed _ _ _ _ _ Hi Hr)).
      * discriminate (Hend _ _ (ps_fail _ _ _ _ Hi Hr)).
    + right. exists r. split; [done|]. destruct (send r (po_results p)) as [ch| |msg] eqn:Hsend; [|done|].
      * discriminate (Hend _ _ (ps_send _ _ _ _ _ Hi Hsend)).
      * exfalso. unfold send in Hsend. rewrite (po_open _ Hok) in Hsend. by destruct (_ <? _)%nat.
    + by left.
Qed.
End steps.

(** C12.  Cancelling the context brings the pool down.  From then on the pool makes
    a bounded number of steps, whatever jobs arrive, and each worker takes at most
    one more job, and only if it was waiting for one.  When it can move no more
    the main goroutine has closed every stop channel once and returned, and every
    worker has returned, or is left at the send of a result nobody takes; the wait
    group counts exactly those.  At no point is a channel closed twice or the
    counter negative. *)
Theorem pool_shuts_down analysis desired q before p after p' :
  ch_closed (Results q) = false -> (forall job, exists o, analysis job o) ->
  pool_run analysis (StartAndMonitorWorkers desired q) before p -> po_cancelled p = true ->
  pool_run analysis p after p' ->
  (count is_own after <= pool_work p)%nat /\ (count is_took after <= waiting p)%nat /\
  po_wg p' = Z.of_nat (alive (po_workers p')) /\
  ((forall l p'', pool_step analysis p' l p'' -> l = Env) ->
   po_main p' = MReturned /\
   (forall i pt, po_workers p' !! i = Some pt ->
      pt = PDone \/ exists r, pt = PSend r /\ send r (po_results p') = Blocks) /\
   (forall i ch, po_stops p' !! i = Some ch -> ch_closed ch = true)).
Proof.
  intros Hopen Htotal Hbefore Hc Hafter.
  assert (pool_ok p) as Hok by (eapply pool_run_ok; [exact Hbefore|by apply start_ok]).
  assert (pool_ok p') as Hok' by (eapply pool_run_ok; [exact Hafter|done]).
  destruct (cancelled_run _ _ _ _ Hafter Hc) as (Hc' & Hw & Hq).
  split; [lia|]. split; [lia|]. split; [by apply po_counter|].
  intros Hend. destruct (pool_at_end _ _ Hok' Hc' Htotal Hend) as [Hm Hall]. split_and!; [done|done|].
  intros i ch Hi. rewrite (po_closed _ Hok' _ _ Hi). unfold closed_to. rewrite Hm. cbn.
  apply bool_decide_true. by apply lookup_lt_Some in Hi.
Qed.
