(* ===== verification/EndToEnd.v ===== *)
(** The whole way of a session through the program: the request that submits it,
    a worker that analyses its jobs, the consumer of the results, and the requests
    for its status and its archives, each reading what the one before wrote. *)
From S2P Require Import Prelude GoStrings GoUtf8 GoJson GoCodec GoBase64 GoPath GoOs Archive Common.
From S2P Require Import Messages Http Queue ArtifactStore State QldbStore Server ServerSpec ServerProps Agent.

(** ** The worker *)
Definition view_begin (v : View) (job : AnalyzeJob) : View := view_set_status (aj_Spec job) StatusInProgress v.
Definition view_settle (v : View) (r : AnalyzeResult) : View :=
  view_set_status (ar_Spec r) (ar_Status r) (view_set_result (ar_Spec r) r v).

#[export] Instance view_begin_proper : Proper ((≡) ==> (=) ==> (≡)) view_begin.
Proof. intros v1 v2 H job ? <-. unfold view_begin. by rewrite H. Qed.
#[export] Instance view_settle_proper : Proper ((≡) ==> (=) ==> (≡)) view_settle.
Proof. intros v1 v2 H r ? <-. unfold view_settle. by rewrite H. Qed.

#[export] Instance foldl_proper {A} (f : View -> A -> View) `{!Proper ((≡) ==> (=) ==> (≡)) f} :
  Proper ((≡) ==> (=) ==> (≡)) (foldl f).
Proof.
  intros v1 v2 H l ? <-. revert v1 v2 H. induction l as [|x l IH]; intros v1 v2 H; [done|]. simpl. apply IH. by rewrite H.
Qed.

Lemma elem_of_map_inv {A B} (f : A -> B) y l : y ∈ map f l -> exists x, y = f x /\ x ∈ l.
Proof. intros H. by apply (list_elem_of_fmap f l y) in H. Qed.

(** The key the archive of a job is kept under. *)
Definition job_key (job : AnalyzeJob) : string := result_key (aj_Spec job).

Section worker.
Context {SS AS DS : Type} `{!ServerState SS, !ServerStateSpec SS, !Store AS, !StoreLaws AS, !QldbStore DS}.
Context (RunQuery : string -> QueryLanguage -> string -> string -> GM FS (gores RunQueryResult)).
Context (GenerateResultsZipArchive : RunQueryResult -> GM FS (gores string)).
Context (tgz_reader : string -> error + list TarItem).

Notation RunWorker := (Agent.RunWorker RunQuery GenerateResultsZipArchive tgz_reader).
Implicit Types g : AgentWorld SS AS DS.

(** One result at most for each event. *)
Lemma published_length tmp events g published g' :
  RunWorker tmp events g = (Val published, g') -> (length published <= length events)%nat.
Proof.
  revert g published g'. induction events as [|ev events IH]; intros g published g' H.
  { by injection H as <- _. }
  destruct ev as [| | |job uuid]; try (injection H as <- _; cbn; lia).
  cbn [Agent.RunWorker] in H. apply gbind_val_inv in H as (u & g1 & _ & H).
  apply gbind_val_inv in H as ([r [e|]] & g2 & _ & H).
  - apply IH in H. cbn. lia.
  - apply gbind_val_inv in H as (rs & g3 & Hrest & H). injection H as <- _. apply IH in Hrest. cbn. lia.
Qed.

(** What a worker that loses no job leaves behind. *)
Definition completed (arts : AS) (job : AnalyzeJob) (r : AnalyzeResult) : Prop :=
  ar_Spec r = aj_Spec job /\ ar_Status r = StatusSucceeded /\ Key (ar_ResultLocation r) = job_key job /\
  exists archive, (GetArtifact (ar_ResultLocation r) arts).1 = Val (archive, None).

Lemma worker_completes n tmp jobs uuids g published g' :
  wf n (ag_state g) ->
  (forall job, job ∈ jobs -> v_known (view (ag_state g)) (SessionID (aj_Spec job)) /\ storable_spec (aj_Spec job)) ->
  NoDup (map job_key jobs) -> length uuids = length jobs ->
  RunWorker tmp (zip_with EvJob jobs uuids) g = (Val published, g') -> length published = length jobs ->
  wf n (ag_state g') /\ view (ag_state g') ≡ foldl view_begin (view (ag_state g)) jobs /\
  Forall2 (completed (ag_arts g')) jobs published /\
  forall l, Key l ∉ map job_key jobs -> (GetArtifact l (ag_arts g')).1 = (GetArtifact l (ag_arts g)).1.
Proof.
  revert uuids g published g'. induction jobs as [|job jobs IH]; intros [|uuid uuids] g published g' Hwf Hjobs Hnd Hlen Hrun Hpub;
    try done.
  { destruct published; [|done]. injection Hrun as <-. by split_and!. }
  cbn [map] in Hnd. apply list.NoDup_cons in Hnd as [Hnew Hnd]. destruct (Hjobs job) as [Hk Hst]; [left|].
  destruct (SetStatus_ok n (ag_state g) (aj_Spec job) StatusInProgress) as (s1 & H1 & Hwf1 & Hv1); [done..|].
  cbn [zip_with Agent.RunWorker] in Hrun. apply gbind_val_inv in Hrun as (u & g1 & Hset & Hrun).
  unfold ag_on_state, zoom in Hset. rewrite H1 in Hset. injection Hset as _ <-.
  apply gbind_val_inv in Hrun as ([r err] & g2 & Hana & Hrun).
  destruct (RunAnalysisJob_result _ _ _ _ _ _ _ _ _ _ Hana) as [(e & -> & _)|(-> & Hsp & Hstat & Hs2 & archive & Hsave)].
  { apply published_length in Hrun. rewrite length_zip_with in Hrun. cbn in Hpub. lia. }
  apply gbind_val_inv in Hrun as (rs & g3 & Hrest & Hrun). injection Hrun as <- <-.
  cbn [ag_state ag_arts] in Hs2, Hsave. pose proof (saved_result_key _ _ _ _ _ Hsave) as Hkey.
  destruct (IH uuids g2 rs g3) as (Hwf3 & Hv3 & Hall & Hkeep); [by rewrite Hs2| |done|by injection Hlen|done|by injection Hpub|].
  { intros j Hj. rewrite Hs2. destruct (Hjobs j) as [Hkj ?]; [by right|]. split; [|done]. by apply Hv1. }
  split_and!; [done| | |].
  - rewrite Hv3, Hs2, Hv1. done.
  - constructor; [|done]. split_and!; [done..|]. exists archive. rewrite Hkeep by by rewrite Hkey.
    by rewrite (saved_result_found _ _ _ _ _ Hsave).
  - intros l Hl. cbn [map] in Hl. apply not_elem_of_cons in Hl as [Hl1 Hl2]. rewrite Hkeep by done.
    by apply (saved_result_keeps _ _ _ _ _ l Hsave).
Qed.
End worker.

(** ** The consumer

    [n] turns of the loop of [ConsumeResults], and the channel it leaves.  A
    receive that blocks ends the run; one from a closed channel gives the zero
    result, which is consumed like any other. *)
Section consumer.
Context {SS AS DS : Type} `{!ServerState SS}.
Notation M := (GM (World SS AS DS)).

Fixpoint ConsumeResults (n : nat) (ch : Chan AnalyzeResult) : M (Chan AnalyzeResult) :=
  match n with
  | O => gret ch
  | S n' =>
      match receive ch with
      | Done (r, ch') => consume_result (default AnalyzeResult_zero r) ;;; ConsumeResults n' ch'
      | _ => gret ch
      end
  end.

(** What is in the channel is consumed in order, and then the loop waits. *)
Lemma ConsumeResults_open n cap rs (w : World SS AS DS) s' :
  gforeach consume_result rs w = (Val tt, s') -> (length rs <= n)%nat ->
  ConsumeResults n (MkChan cap rs false) w = (Val (MkChan cap [] false), s').
Proof.
  revert n w. induction rs as [|r rs IH]; intros n w H Hn.
  - injection H as <-. by destruct n.
  - destruct n as [|n]; [cbn in Hn; lia|]. cbn [ConsumeResults receive ch_buf ch_cap ch_closed default from_option id].
    cbn [gforeach] in H. apply gbind_val_inv in H as ([] & w1 & H1 & H). go_step H1. apply IH; [done|cbn in Hn; lia].
Qed.

(** After [Close] the loop does not end: it goes on storing the zero result. *)
Lemma ConsumeResults_closed n cap (w : World SS AS DS) :
  ConsumeResults n (MkChan cap [] true) w =
    (gforeach consume_result (replicate n AnalyzeResult_zero) ;;; gret (MkChan cap [] true)) w.
Proof.
  revert w. induction n as [|n IH]; intros w; [done|].
  cbn [ConsumeResults receive ch_buf ch_closed default from_option replicate gforeach]. unfold gbind in *.
  destruct (consume_result AnalyzeResult_zero w) as [[[]|p] w1]; [|done]. by rewrite IH.
Qed.
End consumer.

(** ** What the jobs and the results do to the state *)
Lemma begins_frame jobs v :
  let v' := foldl view_begin v jobs in
  v_known v' = v_known v /\ v_jobs v' = v_jobs v /\ v_info v' = v_info v /\
  forall js, js ∉ map aj_Spec jobs -> v_status v' !! js = v_status v !! js.
Proof.
  revert v. induction jobs as [|job jobs IH]; intros v; simpl; [done|].
  destruct (IH (view_begin v job)) as (Hk & Hj & Hi & Hs). split_and!; [done..|].
  intros js [Hne Hn]%not_elem_of_cons. rewrite Hs by done. simpl. by rewrite lookup_insert_ne.
Qed.

Lemma settles_frame rs v :
  let v' := foldl view_settle v rs in
  v_known v' = v_known v /\ v_jobs v' = v_jobs v /\ v_info v' = v_info v /\
  forall js, js ∉ map ar_Spec rs -> v_status v' !! js = v_status v !! js /\ v_result v' !! js = v_result v !! js.
Proof.
  revert v. induction rs as [|r rs IH]; intros v; simpl; [done|].
  destruct (IH (view_settle v r)) as (Hk & Hj & Hi & Hs). split_and!; [done..|].
  intros js [Hne Hn]%not_elem_of_cons. destruct (Hs js Hn) as [-> ->]. simpl. by rewrite !lookup_insert_ne.
Qed.

Lemma settles_lookup rs v r :
  NoDup (map ar_Spec rs) -> r ∈ rs ->
  v_status (foldl view_settle v rs) !! ar_Spec r = Some (ar_Status r) /\
  v_result (foldl view_settle v rs) !! ar_Spec r = Some r.
Proof.
  revert v. induction rs as [|r' rs IH]; intros v Hnd Hin; [by apply not_elem_of_nil in Hin|].
  cbn [map] in Hnd. apply list.NoDup_cons in Hnd as [Hnew Hnd]. simpl.
  apply elem_of_cons in Hin as [->|Hin]; [|by apply IH].
  destruct (settles_frame rs (view_settle v r')) as (_ & _ & _ & Hs). destruct (Hs _ Hnew) as [-> ->].
  simpl. by rewrite !lookup_insert_eq.
Qed.

(** A session is as far as the slowest of its jobs says. *)
Lemma all_succeeded sid m :
  (forall js st, m !! js = Some st -> SessionID js = sid -> st = StatusSucceeded) ->
  overall_spec (session_statuses sid m) = StatusSucceeded.
Proof.
  intros Hall. unfold overall_spec. rewrite decide_True; [done|].
  apply list.Forall_forall. intros st Hst. unfold session_statuses in Hst.
  apply list_elem_of_In, in_map_iff in Hst as ([js st'] & <- & Hin).
  apply filter_In in Hin as [Hin Hsid]. simpl in Hsid.
  apply (Hall js); [by apply elem_of_map_to_list, list_elem_of_In|lia].
Qed.

Lemma overall_succeeds sid ji v repos :
  (forall js st, v_status v !! js = Some st -> SessionID js = sid -> st = StatusSucceeded) ->
  sr_Status (status_response sid ji v repos) = "succeeded".
Proof. intros Hall. cbn [sr_Status status_response]. by rewrite all_succeeded. Qed.

(** ** The session *)
Section session.
Context {SS AS DS : Type} `{!ServerState SS, !ServerStateSpec SS, !Store AS, !StoreLaws AS,
  !QldbStore DS, !QldbStoreLaws DS}.
Context (RunQuery : string -> QueryLanguage -> string -> string -> GM FS (gores RunQueryResult)).
Context (GenerateResultsZipArchive : RunQueryResult -> GM FS (gores string)).
Context (tgz_reader : string -> error + list TarItem).
Context (clock : nat -> string).

Implicit Types w : World SS AS DS.
Implicit Types g : AgentWorld SS AS DS.

Lemma consume_all n rs w :
  wf n (w_state w) ->
  (forall r, r ∈ rs -> v_known (view (w_state w)) (SessionID (ar_Spec r)) /\ storable_spec (ar_Spec r) /\
     storable_result r /\ 0 <= ar_Status r <= 5) ->
  exists s', gforeach consume_result rs w = (Val tt, with_state s' w) /\ wf n s' /\
    view s' ≡ foldl view_settle (view (w_state w)) rs.
Proof.
  revert w. induction rs as [|r rs IH]; intros w Hwf Hrs; simpl.
  { exists (w_state w). by rewrite with_state_id. }
  destruct (Hrs r) as (Hk & Hsp & Hst & Hs); [left|].
  destruct (consume_result_ok n w r) as (s1 & H1 & Hwf1 & Hv1); [done..|].
  destruct (IH (with_state s1 w)) as (s2 & H2 & Hwf2 & Hv2); [done| |].
  { intros r' Hr'. destruct (Hrs r') as (Hk' & ?); [by right|]. split; [|done]. by apply Hv1. }
  exists s2. split_and!; [by go_step H1|done|]. rewrite Hv2. simpl. by rewrite Hv1.
Qed.

(** What a worker can reach of what the server left, and the server again, with
    a new response to write to. *)
Definition agent_world (db : DS) (fs : FS) w : AgentWorld SS AS DS := MkAgent (w_state w) (w_arts w) db fs.
Definition server_world w g : World SS AS DS :=
  MkWorld (ag_state g) (ag_arts g) (w_db w) [] fresh_writer (w_tick w).

(** What the client gets of a job: the count its analysis gave, the size of its
    archive, and the archive. *)
Definition delivered (published : list AnalyzeResult) w (job : AnalyzeJob) (repo : ScannedRepo) : Prop :=
  exists ar archive, ar ∈ published /\ ar_Spec ar = aj_Spec job /\
    rp_FullName (sc_Repository repo) = full_name (js_NameWithOwner (aj_Spec job)) /\
    sc_AnalysisStatus repo = "succeeded" /\ sc_ResultCount repo = ar_ResultCount ar /\
    sc_ArtifactSizeBytes repo = slen archive /\
    GetArtifact (ar_ResultLocation ar) (w_arts w) = (Val (archive, None), w_arts w) /\
    forall rq, var rq "encoded_job_spec" = (EncodeJobSpec (aj_Spec job)).1 ->
      MRVADownloadServe rq w =
        (Val tt, with_resp (respond "application/octet-stream" archive (w_resp w)) w).

Lemma completed_specs (arts : AS) jobs rs :
  Forall2 (completed arts) jobs rs -> map ar_Spec rs = map aj_Spec jobs.
Proof. induction 1 as [|job r jobs rs (E & _) _ IH]; [done|]. cbn. by rewrite E, IH. Qed.

(** The jobs of a session once the consumer is done: all reportable, all succeeded. *)
Lemma settled_session sid loc lang found ji v0 v1 v published (arts : AS) :
  let jobs := map (job_of loc sid lang) found in
  accepted sid loc lang found ji v0 v1 -> (forall js, SessionID js = sid -> v_status v0 !! js = None) ->
  NoDup found -> (forall nwo, nwo ∈ found -> storable_spec (MkJobSpec sid nwo)) ->
  Forall2 (completed arts) jobs published ->
  (forall r, r ∈ published -> exists size, (GetResultSize (ar_ResultLocation r) arts).1 = Val (size, None)) ->
  v ≡ foldl view_settle (foldl view_begin v1 jobs) published ->
  v_jobs v sid ≡ₚ jobs /\
  Forall (fun job => SessionID (aj_Spec job) = sid /\ v_info v !! aj_Spec job = Some ji /\ reportable v arts job /\
    exists r, r ∈ published /\ completed arts job r /\ v_result v !! aj_Spec job = Some r) jobs /\
  (forall js st, v_status v !! js = Some st -> SessionID js = sid -> st = StatusSucceeded).
Proof.
  intros jobs Hacc Hfresh Hnd Hst Hdone Hsize (_ & Hj & Hs & Hr & Hi).
  assert (map ar_Spec published = map (MkJobSpec sid) found) as Hspecs.
  { rewrite <- (specs_of_jobs loc sid lang found). by eapply completed_specs. }
  assert (NoDup (map ar_Spec published)) as Hnds.
  { rewrite Hspecs. apply NoDup_fmap_2; [|done]. intros a b E. by injection E. }
  destruct (begins_frame jobs v1) as (Hk1 & Hj1 & Hi1 & Hs1).
  destruct (settles_frame published (foldl view_begin v1 jobs)) as (Hk2 & Hj2 & Hi2 & Hs2).
  split_and!.
  - rewrite Hj, Hj2, Hj1. apply (acc_jobs _ _ _ _ _ _ _ Hacc).
  - apply list.Forall_forall. intros job Hin.
    pose proof (elem_of_map_inv _ _ _ Hin) as (nwo & -> & Hnwo).
    apply list_elem_of_lookup in Hin as [i Hi'].
    destruct (Forall2_lookup_l _ _ _ _ _ Hdone Hi') as (r & Hpi & Hc). apply list_elem_of_lookup_2 in Hpi.
    pose proof Hc as (E & Est & _). destruct (settles_lookup _ (foldl view_begin v1 jobs) _ Hnds Hpi) as [L1 L2].
    rewrite E in L1, L2. rewrite Est in L1.
    split_and!; [done| | |].
    + rewrite Hi, Hi2, Hi1. by apply (acc_info _ _ _ _ _ _ _ Hacc).
    + split; [by apply Hst|]. exists StatusSucceeded. rewrite Hs, Hr. split; [done|]. intros _.
      destruct (Hsize r Hpi) as [size Hsz]. by exists r, size.
    + exists r. by rewrite Hr.
  - intros js st Hjs Hsid. rewrite Hs in Hjs. destruct (decide (js ∈ map ar_Spec published)) as [Hin|Hnin].
    + apply elem_of_map_inv in Hin as (r & -> & Hin).
      destruct (settles_lookup _ (foldl view_begin v1 jobs) _ Hnds Hin) as [L1 _]. rewrite L1 in Hjs.
      injection Hjs as <-. apply list_elem_of_lookup in Hin as [i Hi'].
      by destruct (Forall2_lookup_r _ _ _ _ _ Hdone Hi') as (job & _ & (_ & ? & _)).
    + destruct (Hs2 js Hnin) as [E _]. rewrite E, Hs1 in Hjs.
      * rewrite Hspecs in Hnin. destruct (acc_frame _ _ _ _ _ _ _ Hacc js Hnin) as [E' _].
        rewrite E', Hfresh in Hjs; done.
      * unfold jobs. rewrite specs_of_jobs. by rewrite Hspecs in Hnin.
Qed.

Lemma keys_differ sid loc lang found :
  NoDup found -> Forall (fun nwo => in_string " " (Owner nwo) = false) found ->
  NoDup (map job_key (map (job_of loc sid lang) found)).
Proof.
  intros Hnd Hsp. induction Hnd as [|nwo found Hnin _ IH]; [constructor|].
  apply Forall_cons_1 in Hsp as [Ho Hsp]. cbn [map]. constructor; [|by apply IH].
  intros (job & E & (nwo' & -> & Hin)%elem_of_map_inv)%elem_of_map_inv. pose proof (proj1 (list.Forall_forall _ _) Hsp _ Hin) as Ho'.
  apply result_key_inj in E; [|done..]. injection E as ->. done.
Qed.

(** A report on settled jobs delivers each of them. *)
Lemma reports_deliver n w sid ji s' published jobs repos :
  wf n (w_state w) -> Forall spec_valid (map aj_Spec jobs) ->
  Forall (fun job => SessionID (aj_Spec job) = sid /\ v_info (view (w_state w)) !! aj_Spec job = Some ji /\
    reportable (view (w_state w)) (w_arts w) job /\
    exists r, r ∈ published /\ completed (w_arts w) job r /\ v_result (view (w_state w)) !! aj_Spec job = Some r)
    jobs ->
  (forall js st, v_status (view (w_state w)) !! js = Some st -> SessionID js = sid -> st = StatusSucceeded) ->
  Forall2 (reported ji (view (w_state w)) (w_arts w) s') jobs repos ->
  Forall2 (delivered published w) jobs repos.
Proof.
  intros Hwf Hvalid Hall Hdone Hrep. induction Hrep as [|job repo jobs repos Hone _ IH]; [constructor|].
  apply Forall_cons_1 in Hvalid as [Hv Hvalid], Hall as [(Hsid & _ & [Hst _] & r & Hin & Hc & Hres) Hall].
  constructor; [|by apply IH].
  destruct Hone as (st & Hstat & Hext & _ & Hname & _ & _ & Hsucc).
  rewrite (Hdone _ _ Hstat Hsid) in Hext, Hsucc. destruct (Hsucc eq_refl) as (ar & Har & Hcount & Hsize).
  rewrite Hres in Har. injection Har as <-. destruct Hc as (Hspec & _ & _ & archive & Hget).
  exists r, archive. split_and!; try done.
  - destruct (GetResultSize (ar_ResultLocation r) (w_arts w)) as [o a2] eqn:E. cbn in Hsize. subst o.
    by eapply size_is_length; [apply reads|].
  - by apply reads.
  - intros rq Hrq. by eapply token_served.
Qed.

(** From the accepted submission on. *)
Lemma session_finishes n w1 sid loc lang found ji v0 tmp uuids db fs cap published g :
  let jobs := map (job_of loc sid lang) found in
  wf (length found + n) (w_state w1) -> accepted sid loc lang found ji v0 (view (w_state w1)) ->
  (forall js, SessionID js = sid -> v_status v0 !! js = None) ->
  NoDup found -> found <> [] -> Forall (fun nwo => in_string " " (Owner nwo) = false) found ->
  (forall nwo, nwo ∈ found -> storable_spec (MkJobSpec sid nwo) /\ spec_valid (MkJobSpec sid nwo)) ->
  length uuids = length jobs ->
  RunWorker RunQuery GenerateResultsZipArchive tgz_reader tmp (zip_with EvJob jobs uuids)
    (agent_world db fs w1) = (Val published, g) ->
  length published = length jobs -> Forall storable_result published ->
  (forall ar, ar ∈ published -> exists size, (GetResultSize (ar_ResultLocation ar) (ag_arts g)).1 = Val (size, None)) ->
  exists s2, let w2 := with_state s2 (server_world w1 g) in
  ConsumeResults (length published) (MkChan cap published false) (server_world w1 g)
    = (Val (MkChan cap [] false), w2) /\
  forall owner repo id, ParseInt id 32 = (sid, None) ->
  exists s3 jobs' scanned,
    let response := status_response sid ji (view (w_state w2)) scanned in
    MRVAStatusCommon owner repo id w2 =
      (Val tt, with_resp (respond "application/json" (jprint (StatusResponse_json response)) (w_resp w2))
         (with_state s3 w2)) /\
    sr_Status response = "succeeded" /\
    jobs' ≡ₚ jobs /\ Forall2 (delivered published w2) jobs' scanned.
Proof.
  intros jobs Hwf Hacc Hfresh Hnd Hfound Hspace Hst Hlen Hwork Hpub Hstr Hsize.
  assert (forall job, job ∈ jobs -> v_known (view (w_state w1)) (SessionID (aj_Spec job)) /\
    storable_spec (aj_Spec job) /\ spec_valid (aj_Spec job)) as Hjobs.
  { intros job (nwo & -> & Hin)%elem_of_map_inv. split; [|by apply Hst].
    apply (acc_known _ _ _ _ _ _ _ Hacc). by left. }
  destruct (worker_completes RunQuery GenerateResultsZipArchive tgz_reader (length found + n) tmp jobs uuids
    (agent_world db fs w1) published g) as (Hwf2 & Hv2 & Hdone & _); [done| |by apply keys_differ|done..|].
  { intros job Hin. destruct (Hjobs job Hin) as (? & ? & _). done. }
  cbn [ag_state agent_world] in Hv2.
  destruct (consume_all (length found + n) published (server_world w1 g) Hwf2) as (s3 & Hcons & Hwf3 & Hv3).
  { intros ar Hin. cbn [w_state server_world]. pose proof Hin as Hin'. apply list_elem_of_lookup in Hin as [i Hi].
    destruct (Forall2_lookup_r _ _ _ _ _ Hdone Hi) as (job & Hj & (E & Est & _)).
    apply list_elem_of_lookup_2 in Hj. destruct (Hjobs _ Hj) as (Hk & Hsp & _). rewrite E, Est.
    split_and!; [|done|by eapply list.Forall_forall|done..].
    apply Hv2. by destruct (begins_frame jobs (view (w_state w1))) as (-> & _). }
  exists s3. cbn zeta. split; [by apply ConsumeResults_open|]. intros owner repo id Hid. cbn [w_state with_state server_world] in *.
  rewrite Hv2 in Hv3.
  destruct (settled_session _ _ _ _ _ _ _ _ _ _ Hacc Hfresh Hnd (fun nwo H => proj1 (Hst nwo H)) Hdone Hsize Hv3)
    as (Hl & Hall & Hsucc).
  destruct (GetJobList_ok _ s3 sid Hwf3) as (jobs' & Hlist & Hp).
  { apply Hv3. destruct (settles_frame published (foldl view_begin (view (w_state w1)) jobs)) as (-> & _).
    destruct (begins_frame jobs (view (w_state w1))) as (-> & _). apply (acc_known _ _ _ _ _ _ _ Hacc). by left. }
  rewrite Hl in Hp. rewrite <- Hp in Hall.
  assert (length jobs' = length found) as Hlen' by by rewrite Hp; unfold jobs; rewrite length_map.
  destruct (status_answer n (with_state s3 (server_world w1 g)) id owner repo sid ji jobs' Hid)
    as (s4 & scanned & Hrun & _ & _ & _ & Hrep); [by rewrite Hlen'|by intros ->; destruct found|done| |].
  { eapply Forall_impl; [|exact Hall]. by intros job (? & ? & ? & _). }
  exists s4, jobs', scanned. split_and!; [exact Hrun|by apply overall_succeeds|done|].
  eapply (reports_deliver _ (with_state s3 (server_world w1 g))); [exact Hwf3| |exact Hall|exact Hsucc|exact Hrep].
  rewrite Hp. apply list.Forall_forall. intros js (job & -> & Hin)%elem_of_map_inv. by apply Hjobs.
Qed.

(** C3.  A session runs through.  A well-formed submission is accepted; a worker
    that is given its jobs and fails none of them publishes a result for each; once
    the results are consumed the status report says that the session succeeded and
    names every job once, with the count its analysis gave and the size of its
    archive, and the download of each job is that archive. *)
Theorem session_runs_through n r w sid s1 msg tgz loc a1 repos notFound found d1 :
  let lang := sm_Language msg in
  let ji := info_of clock lang notFound (w_tick w) in
  let jobs := map (job_of loc sid lang) found in
  wf (length found + (length found + n)) (w_state w) -> can_next (w_state w) -> w_jobs w = [] ->
  readable r w sid s1 msg tgz loc a1 ->
  sm_Repositories msg = map full_name repos -> Forall slash_free repos -> NoDup repos ->
  FindAvailableDBs repos (w_db w) = (Val (notFound, found), d1) -> found <> [] ->
  Forall (fun nwo => in_string " " (Owner nwo) = false) found ->
  (forall nwo, nwo ∈ found -> storable_spec (MkJobSpec sid nwo) /\ storable_job (job_of loc sid lang nwo) /\
     spec_valid (MkJobSpec sid nwo)) ->
  storable_info ji ->
  exists w1, MRVARequestCommon clock r w = (Val tt, w1) /\ w_jobs w1 = jobs /\
  forall tmp uuids db fs cap published g,
    length uuids = length jobs ->
    RunWorker RunQuery GenerateResultsZipArchive tgz_reader tmp (zip_with EvJob (w_jobs w1) uuids)
      (agent_world db fs w1) = (Val published, g) ->
    length published = length jobs -> Forall storable_result published ->
    (forall ar, ar ∈ published -> exists size, (GetResultSize (ar_ResultLocation ar) (ag_arts g)).1 = Val (size, None)) ->
  exists s2, let w2 := with_state s2 (server_world w1 g) in
  ConsumeResults (length published) (MkChan cap published false) (server_world w1 g)
    = (Val (MkChan cap [] false), w2) /\
  forall owner repo id, ParseInt id 32 = (sid, None) ->
  exists s3 jobs' scanned,
    let response := status_response sid ji (view (w_state w2)) scanned in
    MRVAStatusCommon owner repo id w2 =
      (Val tt, with_resp (respond "application/json" (jprint (StatusResponse_json response)) (w_resp w2))
         (with_state s3 w2)) /\
    sr_Status response = "succeeded" /\
    jobs' ≡ₚ jobs /\ Forall2 (delivered published w2) jobs' scanned.
Proof.
  intros lang ji jobs Hwf Hnext Hempty Hrd Hrepos Hslash Hnd Hfind Hfound Hspace Hst Hji.
  destruct (full_names_entries repos Hslash) as [Hent _]. rewrite <- Hrepos in Hent.
  assert (NoDup found) as Hnd'.
  { destruct (find_splits repos (w_db w)) as (nf & f & d' & Hf' & _ & _ & Hsub).
    rewrite Hfind in Hf'. injection Hf' as _ <- _. by eapply sublist_NoDup. }
  destruct (submission_runs clock (length found + n) r w sid s1 msg tgz loc a1 repos notFound found d1)
    as (s' & Hrun & Hwf' & Hacc); [done..|by intros nwo (? & ? & _)%Hst|done|].
  assert (forall js, SessionID js = sid -> v_status (view (w_state w)) !! js = None) as Hfresh.
  { destruct (NextID_ok _ _ Hwf Hnext) as (id & s1' & Hid & _ & _ & _ & _ & Hf).
    rewrite (rd_id _ _ _ _ _ _ _ _ Hrd) in Hid. by injection Hid as -> _. }
  eexists. split; [exact Hrun|]. split; [cbn [w_jobs]; by rewrite Hempty|]. fold jobs.
  intros tmp uuids db fs cap published g Hlen Hwork. cbn [w_jobs] in Hwork. rewrite Hempty in Hwork.
  eapply session_finishes; [exact Hwf'|exact Hacc|done..| |done|exact Hwork].
  by intros nwo (? & ? & ?)%Hst.
Qed.
End session.
