(* ===== verification/Codeql.v ===== *)
(** [pkg/codeql]: running the queries of a pack on a database, and packing the
    results.

    The [codeql] program is a parameter: a command line run on the file system,
    with its output and its error.  So are the YAML decoder, the printing of a
    number as a [float64] ([renumber], [None] when it is out of range) and the
    writer of [archive/zip] (entries to bytes). *)
From stdpp Require Import sorting.
From S2P Require Import Prelude GoStrings GoUtf8 GoJson GoCodec GoPath GoOs GoWalk Archive Common.
From S2P Require Import ArtifactStore State QldbStore Agent.

(** ** [types.go] *)
Record CreationMetadata : Type := MkCreation { SHA : option string; CLIVersion : option string }.
Record DatabaseMetadata : Type := MkDatabaseMetadata { dm_CreationMetadata : option CreationMetadata }.
Record QueryMetadata : Type := MkQueryMetadata { qm_ID : option string; qm_Kind : option string }.
Record ResultSet : Type := MkResultSet { rs_Name : string; rs_Rows : Z }.
Record BQRSInfo : Type := MkBQRSInfo {
  ResultSets : list ResultSet; CompatibleQueryKinds : list string
}.
Record Query : Type := MkQuery {
  QueryPath : string; q_QueryMetadata : QueryMetadata; RelativeBqrsFilePath : string; q_BqrsInfo : BQRSInfo
}.
Record QueryPackRunResults : Type := MkRunResults {
  Queries : list Query; TotalResultsCount : Z; ResultsBasePath : string
}.

(** A [SarifRun] is only read for its results. *)
Record SarifRun : Type := MkSarifRun { VersionControlProvenance : list json; sr_Results : list json }.
Record Sarif : Type := MkSarif { Runs : list SarifRun }.

Definition QueryMetadata_fields : list (field QueryMetadata) :=
  [fld "id" qm_ID (fun v x => MkQueryMetadata v (qm_Kind x)) dec_string_ptr;
   fld "kind" qm_Kind (fun v x => MkQueryMetadata (qm_ID x) v) dec_string_ptr].
Definition QueryMetadata_zero : QueryMetadata := MkQueryMetadata None None.

Definition ResultSet_zero : ResultSet := MkResultSet "" 0.
Definition ResultSet_fields : list (field ResultSet) :=
  [fld "name" rs_Name (fun v x => MkResultSet v (rs_Rows x)) dec_string;
   fld "rows" rs_Rows (fun v x => MkResultSet (rs_Name x) v) dec_int].
Definition BQRSInfo_zero : BQRSInfo := MkBQRSInfo [] [].
Definition BQRSInfo_fields : list (field BQRSInfo) :=
  [fld "resultSets" ResultSets (fun v x => MkBQRSInfo v (CompatibleQueryKinds x))
     (dec_slice (dec_struct false ResultSet_fields) ResultSet_zero);
   fld "compatibleQueryKinds" CompatibleQueryKinds (fun v x => MkBQRSInfo (ResultSets x) v)
     (dec_slice dec_string "")].

(** ** Pure helpers *)
Definition contains (slice : list string) (item : string) : bool := existsb (fun s => String.eqb s item) slice.

Definition KnownResultSetNames : list string := ["#select"; "problems"].

(** The error prints both lists; its text is not modelled. *)
Definition getBqrsResultCount (bqrsInfo : BQRSInfo) : gores Z :=
  match flat_map (fun name => List.filter (fun rs => String.eqb (rs_Name rs) name) (ResultSets bqrsInfo))
          KnownResultSetNames with
  | resultSet :: _ => (rs_Rows resultSet, None)
  | [] => (0, Some (EText "BQRS does not contain any result sets matching known names"))
  end.

Definition nil_deref : string := "runtime error: invalid memory address or nil pointer dereference".

(** [*queryMetadata.Kind] is a nil dereference for a query without a kind. *)
Definition getSarifOutputType (queryMetadata : QueryMetadata) (compatibleQueryKinds : list string)
    : outcome string :=
  match qm_Kind queryMetadata with
  | None => Panic nil_deref
  | Some kind =>
      if (String.eqb kind "path-problem" || String.eqb kind "path-alert")
         && contains compatibleQueryKinds "PathProblem" then Val "path-problem"
      else if (String.eqb kind "problem" || String.eqb kind "alert")
              && contains compatibleQueryKinds "Problem" then Val "problem"
      else Val ""
  end.

Definition querySupportsSarif (queryMetadata : QueryMetadata) (bqrsInfo : BQRSInfo) : outcome bool :=
  match getSarifOutputType queryMetadata (CompatibleQueryKinds bqrsInfo) with
  | Val t => Val (negb (String.eqb t ""))
  | Panic p => Panic p
  end.

Fixpoint pack_supports (queries : list Query) : outcome bool :=
  match queries with
  | [] => Val true
  | q :: queries' =>
      match querySupportsSarif (q_QueryMetadata q) (q_BqrsInfo q) with
      | Val true => pack_supports queries'
      | Val false => Val false
      | Panic p => Panic p
      end
  end.
Definition queryPackSupportsSarif (r : QueryPackRunResults) : outcome bool := pack_supports (Queries r).

(** [totalResultsCount += count], on [int]s. *)
Fixpoint total_results (queries : list Query) (total : Z) : gores Z :=
  match queries with
  | [] => (total, None)
  | q :: queries' =>
      let '(count, err) := getBqrsResultCount (q_BqrsInfo q) in
      match err with
      | Some e => (0, Some (EWrap "failed to get BQRS result count" e))
      | None => total_results queries' (wrap_int (total + count))
      end
  end.

(** ** Dynamic documents: [interface{}] *)
Section dynamic.
Context (renumber : string -> option string).

(** Members of a map: the last of a name counts; printed in the order of the names. *)
Definition key_le (kv1 kv2 : string * json) : Prop := String.leb kv1.1 kv2.1 = true.

#[export] Instance key_le_dec kv1 kv2 : Decision (key_le kv1 kv2).
Proof. unfold key_le. apply _. Defined.

Fixpoint last_members (kvs : list (string * json)) : list (string * json) :=
  match kvs with
  | [] => []
  | (k, v) :: kvs' =>
      if existsb (fun kv => String.eqb kv.1 k) kvs' then last_members kvs' else (k, v) :: last_members kvs'
  end.

Definition as_map (kvs : list (string * json)) : list (string * json) :=
  merge_sort key_le (last_members kvs).

(** A decoded document as a dynamic value; [None] when a number is out of range. *)
Fixpoint dynamic (j : json) : option json :=
  match j with
  | JNum lit => JNum <$> renumber lit
  | JArr l =>
      JArr <$> (fix go l := match l with
                            | [] => Some []
                            | x :: l' => x' ← dynamic x; l'' ← go l'; Some (x' :: l'')
                            end) l
  | JObj kvs =>
      (fun kvs => JObj (as_map kvs)) <$>
        (fix go kvs := match kvs with
                       | [] => Some []
                       | (k, x) :: kvs' => x' ← dynamic x; kvs'' ← go kvs'; Some ((k, x') :: kvs'')
                       end) kvs
  | _ => Some j
  end.

Definition dec_any : decoder json := fun j _ => dynamic j.

Definition map_get (k : string) (kvs : list (string * json)) : option json :=
  assoc_by (String.eqb k) kvs.
Definition map_set (k : string) (v : json) (kvs : list (string * json)) : list (string * json) :=
  as_map (kvs ++ [(k, v)]).

Definition SarifRun_zero : SarifRun := MkSarifRun [] [].
Definition SarifRun_fields : list (field SarifRun) :=
  [fld "versionControlProvenance" VersionControlProvenance (fun v x => MkSarifRun v (sr_Results x))
     (dec_slice dec_any JNull);
   fld "results" sr_Results (fun v x => MkSarifRun (VersionControlProvenance x) v) (dec_slice dec_any JNull)].
Definition Sarif_fields : list (field Sarif) :=
  [fld "runs" Runs (fun v _ => MkSarif v) (dec_slice (dec_struct false SarifRun_fields) SarifRun_zero)].

Definition getSarifResultCount (sarif : string) : Z :=
  match Unmarshal (dec_struct false Sarif_fields) (MkSarif []) sarif with
  | None => 0
  | Some sarifData => foldl (fun count run => count + Z.of_nat (length (sr_Results run))) 0 (Runs sarifData)
  end.
End dynamic.

(** ** [json.MarshalIndent(data, "", "  ")] *)
Definition newline (depth : nat) : string :=
  String (byte_of 10) (sconcat (replicate depth "  ")).

Definition indent_list (open close : string) (depth : nat) (items : list string) : string :=
  match items with
  | [] => open +:+ close
  | _ => open +:+ newline (S depth) +:+ join ("," +:+ newline (S depth)) items +:+ newline depth +:+ close
  end.

Fixpoint jindent (depth : nat) (j : json) : string :=
  match j with
  | JArr l => indent_list "[" "]" depth (map (jindent (S depth)) l)
  | JObj kvs =>
      indent_list "{" "}" depth (map (fun kv => print_str kv.1 +:+ ": " +:+ jindent (S depth) kv.2) kvs)
  | _ => jprint j
  end.

(** ** Running the program *)
Section program.
Context (getenv : string -> string).
(** [exec combined argv]: standard output, with standard error if [combined]. *)
Context (exec : bool -> list string -> GM FS (gores string)).
Context (yaml : string -> error + DatabaseMetadata).
Context (zip_reader : string -> error + list ZipEntry).
Context (zip_writer : list (string * string) -> string).
Context (renumber : string -> option string).

Notation M := (GM FS).

(** [v, err := m; if err != nil { return zero, fmt.Errorf(ctx, err) }] *)
Definition get_or {A B} (zero : B) (ctx : string) (m : M (gores A)) (k : A -> M (gores B)) : M (gores B) :=
  let! (v, err) := m in
  match err with Some e => gret (zero, Some (EWrap ctx e)) | None => k v end.

(** [if err := m; err != nil { return zero, fmt.Errorf(ctx, err) }] *)
Definition do_or {B} (zero : B) (ctx : string) (m : M (option error)) (k : M (gores B)) : M (gores B) :=
  let! err := m in
  match err with Some e => gret (zero, Some (EWrap ctx e)) | None => k end.

Definition getCodeQLCLIPath : gores string :=
  let codeqlCliPath := getenv "CODEQL_CLI_PATH" in
  if String.eqb codeqlCliPath "" then ("", Some (EText "CODEQL_CLI_PATH environment variable not set"))
  else (codeqlCliPath, None).

(** [filepath.Match] of a pattern without metacharacters, the only kind used. *)
Definition base_name (path : string) : string := List.last (elems path) "".

Definition globRecursively (rootdir pattern : string) : M (gores (list string)) :=
  let! (matches, err) :=
    Walk (fun path isdir matches =>
            gret (if negb isdir && String.eqb (base_name path) pattern then matches ++ [path] else matches,
                  WContinue)) rootdir [] in
  match err with Some e => gret ([], Some e) | None => gret (matches, None) end.

Definition exists_ok (path : string) : M bool :=
  let! err := Stat path in gret (match err with None => true | Some _ => false end).

(** What the walk does with a path: the directory found last is kept. *)
Definition find_db (path : string) (isdir : bool) (dbDir : string) : M (string * walk_result) :=
  if isdir then
    let! yml := exists_ok (Join path "codeql-database.yml") in
    if yml : bool then
      let! src := exists_ok (Join path "src.zip") in
      if src : bool then gret (path, WSkipDir) else gret (dbDir, WContinue)
    else gret (dbDir, WContinue)
  else gret (dbDir, WContinue).

Definition findDBDir (rootdir : string) : M (gores string) :=
  let! (dbDir, err) := Walk find_db rootdir "" in
  match err with
  | Some e => gret ("", Some e)
  | None =>
      if String.eqb dbDir ""
      then gret ("", Some (EText "no directory containing both 'codeql-database.yml' and 'src.zip' found"))
      else gret (dbDir, None)
  end.

Definition DatabaseMetadata_zero : DatabaseMetadata := MkDatabaseMetadata None.

Definition getDatabaseMetadata (databasePath : string) : M (gores DatabaseMetadata) :=
  get_or DatabaseMetadata_zero "Failed to find codeql-database.yml"
    (globRecursively databasePath "codeql-database.yml") (fun paths =>
  match paths with
  | [path] =>
      get_or DatabaseMetadata_zero "failed to read database metadata" (ReadFile path) (fun data =>
      match yaml data with
      | inl e => gret (DatabaseMetadata_zero, Some (EWrap "failed to unmarshal database metadata" e))
      | inr metadata => gret (metadata, None)
      end)
  | _ => gret (DatabaseMetadata_zero, Some (EText "Found wrong number of paths to codeql-database.yml"))
  end).

(** [validateBQRSInfoObject], [validateQueryMetadataObject] *)
Definition validate {A} (d : decoder A) (zero : A) (data : string) : gores A :=
  match Unmarshal d zero data with
  | Some v => (v, None)
  | None => (zero, Some (EText "invalid JSON"))
  end.

(** [runCommand] returns exit code 1 only with an error. *)
Definition getBqrsInfo (codeql bqrs : string) : M (gores BQRSInfo) :=
  get_or BQRSInfo_zero "unable to run codeql bqrs info. Error"
    (exec false [codeql; "bqrs"; "info"; "--format=json"; bqrs])
    (fun stdout => gret (validate (dec_struct false BQRSInfo_fields) BQRSInfo_zero stdout)).

Definition getQueryMetadata (codeql query : string) : M (gores QueryMetadata) :=
  get_or QueryMetadata_zero "unable to run codeql resolve metadata. Error"
    (exec false [codeql; "resolve"; "metadata"; "--format=json"; query])
    (fun stdout => gret (validate (dec_struct false QueryMetadata_fields) QueryMetadata_zero stdout)).

Definition QueryPackRunResults_zero : QueryPackRunResults := MkRunResults [] 0 "".

(** The loop over [queryPaths]. *)
Fixpoint collect_queries (codeql resultsBasePath queryPackPath : string) (queryPaths : list string)
    : M (gores (list Query)) :=
  match queryPaths with
  | [] => gret ([], None)
  | queryPath :: rest =>
      let relativeBqrsFilePath := Join queryPackPath queryPath in
      let bqrsFilePath := Join resultsBasePath relativeBqrsFilePath in
      let! err := Stat bqrsFilePath in
      if IsNotExist err
      then gret ([], Some (EText ("could not find BQRS file for query " +:+ queryPath +:+ " at " +:+ bqrsFilePath)))
      else
        get_or [] "failed to get BQRS info" (getBqrsInfo codeql bqrsFilePath) (fun bqrsInfo =>
        get_or [] "failed to get query metadata" (getQueryMetadata codeql queryPath) (fun queryMetadata =>
        let! (queries, err) := collect_queries codeql resultsBasePath queryPackPath rest in
        match err with
        | Some e => gret ([], Some e)
        | None => gret (MkQuery queryPath queryMetadata relativeBqrsFilePath bqrsInfo :: queries, None)
        end))
  end.

(** [queryPaths := []string{}]: the resolution of the paths is left out there. *)
Definition query_paths : list string := [].

Definition getQueryPackRunResults (codeql databasePath queryPackPath : string)
    : M (gores QueryPackRunResults) :=
  let resultsBasePath := Join databasePath "results" in
  let! (queries, err) := collect_queries codeql resultsBasePath queryPackPath query_paths in
  match err with
  | Some e => gret (QueryPackRunResults_zero, Some e)
  | None =>
      let '(totalResultsCount, err) := total_results queries 0 in
      match err with
      | Some e => gret (QueryPackRunResults_zero, Some e)
      | None => gret (MkRunResults queries totalResultsCount resultsBasePath, None)
      end
  end.

Definition BqrsFilePaths_zero : BqrsFilePaths := MkBqrs "" [].

Definition adjustBqrsFiles (r : QueryPackRunResults) (resultsDir : string) : M (gores BqrsFilePaths) :=
  match Queries r with
  | [q] =>
      let! err := MkdirAll resultsDir in
      match err with
      | Some e => gret (BqrsFilePaths_zero, Some e)
      | None =>
          let! err := Rename (Join (ResultsBasePath r) (RelativeBqrsFilePath q)) (Join resultsDir "results.bqrs") in
          match err with
          | Some e => gret (BqrsFilePaths_zero, Some e)
          | None => gret (MkBqrs resultsDir ["results.bqrs"], None)
          end
      end
  | queries => gret (MkBqrs (ResultsBasePath r) (map RelativeBqrsFilePath queries), None)
  end.

Definition ResolvedDatabase_fields : list (field string) :=
  [fld "sourceLocationPrefix" (fun x => x) (fun v _ => v) dec_string].

Definition getSourceLocationPrefix (codeql databasePath : string) : M (gores string) :=
  get_or "" "failed to resolve database" (exec true [codeql; "resolve"; "database"; databasePath])
    (fun output =>
      match Unmarshal (dec_struct false ResolvedDatabase_fields) "" output with
      | Some prefix => gret (prefix, None)
      | None => gret ("", Some (EWrap "failed to unmarshal resolved database" (EText "invalid JSON")))
      end).

(** *** [generateSarif] *)
Definition provenance (language : QueryLanguage) (databaseSHA : string) : json :=
  JObj [("repositoryUri", JStr (getenv "GITHUB_SERVER_URL" +:+ "/" +:+ language));
        ("revisionId", JStr databaseSHA)].

Definition add_provenance (language : QueryLanguage) (databaseSHA : string) (run : json) : json :=
  match run with
  | JObj runMap =>
      let entry := provenance language databaseSHA in
      JObj (map_set "VersionControlProvenance"
        (match map_get "VersionControlProvenance" runMap with
         | Some (JArr vcp) => JArr (vcp ++ [entry])
         | _ => JArr [entry]
         end) runMap)
  | _ => run
  end.

(** The member is called [Runs] here, with a capital. *)
Definition modify_sarif (language : QueryLanguage) (databaseSHA : string) (data : list (string * json))
    : list (string * json) :=
  match map_get "Runs" data with
  | Some (JArr runs) => map_set "Runs" (JArr (map (add_provenance language databaseSHA) runs)) data
  | _ => data
  end.

(** The document with its provenance, printed again; [null] is the nil map. *)
Definition rewrite_sarif (language : QueryLanguage) (databaseSHA sarifData : string) : option string :=
  doc ← json_document sarifData;
  data ← dynamic renumber doc;
  match data with
  | JObj kvs => Some (jindent 0 (JObj (modify_sarif language databaseSHA kvs)))
  | JNull => Some (jindent 0 JNull)
  | _ => None
  end.

Definition generateSarif (codeql : string) (language : QueryLanguage)
    (databasePath queryPackPath databaseSHA resultsDir : string) : M (gores string) :=
  let sarifFile := Join resultsDir "results.sarif" in
  get_or "" "failed to generate SARIF"
    (exec true [codeql; "database"; "interpret-results"; "--format=sarif-latest"; "--output=" +:+ sarifFile;
                "--sarif-add-snippets"; "--no-group-results"; databasePath; queryPackPath]) (fun _ =>
  get_or "" "failed to read SARIF file" (ReadFile sarifFile) (fun sarifData =>
  match rewrite_sarif language databaseSHA sarifData with
  | Some modifiedJSON => gret (modifiedJSON, None)
  | None => gret ("", Some (EText "error decoding SARIF"))
  end)).

(** *** [RunQuery] *)
Definition RunQueryResult_zero : RunQueryResult := MkRunQueryResult 0 "" "" BqrsFilePaths_zero "".

Definition database_sha (m : DatabaseMetadata) : string :=
  match dm_CreationMetadata m with
  | Some c => default "" (SHA c)
  | None => ""
  end.

Definition lift {A} (o : outcome A) : M A := fun s => (o, s).

Definition RunQuery (database : string) (language : QueryLanguage) (queryPackPath tempDir : string)
    : M (gores RunQueryResult) :=
  let fail {A} := get_or (A := A) RunQueryResult_zero in
  let check := do_or RunQueryResult_zero in
  fail "failed to get codeql cli path" (gret getCodeQLCLIPath) (fun codeql =>
  let resultsDir := Join tempDir "results" in
  check "failed to create results directory" (Mkdir resultsDir) (
  let databasePath := Join tempDir "db" in
  let! unzipped := UnzipFile zip_reader database databasePath in
  match unzipped with
  | Some _ => gret (RunQueryResult_zero, Some (EText "failed to unzip database: <nil>"))
  | None =>
      fail "failed to get database metadata" (getDatabaseMetadata databasePath) (fun dbMetadata =>
      let databaseSHA := database_sha dbMetadata in
      fail "failed to get database path" (findDBDir databasePath) (fun dbDir =>
      fail "failed to run queries"
        (exec true [codeql; "database"; "run-queries"; "--ram=2048"; "--additional-packs"; queryPackPath;
                    "--"; dbDir; queryPackPath]) (fun _ =>
      fail "failed to get query pack run results" (getQueryPackRunResults codeql dbDir queryPackPath)
        (fun queryPackRunResults =>
      fail "failed to get source location prefix" (getSourceLocationPrefix codeql dbDir)
        (fun sourceLocationPrefix =>
      let! shouldGenerateSarif := lift (queryPackSupportsSarif queryPackRunResults) in
      let finish (resultCount : Z) (sarifFilePath : string) :=
        fail "failed to adjust BQRS files" (adjustBqrsFiles queryPackRunResults resultsDir)
          (fun bqrsFilePaths =>
             gret (MkRunQueryResult resultCount databaseSHA sourceLocationPrefix bqrsFilePaths sarifFilePath,
                   None)) in
      if shouldGenerateSarif : bool then
        fail "failed to generate SARIF"
          (generateSarif codeql language dbDir queryPackPath databaseSHA resultsDir) (fun sarif =>
        let sarifFilePath := Join resultsDir "results.sarif" in
        check "failed to write SARIF file" (WriteFile sarifFilePath sarif)
          (finish (getSarifResultCount renumber sarif) sarifFilePath))
      else finish (TotalResultsCount queryPackRunResults) "")))))
  end)).

(** *** [GenerateResultsZipArchive]: the entries in order; an archive in memory
    cannot fail to be written. *)
Fixpoint zip_files (files : list (string * string * string)) : M (gores (list (string * string))) :=
  match files with
  | [] => gret ([], None)
  | (ctx, filePath, zipPath) :: files' =>
      let! (data, err) := ReadFile filePath in
      match err with
      | Some e => gret ([], Some (EWrap ctx (EWrap ("failed to open file " +:+ filePath) e)))
      | None =>
          let! (entries, err) := zip_files files' in
          match err with
          | Some e => gret ([], Some e)
          | None => gret ((zipPath, data) :: entries, None)
          end
      end
  end.

Definition archive_files (r : RunQueryResult) : list (string * string * string) :=
  (if String.eqb (rq_SarifFilePath r) "" then []
   else [("failed to add SARIF file to zip", rq_SarifFilePath r, "results.sarif")]) ++
  map (fun relativePath => ("failed to add BQRS file to zip",
                            Join (BasePath (rq_BqrsFilePaths r)) relativePath, relativePath))
    (RelativeFilePaths (rq_BqrsFilePaths r)).

Definition GenerateResultsZipArchive (r : RunQueryResult) : M (gores string) :=
  let! (entries, err) := zip_files (archive_files r) in
  match err with
  | Some e => gret ("", Some e)
  | None => gret (zip_writer entries, None)
  end.
End program.
