(* ===== verification/CodeqlProps.v ===== *)
(** What [RunQuery] and [GenerateResultsZipArchive] leave, and what the search for
    the database and the rewriting of the SARIF document come to. *)
From stdpp Require Import sorting.
From S2P Require Import Prelude GoStrings GoUtf8 GoJson GoCodec GoPath GoOs GoWalk Archive Common.
From S2P Require Import ArtifactStore State QldbStore Agent Codeql.

Section program.
Context (getenv : string -> string).
Context (exec : bool -> list string -> GM FS (gores string)).
Context (yaml : string -> error + DatabaseMetadata).
Context (zip_reader : string -> error + list ZipEntry).
Context (zip_writer : list (string * string) -> string).
Context (renumber : string -> option string).

Notation RunQuery := (RunQuery getenv exec yaml zip_reader renumber).
Notation GenerateResultsZipArchive := (GenerateResultsZipArchive zip_writer).

(** ** What a run leaves *)
Lemma get_or_inv {A B} (zero : B) ctx (m : GM FS (gores A)) k fs b fs' :
  get_or zero ctx m k fs = (Val (b, None), fs') ->
  exists v fs1, m fs = (Val (v, None), fs1) /\ k v fs1 = (Val (b, None), fs').
Proof.
  unfold get_or. intros H. apply gbind_val_inv in H as ([v [e|]] & fs1 & Hm & H); [done|]. by exists v, fs1.
Qed.

Lemma do_or_inv {B} (zero : B) ctx m k fs b fs' :
  do_or zero ctx m k fs = (Val (b, None), fs') ->
  exists fs1, m fs = (Val None, fs1) /\ k fs1 = (Val (b, None), fs').
Proof.
  unfold do_or. intros H. apply gbind_val_inv in H as ([e|] & fs1 & Hm & H); [done|]. by exists fs1.
Qed.

(** No query is resolved, so there is nothing to count or to move. *)
Lemma no_queries codeql dbDir pack fs :
  getQueryPackRunResults exec codeql dbDir pack fs = (Val (MkRunResults [] 0 (Join dbDir "results"), None), fs).
Proof. done. Qed.

Lemma WriteFile_inv path data fs fs' :
  WriteFile path data fs = (Val None, fs') ->
  fs_files fs' = <[Clean path := data]> (fs_files fs).
Proof.
  intros H. apply gbind_val_inv in H as ([e|] & fs1 & Ho & H); [done|].
  apply OpenTrunc_files in Ho. apply CopyInto_files in H as [_ H]. by rewrite H, Ho, insert_insert_eq.
Qed.

(** A run that succeeds leaves its SARIF file where it says, with as many
    results as it says, and names no other file. *)
Lemma RunQuery_inv database language pack tempDir fs r fs' :
  RunQuery database language pack tempDir fs = (Val (r, None), fs') ->
  exists sarif dbDir,
    rq_SarifFilePath r = Join (Join tempDir "results") "results.sarif" /\
    fs_files fs' !! Clean (rq_SarifFilePath r) = Some sarif /\
    rq_ResultCount r = getSarifResultCount renumber sarif /\
    rq_BqrsFilePaths r = MkBqrs (Join dbDir "results") [].
Proof.
  unfold RunQuery. cbn zeta. intros H.
  apply get_or_inv in H as (codeql & f1 & _ & H). apply do_or_inv in H as (f2 & _ & H).
  apply gbind_val_inv in H as ([e|] & f3 & _ & H); [done|].
  apply get_or_inv in H as (meta & f4 & _ & H). apply get_or_inv in H as (dbDir & f5 & _ & H).
  apply get_or_inv in H as (out & f6 & _ & H). apply get_or_inv in H as (qs & f7 & Hq & H).
  rewrite no_queries in Hq. injection Hq as <- <-.
  apply get_or_inv in H as (prefix & f8 & _ & H).
  apply gbind_val_inv in H as (b & f9 & Hb & H). injection Hb as <- <-.
  apply get_or_inv in H as (sarif & f10 & _ & H). apply do_or_inv in H as (f11 & Hw & H).
  apply get_or_inv in H as (paths & f12 & Hp & H). injection Hp as <- <-. injection H as <- <-.
  exists sarif, dbDir. split_and!; [done| |done|done]. cbn [rq_SarifFilePath].
  by rewrite (WriteFile_inv _ _ _ _ Hw), lookup_insert_eq.
Qed.

Lemma Clean_nonempty p : Clean p <> "".
Proof.
  unfold Clean. pose proof (clean_nonempty _ _ (elems_clean p)) as H. destruct (is_rooted p); [done|].
  destruct (elems p) as [|c [|c' cs]]; [done| |].
  - by apply Forall_cons_1 in H as [H _].
  - apply Forall_cons_1 in H as [H _]. by destruct c.
Qed.

Lemma Join_nonempty a b : b <> "" -> String.eqb (Join a b) "" = false.
Proof.
  intros Hb%String.eqb_neq. apply String.eqb_neq. unfold Join. rewrite Hb.
  destruct (String.eqb a ""); apply Clean_nonempty.
Qed.

(** The archive of such a run holds the SARIF file alone. *)
Lemma archive_of_run r tempDir dbDir sarif fs archive fs' :
  rq_SarifFilePath r = Join (Join tempDir "results") "results.sarif" ->
  fs_files fs !! Clean (rq_SarifFilePath r) = Some sarif ->
  rq_BqrsFilePaths r = MkBqrs (Join dbDir "results") [] ->
  GenerateResultsZipArchive r fs = (Val (archive, None), fs') ->
  archive = zip_writer [("results.sarif", sarif)].
Proof.
  intros Hp Hf Hb H. unfold GenerateResultsZipArchive, archive_files in H.
  rewrite Hb, Hp, Join_nonempty in H by done. rewrite <- Hp in H.
  apply gbind_val_inv in H as ([entries [e|]] & f1 & Hz & H); [done|]. injection H as <- <-.
  cbn [app map RelativeFilePaths zip_files] in Hz.
  apply gbind_val_inv in Hz as ([data [e|]] & f2 & Hr & Hz); [done|].
  apply ReadFile_inv in Hr as [Hr _]. rewrite Hf in Hr. injection Hr as <-. by injection Hz as <-.
Qed.

Lemma zoom_fs_inv {SS AS DS A} (m : GM FS A) (w : AgentWorld SS AS DS) o w' :
  ag_on_fs m w = (o, w') -> m (ag_fs w) = (o, ag_fs w') /\ ag_arts w' = ag_arts w.
Proof. unfold ag_on_fs, zoom. destruct (m (ag_fs w)) as [o' f]. by intros [= <- <-]. Qed.

(** C18.  When an analysis succeeds, the archive it stores holds the SARIF
    document alone, no raw results (BQRS) file with it, and the count it reports
    is the number of results of that very document. *)
Theorem reported_count_is_archived {SS AS DS} `{!ServerState SS, !Store AS, !StoreLaws AS, !QldbStore DS}
    tgz_reader tmp uuid job (w : AgentWorld SS AS DS) r w' :
  RunAnalysisJob RunQuery GenerateResultsZipArchive tgz_reader tmp uuid job w = (Val (r, None), w') ->
  exists sarif, ar_ResultCount r = getSarifResultCount renumber sarif /\
    GetArtifact (ar_ResultLocation r) (ag_arts w') =
      (Val (zip_writer [("results.sarif", sarif)], None), ag_arts w').
Proof.
  intros [(? & ? & ? & [=] & _)|(w1 & w2 & fs & _ & H & _ & ->)]%RunAnalysisJob_inv. cbn [ag_arts].
  unfold analyze_in in H.
  apply try_get_inv in H as [(? & [=] & _)|(v1 & x1 & _ & H)].
  apply try_inv in H as [(? & [=] & _)|(x2 & _ & H)].
  apply try_inv in H as [(? & [=] & _)|(x3 & _ & H)].
  apply try_inv in H as [(? & [=] & _)|(x4 & _ & H)].
  apply try_get_inv in H as [(? & [=] & _)|(v5 & x5 & _ & H)].
  apply try_inv in H as [(? & [=] & _)|(x6 & _ & H)].
  apply try_get_inv in H as [(? & [=] & _)|(run & x7 & Hrun & H)].
  apply try_get_inv in H as [(? & [=] & _)|(archive & x8 & Hzip & H)].
  apply try_get_inv in H as [(? & [=] & _)|(loc & x9 & Hsave & H)].
  injection H as <- <-. cbn [ar_ResultCount ar_ResultLocation].
  apply zoom_fs_inv in Hrun as [(sarif & dbDir & Hp & Hf & Hc & Hb)%RunQuery_inv _].
  apply zoom_fs_inv in Hzip as [Hzip _]. exists sarif. split; [done|].
  rewrite <- (archive_of_run _ _ _ _ _ _ _ Hp Hf Hb Hzip).
  apply zoom_arts_inv in Hsave as (Hsave & _ & _). by eapply saved_result_found.
Qed.
End program.

(** ** [findDBDir] in a file system where no call fails *)
Definition quiet (fs fs' : FS) : Prop :=
  fs_dirs fs' = fs_dirs fs /\ fs_files fs' = fs_files fs /\ forall n, fs_fault fs' n = None.

Definition present (fs : FS) (path : string) : bool :=
  dir_exists fs (Clean path) || bool_decide (is_Some (fs_files fs !! Clean path)).

Definition is_db_dir (fs : FS) (d : string) : bool :=
  present fs (Join d "codeql-database.yml") && present fs (Join d "src.zip").

Lemma quiet_call fs fs1 : quiet fs fs1 -> exists fs2, os_call fs1 = (Val None, fs2) /\ quiet fs fs2.
Proof.
  intros (Hd & Hf & Hn). unfold os_call. rewrite Hn. eexists. split; [done|]. by split_and!.
Qed.

Lemma exists_ok_quiet fs fs1 path :
  quiet fs fs1 -> exists fs2, exists_ok path fs1 = (Val (present fs path), fs2) /\ quiet fs fs2.
Proof.
  intros (fs2 & Hc & Hq)%quiet_call. exists fs2. split; [|done].
  unfold exists_ok, Stat, gbind, present. rewrite Hc.
  destruct Hq as (Hd & Hf & _). unfold dir_exists. rewrite Hd, Hf.
  repeat case_match; simplify_eq; cbn in *; try done; congruence.
Qed.

Lemma find_db_quiet fs fs1 path isdir acc :
  quiet fs fs1 ->
  exists fs2, quiet fs fs2 /\
    find_db path isdir acc fs1 =
      (Val (if isdir && is_db_dir fs path then (path, WSkipDir) else (acc, WContinue)), fs2).
Proof.
  intros Hq. destruct isdir; [|by exists fs1]. unfold find_db, is_db_dir.
  destruct (exists_ok_quiet fs fs1 (Join path "codeql-database.yml") Hq) as (fs2 & H2 & Hq2).
  rewrite (gbind_val _ _ _ _ _ H2). destruct (present fs _); [|by exists fs2].
  destruct (exists_ok_quiet fs fs2 (Join path "src.zip") Hq2) as (fs3 & H3 & Hq3).
  rewrite (gbind_val _ _ _ _ _ H3). exists fs3. split; [done|]. by destruct (present fs _).
Qed.

(** [d] was found, and the directories that would do after it are below it. *)
Definition last_found (fs : FS) (l : list (string * bool)) (d : string) : Prop :=
  exists l1 l2, l = l1 ++ (d, true) :: l2 /\ is_db_dir fs d = true /\
    forall d', (d', true) ∈ l2 -> is_db_dir fs d' = true -> under d d' = true.

(** Nothing was found outside the directory left out. *)
Definition none_found (fs : FS) (skip : option string) (l : list (string * bool)) : Prop :=
  forall d, (d, true) ∈ l -> is_db_dir fs d = true -> exists s, skip = Some s /\ under s d = true.

Lemma last_found_cons fs e l d : last_found fs l d -> last_found fs (e :: l) d.
Proof. intros (l1 & l2 & -> & H). by exists (e :: l1), l2. Qed.

Lemma visit_find_db fs l skip acc fs1 :
  quiet fs fs1 ->
  exists d fs2, visit find_db skip l acc fs1 = (Val (d, None), fs2) /\ quiet fs fs2 /\
    (d = acc /\ none_found fs skip l \/ last_found fs l d).
Proof.
  revert skip acc fs1. induction l as [|[path isdir] l IH]; intros skip acc fs1 Hq.
  { exists acc, fs1. split_and!; [done|done|]. left. split; [done|]. by intros d H%elem_of_nil. }
  cbn [visit]. destruct (match skip with Some d => under d path | None => false end) eqn:Hs.
  - destruct (IH skip acc fs1 Hq) as (d & fs2 & H & Hq2 & Hd). exists d, fs2. split_and!; [done|done|].
    destruct Hd as [[-> Hd]|Hd]; [left; split; [done|]|by right; apply last_found_cons].
    intros d' [[= -> _]|Hin]%elem_of_cons Hdb; [|by apply Hd].
    destruct skip as [s|]; [by exists s|done].
  - destruct (quiet_call fs fs1 Hq) as (f2 & H2 & Hq2). rewrite (gbind_val _ _ _ _ _ H2).
    assert (exists f3, (if isdir then os_call else gret None) f2 = (Val None, f3) /\ quiet fs f3) as (f3 & H3 & Hq3).
    { destruct isdir; [by apply quiet_call|by exists f2]. }
    rewrite (gbind_val _ _ _ _ _ H3).
    destruct (find_db_quiet fs f3 path isdir acc Hq3) as (f4 & Hq4 & H4). rewrite (gbind_val _ _ _ _ _ H4).
    destruct (isdir && is_db_dir fs path) eqn:Hdb.
    + apply andb_true_iff in Hdb as [-> Hdb].
      destruct (IH (Some path) path f4 Hq4) as (d & fs2 & H & Hq5 & Hd). exists d, fs2. split_and!; [done|done|].
      right. destruct Hd as [[-> Hd]|Hd]; [|by apply last_found_cons]. exists [], l. split_and!; [done|done|].
      intros d' Hin Hd'. destruct (Hd d' Hin Hd') as (? & [= <-] & ?). done.
    + destruct (IH None acc f4 Hq4) as (d & fs2 & H & Hq5 & Hd). exists d, fs2. split_and!; [done|done|].
      destruct Hd as [[-> Hd]|Hd]; [left; split; [done|]|by right; apply last_found_cons].
      intros d' [[= -> <-]|Hin]%elem_of_cons Hd'; [by rewrite Hd' in Hdb|].
      by destruct (Hd d' Hin Hd') as (? & ? & ?).
Qed.

(** What the walk itself gives. *)
Lemma Walk_find_db rootdir fs :
  quiet fs fs ->
  exists d err fs', Walk find_db rootdir "" fs = (Val (d, err), fs') /\ quiet fs fs' /\
    ((exists e, err = Some e) /\ tree fs (Clean rootdir) = [] \/
     err = None /\ (d = "" /\ none_found fs None (tree fs (Clean rootdir)) \/
                    last_found fs (tree fs (Clean rootdir)) d)).
Proof.
  intros Hq. unfold Walk. destruct (tree fs (Clean rootdir)) as [|e l].
  - destruct (quiet_call fs fs Hq) as (fs2 & H2 & Hq2). rewrite (gbind_val _ _ _ _ _ H2).
    eexists _, _, fs2. split; [done|]. split; [done|]. left. by split; [eexists|].
  - destruct (visit_find_db fs (e :: l) None "" fs Hq) as (d & fs2 & H & Hq2 & Hd).
    exists d, None, fs2. split; [done|]. split; [done|]. by right.
Qed.

(** C37.  When no call to the file system fails, the search returns a directory
    below the root that holds both files, if there is one, and an error if there
    is none.  The walk goes on after a find, although the comment there says it
    stops: of several directories, the one returned is that after which the
    walk meets no other, save below it. *)
Theorem findDBDir_spec rootdir fs :
  (forall n, fs_fault fs n = None) -> (forall d, d ∈ fs_dirs fs -> d <> "") ->
  exists d err fs', findDBDir rootdir fs = (Val (d, err), fs') /\ fs_files fs' = fs_files fs /\
    match err with
    | None => last_found fs (tree fs (Clean rootdir)) d /\ under (Clean rootdir) d = true
    | Some _ => d = "" /\ forall d', d' ∈ fs_dirs fs -> under (Clean rootdir) d' = true -> is_db_dir fs d' = false
    end.
Proof.
  intros Hn Hne. assert (quiet fs fs) as Hq by by split_and!.
  assert (forall d', d' ∈ fs_dirs fs -> under (Clean rootdir) d' = true ->
    (d', true) ∈ tree fs (Clean rootdir)) as Hall.
  { intros d' Hd Hu. apply elem_of_tree. split; [done|]. apply elem_of_entries. by left. }
  destruct (Walk_find_db rootdir fs Hq) as (d & err & fs2 & HW & Hq2 & Hd).
  unfold findDBDir. rewrite (gbind_val _ _ _ _ _ HW). destruct Hd as [[[e ->] Ht]|[-> [[-> Hd]|Hd]]].
  - exists "", (Some e), fs2. split_and!; [done|apply Hq2|done|].
    intros d' Hin Hu. rewrite Ht in Hall. by apply Hall, elem_of_nil in Hu.
  - eexists "", (Some _), fs2. split_and!; [done|apply Hq2|done|]. intros d' Hin Hu.
    apply not_true_iff_false. intros Hdb. by destruct (Hd d' (Hall d' Hin Hu) Hdb) as (? & ? & ?).
  - assert ((d, true) ∈ tree fs (Clean rootdir)) as [Hu Hin]%elem_of_tree.
    { destruct Hd as (l1 & l2 & -> & _). set_solver. }
    apply elem_of_entries in Hin as [[_ Hin]|[[=] _]].
    apply Hne, String.eqb_neq in Hin. rewrite Hin. exists d, None, fs2. by split_and!; try apply Hq2.
Qed.

(** ** The provenance of a SARIF document *)
Lemma last_members_sub (kvs : list (string * json)) kv : kv ∈ last_members kvs -> kv ∈ kvs.
Proof.
  induction kvs as [|[k v] kvs IH]; [done|]. cbn [last_members].
  destruct (existsb _ kvs); [intros H; right; by apply IH|].
  intros [->|H]%elem_of_cons; [left|right; by apply IH].
Qed.

Lemma as_map_sub kvs kv : kv ∈ as_map kvs -> kv ∈ kvs.
Proof. unfold as_map. rewrite (merge_sort_Permutation key_le). apply last_members_sub. Qed.

Lemma map_get_None k kvs : (forall v, (k, v) ∉ kvs) -> map_get k kvs = None.
Proof.
  intros H. unfold map_get. induction kvs as [|[k' v] kvs IH]; [done|]. cbn.
  destruct (String.eqb_spec k k') as [->|].
  - destruct (H v). left.
  - apply IH. intros v' Hv. apply (H v'). by right.
Qed.

(** Decoding keeps the names of the members. *)
Lemma dynamic_object renumber kvs j :
  dynamic renumber (JObj kvs) = Some j ->
  exists kvs', j = JObj (as_map kvs') /\ map fst kvs' = map fst kvs.
Proof.
  cbn [dynamic]. intros (kvs' & Hgo & ->)%fmap_Some. exists kvs'. split; [done|].
  revert kvs' Hgo. induction kvs as [|[k x] kvs IH]; intros kvs' H; [by injection H as <-|].
  apply bind_Some in H as (x' & _ & H). apply bind_Some in H as (kvs'' & H & [= <-]). cbn. f_equal. by apply IH.
Qed.

(** C38.  A document that has no member called [Runs], with a capital, as no
    SARIF document has ([runs] is the name there), is printed again as it was
    decoded: neither the repository nor the commit is ever added to it, whatever
    its runs are. *)
Theorem sarif_gets_no_provenance getenv renumber language databaseSHA sarifData kvs data :
  json_document sarifData = Some (JObj kvs) ->
  ~ In "Runs" (map fst kvs) ->
  dynamic renumber (JObj kvs) = Some data ->
  rewrite_sarif getenv renumber language databaseSHA sarifData = Some (jindent 0 data).
Proof.
  intros Hdoc Hno Hdyn. unfold rewrite_sarif. rewrite Hdoc. cbn [mbind option_bind]. rewrite Hdyn.
  apply dynamic_object in Hdyn as (kvs' & -> & Hk). cbn. unfold modify_sarif. rewrite map_get_None; [done|].
  intros v Hv%as_map_sub. apply Hno. rewrite <- Hk. apply in_map_iff. exists ("Runs", v).
  split; [done|]. by apply list_elem_of_In.
Qed.
