(* ===== verification/System.v ===== *)
(** The server and its workers together: the interleavings of submissions
    ([startAnalyses]), workers ([RunWorker] of [pkg/agent/agent.go]) and the
    results consumer ([ConsumeResults]) over one state and one queue.

    A submission is a list of actions still to do, three per repository, in the
    order of the loop of [startAnalyses].  A worker is at one of the points
    between the calls of its loop, the consumer between its two writes.  The
    analysis itself is a relation between a job and its outcome, [None] being an
    error; [Agent] proves what the relation is assumed to satisfy. *)
From S2P Require Import Prelude GoStrings GoUtf8 GoJson Common Http ArtifactStore State Queue.
From S2P Require Import QldbStore Server.

(** ** Submissions as lists of actions *)
Inductive action : Type :=
| ActSend (job : AnalyzeJob)     (* c.v.Queue.Jobs() <- info *)
| ActPending (job : AnalyzeJob)  (* c.v.State.SetStatus(jobSpec, StatusPending) *)
| ActAdd (job : AnalyzeJob).     (* c.v.State.AddJob(info) *)

Definition act_job (a : action) : AnalyzeJob :=
  match a with ActSend j | ActPending j | ActAdd j => j end.

Definition analysis_actions (loc : ArtifactLocation) (sid : Z) (lang : QueryLanguage)
    (nwo : NameWithOwner) : list action :=
  let job := MkJob (MkJobSpec sid nwo) loc lang in [ActSend job; ActPending job; ActAdd job].

Definition submission (repos : list NameWithOwner) (loc : ArtifactLocation) (sid : Z)
    (lang : QueryLanguage) : list action := flat_map (analysis_actions loc sid lang) repos.

Section handler.
Context {SS AS DS : Type} `{!ServerState SS}.

Definition run_action (a : action) : GM (World SS AS DS) unit :=
  match a with
  | ActSend job => send_job job
  | ActPending job => on_state (SetStatus (aj_Spec job) StatusPending)
  | ActAdd job => on_state (AddJob job)
  end.

Lemma actions_are_start_analysis loc sid lang nwo (w : World SS AS DS) :
  gforeach run_action (analysis_actions loc sid lang nwo) w = start_analysis loc sid lang nwo w.
Proof.
  unfold analysis_actions, start_analysis. cbn [gforeach run_action]. unfold gbind.
  destruct (send_job _ w) as [[[]|] w1]; [|done].
  destruct (on_state _ w1) as [[[]|] w2]; [|done].
  by destruct (on_state _ w2) as [[[]|] w3].
Qed.

(** The actions in a row, with nothing in between and a queue that never
    blocks, are the handler's loop. *)
Lemma submission_is_startAnalyses repos loc sid lang (w : World SS AS DS) :
  gforeach run_action (submission repos loc sid lang) w = startAnalyses repos loc sid lang w.
Proof.
  revert w. induction repos as [|nwo repos IH]; intros w; [done|].
  unfold submission. cbn [flat_map]. rewrite gforeach_app. unfold startAnalyses. cbn [gforeach].
  unfold gbind. rewrite actions_are_start_analysis.
  destruct (start_analysis loc sid lang nwo w) as [[[]|] w1]; [apply IH|done].
Qed.
End handler.

(** ** The system *)
Inductive worker : Type :=
| WIdle                          (* in the select *)
| WGot (job : AnalyzeJob)        (* received, before SetStatus(InProgress) *)
| WRunning (job : AnalyzeJob)    (* in RunAnalysisJob *)
| WPublish (r : AnalyzeResult).  (* before queue.Results() <- result *)

Record Sys (SS : Type) : Type := MkSys {
  sy_state : SS;
  sy_queue : QueueSingle;
  sy_submissions : list (list action);
  sy_workers : list worker;
  sy_consumer : option AnalyzeResult  (* between SetResult and SetStatus *)
}.
Arguments MkSys {SS} _ _ _ _ _.
Arguments sy_state {SS} _.
Arguments sy_queue {SS} _.
Arguments sy_submissions {SS} _.
Arguments sy_workers {SS} _.
Arguments sy_consumer {SS} _.

Definition with_jobs (ch : Chan AnalyzeJob) (q : QueueSingle) : QueueSingle :=
  MkQueueSingle (NumWorkers q) ch (results q).
Definition with_results (ch : Chan AnalyzeResult) (q : QueueSingle) : QueueSingle :=
  MkQueueSingle (NumWorkers q) (jobs q) ch.

Section system.
Context {SS : Type} `{!SessionState SS}.
Context (analysis : AnalyzeJob -> option AnalyzeResult -> Prop).

(** One step of one goroutine. *)
Inductive step : Sys SS -> Sys SS -> Prop :=
| step_send s q subs ws c i job acts ch :
    subs !! i = Some (ActSend job :: acts) -> send job (Jobs q) = Done ch ->
    step (MkSys s q subs ws c) (MkSys s (with_jobs ch q) (<[i := acts]> subs) ws c)
| step_pending s q subs ws c i job acts s' :
    subs !! i = Some (ActPending job :: acts) ->
    SetStatus (aj_Spec job) StatusPending s = (Val tt, s') ->
    step (MkSys s q subs ws c) (MkSys s' q (<[i := acts]> subs) ws c)
| step_add s q subs ws c i job acts s' :
    subs !! i = Some (ActAdd job :: acts) -> AddJob job s = (Val tt, s') ->
    step (MkSys s q subs ws c) (MkSys s' q (<[i := acts]> subs) ws c)
| step_receive s q subs ws c i job ch :
    ws !! i = Some WIdle -> receive (Jobs q) = Done (Some job, ch) ->
    step (MkSys s q subs ws c) (MkSys s (with_jobs ch q) subs (<[i := WGot job]> ws) c)
| step_start s q subs ws c i job s' :
    ws !! i = Some (WGot job) -> SetStatus (aj_Spec job) StatusInProgress s = (Val tt, s') ->
    step (MkSys s q subs ws c) (MkSys s' q subs (<[i := WRunning job]> ws) c)
| step_succeed s q subs ws c i job r :
    ws !! i = Some (WRunning job) -> analysis job (Some r) ->
    step (MkSys s q subs ws c) (MkSys s q subs (<[i := WPublish r]> ws) c)
| step_fail s q subs ws c i job :
    ws !! i = Some (WRunning job) -> analysis job None ->
    step (MkSys s q subs ws c) (MkSys s q subs (<[i := WIdle]> ws) c)
| step_publish s q subs ws c i r ch :
    ws !! i = Some (WPublish r) -> send r (Results q) = Done ch ->
    step (MkSys s q subs ws c) (MkSys s (with_results ch q) subs (<[i := WIdle]> ws) c)
| step_consume s q subs ws r ch s' :
    receive (Results q) = Done (Some r, ch) -> SetResult (ar_Spec r) r s = (Val tt, s') ->
    step (MkSys s q subs ws None) (MkSys s' (with_results ch q) subs ws (Some r))
| step_settle s q subs ws r s' :
    SetStatus (ar_Spec r) (ar_Status r) s = (Val tt, s') ->
    step (MkSys s q subs ws (Some r)) (MkSys s' q subs ws None).

Definition reachable : Sys SS -> Sys SS -> Prop := rtc step.

Definition stuck (x : Sys SS) : Prop := forall y, ~ step x y.

End system.

(** ** Counting and locating jobs *)
Lemma flat_map_insert {A B} (f : A -> list B) (l : list A) i a :
  l !! i = Some a ->
  exists rest, flat_map f l ≡ₚ f a ++ rest /\ forall b, flat_map f (<[i := b]> l) ≡ₚ f b ++ rest.
Proof.
  intros Hi. exists (flat_map f (take i l) ++ flat_map f (drop (S i) l)).
  pose proof (lookup_lt_Some _ _ _ Hi) as Hlt. split.
  - rewrite <- (take_drop_middle l i a Hi) at 1. rewrite flat_map_app. simpl.
    rewrite !app_assoc. f_equiv. apply Permutation_app_comm.
  - intros b. rewrite insert_take_drop by done. rewrite flat_map_app. simpl.
    rewrite !app_assoc. f_equiv. apply Permutation_app_comm.
Qed.

Definition sends (acts : list action) : list AnalyzeJob :=
  omap (fun a => match a with ActSend j => Some j | _ => None end) acts.
Definition pendings (acts : list action) : list AnalyzeJob :=
  omap (fun a => match a with ActPending j => Some j | _ => None end) acts.
Definition adds (acts : list action) : list AnalyzeJob :=
  omap (fun a => match a with ActAdd j => Some j | _ => None end) acts.

Definition worker_job (w : worker) : list AnalyzeJob :=
  match w with WGot j | WRunning j => [j] | _ => [] end.
Definition worker_result (w : worker) : list AnalyzeResult :=
  match w with WPublish r => [r] | _ => [] end.

Section counting.
Context {SS : Type}.
Implicit Types x : Sys SS.

(** The jobs that were not analysed yet, and the results that were not settled. *)
Definition open_jobs x : list AnalyzeJob :=
  flat_map sends (sy_submissions x) ++ ch_buf (Jobs (sy_queue x)) ++ flat_map worker_job (sy_workers x).
Definition open_results x : list AnalyzeResult :=
  flat_map worker_result (sy_workers x) ++ ch_buf (Results (sy_queue x)) ++ option_list (sy_consumer x).
Definition open_specs x : list JobSpec := map aj_Spec (open_jobs x) ++ map ar_Spec (open_results x).

Definition to_mark x : list AnalyzeJob := flat_map pendings (sy_submissions x).
Definition to_add x : list AnalyzeJob := flat_map adds (sy_submissions x).
End counting.

(** ** What the analysis is assumed to do, and what holds throughout a run *)
Section runs.
Context {SS : Type} `{!SessionState SS, !SessionStateSpec SS}.
Context (analysis : AnalyzeJob -> option AnalyzeResult -> Prop).
Context (analysis_ok : forall job r, analysis job (Some r) ->
  ar_Spec r = aj_Spec job /\ ar_Status r = StatusSucceeded /\
  (storable_spec (aj_Spec job) -> storable_result r)).

Implicit Types x y : Sys SS.

Record sys_ok x : Prop := {
  ok_wf : wf (length (to_add x)) (sy_state x);
  ok_queue : chan_ok (Jobs (sy_queue x)) /\ chan_ok (Results (sy_queue x));
  ok_jobs : forall job, job ∈ open_jobs x ++ to_mark x ++ to_add x ->
    v_known (view (sy_state x)) (SessionID (aj_Spec job)) /\ storable_spec (aj_Spec job);
  ok_results : forall r, r ∈ open_results x ->
    v_known (view (sy_state x)) (SessionID (ar_Spec r)) /\ storable_spec (ar_Spec r) /\
    storable_result r /\ ar_Status r = StatusSucceeded;
  ok_adds : forall job, job ∈ to_add x -> storable_job job /\
    aj_Spec job ∉ map aj_Spec (v_jobs (view (sy_state x)) (SessionID (aj_Spec job)));
  ok_distinct : NoDup (map aj_Spec (to_add x))
}.

(** What a step does to the state, as far as a client can see. *)
Inductive effect (v v' : View) : Prop :=
| eff_none : v' ≡ v -> effect v v'
| eff_status js st : v' ≡ view_set_status js st v -> 0 <= st <= 2 -> effect v v'
| eff_result r : v' ≡ view_set_result (ar_Spec r) r v -> ar_Status r = StatusSucceeded -> effect v v'
| eff_job job : v' ≡ view_add_job job v -> effect v v'.

Lemma effect_known v v' sid : effect v v' -> v_known v' sid <-> v_known v sid.
Proof. intros [(H & _)|js st (H & _)|r (H & _)|job (H & _)]; by rewrite H. Qed.

Ltac det H1 H2 := rewrite H1 in H2; injection H2 as <-.

(** The successor of a write is the one the specification describes. *)
Lemma SetStatus_det n s js st s' :
  wf n s -> v_known (view s) (SessionID js) -> storable_spec js ->
  SetStatus js st s = (Val tt, s') -> 0 <= st <= 5 -> wf n s' /\ view s' ≡ view_set_status js st (view s).
Proof.
  intros Hwf Hk Hs H Hst. destruct (SetStatus_ok n s js st) as (s2 & H2 & ?); [done..|].
  by det H H2.
Qed.

Lemma SetResult_det n s ar s' :
  wf n s -> v_known (view s) (SessionID (ar_Spec ar)) -> storable_result ar ->
  SetResult (ar_Spec ar) ar s = (Val tt, s') ->
  wf n s' /\ view s' ≡ view_set_result (ar_Spec ar) ar (view s).
Proof.
  intros Hwf Hk Hs H. destruct (SetResult_ok n s (ar_Spec ar) ar) as (s2 & H2 & ?); [done..|].
  by det H H2.
Qed.

Lemma AddJob_det n s job s' :
  wf (S n) s -> v_known (view s) (SessionID (aj_Spec job)) -> storable_job job ->
  aj_Spec job ∉ map aj_Spec (v_jobs (view s) (SessionID (aj_Spec job))) ->
  AddJob job s = (Val tt, s') -> wf n s' /\ view s' ≡ view_add_job job (view s).
Proof.
  intros Hwf Hk Hs Hn H. destruct (AddJob_ok n s job) as (s2 & H2 & ?); [done..|]. by det H H2.
Qed.

(** A step, seen through the lists of open work only. *)
Inductive step_view x y : Prop :=
| sv_same :
    open_jobs x ≡ₚ open_jobs y -> open_results x ≡ₚ open_results y ->
    to_mark x ≡ₚ to_mark y -> to_add x ≡ₚ to_add y -> sy_state y = sy_state x -> step_view x y
| sv_mark job :
    open_jobs x ≡ₚ open_jobs y -> open_results x ≡ₚ open_results y ->
    to_mark x ≡ₚ job :: to_mark y -> to_add x ≡ₚ to_add y ->
    SetStatus (aj_Spec job) StatusPending (sy_state x) = (Val tt, sy_state y) -> step_view x y
| sv_add job :
    open_jobs x ≡ₚ open_jobs y -> open_results x ≡ₚ open_results y ->
    to_mark x ≡ₚ to_mark y -> to_add x ≡ₚ job :: to_add y ->
    AddJob job (sy_state x) = (Val tt, sy_state y) -> step_view x y
| sv_start job :
    open_jobs x ≡ₚ open_jobs y -> open_results x ≡ₚ open_results y ->
    to_mark x ≡ₚ to_mark y -> to_add x ≡ₚ to_add y -> job ∈ open_jobs x ->
    SetStatus (aj_Spec job) StatusInProgress (sy_state x) = (Val tt, sy_state y) -> step_view x y
| sv_end job o :
    open_jobs x ≡ₚ job :: open_jobs y -> open_results y ≡ₚ option_list o ++ open_results x ->
    to_mark x ≡ₚ to_mark y -> to_add x ≡ₚ to_add y -> analysis job o ->
    sy_state y = sy_state x -> step_view x y
| sv_consume r :
    open_jobs x ≡ₚ open_jobs y -> open_results x ≡ₚ open_results y ->
    to_mark x ≡ₚ to_mark y -> to_add x ≡ₚ to_add y -> r ∈ open_results x ->
    SetResult (ar_Spec r) r (sy_state x) = (Val tt, sy_state y) -> step_view x y
| sv_settle r :
    open_jobs x ≡ₚ open_jobs y -> open_results x ≡ₚ r :: open_results y ->
    to_mark x ≡ₚ to_mark y -> to_add x ≡ₚ to_add y ->
    SetStatus (ar_Spec r) (ar_Status r) (sy_state x) = (Val tt, sy_state y) ->
    sy_consumer x = Some r -> step_view x y.

(** The lists of a submission before and after one of its actions. *)
Ltac submission_lists Hi acts :=
  let r1 := fresh "r1" in let r2 := fresh "r2" in let r3 := fresh "r3" in
  let E1 := fresh in let E2 := fresh in let E3 := fresh in
  destruct (flat_map_insert sends _ _ _ Hi) as (r1 & E1 & ?E1');
  destruct (flat_map_insert pendings _ _ _ Hi) as (r2 & E2 & ?E2');
  destruct (flat_map_insert adds _ _ _ Hi) as (r3 & E3 & ?E3').

Ltac worker_lists Hi :=
  let r1 := fresh "r1" in let r2 := fresh "r2" in let E1 := fresh in let E2 := fresh in
  destruct (flat_map_insert worker_job _ _ _ Hi) as (r1 & E1 & ?E1');
  destruct (flat_map_insert worker_result _ _ _ Hi) as (r2 & E2 & ?E2').

Ltac open_lists :=
  unfold open_jobs, open_results, to_mark, to_add;
  cbn [sy_submissions sy_queue sy_workers sy_consumer sy_state Jobs Results Queue.jobs Queue.results
       with_jobs with_results option_list];
  repeat match goal with
         | H : flat_map _ _ ≡ₚ _ |- _ => rewrite H; clear H
         | H : forall b, flat_map _ (<[_ := b]> _) ≡ₚ _ |- _ => rewrite H; clear H
         | H : ch_buf _ = _ |- _ => rewrite H; clear H
         end;
  cbn [sends pendings adds omap list_omap worker_job worker_result app option_list];
  try solve_Permutation.

Lemma step_viewed x y : sys_ok x -> step analysis x y -> step_view x y.
Proof.
  intros [_ [Hqj Hqr] _ _ _ _]. destruct 1 as
    [s q subs ws c i job acts ch Hi Hs|s q subs ws c i job acts s' Hi Hs|s q subs ws c i job acts s' Hi Hs
    |s q subs ws c i job ch Hi Hr|s q subs ws c i job s' Hi Hs|s q subs ws c i job r Hi Ha
    |s q subs ws c i job Hi Ha|s q subs ws c i r ch Hi Hs|s q subs ws r ch s' Hr Hs|s q subs ws r s' Hs];
    cbn [sy_queue] in *.
  - apply send_ok in Hs as (Hb & _ & _); [|done]. submission_lists Hi acts.
    apply sv_same; [open_lists..|done].
  - submission_lists Hi acts. apply (sv_mark _ _ job); [open_lists..|done].
  - submission_lists Hi acts. apply (sv_add _ _ job); [open_lists..|done].
  - apply receive_ok in Hr as (Hb & _ & _); [|done]. worker_lists Hi.
    apply sv_same; [open_lists..|done].
  - worker_lists Hi. apply (sv_start _ _ job); [open_lists|open_lists|open_lists|open_lists|open_lists; set_solver|done].
  - worker_lists Hi. apply (sv_end _ _ job (Some r)); [open_lists..|done|done].
  - worker_lists Hi. apply (sv_end _ _ job None); [open_lists..|done|done].
  - apply send_ok in Hs as (Hb & _ & _); [|done]. worker_lists Hi.
    apply sv_same; [open_lists..|done].
  - apply receive_ok in Hr as (Hb & _ & _); [|done].
    apply (sv_consume _ _ r); [open_lists|open_lists|open_lists|open_lists|open_lists; set_solver|done].
  - apply (sv_settle _ _ r); [open_lists..|done|done].
Qed.

Lemma step_queue_ok x y :
  chan_ok (Jobs (sy_queue x)) /\ chan_ok (Results (sy_queue x)) -> step analysis x y ->
  chan_ok (Jobs (sy_queue y)) /\ chan_ok (Results (sy_queue y)).
Proof.
  intros [Hj Hr]. destruct 1; cbn [sy_queue Jobs Results with_jobs with_results Queue.jobs Queue.results] in *;
    try done.
  - split; [by eapply send_ok|done].
  - split; [by eapply receive_ok|done].
  - split; [done|by eapply send_ok].
  - split; [done|by eapply receive_ok].
Qed.

(** The parts of [sys_ok] that speak of open work hold of less work, and of any
    later state in which no job was added. *)
Lemma work_shrinks x y :
  sys_ok x -> effect (view (sy_state x)) (view (sy_state y)) ->
  (forall job, job ∈ open_jobs y ++ to_mark y ++ to_add y -> job ∈ open_jobs x ++ to_mark x ++ to_add x) ->
  forall job, job ∈ open_jobs y ++ to_mark y ++ to_add y ->
    v_known (view (sy_state y)) (SessionID (aj_Spec job)) /\ storable_spec (aj_Spec job).
Proof.
  intros Hok He Hsub job Hin. destruct (ok_jobs _ Hok job (Hsub job Hin)) as [Hk Hs].
  split; [|done]. by apply (effect_known _ _ _ He).
Qed.

Lemma results_shrink x y :
  sys_ok x -> effect (view (sy_state x)) (view (sy_state y)) ->
  (forall r, r ∈ open_results y -> r ∈ open_results x) ->
  forall r, r ∈ open_results y ->
    v_known (view (sy_state y)) (SessionID (ar_Spec r)) /\ storable_spec (ar_Spec r) /\
    storable_result r /\ ar_Status r = StatusSucceeded.
Proof.
  intros Hok He Hsub r Hin. destruct (ok_results _ Hok r (Hsub r Hin)) as (Hk & Hs).
  split; [|done]. by apply (effect_known _ _ _ He).
Qed.

Lemma adds_kept x y :
  sys_ok x -> to_add x ≡ₚ to_add y ->
  (forall sid, v_jobs (view (sy_state y)) sid ≡ₚ v_jobs (view (sy_state x)) sid) ->
  (forall job, job ∈ to_add y -> storable_job job /\
     aj_Spec job ∉ map aj_Spec (v_jobs (view (sy_state y)) (SessionID (aj_Spec job)))) /\
  NoDup (map aj_Spec (to_add y)).
Proof.
  intros Hok Hp Hj. split.
  - intros job Hin. rewrite <- Hp in Hin. rewrite Hj. by apply (ok_adds _ Hok).
  - rewrite <- Hp. apply (ok_distinct _ Hok).
Qed.

(** A step that adds no job keeps the invariant if its write is the one described. *)
Lemma step_ok_no_add x y :
  sys_ok x -> step analysis x y -> to_add x ≡ₚ to_add y ->
  wf (length (to_add x)) (sy_state y) -> effect (view (sy_state x)) (view (sy_state y)) ->
  (forall sid, v_jobs (view (sy_state y)) sid ≡ₚ v_jobs (view (sy_state x)) sid) ->
  (forall job, job ∈ open_jobs y ++ to_mark y ++ to_add y -> job ∈ open_jobs x ++ to_mark x ++ to_add x) ->
  (forall r, r ∈ open_results y ->
    v_known (view (sy_state y)) (SessionID (ar_Spec r)) /\ storable_spec (ar_Spec r) /\
    storable_result r /\ ar_Status r = StatusSucceeded) ->
  sys_ok y.
Proof.
  intros Hok Hstep Hadd Hwf He Hj Hjobs Hres. destruct (adds_kept x y Hok Hadd Hj) as [Ha Hd]. split.
  - by rewrite <- Hadd.
  - eapply step_queue_ok, Hstep. apply (ok_queue _ Hok).
  - by apply (work_shrinks x).
  - done.
  - done.
  - done.
Qed.

Ltac in_lists := intros ?; rewrite ?elem_of_app; set_solver.

Lemma step_ok x y :
  sys_ok x -> step analysis x y -> sys_ok y /\ effect (view (sy_state x)) (view (sy_state y)).
Proof.
  intros Hok Hstep.
  destruct (step_viewed x y Hok Hstep) as [Hoj Hor Hm Ha Hs|job Hoj Hor Hm Ha Hs|job Hoj Hor Hm Ha Hs
    |job Hoj Hor Hm Ha Hin Hs|job o Hoj Hor Hm Ha Han Hs|r Hoj Hor Hm Ha Hin Hs|r Hoj Hor Hm Ha Hs].
  - assert (effect (view (sy_state x)) (view (sy_state y))) as He by (rewrite Hs; by apply eff_none).
    split; [|done]. eapply step_ok_no_add; try done.
    + rewrite Hs. apply (ok_wf _ Hok).
    + by rewrite Hs.
    + intros j. by rewrite Hoj, Hm, Ha.
    + eapply results_shrink; [done|done|]. intros r. by rewrite Hor.
  - destruct (ok_jobs _ Hok job) as [Hk Hst]; [rewrite Hm; set_solver|].
    destruct (SetStatus_det _ _ _ _ _ (ok_wf _ Hok) Hk Hst Hs ltac:(done)) as [Hwf Hv].
    assert (effect (view (sy_state x)) (view (sy_state y))) as He by by eapply eff_status.
    split; [|done]. eapply step_ok_no_add; try done.
    + intros sid. destruct Hv as (_ & Hj & _). by rewrite Hj.
    + intros j. rewrite Hoj, Hm, Ha. set_solver.
    + eapply results_shrink; [done|done|]. intros r. by rewrite Hor.
  - destruct (ok_jobs _ Hok job) as [Hk Hst]; [rewrite Ha; set_solver|].
    destruct (ok_adds _ Hok job) as [Hsj Hnew]; [rewrite Ha; set_solver|].
    pose proof (ok_wf _ Hok) as Hwf. rewrite Ha in Hwf.
    destruct (AddJob_det _ _ _ _ Hwf Hk Hsj Hnew Hs) as [Hwf' Hv].
    assert (effect (view (sy_state x)) (view (sy_state y))) as He by by eapply eff_job.
    pose proof (ok_distinct _ Hok) as Hd. rewrite Ha in Hd. cbn [map] in Hd.
    apply list.NoDup_cons in Hd as [Hnin Hd].
    split; [|done]. split; try done.
    + eapply step_queue_ok, Hstep. apply (ok_queue _ Hok).
    + eapply work_shrinks; [done|done|]. intros j. rewrite Hoj, Hm, Ha. set_solver.
    + eapply results_shrink; [done|done|]. intros r. by rewrite Hor.
    + intros j Hin. destruct (ok_adds _ Hok j) as [Hsj' Hnew']; [rewrite Ha; set_solver|].
      split; [done|]. destruct Hv as (_ & Hj & _). rewrite (Hj _). cbn [view_add_job v_jobs].
      case_decide as E; [|done]. cbn [map]. rewrite not_elem_of_cons. split; [|done].
      intros Heq. apply Hnin. rewrite <- Heq. apply list_elem_of_In, in_map_iff.
      exists j. split; [done|]. by apply list_elem_of_In.
  - destruct (ok_jobs _ Hok job) as [Hk Hst]; [set_solver|].
    destruct (SetStatus_det _ _ _ _ _ (ok_wf _ Hok) Hk Hst Hs ltac:(done)) as [Hwf Hv].
    assert (effect (view (sy_state x)) (view (sy_state y))) as He by by eapply eff_status.
    split; [|done]. eapply step_ok_no_add; try done.
    + intros sid. destruct Hv as (_ & Hj & _). by rewrite Hj.
    + intros j. rewrite Hoj, Hm, Ha. set_solver.
    + eapply results_shrink; [done|done|]. intros r. by rewrite Hor.
  - assert (effect (view (sy_state x)) (view (sy_state y))) as He by (rewrite Hs; by apply eff_none).
    destruct (ok_jobs _ Hok job) as [Hk Hst]; [rewrite Hoj; set_solver|].
    split; [|done]. eapply step_ok_no_add; try done.
    + rewrite Hs. apply (ok_wf _ Hok).
    + by rewrite Hs.
    + intros j. rewrite Hoj, Hm, Ha. set_solver.
    + intros r. rewrite Hor, elem_of_app. intros [Hr|Hr].
      * destruct o as [r'|]; simpl in Hr; [|set_solver]. apply list_elem_of_singleton in Hr as ->.
        destruct (analysis_ok _ _ Han) as (Hsp & Hsucc & Hstor). rewrite Hs, Hsp.
        split_and!; [done|done|by apply Hstor|done].
      * rewrite Hs. by apply (ok_results _ Hok).
  - destruct (ok_results _ Hok r Hin) as (Hk & Hst & Hsr & Hsucc).
    destruct (SetResult_det _ _ _ _ (ok_wf _ Hok) Hk Hsr Hs) as [Hwf Hv].
    assert (effect (view (sy_state x)) (view (sy_state y))) as He by by eapply eff_result.
    split; [|done]. eapply step_ok_no_add; try done.
    + intros sid. destruct Hv as (_ & Hj & _). by rewrite Hj.
    + intros j. by rewrite Hoj, Hm, Ha.
    + eapply results_shrink; [done|done|]. intros r'. by rewrite Hor.
  - destruct (ok_results _ Hok r) as (Hk & Hst & Hsr & Hsucc); [rewrite Hor; set_solver|].
    rewrite Hsucc in Hs.
    destruct (SetStatus_det _ _ _ _ _ (ok_wf _ Hok) Hk Hst Hs ltac:(done)) as [Hwf Hv].
    assert (effect (view (sy_state x)) (view (sy_state y))) as He by by eapply eff_status.
    split; [|done]. eapply step_ok_no_add; try done.
    + intros sid. destruct Hv as (_ & Hj & _). by rewrite Hj.
    + intros j. by rewrite Hoj, Hm, Ha.
    + eapply results_shrink; [done|done|]. intros r'. rewrite Hor. set_solver.
Qed.

Lemma run_ok x y : sys_ok x -> reachable analysis x y -> sys_ok y.
Proof. intros Hok Hr. induction Hr as [|x y z Hs _ IH]; [done|]. apply IH. by eapply step_ok. Qed.

(** ** Work is neither lost nor repeated *)
Definition specs (l : list AnalyzeJob) : list JobSpec := map aj_Spec l.

(** A step finishes at most one spec, by settling its result or by failing. *)
Lemma step_specs x y :
  sys_ok x -> step analysis x y -> exists gone, open_specs x ≡ₚ option_list gone ++ open_specs y.
Proof.
  intros Hok Hstep. unfold open_specs.
  destruct (step_viewed x y Hok Hstep) as [Hoj Hor|job Hoj Hor|job Hoj Hor|job Hoj Hor
    |job o Hoj Hor _ _ Han|r Hoj Hor|r Hoj Hor]; try (exists None; by rewrite Hoj, Hor).
  - destruct o as [r|].
    + exists None. rewrite Hoj, Hor. cbn. destruct (analysis_ok _ _ Han) as (-> & _). apply Permutation_middle.
    + exists (Some (aj_Spec job)). by rewrite Hoj, Hor.
  - exists (Some (ar_Spec r)). rewrite Hoj, Hor. cbn. symmetry. apply Permutation_middle.
Qed.

(** C15.  No interleaving duplicates work: if the specs still to be analysed or
    settled are distinct, they stay so, and no spec comes into being. *)
Theorem work_is_not_duplicated x y :
  sys_ok x -> reachable analysis x y -> NoDup (open_specs x) ->
  NoDup (open_specs y) /\ open_specs y ⊆ open_specs x.
Proof.
  intros Hok Hr Hnd. induction Hr as [x|x y z Hs _ IH]; [done|].
  destruct (step_specs x y Hok Hs) as [gone Hp].
  assert (NoDup (open_specs y)) as Hnd'.
  { rewrite Hp in Hnd. apply list.NoDup_app in Hnd as (_ & _ & Hnd). done. }
  destruct (IH ltac:(by eapply step_ok) Hnd') as [H1 H2]. split; [done|].
  etrans; [exact H2|]. intros js Hjs. rewrite Hp. apply elem_of_app. by right.
Qed.

(** ** A failure is never reported *)
Definition reported_statuses (v : View) : Prop :=
  forall js st, v_status v !! js = Some st -> 0 <= st <= 2.

Lemma effect_statuses v v' : effect v v' -> reported_statuses v -> reported_statuses v'.
Proof.
  unfold reported_statuses. intros [Hv|js0 st0 Hv Hst|r Hv _|job Hv] Hrep js st H;
    destruct Hv as (_ & _ & Hs & _); rewrite Hs in H; cbn in H; try by eapply Hrep.
  apply lookup_insert_Some in H as [[_ <-]|[_ H]]; [done|by eapply Hrep].
Qed.

Lemma overall_of_reported sts :
  (forall st, st ∈ sts -> 0 <= st <= 2) ->
  overall_spec sts = StatusSucceeded \/ overall_spec sts = StatusPending.
Proof.
  intros H. unfold overall_spec. case_decide as H1; [by left|].
  assert (forall k, 3 <= k -> ~ Forall (.= k) sts) as Hno.
  { intros k Hk Hall. destruct sts as [|st sts]; [by destruct H1|].
    apply Forall_cons_1 in Hall as [-> _]. specialize (H k ltac:(left)). lia. }
  rewrite !decide_False by (apply Hno; done). case_decide; auto.
Qed.

(** Whatever the interleaving and however many analyses fail, no job is
    ever recorded as failed, canceled or timed out, and the status reported for
    a session is succeeded or pending: a worker drops the failed result it made. *)
Theorem failures_are_never_reported x y :
  sys_ok x -> reported_statuses (view (sy_state x)) -> reachable analysis x y ->
  reported_statuses (view (sy_state y)) /\
  (forall sid sum s', session_statuses sid (v_status (view (sy_state y))) <> [] ->
     GetSessionStatus sid (sy_state y) = (Val (sum, None), s') ->
     Overall sum = StatusSucceeded \/ Overall sum = StatusPending).
Proof.
  intros Hok Hrep Hr. assert (reported_statuses (view (sy_state y))) as Hy.
  { clear - Hok Hrep Hr SessionStateSpec0 analysis_ok. induction Hr as [x|x y z Hs _ IH]; [done|].
    destruct (step_ok x y Hok Hs) as [Hok' He]. apply IH; [done|]. by eapply effect_statuses. }
  split; [done|]. intros sid sum s' Hne Hget.
  destruct (GetSessionStatus_ok _ _ sid (ok_wf _ (run_ok _ _ Hok Hr)) Hne) as (sum' & Hget' & Hov & _).
  rewrite Hget in Hget'. injection Hget' as <- _. rewrite Hov. apply overall_of_reported.
  intros st Hst. unfold session_statuses in Hst.
  apply list_elem_of_In, in_map_iff in Hst as ([js st'] & Heq & Hin). cbn in Heq. subst st'.
  apply filter_In in Hin as [Hin _]. apply list_elem_of_In, elem_of_map_to_list in Hin. by eapply Hy.
Qed.

(** ** When a settled status stays *)
Definition at_rest (js : JobSpec) (st : Status) x : Prop :=
  v_status (view (sy_state x)) !! js = Some st /\ js ∉ open_specs x /\ js ∉ specs (to_mark x).

Lemma status_kept v v' js0 st0 js st :
  v' ≡ view_set_status js0 st0 v -> js0 <> js -> v_status v !! js = Some st -> v_status v' !! js = Some st.
Proof. intros (_ & _ & -> & _) Hne H. cbn. by rewrite lookup_insert_ne. Qed.

Lemma in_open_jobs x job : job ∈ open_jobs x -> aj_Spec job ∈ open_specs x.
Proof.
  intros H. apply elem_of_app. left. apply list_elem_of_In, in_map. by apply list_elem_of_In.
Qed.

Lemma in_open_results x r : r ∈ open_results x -> ar_Spec r ∈ open_specs x.
Proof.
  intros H. apply elem_of_app. right. apply list_elem_of_In, in_map. by apply list_elem_of_In.
Qed.

Lemma at_rest_step js st x y : sys_ok x -> step analysis x y -> at_rest js st x -> at_rest js st y.
Proof.
  intros Hok Hstep (Hst & Hopen & Hmark).
  destruct (step_specs x y Hok Hstep) as [gone Hp].
  assert (js ∉ open_specs y) as Hopen' by (rewrite Hp in Hopen; set_solver).
  assert (specs (to_mark y) ⊆ specs (to_mark x) /\ v_status (view (sy_state y)) !! js = Some st) as [Hm Hs].
  { destruct (step_viewed x y Hok Hstep) as [_ _ Hm _ Hs|job _ _ Hm _ Hs|job _ _ Hm Ha Hs|job Hoj _ Hm _ Hin Hs
      |job o _ _ Hm _ _ Hs|r _ _ Hm _ Hin Hs|r _ Hor Hm _ Hs]; unfold specs in *.
    - rewrite Hm, Hs. done.
    - destruct (ok_jobs _ Hok job) as [Hk Hsp]; [rewrite Hm; set_solver|].
      destruct (SetStatus_det _ _ _ _ _ (ok_wf _ Hok) Hk Hsp Hs ltac:(done)) as [_ Hv].
      rewrite Hm in *. cbn [map specs] in *. split; [set_solver|]. eapply status_kept; [done| |done].
      intros E. apply Hmark. rewrite <- E. left.
    - destruct (ok_jobs _ Hok job) as [Hk _]; [rewrite Ha; set_solver|].
      destruct (ok_adds _ Hok job) as [Hsj Hnew]; [rewrite Ha; set_solver|].
      pose proof (ok_wf _ Hok) as Hwf. rewrite Ha in Hwf.
      destruct (AddJob_det _ _ _ _ Hwf Hk Hsj Hnew Hs) as [_ (_ & _ & Hv & _)]. rewrite Hm, Hv. done.
    - destruct (ok_jobs _ Hok job) as [Hk Hsp]; [set_solver|].
      destruct (SetStatus_det _ _ _ _ _ (ok_wf _ Hok) Hk Hsp Hs ltac:(done)) as [_ Hv].
      rewrite Hm. split; [done|]. eapply status_kept; [done| |done].
      intros <-. by apply Hopen, in_open_jobs.
    - rewrite Hm, Hs. done.
    - destruct (ok_results _ Hok r Hin) as (Hk & _ & Hsr & _).
      destruct (SetResult_det _ _ _ _ (ok_wf _ Hok) Hk Hsr Hs) as [_ (_ & _ & Hv & _)]. rewrite Hm, Hv. done.
    - assert (r ∈ open_results x) as Hin by (rewrite Hor; left).
      destruct (ok_results _ Hok r Hin) as (Hk & Hsp & _ & Hsucc). rewrite Hsucc in Hs.
      destruct (SetStatus_det _ _ _ _ _ (ok_wf _ Hok) Hk Hsp Hs ltac:(done)) as [_ Hv].
      rewrite Hm. split; [done|]. eapply status_kept; [done| |done].
      intros <-. by apply Hopen, in_open_results. }
  split_and!; [done|done|]. intros H. by apply Hmark, Hm.
Qed.

(** C14.  Once the consumer has settled a result, the job stays succeeded in
    every later state, provided the submission had already marked the job as
    pending and no copy of the job is under way. *)
Theorem settled_status_is_final x y z r :
  sys_ok x -> NoDup (open_specs x) -> sy_consumer x = Some r -> step analysis x y ->
  sy_consumer y = None -> ar_Spec r ∉ specs (to_mark x) -> reachable analysis y z ->
  v_status (view (sy_state z)) !! ar_Spec r = Some StatusSucceeded.
Proof.
  intros Hok Hnd Hc Hstep Hc' Hmark Hr.
  assert (at_rest (ar_Spec r) StatusSucceeded y) as Hrest.
  { assert (exists s', y = MkSys s' (sy_queue x) (sy_submissions x) (sy_workers x) None /\
      SetStatus (ar_Spec r) (ar_Status r) (sy_state x) = (Val tt, s')) as (s' & -> & Hs).
    { destruct Hstep; simpl in *; simplify_eq. by eexists. }
    assert (open_results x ≡ₚ r :: open_results (MkSys s' (sy_queue x) (sy_submissions x) (sy_workers x) None))
      as Hor.
    { unfold open_results. cbn [sy_workers sy_queue sy_consumer]. rewrite Hc. cbn [option_list].
      rewrite app_nil_r, app_assoc. by rewrite Permutation_app_comm. }
    destruct (ok_results _ Hok r) as (Hk & Hsp & _ & Hsucc); [rewrite Hor; left|]. rewrite Hsucc in Hs.
    destruct (SetStatus_det _ _ _ _ _ (ok_wf _ Hok) Hk Hsp Hs ltac:(done)) as [_ (_ & _ & Hv & _)].
    split_and!; [|..].
    - cbn [sy_state]. rewrite Hv. cbn. by rewrite lookup_insert_eq.
    - unfold open_specs in Hnd. rewrite Hor in Hnd. cbn [map] in Hnd.
      rewrite <- Permutation_middle in Hnd. by apply list.NoDup_cons in Hnd as [Hnin _].
    - exact Hmark. }
  pose proof (proj1 (step_ok x y Hok Hstep)) as Hoky. clear - Hrest Hr Hoky analysis_ok.
  assert (at_rest (ar_Spec r) StatusSucceeded z) as [H _]; [|done].
  induction Hr as [|y y' z Hs _ IH]; [done|]. apply IH.
  - by eapply at_rest_step.
  - by eapply step_ok.
Qed.
End runs.
