(* ===== verification/Progress.v ===== *)
(** The system of [System] comes to rest: every run ends, nothing is left when
    it does, and a run in which the workers are quicker than the submission
    leaves a finished job marked as pending. *)
From S2P Require Import Prelude GoStrings GoUtf8 GoJson Common Http ArtifactStore State Queue.
From S2P Require Import QldbStore Server System.

(** ** A measure of the work left *)
Definition action_work (a : action) : nat := match a with ActSend _ => 8 | _ => 1 end.
Definition worker_work (w : worker) : nat :=
  match w with WIdle => 0 | WGot _ => 6 | WRunning _ => 5 | WPublish _ => 4 end.

Definition sys_work {SS} (x : Sys SS) : nat :=
  (total_of (total_of action_work) (sy_submissions x) + 7 * length (ch_buf (Jobs (sy_queue x)))
   + total_of worker_work (sy_workers x) + 2 * length (ch_buf (Results (sy_queue x)))
   + match sy_consumer x with Some _ => 1 | None => 0 end)%nat.

(** Nothing left to do: the submissions are over, the channels empty, the
    workers and the consumer waiting. *)
Record at_rest_sys {SS} (x : Sys SS) : Prop := {
  ar_submissions : Forall (.= []) (sy_submissions x);
  ar_jobs : ch_buf (Jobs (sy_queue x)) = [];
  ar_workers : Forall (.= WIdle) (sy_workers x);
  ar_results : ch_buf (Results (sy_queue x)) = [];
  ar_consumer : sy_consumer x = None
}.

(** The queue as the program uses it: of its capacity, and never closed. *)
Definition queue_open {SS} (x : Sys SS) : Prop :=
  (0 < ch_cap (Jobs (sy_queue x)))%nat /\ ch_closed (Jobs (sy_queue x)) = false /\
  (0 < ch_cap (Results (sy_queue x)))%nat /\ ch_closed (Results (sy_queue x)) = false.

Lemma send_inv {A} (a : A) ch ch' :
  send a ch = Done ch' ->
  ch_buf ch' = ch_buf ch ++ [a] /\ ch_cap ch' = ch_cap ch /\ ch_closed ch' = ch_closed ch.
Proof.
  unfold send. destruct (ch_closed ch) eqn:E; [done|]. destruct (_ <? _)%nat; [|done]. by intros [= <-].
Qed.

Lemma receive_inv {A} (a : A) ch ch' :
  receive ch = Done (Some a, ch') ->
  ch_buf ch = a :: ch_buf ch' /\ ch_cap ch' = ch_cap ch /\ ch_closed ch' = ch_closed ch.
Proof.
  unfold receive. destruct (ch_buf ch) as [|b buf]; [by destruct (ch_closed ch)|]. by intros [= -> <-].
Qed.

Section progress.
Context {SS : Type} `{!SessionState SS}.
Context (analysis : AnalyzeJob -> option AnalyzeResult -> Prop).
Implicit Types x y : Sys SS.

Ltac channel_facts :=
  repeat match goal with
  | H : send _ _ = Done _ |- _ => apply send_inv in H as (? & ? & ?)
  | H : receive _ = Done (Some _, _) |- _ => apply receive_inv in H as (? & ? & ?)
  end.

Ltac work_facts :=
  repeat match goal with
  | H : ?ws !! ?i = Some ?w |- context [total_of ?f (<[?i := ?w']> ?ws)] =>
      pose proof (total_of_insert f ws i w w' H); generalize dependent (total_of f (<[i := w']> ws)); intros
  end.

(** Every step does some of the work. *)
Lemma step_works x y : step analysis x y -> (sys_work y < sys_work x)%nat.
Proof.
  destruct 1; unfold Jobs, Results in *; channel_facts; unfold sys_work, Jobs, Results;
    cbn [sy_submissions sy_queue sy_workers sy_consumer Jobs Results Queue.jobs Queue.results
         with_jobs with_results] in *;
    repeat match goal with H : ch_buf _ = _ |- _ => rewrite H; clear H end;
    rewrite ?length_app; cbn [length];
    work_facts; cbn [total_of sum_list_with sum_list action_work worker_work] in *;
    unfold total_of in *; cbn [sum_list_with action_work worker_work] in *; lia.
Qed.

Lemma step_open x y : step analysis x y -> queue_open x -> queue_open y.
Proof.
  destruct 1; unfold Jobs, Results in *; channel_facts; unfold queue_open, Jobs, Results;
    cbn [sy_queue Jobs Results Queue.jobs Queue.results with_jobs with_results] in *;
    intros (? & ? & ? & ?); split_and!; congruence.
Qed.

Lemma reachable_works n x y : nsteps (step analysis) n x y -> (sys_work y + n <= sys_work x)%nat.
Proof.
  induction 1 as [x|n x y z H _ IH]; [lia|]. apply step_works in H. lia.
Qed.
End progress.

(** ** Nothing waits forever *)
Section drains.
Context {SS : Type} `{!SessionState SS, !SessionStateSpec SS}.
Context (analysis : AnalyzeJob -> option AnalyzeResult -> Prop).
Context (analysis_ok : forall job r, analysis job (Some r) ->
  ar_Spec r = aj_Spec job /\ ar_Status r = StatusSucceeded /\
  (storable_spec (aj_Spec job) -> storable_result r)).
Context (analysis_ends : forall job, exists o, analysis job o).
Implicit Types x y : Sys SS.

Lemma send_open {A} (a : A) ch :
  ch_closed ch = false -> (length (ch_buf ch) < ch_cap ch)%nat -> exists ch', send a ch = Done ch'.
Proof.
  intros Hc Hl. unfold send. rewrite Hc. rewrite (proj2 (Nat.ltb_lt _ _) Hl). by eexists.
Qed.

Lemma receive_some {A} (ch : Chan A) : ch_buf ch <> [] -> exists a ch', receive ch = Done (Some a, ch').
Proof. unfold receive. destruct (ch_buf ch); [done|]. by do 2 eexists. Qed.

Definition can_step x : Prop := exists y, step analysis x y.

(** The consumer is never stuck: what stops it is an empty channel. *)
Lemma consumer_moves x :
  sys_ok x -> can_step x \/ (sy_consumer x = None /\ ch_buf (Results (sy_queue x)) = []).
Proof.
  intros Hok. destruct x as [s q subs ws [r|]].
  - left. destruct (ok_results _ Hok r) as (Hk & Hs & _ & Hsucc).
    { unfold open_results. cbn. rewrite !elem_of_app. right. right. left. }
    destruct (SetStatus_ok _ s (ar_Spec r) (ar_Status r) (ok_wf _ Hok) Hk Hs) as (s' & H & _);
      [by rewrite Hsucc|]. eexists; eapply step_settle, H.
  - destruct (ch_buf (results q)) as [|r rs] eqn:E; [by right|left].
    destruct (receive_some (Results q)) as (r' & ch & Hr); [unfold Results; by rewrite E|].
    pose proof (receive_inv _ _ _ Hr) as (Hb & _).
    destruct (ok_results _ Hok r') as (Hk & _ & Hsr & _).
    { unfold open_results. cbn [sy_queue]. rewrite Hb. set_solver. }
    destruct (SetResult_ok _ s (ar_Spec r') r' (ok_wf _ Hok) Hk Hsr) as (s' & H & _); [done|].
    eexists; eapply step_consume; [exact Hr|exact H].
Qed.

(** A worker that is not waiting moves, or has its result taken from it. *)
Lemma worker_moves x w i :
  sys_ok x -> queue_open x -> ch_buf (Results (sy_queue x)) = [] ->
  sy_workers x !! i = Some w -> w = WIdle \/ can_step x.
Proof.
  intros Hok (_ & _ & Hcap & Hopen) Hempty Hi. destruct x as [s q subs ws c]. cbn in *.
  destruct w as [|job|job|r]; [by left|right..].
  - destruct (ok_jobs _ Hok job) as [Hk Hs].
    { apply elem_of_app. left. unfold open_jobs. cbn. rewrite !elem_of_app. right. right.
      apply list_elem_of_In, in_flat_map. exists (WGot job). split; [|by left].
      apply list_elem_of_In. by eapply list_elem_of_lookup_2. }
    destruct (SetStatus_ok _ s (aj_Spec job) StatusInProgress (ok_wf _ Hok) Hk Hs) as (s' & H & _); [done|].
    eexists; eapply step_start; [exact Hi|exact H].
  - destruct (analysis_ends job) as [[r|] Ha].
    + eexists; eapply step_succeed; [exact Hi|exact Ha].
    + eexists; eapply step_fail; [exact Hi|exact Ha].
  - destruct (send_open r (Results q)) as [ch Hsend]; [done|by rewrite Hempty|].
    eexists; eapply step_publish; [exact Hi|exact Hsend].
Qed.

(** An action waits only for room in the queue. *)
Lemma submission_moves x acts i :
  sys_ok x -> queue_open x -> ch_buf (Jobs (sy_queue x)) = [] ->
  sy_submissions x !! i = Some acts -> acts = [] \/ can_step x.
Proof.
  intros Hok (Hcap & Hopen & _) Hempty Hi. destruct x as [s q subs ws c]. cbn in *.
  assert (acts ∈ subs) as Hin by by eapply list_elem_of_lookup_2.
  destruct acts as [|[job|job|job] acts]; [by left|right..].
  - destruct (send_open job (Jobs q)) as [ch Hsend]; [done|by rewrite Hempty|].
    eexists; eapply step_send; [exact Hi|exact Hsend].
  - destruct (ok_jobs _ Hok job) as [Hk Hs].
    { rewrite !elem_of_app. right. left. apply list_elem_of_In, in_flat_map. eexists.
      split; [by apply list_elem_of_In|by left]. }
    destruct (SetStatus_ok _ s (aj_Spec job) StatusPending (ok_wf _ Hok) Hk Hs) as (s' & H & _); [done|].
    eexists; eapply step_pending; [exact Hi|exact H].
  - destruct (flat_map_insert adds _ _ _ Hi) as (rest & Hp & _).
    pose proof (ok_wf _ Hok) as Hwf. unfold to_add in Hwf. cbn [sy_submissions] in Hwf. rewrite Hp in Hwf.
    assert (job ∈ to_add (MkSys s q subs ws c)) as Hadd.
    { apply list_elem_of_In, in_flat_map. eexists. split; [by apply list_elem_of_In|by left]. }
    destruct (ok_jobs _ Hok job) as [Hk Hs]; [set_solver|]. destruct (ok_adds _ Hok job Hadd) as [Hsj Hnew].
    destruct (AddJob_ok _ s job Hwf Hk Hsj Hnew) as (s' & H & _).
    eexists; eapply step_add; [exact Hi|exact H].
Qed.

Lemma all_or_step {A} (l : list A) (P : A -> Prop) (Q : Prop) :
  (forall i a, l !! i = Some a -> P a \/ Q) -> Forall P l \/ Q.
Proof.
  induction l as [|a l IH]; intros H; [by left|].
  destruct (H 0%nat a eq_refl) as [Ha|]; [|by right].
  destruct IH as [Hl|]; [intros i; apply (H (S i))|left; by constructor|by right].
Qed.

Lemma rests_or_steps x :
  sys_ok x -> queue_open x -> sy_workers x <> [] -> at_rest_sys x \/ can_step x.
Proof.
  intros Hok Hopen Hne. destruct (consumer_moves x Hok) as [|[Hc Hr]]; [by right|].
  destruct (all_or_step (sy_workers x) (.= WIdle) (can_step x)) as [Hw|]; [|..|by right].
  { intros i w. by apply worker_moves. }
  destruct (ch_buf (Jobs (sy_queue x))) as [|job js] eqn:Hj.
  - destruct (all_or_step (sy_submissions x) (.= []) (can_step x)) as [Hs|]; [|by left|by right].
    intros i acts. by apply submission_moves.
  - right. destruct x as [s q subs ws c]. cbn in *.
    destruct (receive_some (Jobs q)) as (job' & ch & Hrec); [by rewrite Hj|].
    destruct ws as [|w ws]; [done|]. apply Forall_cons_1 in Hw as [-> _].
    eexists. by eapply (step_receive _ _ _ _ _ _ 0).
Qed.

Lemma rest_is_stuck x : at_rest_sys x -> stuck analysis x.
Proof.
  intros [Hs Hj Hw Hr Hc] y Hstep. destruct Hstep; cbn in *; simplify_eq;
    repeat match goal with
    | H : Forall _ ?l, H' : ?l !! _ = Some _ |- _ => apply (Forall_lookup_1 _ _ _ _ H) in H'
    | H : receive _ = Done (Some _, _) |- _ => apply receive_inv in H as (H & _ & _)
    end; congruence.
Qed.

Lemma run_open x y : reachable analysis x y -> queue_open x -> queue_open y.
Proof. induction 1 as [|x y z H _ IH]; [done|]. intros Hq. by apply IH, (step_open _ _ _ H). Qed.

Lemma step_workers x y : step analysis x y -> length (sy_workers y) = length (sy_workers x).
Proof. destruct 1; cbn; by rewrite ?length_insert. Qed.

Lemma finishes x :
  sys_ok x -> queue_open x -> sy_workers x <> [] -> exists y, reachable analysis x y /\ at_rest_sys y.
Proof.
  remember (sys_work x) as n eqn:Hn. revert x Hn.
  induction n as [n IH] using (well_founded_induction lt_wf). intros x -> Hok Hopen Hne.
  destruct (rests_or_steps x Hok Hopen Hne) as [Hrest|[y Hstep]].
  { exists x. split; [apply rtc_refl|done]. }
  destruct (IH (sys_work y) (step_works _ _ _ Hstep) y eq_refl) as (z & Hz & Hrest).
  - by eapply step_ok.
  - by eapply step_open.
  - intros Hnil. apply step_workers in Hstep. rewrite Hnil in Hstep. by destruct (sy_workers x).
  - exists z. split; [by eapply rtc_l|done].
Qed.

(** C4.  The system always comes to rest.  From any good state no run is longer
    than the work counted in it, so goroutines cannot exchange messages forever;
    from every state a run passes through, rest can be reached; and a state from
    which no goroutine can move is one in which nothing waits: there is no
    deadlock, however small the channels and however few the workers. *)
Theorem runs_come_to_rest x y n :
  sys_ok x -> queue_open x -> sy_workers x <> [] -> nsteps (step analysis) n x y ->
  (n <= sys_work x)%nat /\
  (exists z, reachable analysis y z /\ at_rest_sys z) /\
  (stuck analysis y <-> at_rest_sys y).
Proof.
  intros Hok Hopen Hne Hsteps.
  assert (reachable analysis x y) as Hr by (apply rtc_nsteps; by exists n).
  assert (sys_ok y) as Hoky by by eapply run_ok.
  assert (queue_open y) as Hopeny by by eapply run_open.
  assert (length (sy_workers y) = length (sy_workers x)) as Hlen.
  { clear - Hsteps. induction Hsteps as [|n x y z H _ IH]; [done|]. rewrite IH. by eapply step_workers. }
  assert (sy_workers y <> []) as Hney by (intros E; rewrite E in Hlen; by destruct (sy_workers x)).
  split_and!.
  - pose proof (reachable_works analysis n x y Hsteps). lia.
  - by apply finishes.
  - split; [|apply rest_is_stuck]. intros Hstuck.
    destruct (rests_or_steps y Hoky Hopeny Hney) as [|[z Hz]]; [done|]. by destruct (Hstuck z).
Qed.

End drains.

(** What is in the state stays there. *)
Lemma effect_grows v v' :
  effect v v' ->
  (forall js, is_Some (v_status v !! js) -> is_Some (v_status v' !! js)) /\
  (forall js, is_Some (v_result v !! js) -> is_Some (v_result v' !! js)) /\
  (forall sid job, job ∈ v_jobs v sid -> job ∈ v_jobs v' sid).
Proof.
  intros [(_ & Hj & Hs & Hr & _)|js0 st (_ & Hj & Hs & Hr & _) _|r (_ & Hj & Hs & Hr & _) _
    |job0 (_ & Hj & Hs & Hr & _)]; rewrite Hs, Hr; cbn; split_and!; try done;
    try (intros sid job; rewrite (Hj sid); cbn; try case_decide; set_solver);
    intros js [a Ha]; rewrite lookup_insert; case_decide; eauto.
Qed.

Section outcomes.
Context {SS : Type} `{!SessionState SS, !SessionStateSpec SS}.
Context (analysis : AnalyzeJob -> option AnalyzeResult -> Prop).
Context (analysis_ok : forall job r, analysis job (Some r) ->
  ar_Spec r = aj_Spec job /\ ar_Status r = StatusSucceeded /\
  (storable_spec (aj_Spec job) -> storable_result r)).
Implicit Types x y : Sys SS.

(** *** Everything asked for is done *)
Record recorded (x y : Sys SS) : Prop := {
  rec_adds : forall job, job ∈ to_add x ->
    job ∈ to_add y \/ job ∈ v_jobs (view (sy_state y)) (SessionID (aj_Spec job));
  rec_marks : forall js, js ∈ specs (to_mark x) ->
    js ∈ specs (to_mark y) \/ is_Some (v_status (view (sy_state y)) !! js);
  rec_results : forall js, js ∈ open_specs x ->
    js ∈ open_specs y \/ (exists job, aj_Spec job = js /\ analysis job None) \/
    is_Some (v_result (view (sy_state y)) !! js)
}.

(** The result the consumer holds is in the state already. *)
Definition consumed x : Prop :=
  forall r, sy_consumer x = Some r -> is_Some (v_result (view (sy_state x)) !! ar_Spec r).

Lemma recorded_refl x : recorded x x.
Proof. split; by left. Qed.

Lemma recorded_step x y z :
  sys_ok y -> step analysis y z -> recorded y z -> recorded x y -> recorded x z.
Proof.
  intros Hok Hstep [Ha Hm Hr] [Ha' Hm' Hr'].
  destruct (effect_grows _ _ (proj2 (step_ok _ analysis_ok _ _ Hok Hstep))) as (Gs & Gr & Gj). split.
  - intros job [H|H]%Ha'; [by apply Ha|right; by apply Gj].
  - intros js [H|H]%Hm'; [by apply Hm|right; by apply Gs].
  - intros js [H|[H|H]]%Hr'; [by apply Hr|by right; left|right; right; by apply Gr].
Qed.

Lemma step_consumed x y : sys_ok x -> step analysis x y -> consumed x -> consumed y.
Proof.
  intros Hok Hstep Hc r Hr.
  destruct (effect_grows _ _ (proj2 (step_ok _ analysis_ok _ _ Hok Hstep))) as (_ & Gr & _).
  destruct Hstep as [| | | | | | | |s q subs ws r' ch s' Hrec Hset|]; cbn in *; simplify_eq;
    try by apply Gr, Hc.
  apply receive_inv in Hrec as (Hb & _). destruct (ok_results _ Hok r) as (Hk & _ & Hsr & _).
  { unfold open_results. cbn [sy_queue]. rewrite Hb. set_solver. }
  destruct (SetResult_det _ _ _ _ (ok_wf _ Hok) Hk Hsr Hset) as [_ (_ & _ & _ & Hv & _)].
  rewrite Hv. cbn. rewrite lookup_insert_eq. by eexists.
Qed.

Lemma step_specs_recorded x y js :
  sys_ok x -> consumed x -> step analysis x y -> js ∈ open_specs x ->
  js ∈ open_specs y \/ (exists job, aj_Spec job = js /\ analysis job None) \/
  is_Some (v_result (view (sy_state y)) !! js).
Proof.
  intros Hok Hc Hstep. unfold open_specs.
  destruct (effect_grows _ _ (proj2 (step_ok _ analysis_ok _ _ Hok Hstep))) as (_ & Gr & _).
  destruct (step_viewed _ analysis_ok x y Hok Hstep) as [Hoj Hor|job Hoj Hor|job Hoj Hor
    |job Hoj Hor|job o Hoj Hor _ _ Ha _|r Hoj Hor|r Hoj Hor _ _ _ Hr];
    try (rewrite Hoj, Hor; by left).
  - rewrite Hoj, Hor. cbn [map]. destruct o as [r|]; cbn.
    + destruct (analysis_ok _ _ Ha) as (-> & _). set_solver.
    + rewrite elem_of_cons. intros [->|H]; [right; left; by eexists|by left].
  - rewrite Hoj, Hor. cbn [map]. rewrite elem_of_app, elem_of_cons.
    intros [H|[->|H]]; [left; set_solver|right; right; by apply Gr, Hc|left; set_solver].
Qed.

Lemma step_recorded x y : sys_ok x -> consumed x -> step analysis x y -> recorded x y.
Proof.
  intros Hok Hc Hstep. split; [| |intros js; by apply step_specs_recorded].
  - destruct (step_viewed _ analysis_ok x y Hok Hstep) as [_ _ _ Ha|job _ _ _ Ha|job _ _ _ Ha Hs|job _ _ _ Ha
      |job o _ _ _ Ha|r _ _ _ Ha|r _ _ _ Ha]; intros j; rewrite Ha; try by left.
    rewrite elem_of_cons. intros [->|H]; [right|by left].
    destruct (ok_jobs _ Hok job) as [Hk _]; [rewrite Ha; set_solver|].
    destruct (ok_adds _ Hok job) as [Hsj Hnew]; [rewrite Ha; set_solver|].
    pose proof (ok_wf _ Hok) as Hwf. rewrite Ha in Hwf.
    destruct (AddJob_det _ _ _ _ Hwf Hk Hsj Hnew Hs) as [_ (_ & Hj & _)].
    rewrite (Hj _). cbn. rewrite decide_True by done. by left.
  - unfold specs.
    destruct (step_viewed _ analysis_ok x y Hok Hstep) as [_ _ Hm|job _ _ Hm _ Hs|job _ _ Hm|job _ _ Hm
      |job o _ _ Hm|r _ _ Hm|r _ _ Hm]; intros js; rewrite Hm; try by left.
    cbn [map]. rewrite elem_of_cons. intros [->|H]; [right|by left].
    destruct (ok_jobs _ Hok job) as [Hk Hsp]; [rewrite Hm; set_solver|].
    destruct (SetStatus_det _ _ _ _ _ (ok_wf _ Hok) Hk Hsp Hs ltac:(done)) as [_ (_ & _ & Hv & _)].
    rewrite Hv. cbn. rewrite lookup_insert_eq. by eexists.
Qed.

Lemma run_recorded x y :
  sys_ok x -> consumed x -> reachable analysis x y -> recorded x y /\ sys_ok y.
Proof.
  intros Hok Hc Hr. cut (recorded x y /\ sys_ok y /\ consumed y); [tauto|].
  revert y Hr. apply (rtc_ind_r (fun y => recorded x y /\ sys_ok y /\ consumed y) x);
    [|intros y z _ Hstep (Hrec & Hoky & Hcy)].
  { split_and!; [apply recorded_refl|done..]. }
  split_and!.
  - eapply recorded_step; [exact Hoky|exact Hstep|by apply step_recorded|done].
  - by eapply step_ok.
  - by eapply step_consumed.
Qed.

(** At rest nothing is open any more. *)
Lemma rest_nothing_open x :
  at_rest_sys x -> open_specs x = [] /\ to_mark x = [] /\ to_add x = [].
Proof.
  intros [Hs Hj Hw Hr Hc]. unfold open_specs, open_jobs, open_results, to_mark, to_add.
  assert (forall {A} (f : list action -> list A), f [] = [] -> flat_map f (sy_submissions x) = []) as Hsub.
  { intros A f Hf. induction Hs as [|a l -> _ IH]; [done|]. cbn. by rewrite Hf. }
  assert (forall {A} (f : worker -> list A), f WIdle = [] -> flat_map f (sy_workers x) = []) as Hwk.
  { intros A f Hf. induction Hw as [|a l -> _ IH]; [done|]. cbn. by rewrite Hf. }
  rewrite !Hsub, !Hwk, Hj, Hr, Hc by done. done.
Qed.

(** C11.  When the system is at rest, every job of a submission is in the list
    of its session, every one has a status, and every job that was sent has a
    stored result unless an analysis of it failed. *)
Theorem rest_leaves_no_work_behind x y :
  sys_ok x -> sy_consumer x = None -> reachable analysis x y -> at_rest_sys y ->
  (forall job, job ∈ to_add x -> job ∈ v_jobs (view (sy_state y)) (SessionID (aj_Spec job))) /\
  (forall job, job ∈ to_mark x -> is_Some (v_status (view (sy_state y)) !! aj_Spec job)) /\
  (forall js, js ∈ open_specs x ->
     is_Some (v_result (view (sy_state y)) !! js) \/ exists job, aj_Spec job = js /\ analysis job None).
Proof.
  intros Hok Hc Hr Hrest.
  destruct (run_recorded x y Hok) as [[Ha Hm Hs] _]; [intros r E; congruence|done|].
  destruct (rest_nothing_open y Hrest) as (Hopen & Hmark & Hadd). split_and!.
  - intros job [H|H]%Ha; [|done]. rewrite Hadd in H. by apply not_elem_of_nil in H.
  - intros job H. destruct (Hm (aj_Spec job)) as [H'|H']; [|rewrite Hmark in H'; by apply not_elem_of_nil in H'|done].
    apply list_elem_of_In, in_map. by apply list_elem_of_In.
  - intros js [H|[H|H]]%Hs; [|by right|by left]. rewrite Hopen in H. by apply not_elem_of_nil in H.
Qed.

(** *** What becomes of a job whose analysis fails *)
Definition unfinished (js : JobSpec) x : Prop :=
  js ∉ map ar_Spec (open_results x) /\ v_result (view (sy_state x)) !! js = None /\
  (forall st, v_status (view (sy_state x)) !! js = Some st -> st = StatusPending \/ st = StatusInProgress).

Lemma unfinished_kept v v' js js0 st0 :
  v' ≡ view_set_status js0 st0 v -> (js0 = js -> st0 = StatusPending \/ st0 = StatusInProgress) ->
  v_result v !! js = None ->
  (forall st, v_status v !! js = Some st -> st = StatusPending \/ st = StatusInProgress) ->
  v_result v' !! js = None /\
  (forall st, v_status v' !! js = Some st -> st = StatusPending \/ st = StatusInProgress).
Proof.
  intros (_ & _ & Hs & Hr & _) Hst Hres H. rewrite Hs, Hr. split; [done|]. cbn. intros st.
  rewrite lookup_insert. case_decide; [intros [= <-]; by apply Hst|apply H].
Qed.

Lemma unfinished_step js x y :
  (forall job r, aj_Spec job = js -> ~ analysis job (Some r)) ->
  sys_ok x -> step analysis x y -> unfinished js x -> unfinished js y.
Proof.
  intros Hfail Hok Hstep (Hopen & Hres & Hst). unfold unfinished.
  destruct (step_viewed _ analysis_ok x y Hok Hstep) as [_ Hor _ _ Hs|job _ Hor Hm _ Hs|job _ Hor _ Ha Hs
    |job Hoj Hor _ _ Hin Hs|job o Hoj Hor _ _ Han Hs|r _ Hor _ _ Hin Hs|r _ Hor _ _ Hs _].
  - rewrite Hor in Hopen. by rewrite Hs.
  - rewrite Hor in Hopen. split; [done|].
    destruct (ok_jobs _ Hok job) as [Hk Hsp]; [rewrite Hm; set_solver|].
    destruct (SetStatus_det _ _ _ _ _ (ok_wf _ Hok) Hk Hsp Hs ltac:(done)) as [_ Hv].
    eapply unfinished_kept; [exact Hv|by left|done..].
  - rewrite Hor in Hopen. destruct (ok_jobs _ Hok job) as [Hk _]; [rewrite Ha; set_solver|].
    destruct (ok_adds _ Hok job) as [Hsj Hnew]; [rewrite Ha; set_solver|].
    pose proof (ok_wf _ Hok) as Hwf. rewrite Ha in Hwf.
    destruct (AddJob_det _ _ _ _ Hwf Hk Hsj Hnew Hs) as [_ (_ & _ & Hv & Hr & _)]. by rewrite Hv, Hr.
  - rewrite Hor in Hopen. split; [done|]. destruct (ok_jobs _ Hok job) as [Hk Hsp]; [set_solver|].
    destruct (SetStatus_det _ _ _ _ _ (ok_wf _ Hok) Hk Hsp Hs ltac:(done)) as [_ Hv].
    eapply unfinished_kept; [exact Hv|by right|done..].
  - rewrite Hs. split; [|done]. rewrite Hor. destruct o as [r|]; [|done].
    destruct (analysis_ok _ _ Han) as (Hsp & _). cbn. rewrite not_elem_of_cons. split; [|done].
    intros ->. by eapply (Hfail job r).
  - rewrite <- Hor. split; [done|]. destruct (ok_results _ Hok r Hin) as (Hk & _ & Hsr & _).
    destruct (SetResult_det _ _ _ _ (ok_wf _ Hok) Hk Hsr Hs) as [_ (_ & _ & Hv & Hr & _)]. rewrite Hv, Hr.
    split; [|done]. cbn. rewrite lookup_insert_ne; [done|]. intros E. apply Hopen. rewrite <- E.
    apply list_elem_of_In, in_map. by apply list_elem_of_In.
  - rewrite Hor in Hopen. cbn [map] in Hopen. rewrite not_elem_of_cons in Hopen. destruct Hopen as [Hne Hopen].
    split; [done|]. destruct (ok_results _ Hok r) as (Hk & Hsp & _ & Hsucc); [rewrite Hor; left|].
    rewrite Hsucc in Hs. destruct (SetStatus_det _ _ _ _ _ (ok_wf _ Hok) Hk Hsp Hs ltac:(done)) as [_ Hv].
    eapply unfinished_kept; [exact Hv|congruence|done..].
Qed.

(** C13.  A job whose analysis fails is never finished: whatever the other
    goroutines do it keeps saying pending or in progress, and has no result, also
    when the system has come to rest. *)
Theorem failed_job_never_finishes js x y :
  sys_ok x -> (forall job r, aj_Spec job = js -> ~ analysis job (Some r)) ->
  js ∉ map ar_Spec (open_results x) ->
  v_result (view (sy_state x)) !! js = None -> v_status (view (sy_state x)) !! js = None ->
  reachable analysis x y ->
  v_result (view (sy_state y)) !! js = None /\
  (forall st, v_status (view (sy_state y)) !! js = Some st -> st = StatusPending \/ st = StatusInProgress).
Proof.
  intros Hok Hfail Hopen Hres Hst Hr.
  assert (unfinished js x) as Hun by (split_and!; [done|done|by rewrite Hst]).
  clear Hopen Hres Hst. cut (unfinished js y); [by intros (_ & ? & ?)|].
  induction Hr as [|x y z Hstep _ IH]; [done|].
  apply IH; [by eapply step_ok|by eapply unfinished_step].
Qed.
End outcomes.

(** ** The order of the calls in [startAnalyses] *)
Section race.
Context {SS : Type} `{!SessionState SS, !SessionStateSpec SS}.
Context (analysis : AnalyzeJob -> option AnalyzeResult -> Prop).

(** One repository submitted to an idle system with one worker. *)
Definition one_submission (s : SS) (loc : ArtifactLocation) (sid : Z) (lang : QueryLanguage)
    (nwo : NameWithOwner) : Sys SS :=
  MkSys s (NewQueueSingle 1) [submission [nwo] loc sid lang] [WIdle] None.

(** C5.  [startAnalyses] sends the job before it marks it as pending, and the
    worker does not wait for the mark.  If the worker and the consumer are done
    before the mark is made, the mark overwrites the status they left: the
    system comes to rest with the result stored and the job pending for good. *)
Theorem late_mark_hides_a_finished_job s loc sid lang nwo r :
  let job := MkJob (MkJobSpec sid nwo) loc lang in
  wf 1 s -> v_known (view s) sid -> storable_job job -> storable_spec (aj_Spec job) ->
  aj_Spec job ∉ map aj_Spec (v_jobs (view s) sid) ->
  analysis job (Some r) -> ar_Spec r = aj_Spec job -> ar_Status r = StatusSucceeded -> storable_result r ->
  exists y, reachable analysis (one_submission s loc sid lang nwo) y /\ at_rest_sys y /\
    v_result (view (sy_state y)) !! aj_Spec job = Some r /\
    v_status (view (sy_state y)) !! aj_Spec job = Some StatusPending /\
    job ∈ v_jobs (view (sy_state y)) sid.
Proof.
  intros job Hwf Hk Hsj Hsp Hnew Ha Hspec Hsucc Hsr.
  change sid with (SessionID (aj_Spec job)) in Hk, Hnew |- *.
  destruct (SetStatus_ok _ s _ StatusInProgress Hwf Hk Hsp) as (s1 & H1 & Hwf1 & V1); [done|].
  assert (v_known (view s1) (SessionID (aj_Spec job))) as Hk1 by by apply V1.
  destruct (SetResult_ok _ s1 (aj_Spec job) r Hwf1 Hk1 Hsr Hspec) as (s2 & H2 & Hwf2 & V2).
  rewrite V1 in V2. assert (v_known (view s2) (SessionID (aj_Spec job))) as Hk2 by by apply V2.
  destruct (SetStatus_ok _ s2 _ (ar_Status r) Hwf2 Hk2 Hsp) as (s3 & H3 & Hwf3 & V3); [by rewrite Hsucc|].
  rewrite V2 in V3. assert (v_known (view s3) (SessionID (aj_Spec job))) as Hk3 by by apply V3.
  destruct (SetStatus_ok _ s3 _ StatusPending Hwf3 Hk3 Hsp) as (s4 & H4 & Hwf4 & V4); [done|].
  rewrite V3 in V4. assert (v_known (view s4) (SessionID (aj_Spec job))) as Hk4 by by apply V4.
  destruct (AddJob_ok _ s4 job Hwf4 Hk4 Hsj) as (s5 & H5 & Hwf5 & V5).
  { destruct V4 as (_ & -> & _). done. }
  rewrite V4 in V5. eexists. split.
  - do 9 (eapply rtc_l; [first
      [ by eapply (step_receive _ _ _ _ _ _ 0) | by eapply (step_start _ _ _ _ _ _ 0)
      | by eapply (step_succeed _ _ _ _ _ _ 0) | by eapply (step_publish _ _ _ _ _ _ 0)
      | by eapply step_consume; [|rewrite Hspec] | by eapply step_settle; rewrite Hspec
      | by eapply (step_send _ _ _ _ _ _ 0)
      | by eapply (step_pending _ _ _ _ _ _ 0) | by eapply (step_add _ _ _ _ _ _ 0) ]|]).
    apply rtc_refl.
  - destruct V5 as (_ & Hj & Hs & Hr & _). cbn [sy_state]. rewrite Hs, Hr. cbn. split_and!.
    + split; cbn; by repeat constructor.
    + by rewrite lookup_insert_eq.
    + by rewrite lookup_insert_eq.
    + rewrite (Hj _). cbn. rewrite decide_True by done. by left.
Qed.
End race.
