(* ===== verification/Examples.v ===== *)
(** One small system on which the properties of the server are instantiated:
    a fresh PostgreSQL state, the in-memory artifact store, and databases in a
    directory with one repository in it. *)
From S2P Require Import Prelude GoStrings GoUtf8 GoJson GoCodec GoBase64 GoPath GoOs Archive Common.
From S2P Require Import Messages Http ArtifactStore State StateLocal StatePostgres QldbStore.
From S2P Require Import QldbLocal Hepc Server ServerSpec ServerProps Agent.

#[local] Existing Instance text_service.
#[local] Existing Instance text_service_laws.

Definition World0 : Type := World PGState Memory.InMemoryArtifactStore FilesystemCodeQLDatabaseStore.

Definition fs0 : FS := MkFS ∅ {["/dbs/o/r/o_r_db.zip" := "zip"]} (fun _ => None) 0.

Definition w0 : World0 :=
  MkWorld NewPGState Memory.NewInMemoryArtifactStore
    (Filesystem.NewLocalFilesystemCodeQLDatabaseStore "/dbs" fs0) [] fresh_writer 0.

Definition clock0 : nat -> string := fun _ => "2024-01-01T00:00:00Z".

Definition q : string := String quote_c "".
Definition msg0 (repos : list string) : SubmitMsg := MkSubmitMsg "main" "cpp" "H4sI" repos.

(** The body a client sends for a message. *)
Definition body0 (repos : list string) : string :=
  "{" +:+ q +:+ "action_repo_ref" +:+ q +:+ ":" +:+ q +:+ "main" +:+ q +:+ "," +:+
  q +:+ "language" +:+ q +:+ ":" +:+ q +:+ "cpp" +:+ q +:+ "," +:+
  q +:+ "query_pack" +:+ q +:+ ":" +:+ q +:+ "H4sI" +:+ q +:+ "," +:+
  q +:+ "repositories" +:+ q +:+ ":" +:+ jprint (JArr (map JStr repos)) +:+ "}".

Definition request0 (repos : list string) : Request := MkRequest (BodyData (body0 repos)) ∅.

Definition tgz0 : string := String (byte_of 31) (String (byte_of 139) (String (byte_of 8) "")).
Definition loc0 : ArtifactLocation := MkLoc "1-packs" AF_BUCKETNAME_PACKS.
Definition arts0 : Memory.InMemoryArtifactStore :=
  Memory.MkStore {["1-packs" := tgz0]} ∅.
Definition s1 : PGState := Postgres.with_seq 1 NewPGState.
Definition o_r : NameWithOwner := MkNWO "o" "r".
Definition a_b : NameWithOwner := MkNWO "a" "b".

Lemma readable0 repos :
  tryParseSubmitMsg (body0 repos) = (msg0 repos, None) ->
  readable (request0 repos) w0 1 s1 (msg0 repos) tgz0 loc0 arts0.
Proof. intros H. split; [reflexivity|by exists (body0 repos)|reflexivity|reflexivity|reflexivity]. Qed.

Lemma storable0 lang nwo :
  text_ok (Owner nwo) = true -> text_ok (Repo nwo) = true -> valid_utf8 lang = true ->
  storable_spec (St := PGState) (MkJobSpec 1 nwo) /\
  storable_job (St := PGState) (job_of loc0 1 lang nwo).
Proof.
  intros Ho Hr Hl. split; [by split|].
  split; [by split|]. split; [|by eexists]. unfold text_ok in *.
  apply andb_true_iff in Ho as [Ho _], Hr as [Hr _].
  repeat split; simpl; unfold min_int, max_int; try done; lia.
Qed.

Lemma submission_accepted_witness :
  exists s', MRVARequestCommon clock0 (request0 ["o/r"; "a/b"]) w0 =
    (Val tt, MkWorld s' arts0 (Filesystem.FindAvailableDBs [o_r; a_b] (w_db w0)).2
       [job_of loc0 1 "cpp" o_r]
       (respond "application/json" (jprint (SubmitResponse_json (submit_response clock0 1 "cpp" [a_b] 0)))
          fresh_writer) 2).
Proof.
  destruct (submission_accepted clock0 0 (request0 ["o/r"; "a/b"]) w0 1 s1 (msg0 ["o/r"; "a/b"]) tgz0 loc0
    arts0 [o_r; a_b] [a_b] [o_r] (Filesystem.FindAvailableDBs [o_r; a_b] (w_db w0)).2) as (s' & H & _).
  - apply NewPGState_wf. done.
  - done.
  - apply readable0. reflexivity.
  - reflexivity.
  - by repeat constructor.
  - apply (bool_decide_unpack _). reflexivity.
  - vm_compute. reflexivity.
  - intros nwo ->%list_elem_of_singleton. by apply storable0.
  - split; [|by eexists]. repeat split; simpl; unfold min_int, max_int; try done; try lia.
    by repeat constructor.
  - exists s'. exact H.
Defined.

(** ** Requests that are not well formed *)
Lemma malformed_entry_still_runs_witness :
  exists w', MRVARequestCommon clock0 (request0 ["o/r/x"]) w0 = (Val tt, w') /\
    wr_status (w_resp w') = Some StatusBadRequest /\ w_jobs w' = [job_of loc0 1 "cpp" o_r].
Proof.
  destruct (malformed_entry_still_runs clock0 0 (request0 ["o/r/x"]) w0 1 s1 (msg0 ["o/r/x"]) tgz0 loc0
    arts0 [o_r] [] [o_r] (Filesystem.FindAvailableDBs [o_r] (w_db w0)).2 "o/r/x") as (w' & H & Hs & Hj & _).
  - apply NewPGState_wf. done.
  - done.
  - done.
  - apply readable0. reflexivity.
  - constructor; [by exists ["x"]|constructor].
  - left.
  - reflexivity.
  - vm_compute. reflexivity.
  - apply NoDup_singleton.
  - intros nwo ->%list_elem_of_singleton. by apply storable0.
  - split; [|by eexists]. repeat split; simpl; unfold min_int, max_int; try done; try lia.
  - exists w'. split; [exact H|]. split; [exact Hs|exact Hj].
Defined.

Lemma submission_refused_witness :
  exists w', MRVARequestCommon clock0 (MkRequest BodyNil ∅) w0 = (Val tt, w') /\
    w_state w' = s1 /\ wr_status (w_resp w') = Some StatusNoContent /\ wr_body (w_resp w') = [].
Proof.
  destruct (submission_refused clock0 (MkRequest BodyNil ∅) w0 1 s1 StatusNoContent (EText "missing request body"))
    as (w' & H & Hs & _ & _ & Hst & Hb); [reflexivity..|].
  exists w'. split; [exact H|]. split; [exact Hs|]. split; [exact Hst|exact Hb].
Defined.

Lemma submission_panics_witness :
  exists p, MRVARequestCommon clock0 (MkRequest (BodyFails (EText "unexpected EOF")) ∅) w0
    = (Panic p, with_state s1 w0).
Proof.
  destruct (submission_panics clock0 (MkRequest (BodyFails (EText "unexpected EOF")) ∅) w0 1 s1) as [H _];
    [reflexivity|]. by apply (H (EText "unexpected EOF")).
Defined.

(** ** A session with one finished job *)
Definition js1 : JobSpec := MkJobSpec 1 o_r.
Definition ji1 : JobInfo := info_of clock0 "cpp" [] 0.
Definition loc1 : ArtifactLocation := MkLoc (result_key js1) AF_BUCKETNAME_RESULTS.
Definition ar1 : AnalyzeResult := MkResult js1 StatusSucceeded 3 loc1 "/src" "sha".

(** The state left by a submission, a worker and the results consumer. *)
Definition finished_state : PGState :=
  (Postgres.SetStatus js1 StatusSucceeded (Postgres.SetResult js1 ar1 (Postgres.SetJobInfo js1 ji1
    (Postgres.AddJob (job_of loc0 1 "cpp" o_r) s1).2).2).2).2.
Definition finished_arts : Memory.InMemoryArtifactStore := (Memory.SaveResult js1 "zip bytes" arts0).2.
Definition w1 : World0 := MkWorld finished_state finished_arts (w_db w0) [] fresh_writer 0.

Lemma s1_wf n : Z.of_nat n <= max_int4 -> pg_wf n s1.
Proof.
  intros Hn. destruct (pg_NextID n NewPGState) as (id & s' & H & Hwf & _);
    [by apply NewPGState_wf|done|].
  change (Postgres.NextID NewPGState) with (Val 1 : outcome Z, s1) in H. congruence.
Qed.

Lemma js1_storable : storable_spec (St := PGState) js1.
Proof. done. Qed.

Lemma ar1_storable : storable_result (St := PGState) ar1.
Proof. split; [done|]. split; [|by eexists]. repeat split; done. Qed.

Lemma ji1_storable : storable_info (St := PGState) ji1.
Proof. split; [|by eexists]. repeat split; try done; by repeat constructor. Qed.

Lemma finished_view n :
  Z.of_nat n < max_int4 ->
  pg_wf n finished_state /\
  pg_view finished_state ≡ view_set_status js1 StatusSucceeded (view_set_result js1 ar1
    (view_set_info js1 ji1 (view_add_job (job_of loc0 1 "cpp" o_r) (pg_view s1)))).
Proof.
  intros Hn. pose proof (s1_wf (S n) ltac:(lia)) as Hwf0.
  destruct (storable0 "cpp" o_r eq_refl eq_refl eq_refl) as [_ Hj].
  destruct (pg_AddJob n s1 (job_of loc0 1 "cpp" o_r) Hwf0) as (t1 & H1 & Hwf1 & V1); [done|done| |].
  { vm_compute. apply not_elem_of_nil. }
  destruct (pg_SetJobInfo n t1 js1 ji1 Hwf1) as (t2 & H2 & Hwf2 & V2); [|done|apply ji1_storable|].
  { by apply V1. }
  rewrite V1 in V2.
  destruct (pg_SetResult n t2 js1 ar1 Hwf2) as (t3 & H3 & Hwf3 & V3); [by apply V2|apply ar1_storable|done|].
  rewrite V2 in V3.
  destruct (pg_SetStatus n t3 js1 StatusSucceeded Hwf3) as (t4 & H4 & Hwf4 & V4); [by apply V3|done|done|].
  rewrite V3 in V4. unfold finished_state. rewrite H1. cbn [snd]. rewrite H2. cbn [snd].
  rewrite H3. cbn [snd]. rewrite H4. done.
Qed.

Lemma finished_job : v_jobs (pg_view finished_state) 1 = [job_of loc0 1 "cpp" o_r].
Proof. vm_compute. reflexivity. Qed.

Lemma finished_lookups :
  v_status (pg_view finished_state) !! js1 = Some StatusSucceeded /\
  v_result (pg_view finished_state) !! js1 = Some ar1 /\ v_info (pg_view finished_state) !! js1 = Some ji1.
Proof.
  destruct (finished_view 0 eq_refl) as [_ (_ & _ & Hs & Hr & Hi)]. rewrite Hs, Hr, Hi.
  cbn [v_status v_result v_info view_set_status view_set_result view_set_info]. by rewrite !lookup_insert_eq.
Qed.

Lemma status_report_witness :
  exists s' repo,
    MRVAStatusCommon "o" "r" "1" w1 =
      (Val tt, with_resp (respond "application/json"
         (jprint (StatusResponse_json (status_response 1 ji1 (view finished_state) [repo]))) fresh_writer)
         (with_state s' w1)) /\
    sc_ResultCount repo = 3 /\ sc_ArtifactSizeBytes repo = 9.
Proof.
  destruct finished_lookups as (Hs & Hr & Hi).
  destruct (status_report 0 w1 "1" "o" "r" 1 ji1) as (s' & jobs & repos & H & _ & _ & _ & Hp & Hrep).
  - reflexivity.
  - change (view (w_state w1)) with (pg_view finished_state). rewrite finished_job. by apply finished_view.
  - done.
  - change (view (w_state w1)) with (pg_view finished_state). by rewrite finished_job.
  - change (view (w_state w1)) with (pg_view finished_state). rewrite finished_job.
    constructor; [|constructor]. split_and!; [done|exact Hi|]. split; [done|].
    exists StatusSucceeded. split; [exact Hs|]. intros _. exists ar1, 9. by split.
  - change (view (w_state w1)) with (pg_view finished_state) in *. rewrite finished_job in Hp.
    symmetry in Hp. apply Permutation_singleton_l in Hp. subst jobs. inversion Hrep as [|? repo ? l Hone Hnil]; subst.
    inversion Hnil; subst. exists s', repo. split; [exact H|].
    destruct Hone as (st & Hst & _ & _ & _ & _ & _ & Hsucc).
    pose proof (eq_trans (eq_sym Hst) Hs) as E. injection E as ->. destruct (Hsucc eq_refl) as (ar & Har & Hc & Hsize).
    pose proof (eq_trans (eq_sym Har) Hr) as E. injection E as ->. split; [exact Hc|].
    change (Val (9, None) = Val (sc_ArtifactSizeBytes repo, None) :> outcome (gores Z)) in Hsize.
    congruence.
Defined.

Lemma status_of_no_jobs_witness :
  exists e, MRVAStatusCommon "o" "r" "one" w1 =
    (Val tt, with_resp (http_error (CErr e) StatusBadRequest (w_resp w1)) w1).
Proof.
  eexists. apply (proj1 (status_of_no_jobs w1 "one" "o" "r") 0). vm_compute. reflexivity.
Defined.

(** ** Downloads *)
Definition request_token : Request :=
  MkRequest BodyNil {["encoded_job_spec" := (EncodeJobSpec js1).1]}.

Lemma download_url_serves_result_witness :
  (exists doc, MRVADownloadArtifactCommon (fun _ => "") 1 js1 w1 =
     (Val tt, with_resp (respond "application/json" (jprint (DownloadResponse_json doc)) fresh_writer) w1)) /\
  MRVADownloadServe request_token w1 =
    (Val tt, with_resp (respond "application/octet-stream" "zip bytes" fresh_writer) w1).
Proof.
  destruct finished_lookups as (Hs & Hr & Hi).
  destruct (download_url_serves_result (fun _ => "") 0 w1 w1 1 js1 ar1 "zip bytes" request_token) as [H1 H2].
  - by apply finished_view.
  - done.
  - repeat split; done.
  - exact Hs.
  - exact Hr.
  - vm_compute. reflexivity.
  - reflexivity.
  - reflexivity.
  - unfold var. cbn [request_token req_vars]. by rewrite lookup_singleton_eq.
  - split; [eexists; exact H1|exact H2].
Defined.

Lemma download_of_unfinished_witness :
  exists e, MRVADownloadArtifactCommon (fun _ => "") 1 (MkJobSpec 2 a_b) w1 =
    (Val tt, with_resp (http_error (CErr e) StatusUnprocessableEntity fresh_writer) w1).
Proof.
  destruct (download_of_unfinished (fun _ => "") 0 w1 1 (MkJobSpec 2 a_b)) as [_ H].
  - by apply finished_view.
  - done.
  - destruct (H ltac:(vm_compute; reflexivity)) as [e He]. exists e. exact He.
Defined.

Lemma download_by_reported_id_witness :
  let r := MkRequest BodyNil (<["codeql_variant_analysis_id" := "1"]> {["repository_id" := "1"]}) in
  MRVADownloadArtifactID (fun _ => "") r w1 = MRVADownloadArtifactCommon (fun _ => "") 1 js1 w1.
Proof.
  intros r. apply (download_by_reported_id (fun _ => "") 0 w1 r 1 o_r 1).
  - by apply finished_view.
  - vm_compute. reflexivity.
  - vm_compute. reflexivity.
  - vm_compute. reflexivity.
Defined.

(** ** An analysis *)
Definition AgentWorld0 : Type := AgentWorld PGState Memory.InMemoryArtifactStore FilesystemCodeQLDatabaseStore.
Definition aw0 : AgentWorld0 :=
  MkAgent s1 arts0 (w_db w0) (MkFS {["/tmp"]} ∅ (fun _ => None) 0).
Definition run0 (db : string) (lang : QueryLanguage) (pack dir : string) : GM FS (gores RunQueryResult) :=
  gret (MkRunQueryResult 3 "sha" "/src" (MkBqrs dir []) "", None).
Definition zip0 (r : RunQueryResult) : GM FS (gores string) := gret ("zip bytes", None).
Definition tgz_items (bytes : string) : error + list TarItem := inr [TarEntry "qlpack.yml" false "name: q" None].
Definition job1 : AnalyzeJob := job_of loc0 1 "cpp" o_r.

Lemma analysis_outcome_witness :
  exists r w', RunAnalysisJob run0 zip0 tgz_items "/tmp" "id" job1 aw0 = (Val (r, None), w') /\
    ar_Spec r = js1 /\ ar_Status r = StatusSucceeded /\
    (exists archive, GetArtifact (ar_ResultLocation r) (ag_arts w') = (Val (archive, None), ag_arts w')) /\
    "/tmp/id" ∉ fs_dirs (ag_fs w') /\ fs_files (ag_fs w') !! "/tmp/id/pack/qlpack.yml" = None.
Proof.
  assert (exists r w', RunAnalysisJob run0 zip0 tgz_items "/tmp" "id" job1 aw0 = (Val (r, None), w') /\
    fs_fault (ag_fs w') = fun _ => None) as (r & w' & H & Hf).
  { do 2 eexists. split; [vm_compute; reflexivity|reflexivity]. }
  exists r, w'. split; [exact H|].
  destruct (analysis_outcome run0 zip0 tgz_items "/tmp" "id" job1 aw0 r None w' H)
    as [[(e & Hn & _)|(_ & H1 & H2 & H3)] Hgone]; [discriminate Hn|].
  specialize (Hgone ltac:(intros n; by rewrite Hf)).
  change (forall p, under (Join "/tmp" "id") p = true ->
    fs_files (ag_fs w') !! p = None /\ p ∉ fs_dirs (ag_fs w')) in Hgone.
  split; [exact H1|]. split; [exact H2|]. split; [exact H3|]. split.
  - apply (Hgone "/tmp/id"). reflexivity.
  - apply (Hgone "/tmp/id/pack/qlpack.yml"). reflexivity.
Defined.

Lemma published_results_succeed_witness :
  exists published w', RunWorker run0 zip0 tgz_items "/tmp" [EvJob job1 "id"; EvClosed] aw0 = (Val published, w') /\
    length published = 1%nat /\ Forall (fun r => ar_Status r = StatusSucceeded) published.
Proof.
  assert (exists r w', RunWorker run0 zip0 tgz_items "/tmp" [EvJob job1 "id"; EvClosed] aw0 = (Val [r], w'))
    as (r & w' & H) by (do 2 eexists; vm_compute; reflexivity).
  exists [r], w'. split; [exact H|]. split; [reflexivity|].
  pose proof (published_results_succeed run0 zip0 tgz_items "/tmp" [EvJob job1 "id"; EvClosed] aw0 [r] w' H) as Hall.
  eapply Forall_impl; [|exact Hall]. by intros ? [? _].
Defined.
