(* ===== verification/EndToEndExamples.v ===== *)
(** One session from its submission to its archive, in the system of [Examples]:
    a fresh PostgreSQL state, the in-memory artifact store, one repository with a
    database and one without. *)
From S2P Require Import Prelude GoStrings GoUtf8 GoJson GoCodec GoBase64 GoPath GoOs Archive Common.
From S2P Require Import Messages Http Queue ArtifactStore State StateLocal StatePostgres QldbStore.
From S2P Require Import QldbLocal Hepc Server ServerSpec ServerProps Agent EndToEnd Examples.

#[local] Existing Instance text_service.
#[local] Existing Instance text_service_laws.

(** The world after the submission, what the worker publishes, and its world. *)
Definition submitted : World0 := (MRVARequestCommon clock0 (request0 ["o/r"; "a/b"]) w0).2.

Definition worked : outcome (list AnalyzeResult) * AgentWorld0 :=
  RunWorker run0 zip0 tgz_items "/tmp" [EvJob job1 "id"]
    (agent_world (w_db w0) (MkFS {["/tmp"]} ∅ (fun _ => None) 0) submitted).

Definition published0 : list AnalyzeResult := [ar1].

Lemma worked_ok : worked = (Val published0, worked.2).
Proof. assert (worked.1 = Val published0) by (vm_compute; reflexivity). by destruct worked; simplify_eq/=. Qed.

Lemma session_runs_through_witness :
  exists s2, let w2 := with_state s2 (server_world submitted worked.2) in
  ConsumeResults 1 (MkChan 10 published0 false) (server_world submitted worked.2) = (Val (MkChan 10 [] false), w2) /\
  exists s3 repo response,
    MRVAStatusCommon "o" "r" "1" w2 =
      (Val tt, with_resp (respond "application/json" (jprint (StatusResponse_json response)) fresh_writer)
         (with_state s3 w2)) /\
    sr_Status response = "succeeded" /\ sr_ScannedRepositories response = [repo] /\
    sc_ResultCount repo = 3 /\ sc_ArtifactSizeBytes repo = 9 /\
    MRVADownloadServe request_token w2 =
      (Val tt, with_resp (respond "application/octet-stream" "zip bytes" fresh_writer) w2).
Proof.
  destruct (session_runs_through run0 zip0 tgz_items clock0 0 (request0 ["o/r"; "a/b"]) w0 1 s1
    (msg0 ["o/r"; "a/b"]) tgz0 loc0 arts0 [o_r; a_b] [a_b] [o_r]
    (Filesystem.FindAvailableDBs [o_r; a_b] (w_db w0)).2) as (v1 & Hrun & Hjobs & Hrest).
  - by apply NewPGState_wf.
  - done.
  - done.
  - apply readable0. reflexivity.
  - reflexivity.
  - by repeat constructor.
  - apply (bool_decide_unpack _). reflexivity.
  - vm_compute. reflexivity.
  - done.
  - by repeat constructor.
  - intros nwo ->%list_elem_of_singleton. destruct (storable0 "cpp" o_r eq_refl eq_refl eq_refl).
    split_and!; [done|done|]. repeat split; done.
  - split; [|by eexists]. repeat split; simpl; unfold min_int, max_int; try done; try lia.
    by repeat constructor.
  - assert (v1 = submitted) as -> by by apply (f_equal snd) in Hrun.
    destruct (Hrest "/tmp" ["id"] (w_db w0) (MkFS {["/tmp"]} ∅ (fun _ => None) 0) 10%nat published0 worked.2)
      as (s2 & Hcons & Hstatus).
    + done.
    + rewrite Hjobs. exact worked_ok.
    + done.
    + constructor; [apply ar1_storable|constructor].
    + intros ar ->%list_elem_of_singleton. exists 9. vm_compute. reflexivity.
    + exists s2. cbn zeta. split; [exact Hcons|].
      destruct (Hstatus "o" "r" "1" eq_refl) as (s3 & jobs' & scanned & Hrep & Hok & Hp & Hall).
      symmetry in Hp. apply Permutation_singleton_l in Hp. subst jobs'.
      inversion Hall as [|? repo ? l Hone Hnil]; subst. inversion Hnil; subst.
      exists s3, repo. eexists. split; [exact Hrep|]. split; [exact Hok|]. split; [reflexivity|].
      destruct Hone as (ar & archive & Hin & _ & _ & _ & Hcount & Hsize & Hget & Hserve).
      apply list_elem_of_singleton in Hin. subst ar.
      assert (archive = "zip bytes") as ->.
      { apply (f_equal fst) in Hget. revert Hget. cbn [w_arts with_state server_world fst].
        vm_compute. by intros [= ->]. }
      split; [exact Hcount|]. split; [exact Hsize|]. apply Hserve. reflexivity.
Defined.
