(* ===== verification/SystemExamples.v ===== *)
(** Concrete runs of the system of [System] over the in-memory state: one
    submission, one worker, an analysis that succeeds or one that fails. *)
From S2P Require Import Prelude GoStrings GoUtf8 GoJson GoCodec Common Http ArtifactStore State.
From S2P Require Import StateLocal Queue QldbStore Server System Progress.

Definition ls1 : LocalState := Local.NewLocalState 1.
Definition job1 : AnalyzeJob := MkJob (MkJobSpec 1 (MkNWO "o" "r")) (MkLoc "1-packs" "mrvabucket") "cpp".
Definition result1 : AnalyzeResult :=
  MkResult (aj_Spec job1) StatusSucceeded 3 (MkLoc "1-results-{o r}" "mrvabucket") "/src" "sha".

Definition succeeds (job : AnalyzeJob) (o : option AnalyzeResult) : Prop :=
  o = Some (MkResult (aj_Spec job) StatusSucceeded 3 (MkLoc "1-results-{o r}" "mrvabucket") "/src" "sha").
Definition fails (job : AnalyzeJob) (o : option AnalyzeResult) : Prop := o = None.

Lemma succeeds_ok job r :
  succeeds job (Some r) -> ar_Spec r = aj_Spec job /\ ar_Status r = StatusSucceeded /\
  (storable_spec (St := LocalState) (aj_Spec job) -> storable_result (St := LocalState) r).
Proof. by intros [= ->]. Qed.

Lemma fails_ok job r :
  fails job (Some r) -> ar_Spec r = aj_Spec job /\ ar_Status r = StatusSucceeded /\
  (storable_spec (St := LocalState) (aj_Spec job) -> storable_result (St := LocalState) r).
Proof. done. Qed.

(** One submission to a fresh state, and one result in the hands of the consumer. *)
Definition x1 : Sys LocalState := one_submission ls1 (MkLoc "1-packs" "mrvabucket") 1 "cpp" (MkNWO "o" "r").
Definition y1 : Sys LocalState := MkSys ls1 (NewQueueSingle 1) [] [WIdle] (Some result1).

Lemma x1_ok : sys_ok x1.
Proof.
  split.
  - apply (NewLocalState_wf 1). done.
  - by split; apply Nat.le_0_l.
  - intros job H. assert (job = job1) as ->.
    { change (job ∈ [job1; job1; job1]) in H. rewrite !elem_of_cons in H. destruct H as [|[|[|H%not_elem_of_nil]]]; done. }
    split; [by eexists|done].
  - intros r H. by apply not_elem_of_nil in H.
  - intros job ->%list_elem_of_singleton. split; [done|]. apply not_elem_of_nil.
  - apply NoDup_singleton.
Qed.

Lemma y1_ok : sys_ok y1.
Proof.
  split.
  - apply (NewLocalState_wf 1). done.
  - by split; apply Nat.le_0_l.
  - intros job H. by apply not_elem_of_nil in H.
  - intros r ->%list_elem_of_singleton. by split; [eexists|].
  - intros job H. by apply not_elem_of_nil in H.
  - apply NoDup_nil_2.
Qed.

Lemma x1_open : queue_open x1.
Proof. split_and!; done || by apply Nat.lt_0_succ. Qed.

(** A run of the failing analysis to its end. *)
Lemma fails_ends job : exists o, fails job o.
Proof. by exists None. Qed.

Lemma work_is_not_duplicated_witness :
  exists y, reachable succeeds x1 y /\ at_rest_sys y /\ NoDup (open_specs y) /\ open_specs y ⊆ open_specs x1.
Proof.
  destruct (finishes succeeds succeeds_ok (fun job => ex_intro _ _ eq_refl) x1 x1_ok x1_open ltac:(done))
    as (y & Hy & Hrest).
  exists y. split_and!; [done|done|..];
    apply (work_is_not_duplicated succeeds succeeds_ok x1 y x1_ok Hy); apply NoDup_singleton.
Defined.

Lemma failures_are_never_reported_witness :
  exists y, reachable fails x1 y /\ at_rest_sys y /\ reported_statuses (view (sy_state y)).
Proof.
  destruct (finishes fails fails_ok fails_ends x1 x1_ok x1_open ltac:(done)) as (y & Hy & Hrest).
  exists y. split_and!; [done|done|].
  apply (failures_are_never_reported fails fails_ok x1 y x1_ok); [|done].
  intros js st H. change ((∅ : gmap JobSpec Status) !! js = Some st) in H. by rewrite lookup_empty in H.
Defined.

Lemma settled_status_is_final_witness :
  exists y, step succeeds y1 y /\
    v_status (view (sy_state y)) !! aj_Spec job1 = Some StatusSucceeded.
Proof.
  eexists. assert (step succeeds y1 _) as H by by apply step_settle.
  split; [exact H|].
  by apply (settled_status_is_final succeeds succeeds_ok y1 _ _ result1 y1_ok (NoDup_singleton _) eq_refl H
    eq_refl (not_elem_of_nil _) (rtc_refl _ _)).
Defined.

Lemma runs_come_to_rest_witness :
  (0 <= sys_work x1)%nat /\ (exists z, reachable succeeds x1 z /\ at_rest_sys z) /\
  (stuck succeeds x1 <-> at_rest_sys x1).
Proof.
  apply (runs_come_to_rest succeeds succeeds_ok (fun job => ex_intro _ _ eq_refl) x1 x1 0);
    [apply x1_ok|apply x1_open|done|constructor].
Defined.

Lemma rest_leaves_no_work_behind_witness :
  exists y, reachable fails x1 y /\ at_rest_sys y /\
    (forall job, job ∈ to_add x1 -> job ∈ v_jobs (view (sy_state y)) (SessionID (aj_Spec job))).
Proof.
  destruct (finishes fails fails_ok fails_ends x1 x1_ok x1_open ltac:(done)) as (y & Hy & Hrest).
  exists y. split_and!; [done|done|].
  by apply (rest_leaves_no_work_behind fails fails_ok x1 y x1_ok).
Defined.

Lemma failed_job_never_finishes_witness :
  exists y, reachable fails x1 y /\ at_rest_sys y /\
    v_result (view (sy_state y)) !! aj_Spec job1 = None /\
    (forall st, v_status (view (sy_state y)) !! aj_Spec job1 = Some st ->
       st = StatusPending \/ st = StatusInProgress).
Proof.
  destruct (finishes fails fails_ok fails_ends x1 x1_ok x1_open ltac:(done)) as (y & Hy & Hrest).
  exists y. split; [done|]. split; [done|].
  apply (failed_job_never_finishes fails fails_ok (aj_Spec job1) x1 y x1_ok); try done. apply not_elem_of_nil.
Defined.

Lemma late_mark_hides_a_finished_job_witness :
  exists y, reachable succeeds x1 y /\ at_rest_sys y /\
    v_result (view (sy_state y)) !! aj_Spec job1 = Some result1 /\
    v_status (view (sy_state y)) !! aj_Spec job1 = Some StatusPending /\
    job1 ∈ v_jobs (view (sy_state y)) (SessionID (aj_Spec job1)).
Proof.
  apply (late_mark_hides_a_finished_job succeeds ls1 (MkLoc "1-packs" "mrvabucket") 1 "cpp"
    (MkNWO "o" "r") result1); try done.
  - apply (NewLocalState_wf 1). done.
  - by eexists.
  - apply not_elem_of_nil.
Defined.
