(* ===== verification/CodeqlExamples.v ===== *)
(** A small run of the analysis on which the properties of the CodeQL runner are
    instantiated: a stand-in for the [codeql] program writes a SARIF document
    with two results. *)
From S2P Require Import Prelude GoStrings GoUtf8 GoJson GoCodec GoPath GoOs GoWalk Archive Common.
From S2P Require Import Messages ArtifactStore State StateLocal StatePostgres QldbStore QldbLocal Agent Codeql CodeqlProps.
From S2P Require Import Examples.

#[local] Existing Instance text_service.
#[local] Existing Instance text_service_laws.

Definition env0 (name : string) : string := if String.eqb name "CODEQL_CLI_PATH" then "/codeql" else "".

Definition result_json : json := JObj [("ruleId", JStr "r")].
Definition sarif_json : json := JObj [("runs", JArr [JObj [("results", JArr [result_json; result_json])]])].

Definition exec0 (combined : bool) (argv : list string) : GM FS (gores string) :=
  match argv with
  | _ :: "database" :: "interpret-results" :: _ =>
      let! err := WriteFile "/tmp/id/results/results.sarif" (jprint sarif_json) in gret ("", err)
  | _ :: "resolve" :: "database" :: _ => gret (jprint (JObj [("sourceLocationPrefix", JStr "/src")]), None)
  | _ => gret ("", None)
  end.

Definition yaml0 (data : string) : error + DatabaseMetadata :=
  inr (MkDatabaseMetadata (Some (MkCreation (Some "abc") None))).
Definition unzip0 (bytes : string) : error + list ZipEntry :=
  inr [MkZip "db/codeql-database.yml" false None "" None; MkZip "db/src.zip" false None "" None].
Definition zip1 (entries : list (string * string)) : string := sconcat (map snd entries).

Lemma reported_count_is_archived_witness :
  exists r w', RunAnalysisJob (RunQuery env0 exec0 yaml0 unzip0 Some) (GenerateResultsZipArchive zip1)
      tgz_items "/tmp" "id" job1 aw0 = (Val (r, None), w') /\ ar_ResultCount r = 2 /\
    exists sarif, GetArtifact (ar_ResultLocation r) (ag_arts w') = (Val (zip1 [("results.sarif", sarif)], None), ag_arts w').
Proof.
  assert (exists r w', RunAnalysisJob (RunQuery env0 exec0 yaml0 unzip0 Some) (GenerateResultsZipArchive zip1)
      tgz_items "/tmp" "id" job1 aw0 = (Val (r, None), w') /\ ar_ResultCount r = 2)
    as (r & w' & H & Hn) by (do 2 eexists; split; vm_compute; reflexivity).
  exists r, w'. split; [exact H|]. split; [exact Hn|].
  destruct (reported_count_is_archived env0 exec0 yaml0 unzip0 zip1 Some tgz_items "/tmp" "id" job1 aw0 r w' H)
    as (sarif & _ & Hget).
  exists sarif. exact Hget.
Defined.

(** Two databases: the walk does not stop at the first. *)
Definition two_dbs : FS :=
  MkFS {["/t/db"; "/t/db/a"; "/t/db/b"]}
    {["/t/db/a/codeql-database.yml" := ""; "/t/db/a/src.zip" := "";
      "/t/db/b/codeql-database.yml" := ""; "/t/db/b/src.zip" := ""]} (fun _ => None) 0.

Lemma findDBDir_spec_witness :
  exists fs', findDBDir "/t/db" two_dbs = (Val ("/t/db/b", None), fs') /\
    last_found two_dbs (tree two_dbs (Clean "/t/db")) "/t/db/b".
Proof.
  destruct (findDBDir_spec "/t/db" two_dbs) as (d & err & fs' & H & _ & Hd).
  - reflexivity.
  - intros d Hd. unfold two_dbs in Hd. cbn in Hd. set_solver.
  - assert (fst (findDBDir "/t/db" two_dbs) = Val ("/t/db/b", None)) as Hv by (vm_compute; reflexivity).
    rewrite H in Hv. cbn in Hv. injection Hv as -> ->. exists fs'. split; [exact H|exact (proj1 Hd)].
Defined.

Lemma sarif_gets_no_provenance_witness :
  rewrite_sarif env0 Some "cpp" "abc" (jprint sarif_json) = Some (jindent 0 sarif_json).
Proof.
  apply (sarif_gets_no_provenance env0 Some "cpp" "abc" (jprint sarif_json)
           [("runs", JArr [JObj [("results", JArr [result_json; result_json])]])] sarif_json).
  - vm_compute. reflexivity.
  - intros [H|[]]. discriminate H.
  - vm_compute. reflexivity.
Defined.
