(* ===== verification/MinIOExamples.v ===== *)
(** A small object store that keeps what the laws of the client promise, and a
    session in it with a result of three billion bytes. *)
From S2P Require Import Prelude GoStrings GoUtf8 GoJson GoCodec GoBase64 GoPath GoOs Archive Common.
From S2P Require Import Messages Http ArtifactStore StoreMinIO State StateLocal StatePostgres QldbStore.
From S2P Require Import QldbLocal Hepc Server ServerSpec ServerProps ServerMinIO Examples.

#[local] Existing Instance text_service.
#[local] Existing Instance text_service_laws.

(** An object: its bytes, or a number of zero digits. *)
Inductive stored := Bytes (data : string) | Zeros (count : N).

Definition content (o : stored) : string :=
  match o with Bytes data => data | Zeros count => sconcat (replicate (N.to_nat count) "0") end.
Definition size_of (o : stored) : Z :=
  match o with Bytes data => slen data | Zeros count => Z.of_N count end.

Lemma size_of_content o : size_of o = slen (content o).
Proof.
  destruct o as [data|count]; [done|]. cbn [size_of content]. rewrite <- (N2Nat.id count) at 1.
  induction (N.to_nat count) as [|k IH]; [done|]. unfold slen in *. cbn [replicate sconcat].
  rewrite string_length_app. cbn [String.length]. lia.
Qed.

Notation Objects := (gmap (string * string) stored).

#[export] Instance objects_client : ObjectClient Objects := {|
  Object := stored;
  BucketExists := fun _ => gret (true, None);
  MakeBucket := fun _ => gret None;
  GetObject := fun b k c => (Val (match c !! (b, k) with Some o => inr o | None => inl (EExt "NoSuchKey") end), c);
  ReadAll := fun o => gret (content o, None);
  StatObject := fun b k c =>
    (Val (match c !! (b, k) with Some o => (size_of o, None) | None => (0, Some (EExt "NoSuchKey")) end), c);
  PutObject := fun b k d _ c => (Val None, <[(b, k) := Bytes d]> c) |}.

Lemma fetch_objects (b k : string) (c : Objects) :
  fetch b k c = (Val (match c !! (b, k) with Some o => (content o, None) | None => ("", Some (EExt "NoSuchKey")) end), c).
Proof. unfold fetch, gbind. cbn [GetObject objects_client]. by destruct (c !! (b, k)). Qed.

#[export] Instance objects_laws : ObjectClientLaws Objects.
Proof.
  constructor; intros *; rewrite ?fetch_objects; cbn [fst snd]; try done.
  - by eexists.
  - cbn [PutObject objects_client]. intros [= <-]. by rewrite lookup_insert_eq.
  - cbn [PutObject objects_client]. intros [= _ <-] Hne. by rewrite lookup_insert_ne.
  - cbn. destruct (c !! (b, k)) as [o|]; [|done]. intros [= <-] [= <-]. apply size_of_content.
Qed.

Definition big_arts : MinIOArtifactStore Objects :=
  MkMinIO {[(AF_BUCKETNAME_RESULTS, result_key js1) := Zeros 3000000000]} AF_BUCKETNAME_PACKS AF_BUCKETNAME_RESULTS.
Definition big_world : World PGState (MinIOArtifactStore Objects) FilesystemCodeQLDatabaseStore :=
  MkWorld finished_state big_arts (w_db w0) [] fresh_writer 0.

Lemma oversized_result_hides_session_witness :
  exists s' e, MRVAStatusCommon "o" "r" "1" big_world =
    (Val tt, with_resp (http_error (CErr e) StatusUnprocessableEntity fresh_writer) (with_state s' big_world)).
Proof.
  destruct finished_lookups as (Hs & Hr & Hi).
  assert (client big_arts !! (AF_BUCKETNAME_RESULTS, result_key js1) = Some (Zeros 3000000000)) as Hobj
    by apply lookup_singleton_eq.
  destruct (oversized_result_hides_session 0 big_world "1" "o" "r" 1 ji1 (job_of loc0 1 "cpp" o_r) ar1 3000000000
    (content (Zeros 3000000000))) as [H _].
  - reflexivity.
  - change (view (w_state big_world)) with (pg_view finished_state). rewrite finished_job. by apply finished_view.
  - done.
  - change (view (w_state big_world)) with (pg_view finished_state). rewrite finished_job.
    constructor; [|constructor]. split; [done|]. split; [exact Hi|]. split; [done|].
    exists StatusSucceeded. split; [exact Hs|]. intros _. exists ar1. do 2 eexists. split; [exact Hr|]. reflexivity.
  - change (view (w_state big_world)) with (pg_view finished_state). rewrite finished_job. left.
  - exact Hs.
  - exact Hr.
  - rewrite fetch_objects. cbn [fst]. change (client (w_arts big_world)) with (client big_arts). change (ar_ResultLocation ar1) with (MkLoc (result_key js1) AF_BUCKETNAME_RESULTS). cbn [Bucket Key]. by rewrite Hobj.
  - cbn [StatObject objects_client fst]. change (client (w_arts big_world)) with (client big_arts). change (ar_ResultLocation ar1) with (MkLoc (result_key js1) AF_BUCKETNAME_RESULTS). cbn [Bucket Key]. by rewrite Hobj.
  - rewrite <- size_of_content. done.
  - destruct H as (s' & e & H). exists s', e. exact H.
Defined.
