(* ===== verification/RabbitExamples.v ===== *)
(** A small broker: named queues in memory, whether the channels live, and the
    addresses that were dialed.  Asking
    a channel that does not for anything is an error; so is, with a nil channel, a
    panic of the client. *)
From S2P Require Import Prelude GoStrings GoUtf8 GoJson GoCodec Common Messages Queue QueueRabbit QueueRabbitProps.

Record Net : Type := MkNet {
  net_queues : gmap string (list string); net_alive : bool; net_dialed : list string
}.

Definition waiting (n : Net) (q : string) : list string := default [] (net_queues n !! q).
Definition put_queue (q : string) (msgs : list string) (n : Net) : Net :=
  MkNet (<[q := msgs]> (net_queues n)) (net_alive n) (net_dialed n).

Definition closed_error : error := EExt "channel/connection is not open".

Definition call {A} (ch : option unit) (down : A) (m : GM Net A) : GM Net A := fun n =>
  match ch with
  | None => (Panic "nil channel", n)
  | Some _ => if net_alive n then m n else (Val down, n)
  end.

#[export] Instance net_amqp : Amqp Net := {|
  Connection := unit; AmqpChannel := unit; Delivery := unit; Confirmations := unit;
  Dial := fun url n => (Val (inr tt), MkNet (net_queues n) (net_alive n) (net_dialed n ++ [url]));
  IsClosed := fun _ => gret false;
  CloseConnection := fun _ => gret None;
  OpenChannel := fun _ n => (Val (inr tt), MkNet (net_queues n) true (net_dialed n));
  CloseChannel := fun _ => gret None;
  QueueDeclare := fun _ q n => (Val None, put_queue q (waiting n q) n);
  Qos := fun _ => gret None;
  Get := fun ch q => call ch (inl closed_error) (fun n =>
    match waiting n q with
    | [] => (Val (inr None), n)
    | body :: rest => (Val (inr (Some (body, tt))), put_queue q rest n)
    end);
  Ack := fun _ => gret None;
  Nack := fun _ => gret None;
  Confirm := fun ch => call ch (Some closed_error) (gret None);
  NotifyPublish := fun ch _ => call ch tt (gret tt);
  PublishWithContext := fun ch q body => call ch (Some closed_error) (fun n =>
    (Val None, put_queue q (waiting n q ++ [body]) n));
  Await := fun _ => gget (fun n => Done (net_alive n)) |}.

#[export, refine] Instance net_laws : BrokerLaws Net := {|
  usable := fun _ _ n => net_alive n = true;
  ready := waiting;
  outstanding := fun _ _ => True; notified := fun _ _ _ => True; confirmed := fun _ _ => True |}.
Proof.
  - intros c ch n Hn. by exists n.
  - intros c ch q n body rest Hn Hr. exists tt, (put_queue q rest n). split_and!; [|done| |done].
    + cbn. by rewrite Hn, Hr.
    + unfold waiting, put_queue. cbn [net_queues]. by rewrite lookup_insert_eq.
  - intros msg n _. by exists None, n.
  - intros c ch n Hn. exists None, n. split; [|done]. cbn. by rewrite Hn.
  - intros c ch k n Hn. exists tt, n. split; [|done]. cbn. by rewrite Hn.
  - intros c ch cf q body n Hn _. exists None, (put_queue q (waiting n q ++ [body]) n). split_and!; [|done| |done].
    + cbn. by rewrite Hn.
    + unfold waiting, put_queue. cbn [net_queues]. by rewrite lookup_insert_eq.
  - intros cf n _. by exists (net_alive n), n.
Defined.

Definition rabbit_job (o : string) : AnalyzeJob := MkJob (MkJobSpec 1 (MkNWO o "r")) (MkLoc "1-packs" "b") "cpp".
Definition queue_up : RabbitMQQueue := MkRabbit (Some tt) (Some tt) "amqp://u:p@h:5672/".
Definition net_up : Net := MkNet ∅ true [].
Definition net_down : Net := MkNet ∅ false [].

Lemma published_jobs_are_consumed_witness :
  exists w1 w2,
    PublishJobs jobsQueueName [rabbit_job "a"; rabbit_job "b"] (MkRW queue_up net_up [] [])
      = (Val (Done tt), MkRW queue_up w1 [] []) /\
    ConsumeJobs jobsQueueName 2 (MkRW queue_up w1 [] [])
      = (Val tt, MkRW queue_up w2 [rabbit_job "a"; rabbit_job "b"] []).
Proof.
  destruct (published_jobs_are_consumed queue_up queue_up [rabbit_job "a"; rabbit_job "b"] net_up)
    as (w1 & w2 & H1 & H2 & _).
  - by exists tt, tt.
  - by exists tt, tt.
  - reflexivity.
  - repeat constructor; cbn; unfold min_int, max_int; try done; lia.
  - exists w1, w2. split; [exact H1|exact H2].
Defined.

Lemma net_dead_get (w : Net) q :
  net_alive w = false -> exists e w', Get (Some tt) q w = (Val (inl e), w') /\ net_alive w' = false.
Proof. intros Hw. exists closed_error, w. split; [|done]. cbn. by rewrite Hw. Qed.

